(* ===== verification/_CoqProject ===== *)
-Q . S2P
Prelude.v
Checksum.v
Buffer.v
Ethernet.v
Arp.v
Ipv4.v
Udp.v
Icmp.v
Dhcp.v
Queue.v
Device.v
Handler.v
HandlerSpec.v
HandlerTrace.v
HandlerTypes.v
HandlerFrames.v
Regs.v
Pci.v
E1000.v
E1000Rx.v
E1000Tx.v
E1000Init.v
Register.v
E1000Frame.v
E1000Safe.v
Board.v
Kernel.v
KernelSpec.v
Rng.v
Memory.v
Vga.v
Acpi.v
AcpiSpec.v
Aml.v
Gdt.v
Interrupts.v
Logging.v
Video.v
NetApi.v
PingTask.v
Tetris.v
NetSetup.v
NetCards.v
NetSetupSpec.v
Hardware.v
Entry.v
Os.v
OsSpec.v
OsNetwork.v
OsBoot.v
Boot.v
