(* ===== verification/Prelude.v ===== *)
(** * A verification of the rucoonos kernel

    rucoonos is a small operating system in Rust: a cooperative scheduler, an
    E1000 network driver with a network stack above it, and the hardware
    support both need.  This library models the program as executable
    functions and proves what makes its parts correct.

    ** The program

    [Hardware::init] (src/src/hardware.rs) brings the machine up: descriptor
    tables and interrupts, the ACPI root table, the heap, the PCI bus.
    [Kernel] (src/kernel) then runs tasks: a task is a future and an id, a
    waker puts the id of its task in the run queue, and the run loop polls the
    task whose id it takes from there.  Extensions set the machine up further
    and return a task: the logger, and networking.  The network extension
    finds the E1000 cards, gives each a driver, and installs the network
    interrupt.  The interrupt handler moves received frames from the card's
    ring to the queue of the handler task and packets from the device's queue
    to the card.  The handler task ([network_handler]) parses frames, runs a
    DHCP client per device, answers ARP, and serves the requests that tasks
    make through the API ([get_mac], [raw_ping]); the [ping] task of main.rs
    is such a client.

    ** Files and sources

    Protocols (src/src/extensions/networking/protocols):
    - [Checksum]: the Internet checksum as RFC 1071 defines it;
    - [Buffer], [Ethernet], [Arp], [Ipv4], [Udp], [Icmp], [Dhcp]: one file per
      Rust module, its packets as records over the bytes of a buffer, its
      accessors, typed builders ([finish]) and parsers, and their round trips.
    Network stack:
    - [Device]: hardware/device.rs and protocols.rs, the state of a device,
      the DHCP exchange and the ARP table;
    - [Handler], [HandlerSpec]: networking/handler.rs, every message handler
      over a [World] of shared cells and queues, and what it guarantees;
    - [HandlerTrace]: the handler does not look at its own trace;
      [HandlerTypes]: its data stay within their Rust types;
      [HandlerFrames]: the frames it sends, by a reference function;
    - [NetApi]: networking/api.rs, futures as states with a [poll];
    - [PingTask]: the ping task of main.rs, composed with API and handler.
    E1000 driver (src/src/hardware/device):
    - [Regs], [Register]: e1000/regs.rs, the contents of the registers and the
      typed access to them; [E1000]: e1000.rs, coms.rs and descriptors.rs, the
      whole driver over a [Machine] (registers, rings, boxes on the raw heap);
    - [E1000Rx], [E1000Tx]: the receive, transmit and reclaim loops;
    - [E1000Init]: set-up; [E1000Frame]: what each operation leaves alone;
    - [E1000Safe]: driver and card as a transition system, and its invariant;
    - [Board], [NetSetup], [NetCards], [NetSetupSpec]: EEPROM and MAC address,
      [E1000Driver::new], [NetworkExtension::setup], networking/interrupt.rs
      with any number of cards.
    Kernel: [Kernel], [KernelSpec] (src/kernel/src), the wakers as boxes by
    address, the run loop round by round and as a step relation, whose steps
    the code's [add_task] and rounds are shown to be made of.
    Hardware support: [Pci] (pci.rs), [Rng] (rng.rs), [Memory] (memory.rs,
    allocator.rs), [Acpi], [AcpiSpec] (acpi.rs, acpi/), [Aml] (acpi/acpi/aml.rs),
    [Gdt] (gdt.rs), [Interrupts] (interrupts.rs, keyboard.rs, timer.rs), [Vga]
    (vga.rs), [Video] (video.rs), [Logging] (extensions/logging), [Hardware]
    (hardware.rs, composing the others), [Entry] (lib.rs: [init], the test
    runner, leaving the emulator).
    Tasks and tools: [Tetris] (the tetris task of main.rs, on [Video]), [Boot]
    (boot/src/main.rs, the runner on the host).
    The whole system: [Os] puts the parts together in one state: the machine,
    the cards and the statics of the network extension, the log subscriber and
    the wakers parked at queues.  It has [kernel_main], the polls of the three
    tasks on the kernel's run loop, and the interrupts (network, timer,
    keyboard, exceptions) with whom they wake.  [OsSpec]: what every step of
    the system keeps; [OsNetwork]: the network task against the handler;
    [OsBoot]: the run from power-on.
    Shared: [Prelude], outcomes, integers, slices and byte lists; [Queue], the
    state monad, its inversion tactics and the interface of queues.

    ** How code is modelled

    A Rust computation is an [outcome]: it returns, panics with a reason, or
    has not ended within its fuel; [Undefined] marks unsafe code outside its
    contract (a freed pointer, a read past an allocation).  Stateful code is
    in the monad [M S], a function from a state to an outcome of state and
    result; [zoom] runs a part's operation on the part, [stays] and [ensures]
    say what a computation changes at most and what it keeps.  Integers are
    [Z], kept at their width by [add_w], [cast] and the like; the class [Build]
    says whether overflow panics (debug) or wraps (release), and theorems hold
    for both unless they say otherwise.  Slices are lists with Rust's range
    checks.  A future is its state and a [poll];
    a waker is what it wakes.

    Code outside the repository is a parameter with the laws it documents,
    each with an instance: queues of nolock ([QueueOps], [QueueLaws]), I/O
    ports ([PortOps], [PciHost]), card registers ([Mmio], [RegLaws]), the EEPROM
    ([Eeprom], [Board]), page tables ([PageTable]), interrupt descriptor
    tables ([Idt]), segment tables ([SegmentOps]), [yield_now] ([Yield]), the
    cell in which a queue keeps the waker of its receiver ([WakerCell]), the
    timer's sleeping tasks ([TimerOps]) and sleeping futures ([Sleep]), the
    host of the runner ([HostOps]), address translation, the polls of tasks
    where only the scheduler is at stake, the boot information, and the calls
    that tracing makes.

    ** What is proved

    - The system (C1 to C4): from power-on [kernel_main] gets to its run loop
      with its three tasks; from there, in every interleaving of kernel
      rounds, interrupts and card activity, no wake-up and no task is lost,
      and what waits for the handler is taken within a bounded number of
      rounds; a poll of the network task does exactly what the handler's loop
      does, so what is proved of the handler holds of the running system.
    - Network stack (C5 to C9, C20, C21): every run of the handler refines an
      abstract DHCP client that sees exactly the messages addressed to its
      device; the exchange completes and changes nothing else; resolving an
      address and pinging work from the API through the handler to the frames
      on every device and back; the ping task pings for ever, one ping at a
      time; for any messages, each device sends exactly the frames a reference
      function prescribes.
    - Driver (C10 to C15, C22): set-up establishes an invariant that every
      interleaving of interrupts, sends and card activity keeps, so no
      interrupt panics, frees twice or reads past a buffer; the loops do
      exactly their work and end, whatever the state of the slots they meet;
      all of it with any number of cards, each of which an interrupt serves.
    - Kernel (C16, C17): invariants under interleaving, and that the future of
      an added task is polled, after the ids queued before it.
    - Protocols (C18, C19, C23 to C26, C28): building and parsing are inverse,
      checksums verify, and exactly where they do not.
    - Hardware (C27, C29 to C40): the PCI scan, installing interrupts,
      logging, drawing and the bands of the tetris task, bringing the machine
      up with a stack for double faults, the text screen, the heap, ACPI
      tables, the recurrences of the random numbers, registers.
    Witnesses apply the theorems at concrete inputs; errors of the code that
    the proofs showed are stated as theorems about what the code does.

    ** Fuel

    A loop that is not structural takes fuel, and a theorem shows that the
    fuel given is enough: the receive loop S 32 (each round clears one of 32
    descriptors), the reclaim loop S 8 (once around the ring), an EEPROM read
    more than the board's delay, draining the new tasks one more than there
    are, the ACPI iterators one more than the entries of the table, the ping task
    three [await]s per poll, AML one more than the bytes, a poll of the network
    or logger task one more than the messages of its queue, the tetris task one
    round per poll.

    ** Not modelled

    serial.rs formats text onto a port of the uart_16550 crate, and futures.rs
    is one call of the rucoon crate.  The formatting of what is printed is left
    out; what is printed is kept as data.  A panic is an outcome, so what the
    panic handlers print before they halt is not kept, except by the runner of
    the tests.  Code that the source comments out or guards by a constant
    [false] is left out, and so are src/tests, which are tests.

    ** Plan

    Next: from the handler's queue on, that the frames it answers with leave
    the card; the uart of serial.rs as a console of bytes. *)

From stdpp Require Import base tactics option list gmap strings numbers.
From Stdlib Require Import ZArith Lia.

Local Open Scope Z_scope.

(** ** Outcomes of Rust code

    A Rust computation either returns, panics (the kernel's panic handler
    prints and halts, so nothing is observable afterwards), or, where the
    model runs a loop with fuel, has not returned within that fuel. *)

Inductive panic : Set :=
  | IndexOutOfBounds     (** [s[i]] with [i >= s.len()] *)
  | SliceOutOfRange      (** [s[a..b]] with [a > b] or [b > s.len()] *)
  | CopyLengthMismatch   (** [copy_from_slice] of a slice of another length *)
  | ArithOverflow        (** [+], [-] or [*] out of range, overflow checks on *)
  | UnwrapFailed         (** [unwrap]/[expect] of [None] or [Err] *)
  | AssertFailed         (** [assert_eq!] *)
  | Todo                 (** [todo!] *)
  | Unreachable          (** [unreachable!] *)
  | Explicit             (** [panic!] *)
  | Undefined.           (** unsafe code used outside its contract: not a panic, nothing is
                             known of what follows *)

Inductive outcome (A : Type) : Type :=
  | Done (a : A)
  | Panicked (why : panic)
  | OutOfFuel.
Arguments Done {A} _.
Arguments Panicked {A} _.
Arguments OutOfFuel {A}.

(** Rust's [Result<T, E>]. *)
Inductive result (T E : Type) : Type :=
  | Ok (t : T)
  | Err (e : E).
Arguments Ok {T E} _.
Arguments Err {T E} _.

#[export] Instance panic_eq_dec : EqDecision panic.
Proof. solve_decision. Defined.
#[export] Instance outcome_eq_dec {A} `{EqDecision A} : EqDecision (outcome A).
Proof. solve_decision. Defined.
#[export] Instance result_eq_dec {T E} `{EqDecision T, EqDecision E} : EqDecision (result T E).
Proof. solve_decision. Defined.

#[export] Instance outcome_ret : MRet outcome := fun A a => Done a.
#[export] Instance outcome_bind : MBind outcome := fun A B f m =>
  match m with
  | Done a => f a
  | Panicked why => Panicked why
  | OutOfFuel => OutOfFuel
  end.

(** The [?] operator on a [Result] inside an outcome. *)
Definition try_bind {A B E} (m : outcome (result A E)) (f : A → outcome (result B E)) :
    outcome (result B E) :=
  r ← m; match r with Ok a => f a | Err e => Done (Err e) end.

Declare Scope rust_scope.
Delimit Scope rust_scope with rust.
Notation "x '<-?' m ; k" := (try_bind m (fun x => k))
  (at level 20, m at level 100, k at level 200, only parsing) : rust_scope.
Open Scope rust_scope.

(** [Option::unwrap], [Result::unwrap]. *)
Definition unwrap {A} (o : option A) : outcome A :=
  match o with Some a => Done a | None => Panicked UnwrapFailed end.
Definition unwrap_result {A E} (r : result A E) : outcome A :=
  match r with Ok a => Done a | Err _ => Panicked UnwrapFailed end.

(** [assert_eq!]. *)
Definition assert_eq (a b : Z) : outcome unit :=
  if a =? b then Done tt else Panicked AssertFailed.

Definition returns {A} (m : outcome A) : Prop := ∃ a, m = Done a.
Definition panics {A} (m : outcome A) : Prop := ∃ why, m = Panicked why.

Lemma bind_done {A B} (m : outcome A) (f : A → outcome B) b :
  (x ← m; f x) = Done b ↔ ∃ a, m = Done a ∧ f a = Done b.
Proof. destruct m; simpl; naive_solver. Qed.

Lemma bind_Done_l {A B} (a : A) (f : A → outcome B) : (x ← Done a; f x) = f a.
Proof. reflexivity. Qed.

Lemma outcome_bind_assoc {A B C} (m : outcome A) (f : A → outcome B) (g : B → outcome C) :
  (y ← (x ← m; f x); g y) = (x ← m; y ← f x; g y).
Proof. by destruct m. Qed.

(** ** Machine integers

    A [u8], [u16], [u32], [u64] or [usize] (64 bits on the target) is a [Z]
    within its width.  The build profile decides what an overflowing
    operator does: a panic with overflow checks, wrap-around without. *)

Class Build := overflow_checks : bool.
Definition debug_build : Build := true.
Definition release_build : Build := false.

Definition uint (w v : Z) : Prop := 0 ≤ v < 2 ^ w.
Abbreviation byte := (uint 8).

#[export] Instance uint_dec w v : Decision (uint w v).
Proof. unfold uint. apply _. Defined.

(** The value of an arithmetic operator whose mathematical result is [z]. *)
Definition arith {B : Build} (w z : Z) : outcome Z :=
  if (0 <=? z) && (z <? 2 ^ w) then Done z
  else if overflow_checks then Panicked ArithOverflow
  else Done (z mod 2 ^ w).

Definition add_w {B : Build} (w a b : Z) : outcome Z := arith w (a + b).
Definition sub_w {B : Build} (w a b : Z) : outcome Z := arith w (a - b).
Definition mul_w {B : Build} (w a b : Z) : outcome Z := arith w (a * b).

(** [as] casts truncate, [<<] drops the bits shifted out, [!] flips [w] bits. *)
Definition cast (w z : Z) : Z := z mod 2 ^ w.
Definition shl_w (w a n : Z) : Z := cast w (Z.shiftl a n).
Definition not_w (w a : Z) : Z := 2 ^ w - 1 - a.

Lemma arith_in {B : Build} w z : uint w z → arith w z = Done z.
Proof.
  unfold uint, arith. intros [H1 H2].
  apply Z.leb_le in H1 as ->. by apply Z.ltb_lt in H2 as ->.
Qed.

Lemma arith_out {B : Build} w z :
  ¬ uint w z → arith w z = if overflow_checks then Panicked ArithOverflow else Done (z mod 2 ^ w).
Proof.
  unfold uint, arith. intros H.
  destruct (0 <=? z) eqn:E1, (z <? 2 ^ w) eqn:E2; try done. exfalso; lia.
Qed.

Lemma cast_small w z : uint w z → cast w z = z.
Proof. intros. by apply Z.mod_small. Qed.

Lemma cast_uint w z : 0 ≤ w → uint w (cast w z).
Proof. intros. apply Z.mod_pos_bound. lia. Qed.

Lemma arith_uint {B : Build} w z v : 0 ≤ w → arith w z = Done v → uint w v.
Proof.
  intros Hw. unfold arith. case_match eqn:E.
  - apply andb_true_iff in E as [? ?]. intros [= <-]. unfold uint. lia.
  - case_match; [done |]. intros [= <-]. by apply cast_uint.
Qed.

(** Bit operations stay within the width. *)
Lemma uint_testbit w v n : uint w v → 0 ≤ w ≤ n → Z.testbit v n = false.
Proof.
  intros Hv Hn. rewrite <- (Z.mod_small v (2 ^ w)) by apply Hv.
  by apply Z.mod_pow2_bits_high.
Qed.

Lemma uint_of_bits w v :
  0 ≤ w → 0 ≤ v → (∀ n, w ≤ n → Z.testbit v n = false) → uint w v.
Proof.
  intros Hw Hv Hb. assert (v = v mod 2 ^ w) as ->; [| by apply cast_uint].
  apply Z.bits_inj'. intros n Hn. destruct (decide (w ≤ n)).
  - rewrite Z.mod_pow2_bits_high by lia. by apply Hb.
  - by rewrite Z.mod_pow2_bits_low by lia.
Qed.

Lemma uint_lor w a b : 0 ≤ w → uint w a → uint w b → uint w (Z.lor a b).
Proof.
  intros Hw Ha Hb. apply uint_of_bits; [done | |].
  - apply Z.lor_nonneg. split; [apply Ha | apply Hb].
  - intros n Hn. by rewrite Z.lor_spec, (uint_testbit w a), (uint_testbit w b).
Qed.

Lemma uint_land w a m : 0 ≤ w → uint w m → uint w (Z.land a m).
Proof.
  intros Hw Hm. apply uint_of_bits; [done | |].
  - apply Z.land_nonneg. right. apply Hm.
  - intros n Hn. by rewrite Z.land_spec, (uint_testbit w m), andb_false_r.
Qed.

Lemma uint_lxor w a b : 0 ≤ w → uint w a → uint w b → uint w (Z.lxor a b).
Proof.
  intros Hw Ha Hb. apply uint_of_bits; [done | |].
  - apply Z.lxor_nonneg. split; intros _; [apply Hb | apply Ha].
  - intros n Hn. by rewrite Z.lxor_spec, (uint_testbit w a), (uint_testbit w b).
Qed.

Lemma uint_shiftr w a n : 0 ≤ w → 0 ≤ n → uint w a → uint w (Z.shiftr a n).
Proof.
  intros Hw Hn Ha. apply uint_of_bits; [done | |].
  - apply Z.shiftr_nonneg. apply Ha.
  - intros k Hk. rewrite Z.shiftr_spec by lia. apply (uint_testbit w); [done | lia].
Qed.

Lemma uint_shl w a n : 0 ≤ w → uint w (shl_w w a n).
Proof. by apply cast_uint. Qed.

Lemma byte_mod a : byte (a mod 256).
Proof. by apply (cast_uint 8). Qed.

(** ** Slices

    A slice or array of integers is a list of [Z]; indices are [usize]s. *)

Abbreviation bytes := (Forall byte).

Section slices.
Context {T : Type}.
Implicit Types s p q src : list T.

Definition len (s : list T) : Z := Z.of_nat (length s).

(** [s[i]] *)
Definition index (s : list T) (i : Z) : outcome T :=
  if 0 <=? i then match s !! Z.to_nat i with Some v => Done v | None => Panicked IndexOutOfBounds end
  else Panicked IndexOutOfBounds.

(** The elements of [s[a..b]], for a range inside [s]. *)
Definition sub (s : list T) (a b : Z) : list T :=
  take (Z.to_nat (b - a)) (drop (Z.to_nat a) s).

Definition in_range (s : list T) (a b : Z) : bool :=
  (0 <=? a) && (a <=? b) && (b <=? len s).

(** [&s[a..b]] *)
Definition slice (s : list T) (a b : Z) : outcome (list T) :=
  if in_range s a b then Done (sub s a b) else Panicked SliceOutOfRange.

(** [&s[a..]] *)
Definition slice_from (s : list T) (a : Z) : outcome (list T) := slice s a (len s).

(** [s[i] = v] *)
Definition write_at (s : list T) (i : Z) (v : T) : outcome (list T) :=
  if (0 <=? i) && (i <? len s) then Done (<[Z.to_nat i := v]> s)
  else Panicked IndexOutOfBounds.

(** [s] with the elements from [a] on replaced by those of [src]. *)
Definition splice (s : list T) (a : Z) (src : list T) : list T :=
  take (Z.to_nat a) s ++ src ++ drop (Z.to_nat a + length src) s.

(** [(&mut s[a..b]).copy_from_slice(src)] *)
Definition copy_into (s : list T) (a b : Z) (src : list T) : outcome (list T) :=
  if in_range s a b then
    if len src =? b - a then Done (splice s a src) else Panicked CopyLengthMismatch
  else Panicked SliceOutOfRange.

(** [f(&mut s[a..b])] for a function that may update the slice it is given
    and returns an [R]; a Rust function cannot change the slice's length. *)
Definition with_slice {R} (s : list T) (a b : Z) (f : list T → outcome (list T * R)) :
    outcome (list T * R) :=
  t ← slice s a b;
  r ← f t;
  Done (splice s a r.1, r.2).

(** [s.try_into::<[T; n]>().unwrap()] *)
Definition to_array (n : nat) (s : list T) : outcome (list T) :=
  if decide (length s = n) then Done s else Panicked UnwrapFailed.

Lemma in_range_spec s a b : in_range s a b = true ↔ 0 ≤ a ≤ b ∧ b ≤ len s.
Proof. unfold in_range. rewrite !andb_true_iff, !Z.leb_le. lia. Qed.

Lemma len_app s p : len (s ++ p) = len s + len p.
Proof. unfold len. rewrite length_app. lia. Qed.

Lemma len_nonneg s : 0 ≤ len s.
Proof. unfold len. lia. Qed.

Lemma slice_ok s a b : 0 ≤ a ≤ b → b ≤ len s → slice s a b = Done (sub s a b).
Proof. intros. unfold slice. by rewrite (proj2 (in_range_spec s a b)). Qed.

Lemma slice_done s a b t :
  slice s a b = Done t ↔ (0 ≤ a ≤ b ∧ b ≤ len s) ∧ t = sub s a b.
Proof.
  unfold slice. rewrite <- in_range_spec. destruct (in_range s a b); naive_solver.
Qed.

Lemma slice_bad s a b : ¬ (0 ≤ a ≤ b ∧ b ≤ len s) → slice s a b = Panicked SliceOutOfRange.
Proof. rewrite <- in_range_spec. unfold slice. by destruct (in_range s a b). Qed.

Lemma length_sub s a b :
  0 ≤ a ≤ b → b ≤ len s → length (sub s a b) = Z.to_nat (b - a).
Proof. unfold sub, len. intros. rewrite length_take, length_drop. lia. Qed.

Lemma sub_all s : sub s 0 (len s) = s.
Proof. unfold sub, len. rewrite drop_0, firstn_all2; [done | lia]. Qed.

Lemma sub_app_mid p s q a b :
  a = len p → b = a + len s → sub (p ++ s ++ q) a b = s.
Proof.
  unfold len, sub. intros -> ->.
  replace (Z.to_nat (_ + _ - _)) with (length s) by lia.
  by rewrite Nat2Z.id, drop_app_length, take_app_length.
Qed.

(** A range that lies past a prefix is a range of the rest. *)
Lemma sub_app_r p s a b : len p ≤ a → sub (p ++ s) a b = sub s (a - len p) (b - len p).
Proof.
  unfold sub, len. intros. rewrite drop_app_ge by lia.
  f_equal; [lia | f_equal; lia].
Qed.

Lemma sub_app_l p s a b : 0 ≤ a → b ≤ len p → sub (p ++ s) a b = sub p a b.
Proof.
  unfold sub, len. intros. destruct (decide (a ≤ b)).
  - rewrite drop_app_le by lia. rewrite take_app_le; [done |]. rewrite length_drop. lia.
  - by replace (Z.to_nat (b - a)) with 0%nat by lia.
Qed.

Lemma sub_sub s a b c d :
  0 ≤ a → 0 ≤ c → d ≤ b - a → sub (sub s a b) c d = sub s (a + c) (a + d).
Proof.
  unfold sub. intros. rewrite skipn_firstn_comm, drop_drop, take_take.
  f_equal; [lia | f_equal; lia].
Qed.

Lemma sub_to_end s a b : len s ≤ b → 0 ≤ a → sub s a b = drop (Z.to_nat a) s.
Proof. unfold sub, len. intros. apply take_ge. rewrite length_drop. lia. Qed.

Lemma index_ok s i v : 0 ≤ i → s !! Z.to_nat i = Some v → index s i = Done v.
Proof. unfold index. intros Hi ->. by apply Z.leb_le in Hi as ->. Qed.

Lemma index_bound s i v : index s i = Done v → 0 ≤ i < len s.
Proof.
  unfold index, len. case_match eqn:E; [| done].
  destruct (s !! Z.to_nat i) eqn:El; [| done]. intros _.
  apply lookup_lt_Some in El. lia.
Qed.

Lemma index_in s i : 0 ≤ i < len s → returns (index s i).
Proof.
  unfold index, len, returns. intros [? ?]. rewrite (proj2 (Z.leb_le 0 i)) by done.
  destruct (lookup_lt_is_Some_2 s (Z.to_nat i)) as [v ->]; [lia | eauto].
Qed.

Lemma index_oob s i : 0 ≤ i → len s ≤ i → index s i = Panicked IndexOutOfBounds.
Proof.
  unfold index, len. intros. rewrite (proj2 (Z.leb_le 0 i)) by done.
  by rewrite lookup_ge_None_2 by lia.
Qed.

Lemma length_splice s a src :
  0 ≤ a → a + len src ≤ len s → length (splice s a src) = length s.
Proof.
  unfold splice, len. intros. rewrite !length_app, length_take, length_drop. lia.
Qed.

Lemma splice_length s a b src s' :
  copy_into s a b src = Done s' → length s' = length s.
Proof.
  unfold copy_into. destruct (in_range s a b) eqn:E; [| done].
  apply in_range_spec in E. case_match eqn:El; [| done].
  intros [= <-]. apply length_splice; lia.
Qed.

Lemma write_at_length s i v s' : write_at s i v = Done s' → length s' = length s.
Proof. unfold write_at. case_match; [| done]. intros [= <-]. apply length_insert. Qed.

(** Writing past a prefix [p] whose rest is what a buffer [s] had there:
    the shape every sequential packet writer keeps its buffer in. *)
Lemma copy_next p s k a b src :
  a = len p → b = a + len src → (k + length src ≤ length s)%nat →
  copy_into (p ++ drop k s) a b src = Done ((p ++ src) ++ drop (k + length src) s).
Proof.
  intros -> -> Hk. unfold copy_into.
  rewrite (proj2 (in_range_spec _ _ _)); last first.
  { rewrite len_app. unfold len. rewrite length_drop. lia. }
  rewrite (proj2 (Z.eqb_eq _ _)) by lia.
  unfold splice, len. rewrite Nat2Z.id, take_app_length.
  rewrite drop_app_ge by lia.
  replace (length p + length src - length p)%nat with (length src) by lia.
  by rewrite drop_drop, <- app_assoc.
Qed.

Lemma write_next p s k i v :
  i = len p → (k < length s)%nat →
  write_at (p ++ drop k s) i v = Done ((p ++ [v]) ++ drop (S k) s).
Proof.
  intros -> Hk. unfold write_at. rewrite len_app.
  rewrite (proj2 (andb_true_iff _ _)); last first.
  { split; [by apply Z.leb_le, len_nonneg |]. apply Z.ltb_lt.
    unfold len. rewrite length_drop. lia. }
  unfold len. rewrite Nat2Z.id.
  destruct (drop k s) as [| x t] eqn:E.
  { apply (f_equal length) in E. rewrite length_drop in E. simpl in E. lia. }
  rewrite insert_app_r_alt by lia. rewrite Nat.sub_diag. simpl.
  rewrite <- app_assoc. simpl. do 2 f_equal.
  f_equal. rewrite <- Nat.add_1_r, <- drop_drop, E. done.
Qed.

(** Accesses to an element inside a prefix. *)
Lemma index_mid p v r q i : i = len p → index ((p ++ v :: r) ++ q) i = Done v.
Proof.
  intros ->. rewrite <- app_assoc. apply index_ok; [apply len_nonneg |].
  unfold len. by rewrite Nat2Z.id, lookup_app_r, Nat.sub_diag by lia.
Qed.

Lemma write_at_mid p v r q i w :
  i = len p → write_at ((p ++ v :: r) ++ q) i w = Done ((p ++ w :: r) ++ q).
Proof.
  intros ->. unfold write_at, len.
  rewrite (proj2 (andb_true_iff _ _))
    by (rewrite !length_app; simpl; split; [apply Z.leb_le | apply Z.ltb_lt]; lia).
  rewrite Nat2Z.id, <- !app_assoc, insert_app_r_alt, Nat.sub_diag by lia. done.
Qed.

(** Leaving a gap unwritten. *)
Lemma skip_gap p s k m :
  p ++ drop k s = (p ++ take m (drop k s)) ++ drop (k + m) s.
Proof. by rewrite <- app_assoc, <- drop_drop, take_drop. Qed.

(** Running a function on everything past a prefix. *)
Lemma with_slice_tail {R} p q a b (f : list T → outcome (list T * R)) :
  a = len p → b = len (p ++ q) →
  with_slice (p ++ q) a b f = (r ← f q; Done (splice (p ++ q) a r.1, r.2)).
Proof.
  intros -> ->. unfold with_slice. pose proof (len_nonneg p). pose proof (len_nonneg q).
  rewrite slice_ok by (rewrite ?len_app; lia). simpl.
  replace (sub (p ++ q) (len p) (len (p ++ q))) with q; [done |].
  rewrite sub_app_r, len_app by lia.
  replace (len p - len p) with 0 by lia. replace (len p + len q - len p) with (len q) by lia.
  by rewrite sub_all.
Qed.

Lemma splice_tail p q a t :
  a = len p → length t = length q → splice (p ++ q) a t = p ++ t.
Proof.
  intros -> Hl. unfold splice, len. rewrite Nat2Z.id, take_app_length.
  rewrite (drop_ge (p ++ q)) by (rewrite length_app; lia). by rewrite app_nil_r.
Qed.

(** Running a function on a prefix. *)
Lemma with_slice_head {R} s (n : nat) b (f : list T → outcome (list T * R)) t r :
  b = Z.of_nat n → (n ≤ length s)%nat →
  f (take n s) = Done (t, r) → length t = n →
  with_slice s 0 b f = Done (t ++ drop n s, r).
Proof.
  intros -> Hn Hf Ht. unfold with_slice. rewrite slice_ok by (unfold len; lia).
  unfold sub. rewrite drop_0, Z.sub_0_r, Nat2Z.id. simpl. rewrite Hf. simpl.
  unfold splice. by rewrite Ht.
Qed.

Lemma to_array_ok n s : length s = n → to_array n s = Done s.
Proof. intros. unfold to_array. by rewrite decide_True. Qed.

(** [&s[a..b]] as an array of [n] elements. *)
Lemma to_array_slice n s a b :
  0 ≤ a → b ≤ len s → b - a = Z.of_nat n →
  (t ← slice s a b; to_array n t) = Done (sub s a b).
Proof.
  intros. rewrite slice_ok by lia. simpl. apply to_array_ok.
  rewrite length_sub; lia.
Qed.

End slices.

(** The same, in a sequence of reads. *)
Lemma array_read_bind {T A} n (s : list T) a b (k : list T → outcome A) :
  0 ≤ a → b ≤ len s → b - a = Z.of_nat n →
  (t ← slice s a b; x ← to_array n t; k x) = k (sub s a b).
Proof.
  intros. rewrite slice_ok by lia. simpl. rewrite to_array_ok; [done |].
  rewrite length_sub; lia.
Qed.

(** ** Big-endian integers: [to_be_bytes] and [from_be_bytes] *)

Fixpoint to_be (n : nat) (v : Z) : list Z :=
  match n with
  | O => []
  | S k => (v / 2 ^ (8 * Z.of_nat k)) mod 256 :: to_be k v
  end.

Definition from_be (bs : list Z) : Z := fold_left (fun acc b => acc * 256 + b) bs 0.

Lemma length_to_be n v : length (to_be n v) = n.
Proof. induction n; simpl; auto. Qed.

Lemma to_be_bytes n v : bytes (to_be n v).
Proof.
  induction n; simpl; constructor; auto.
  change 256 with (2 ^ 8). by apply cast_uint.
Qed.

Lemma from_be_snoc bs b : from_be (bs ++ [b]) = from_be bs * 256 + b.
Proof. unfold from_be. by rewrite fold_left_app. Qed.

Lemma to_be_snoc n v : to_be (S n) v = to_be n (v / 256) ++ [v mod 256].
Proof.
  induction n as [| n IH]; simpl.
  - change (2 ^ (8 * 0)) with 1. by rewrite Z.div_1_r.
  - simpl in IH. rewrite IH. f_equal.
    rewrite Z.div_div by lia. f_equal. f_equal.
    change 256 with (2 ^ 8). rewrite <- Z.pow_add_r by lia. f_equal. lia.
Qed.

Lemma from_be_to_be n v : from_be (to_be n v) = cast (8 * Z.of_nat n) v.
Proof.
  unfold cast. revert v. induction n as [| n IH]; intros v.
  - simpl. rewrite Z.mod_1_r. done.
  - rewrite to_be_snoc, from_be_snoc, IH.
    replace (8 * Z.of_nat (S n)) with (8 + 8 * Z.of_nat n) by lia.
    rewrite Z.pow_add_r by lia. change (2 ^ 8) with 256.
    rewrite Z.rem_mul_r by lia. lia.
Qed.

Lemma to_be2 v : to_be 2 v = [(v / 256) mod 256; v mod 256].
Proof. simpl. change (2 ^ 8) with 256. change (2 ^ 0) with 1. by rewrite Z.div_1_r. Qed.

Lemma word_split v : uint 16 v → (v / 256) mod 256 * 256 + v mod 256 = v.
Proof.
  intros [H1 H2]. change (2 ^ 16) with 65536 in H2. pose proof (Z.div_mod v 256 ltac:(lia)) as E.
  rewrite (Z.mod_small (v / 256)); [lia |].
  split; [apply Z.div_pos | apply Z.div_lt_upper_bound]; lia.
Qed.

Lemma from_be_to_be2 v : uint 16 v → from_be (to_be 2 v) = v.
Proof. intros. rewrite from_be_to_be. by apply cast_small. Qed.

Lemma from_be_bound bs : bytes bs → uint (8 * len bs) (from_be bs).
Proof.
  induction bs as [| b bs IH] using rev_ind; intros H.
  - done.
  - apply Forall_app in H as [H1 H2]. apply IH in H1. apply (proj1 (Forall_singleton _ _)) in H2.
    rewrite from_be_snoc, len_app. unfold uint in *. change (len [b]) with 1.
    rewrite Z.mul_add_distr_l, Z.pow_add_r by (pose proof (len_nonneg bs); lia).
    change (2 ^ (8 * 1)) with 256. change (2 ^ 8) with 256 in H2. nia.
Qed.

Lemma to_be_from_be bs : bytes bs → to_be (length bs) (from_be bs) = bs.
Proof.
  induction bs as [| b bs IH] using rev_ind; intros H; [done |].
  apply Forall_app in H as [H1 H2]. apply (proj1 (Forall_singleton _ _)) in H2.
  unfold uint in H2. change (2 ^ 8) with 256 in H2.
  rewrite length_app, Nat.add_1_r, to_be_snoc, from_be_snoc.
  rewrite Z.div_add_l, Z.div_small, Z.add_0_r by lia.
  rewrite Z.add_comm, Z_mod_plus_full, Z.mod_small by lia.
  by rewrite IH.
Qed.

(** ** Well-formed byte strings under the slice operations *)

Lemma sub_bytes s a b : bytes s → bytes (sub s a b).
Proof. intros. unfold sub. by apply Forall_take, Forall_drop. Qed.

Lemma splice_bytes s a src : bytes s → bytes src → bytes (splice s a src).
Proof.
  intros. unfold splice. rewrite !Forall_app. auto using Forall_take, Forall_drop.
Qed.

Lemma index_bytes s i v : bytes s → index s i = Done v → byte v.
Proof.
  intros Hs. unfold index. case_match; [| done]. destruct (s !! _) eqn:E; [| done].
  intros [= <-]. by eapply Forall_lookup_1 in E.
Qed.

Lemma zeros_bytes n : bytes (replicate n 0).
Proof. apply Forall_replicate. done. Qed.

(** What a function given a [&mut [u8]] can do to it: change its bytes. *)
Definition keeps (s s' : list Z) : Prop := length s' = length s ∧ (bytes s → bytes s').

#[export] Instance keeps_preorder : PreOrder keeps.
Proof.
  split.
  - by intros s.
  - intros s1 s2 s3 [H1 H2] [H3 H4]. split; [congruence | auto].
Qed.

Lemma copy_into_keeps s a b src s' :
  bytes src → copy_into s a b src = Done s' → keeps s s'.
Proof.
  intros Hsrc H. split; [by eapply splice_length |].
  revert H. unfold copy_into. repeat case_match; try done.
  intros [= <-] ?. by apply splice_bytes.
Qed.

Lemma write_at_keeps s i v s' : byte v → write_at s i v = Done s' → keeps s s'.
Proof.
  intros Hv H. split; [by eapply write_at_length |].
  revert H. unfold write_at. case_match; [| done].
  intros [= <-] ?. by apply Forall_insert.
Qed.

Lemma with_slice_keeps {R} s a b (f : list Z → outcome (list Z * R)) s' r :
  (∀ t t' r, f t = Done (t', r) → keeps t t') →
  with_slice s a b f = Done (s', r) → keeps s s'.
Proof.
  intros Hf. unfold with_slice. intros H.
  apply bind_done in H as (t & Ht & H). apply bind_done in H as ([t' r'] & Hr & H).
  apply slice_done in Ht as [Hrange ->]. injection H as <- <-. simpl.
  apply Hf in Hr as [Hl Hb]. rewrite length_sub in Hl by lia. split.
  - apply length_splice; unfold len in *; lia.
  - intros Hs. apply splice_bytes; auto using sub_bytes.
Qed.

Lemma Forall2_and_l {A B} (P : A → Prop) (R : A → B → Prop) l k :
  Forall P l → Forall2 R l k → Forall2 (λ x y, P x ∧ R x y) l k.
Proof. intros HP HR. induction HR; inversion HP; subst; constructor; auto. Qed.

Lemma Forall2_both {A B} (R R' : A → B → Prop) l k :
  Forall2 R l k → Forall2 R' l k → Forall2 (λ x y, R x y ∧ R' x y) l k.
Proof. intros HR HR'. induction HR; inversion HR'; subst; constructor; auto. Qed.

Lemma insert_alter {A} (f : A → A) (l : list A) (i : nat) x : l !! i = Some x → <[i := f x]> l = alter f i l.
Proof. revert i. induction l as [| a l IH]; intros [| i] Hi; simplify_eq/=; [done |]. by rewrite IH. Qed.

(** ** Automation *)

(** Buffers of a thousand zeros are never unfolded by [simpl]. *)
#[global] Arguments replicate : simpl never.

Create HintDb rust discriminated.
#[export] Hint Resolve to_be_bytes sub_bytes splice_bytes zeros_bytes cast_uint
  uint_lor uint_land uint_lxor uint_shiftr uint_shl byte_mod : rust.
#[export] Hint Extern 5 (uint _ _) => unfold uint; lia : rust.
#[export] Hint Extern 5 (_ ≤ _) => lia : rust.
#[export] Hint Extern 5 (Forall _ (_ :: _)) => apply Forall_cons_2 : rust.
#[export] Hint Extern 5 (Forall _ []) => apply Forall_nil : rust.
#[export] Hint Rewrite @length_app @length_take @length_drop @length_replicate
  @length_insert length_to_be : lengths.

(** Goals about lengths and ranges. *)
Ltac len_lia :=
  unfold len, uint in *; autorewrite with lengths in *; simpl length in *; lia.

(** Run the next slice access of a computation whose bounds hold. *)
Ltac run_slice :=
  match goal with
  | |- context [slice ?s ?a ?b] => rewrite (slice_ok s a b) by len_lia
  | |- context [to_array ?n ?s] => rewrite (to_array_ok n s) by len_lia
  | |- context [slice_from ?s ?a] => unfold slice_from
  end; simpl.

(** Run a sequence of in-range array and index reads of an explicit list. *)
Ltac run_reads :=
  repeat first
    [ rewrite array_read_bind by len_lia
    | match goal with |- context [index ?s ?i] =>
        let v := eval vm_compute in (index s i) in
        change (index s i) with v; rewrite bind_Done_l
      end ].

(** Split a list whose length is a literal into its elements. *)
Ltac explode_list l :=
  repeat match goal with
  | H : length l = S _ |- _ =>
      destruct l as [| ? l]; [discriminate H | apply (f_equal pred) in H; simpl in H]
  | H : length l = O |- _ => apply nil_length_inv in H; subst l
  end.

(** Split the bounds of an explicit list of well-formed integers. *)
Ltac explode_forall :=
  repeat match goal with
  | H : Forall _ (_ :: _) |- _ => apply Forall_cons_1 in H as [? H]
  | H : Forall _ [] |- _ => clear H
  end.

(** Invert a hypothesis [m = Done v] through the binds of [m]. *)
Ltac done_inv :=
  repeat match goal with
  | H : mbind _ _ = Done _ |- _ => apply bind_done in H as (? & ? & H)
  | H : Done _ = Done _ |- _ => injection H as ?; subst
  | H : Panicked _ = Done _ |- _ => discriminate H
  | H : OutOfFuel = Done _ |- _ => discriminate H
  end.

(** Discharge [keeps] for a closure made of writes, given what each writes is bytes. *)
Ltac keeps_tac :=
  done_inv;
  repeat match goal with
  | H : copy_into ?s _ _ _ = Done ?s' |- keeps _ ?s' =>
      transitivity s; [clear H | eapply copy_into_keeps; [| exact H]; eauto with rust]
  | H : write_at ?s _ _ = Done ?s' |- keeps _ ?s' =>
      transitivity s; [clear H | eapply write_at_keeps; [| exact H]; eauto with rust]
  | |- keeps ?s ?s => reflexivity
  end.
