(* ===== verification/Checksum.v ===== *)
(** * The Internet checksum

    What the checksum code of [ipv4.rs] and [icmp.rs] shares (the big-endian
    16-bit words of a byte string and their 32-bit sum), and the reference
    both are compared with: the one's complement sum of RFC 1071 as a receiver
    computes it, one word at a time with the carry added back at each step. *)

From stdpp Require Import base tactics list numbers.
From Stdlib Require Import ZArith Lia.
From S2P Require Import Prelude.

Local Open Scope Z_scope.

(** [chunks_exact(2)] *)
Fixpoint chunks_exact2 (l : list Z) : list (list Z) :=
  match l with
  | a :: b :: l => [a; b] :: chunks_exact2 l
  | _ => []
  end.

(** [.fold(0u32, |acc, elem| acc + elem as u32)], and [.sum::<u32>()] *)
Fixpoint sum_u32 {B : Build} (acc : Z) (l : list Z) : outcome Z :=
  match l with
  | [] => Done acc
  | elem :: l => acc ← add_w 32 acc elem; sum_u32 acc l
  end.

(** [.chunks_exact(2).map(|raw| u16::from_be_bytes(raw.try_into().unwrap()))] *)
Definition words (bs : list Z) : list Z := map from_be (chunks_exact2 bs).

(** ** The reference *)

Definition oc_add (a b : Z) : Z :=
  let s := a + b in if s <? 65536 then s else s - 65535.

Definition rfc1071_sum (ws : list Z) : Z := fold_left oc_add ws 0.

(** What a receiver checks of a block that contains its own checksum. *)
Definition verifies (ws : list Z) : bool := rfc1071_sum ws =? 0xffff.

Definition Zsum (ws : list Z) : Z := foldr Z.add 0 ws.

(** The one's complement value of an integer. *)
Definition oc_norm (z : Z) : Z := if z =? 0 then 0 else (z - 1) mod 65535 + 1.

Lemma oc_add_norm x b : 0 ≤ x → uint 16 b → oc_add (oc_norm x) b = oc_norm (x + b).
Proof.
  unfold oc_add, oc_norm, uint. change (2 ^ 16) with 65536. intros.
  repeat case_match; Z.div_mod_to_equations; lia.
Qed.

Lemma rfc1071_sum_norm ws : Forall (uint 16) ws → rfc1071_sum ws = oc_norm (Zsum ws).
Proof.
  intros Hws. unfold rfc1071_sum. change 0 with (oc_norm 0) at 1.
  assert (∀ x, 0 ≤ x → fold_left oc_add ws (oc_norm x) = oc_norm (x + Zsum ws)) as H.
  { induction Hws as [| b ws Hb Hws IH]; intros x Hx; simpl.
    - by rewrite Z.add_0_r.
    - rewrite oc_add_norm by done. unfold uint in Hb. rewrite IH by lia. f_equal. lia. }
  by rewrite H.
Qed.

Lemma Zsum_bound ws : Forall (uint 16) ws → 0 ≤ Zsum ws ≤ 65535 * len ws.
Proof.
  unfold len. induction 1 as [| b ws Hb Hws IH]; simpl; [lia |].
  unfold uint in Hb. change (2 ^ 16) with 65536 in Hb. lia.
Qed.

Lemma Zsum_app ws ws' : Zsum (ws ++ ws') = Zsum ws + Zsum ws'.
Proof. induction ws as [| w ws IH]; simpl; [done | rewrite IH; lia]. Qed.

(** Folding the carries of a sum once. *)
Definition fold_once (s : Z) : Z := s mod 65536 + s / 65536.

(** The complement of the once-folded sum makes the block verify, as long
    as that folding leaves 16 bits... *)
Lemma verifies_complement ws ws' :
  Forall (uint 16) ws' → 0 ≤ Zsum ws → fold_once (Zsum ws) < 65536 →
  Zsum ws' = Zsum ws + (65535 - fold_once (Zsum ws)) → verifies ws' = true.
Proof.
  unfold fold_once. intros H1 H2 H3 H4. unfold verifies.
  rewrite rfc1071_sum_norm, H4 by done. unfold oc_norm.
  apply Z.eqb_eq. case_match; Z.div_mod_to_equations; lia.
Qed.

(** ... and does not when the dropped carry is lost. *)
Lemma verifies_lost_carry ws ws' :
  Forall (uint 16) ws' → 0 ≤ Zsum ws → 65536 ≤ fold_once (Zsum ws) < 131072 →
  Zsum ws' = Zsum ws + (65535 - (fold_once (Zsum ws) - 65536)) → verifies ws' = false.
Proof.
  unfold fold_once. intros H1 H2 H3 H4. unfold verifies.
  rewrite rfc1071_sum_norm, H4 by done. unfold oc_norm.
  apply Z.eqb_neq. case_match; Z.div_mod_to_equations; lia.
Qed.

(** ** The words of a byte string *)

Lemma words_nil : words [] = [].
Proof. reflexivity. Qed.

Lemma words_cons a b bs : words (a :: b :: bs) = a * 256 + b :: words bs.
Proof. reflexivity. Qed.

(** Induction two elements at a time. *)
Lemma list_ind2 {A} (P : list A → Prop) :
  P [] → (∀ a, P [a]) → (∀ a b l, P l → P (a :: b :: l)) → ∀ l, P l.
Proof.
  intros H0 H1 H2 l. cut (P l ∧ ∀ a, P (a :: l)); [by intros [? _] |].
  induction l as [| b l [IH1 IH2]]; split; auto.
Qed.

Lemma words_uint bs : bytes bs → Forall (uint 16) (words bs).
Proof.
  revert bs. refine (list_ind2 _ _ _ _); [constructor | constructor |].
  intros a b l IH H. explode_forall. rewrite words_cons. constructor; [| auto].
  unfold uint in *. change (2 ^ 8) with 256 in *. change (2 ^ 16) with 65536. lia.
Qed.

Lemma len_words bs : len (words bs) = len bs / 2.
Proof.
  revert bs. refine (list_ind2 _ _ _ _); [done | done |].
  intros a b l IH. rewrite words_cons. unfold len in *. simpl length.
  rewrite !Nat2Z.inj_succ, IH. Z.div_mod_to_equations. lia.
Qed.

Lemma words_app bs bs' : Nat.Even (length bs) → words (bs ++ bs') = words bs ++ words bs'.
Proof.
  revert bs. refine (list_ind2 _ _ _ _); [done | |].
  - intros a [k Hk]. simpl in Hk. lia.
  - intros a b l IH [k Hk]. simpl in *. rewrite !words_cons, IH; [done |].
    exists (k - 1)%nat. lia.
Qed.

Lemma take_words k bs : take k (words bs) = words (take (2 * k) bs).
Proof.
  revert k. revert bs. refine (list_ind2 _ _ _ _).
  - by intros [| k].
  - intros a [| k]; [done |]. by rewrite Nat.mul_succ_r, Nat.add_comm.
  - intros a b l IH [| k]; [done |].
    replace (2 * S k)%nat with (S (S (2 * k))) by lia. cbn [take]. rewrite !words_cons.
    cbn [take]. by rewrite IH.
Qed.

(** A word that a block which verifies does not cover. *)
Lemma verifies_extra ws b :
  verifies ws = true → byte b → verifies (ws ++ [b * 256 + 0]) = (b =? 0).
Proof.
  unfold verifies, rfc1071_sum. intros Hv%Z.eqb_eq Hb. rewrite fold_left_app, Hv. simpl.
  unfold oc_add, uint in *. change (2 ^ 8) with 256 in Hb.
  destruct (Z.eqb_spec b 0) as [-> | Hne]; [done |]. case_match; apply Z.eqb_neq; lia.
Qed.

(** The 32-bit sum does not overflow on fewer than 65537 words. *)
Lemma sum_u32_ok {B : Build} acc ws :
  Forall (uint 16) ws → 0 ≤ acc → acc + 65535 * len ws < 2 ^ 32 →
  sum_u32 acc ws = Done (acc + Zsum ws).
Proof.
  intros Hws. revert acc. induction Hws as [| w ws Hw Hws IH]; intros acc Ha Hb; simpl.
  - f_equal. lia.
  - unfold uint, len in *. simpl length in Hb. rewrite Nat2Z.inj_succ in Hb.
    change (2 ^ 16) with 65536 in Hw.
    unfold add_w. rewrite arith_in by (unfold uint; lia). simpl.
    rewrite IH by lia. f_equal. lia.
Qed.

(** [(sum as u16) + ((sum >> 16) as u16)] at 16 bits. *)
Lemma fold_add_run {B : Build} s :
  0 ≤ s < 65535 * 65536 →
  add_w 16 (cast 16 s) (cast 16 (Z.shiftr s 16)) =
  if fold_once s <? 65536 then Done (fold_once s)
  else if overflow_checks then Panicked ArithOverflow else Done (fold_once s - 65536).
Proof.
  intros Hs. unfold cast, add_w. change (2 ^ 16) with 65536.
  rewrite Z.shiftr_div_pow2 by lia. change (2 ^ 16) with 65536.
  rewrite (Z.mod_small (s / 65536)) by (Z.div_mod_to_equations; lia).
  fold (fold_once s).
  assert (0 ≤ fold_once s < 131072) by (unfold fold_once; Z.div_mod_to_equations; lia).
  destruct (Z.ltb_spec (fold_once s) 65536).
  - by rewrite arith_in by (unfold uint; lia).
  - rewrite arith_out by (unfold uint; lia). destruct overflow_checks; [done |].
    f_equal. change (2 ^ 16) with 65536. Z.div_mod_to_equations; lia.
Qed.

Lemma fold_once_bound s : 0 ≤ s < 65535 * 65536 → 0 ≤ fold_once s < 131072.
Proof. intros. unfold fold_once. Z.div_mod_to_equations; lia. Qed.
