(* ===== verification/Buffer.v ===== *)
(** * Packet buffers

    [src/src/extensions/networking/protocols/buffer.rs]: a boxed array of 2048
    bytes together with the number of bytes in use.  [new] copies a slice
    into a zeroed array and records the slice's own length, so the recorded
    length exceeds the array when the slice does. *)

From stdpp Require Import base tactics list numbers.
From Stdlib Require Import ZArith Lia.
From S2P Require Import Prelude.

Local Open Scope Z_scope.

Record Buffer := mk_buffer { buf_data : list Z; buf_len : Z }.

Definition capacity : nat := 2048.

(** [for (target, src) in target_data.iter_mut().zip(data.iter()) { *target = *src; }] *)
Fixpoint zip_copy (target src : list Z) : list Z :=
  match target, src with
  | _ :: target, b :: src => b :: zip_copy target src
  | _, _ => target
  end.

Definition new (data : list Z) : Buffer :=
  {| buf_data := zip_copy (replicate capacity 0) data; buf_len := len data |}.

Definition blen (b : Buffer) : Z := buf_len b.

Definition as_ref (b : Buffer) : list Z := buf_data b.

(** The bytes [Debug::fmt] lists. *)
Definition debug_entries (b : Buffer) : list Z := take (Z.to_nat (buf_len b)) (buf_data b).

(** The type's own guarantee: a [Box<[u8; 2048]>] and a [usize]. *)
Definition wf (b : Buffer) : Prop :=
  length (buf_data b) = capacity ∧ bytes (buf_data b) ∧ 0 ≤ buf_len b.

Lemma zip_copy_spec target src :
  zip_copy target src = take (length target) src ++ drop (length src) target.
Proof.
  revert src. induction target as [| t target IH]; intros [| b src]; simpl; auto.
  by rewrite IH.
Qed.
#[global] Arguments zip_copy : simpl never.
#[global] Arguments capacity : simpl never.

Lemma new_wf data : bytes data → wf (new data).
Proof.
  intros. split_and!; simpl; rewrite ?zip_copy_spec.
  - len_lia.
  - rewrite Forall_app. split; [by apply Forall_take | apply Forall_drop, zeros_bytes].
  - apply len_nonneg.
Qed.

(** A slice that fits is kept whole, followed by zeros. *)
Lemma new_data_fits data :
  (length data ≤ capacity)%nat →
  buf_data (new data) = data ++ replicate (capacity - length data) 0.
Proof.
  intros. simpl. rewrite zip_copy_spec, length_replicate.
  by rewrite take_ge, drop_replicate by lia.
Qed.

(** Reading a range inside the data of a new buffer gives that range of the data. *)
Lemma new_slice data a b :
  (length data ≤ capacity)%nat → 0 ≤ a ≤ b → b ≤ len data →
  slice (as_ref (new data)) a b = Done (sub data a b).
Proof.
  intros. unfold as_ref. rewrite new_data_fits by done.
  rewrite slice_ok by (rewrite ?len_app; unfold len in *; lia).
  by rewrite sub_app_l by lia.
Qed.

Lemma new_debug_entries data :
  (length data ≤ capacity)%nat → debug_entries (new data) = data.
Proof.
  intros. unfold debug_entries. rewrite new_data_fits by done. simpl.
  unfold len. by rewrite Nat2Z.id, take_app_length.
Qed.
