(* ===== verification/Ethernet.v ===== *)
(** * Ethernet frames

    [src/src/extensions/networking/protocols/ethernet.rs]: the packet view
    over a buffer, the EtherType codes and the typestate builder whose
    [finish] runs a closure on the payload area of a 1500-byte frame. *)

From stdpp Require Import base tactics list numbers.
From Stdlib Require Import ZArith Lia.
From S2P Require Import Prelude Buffer.

Local Open Scope Z_scope.

Record Packet := mk_packet { buffer : Buffer }.

Inductive EthType :=
  | Ipv4
  | Ipv6
  | Arp
  | WakeOnLan
  | Unknown (raw : list Z).

#[export] Instance EthType_eq_dec : EqDecision EthType.
Proof. solve_decision. Defined.

(** [impl From<[u8; 2]> for EthType] *)
Definition ethtype_from (raw : list Z) : EthType :=
  if decide (raw = [0x08; 0x00]) then Ipv4
  else if decide (raw = [0x08; 0x06]) then Arp
  else if decide (raw = [0x08; 0x42]) then WakeOnLan
  else if decide (raw = [0x86; 0xdd]) then Ipv6
  else Unknown raw.

(** [impl Into<[u8; 2]> for EthType] *)
Definition ethtype_into (t : EthType) : list Z :=
  match t with
  | Ipv4 => [0x08; 0x00]
  | Arp => [0x08; 0x06]
  | WakeOnLan => [0x08; 0x42]
  | Ipv6 => [0x86; 0xdd]
  | Unknown u => u
  end.

(** ** The packet view *)

Definition packet_new (b : Buffer) : Packet := {| buffer := b |}.

Definition destination_mac (p : Packet) : outcome (list Z) :=
  s ← slice (as_ref (buffer p)) 0 6; to_array 6 s.

Definition source_mac (p : Packet) : outcome (list Z) :=
  s ← slice (as_ref (buffer p)) 6 12; to_array 6 s.

Definition ether_type (p : Packet) : outcome EthType :=
  s ← slice (as_ref (buffer p)) 12 14;
  raw ← to_array 2 s;
  Done (ethtype_from raw).

Definition content (p : Packet) : outcome (list Z) :=
  slice (as_ref (buffer p)) 14 (blen (buffer p)).

Definition into_buffer (p : Packet) : Buffer := buffer p.

(** ** The builder *)

Record SourceState := { ss_source : list Z }.
Record DestinationState := { ds_source : list Z; ds_destination : list Z }.
Record EtherTypeState := {
  es_source : list Z;
  es_destination : list Z;
  es_ether_ty : list Z }.

Definition source (mac : list Z) : SourceState := {| ss_source := mac |}.

Definition destination (st : SourceState) (mac : list Z) : DestinationState :=
  {| ds_source := ss_source st; ds_destination := mac |}.

Definition ether_ty (st : DestinationState) (ty : list Z) : EtherTypeState :=
  {| es_source := ds_source st; es_destination := ds_destination st; es_ether_ty := ty |}.

(** A closure [FnOnce(&mut [u8]) -> Result<usize, ()>]: the updated slice
    and the closure's result. *)
Definition payload_fn : Type := list Z → outcome (list Z * result Z unit).

Definition finish {B : Build} (st : EtherTypeState) (payload : payload_fn) :
    outcome (result Packet unit) :=
  let content := replicate 1500 0 in
  content ← copy_into content 0 6 (es_destination st);
  content ← copy_into content 6 12 (es_source st);
  content ← copy_into content 12 14 (es_ether_ty st);
  r ← with_slice content 14 (len content) payload;
  let '(content, r) := r in
  match r with
  | Err e => Done (Err e)
  | Ok written_len =>
      let len := Z.max written_len 46 in
      total ← add_w 64 len 14;
      s ← slice content 0 total;
      Done (Ok (packet_new (new s)))
  end.

(** ** What a payload closure promises the builder

    Rust's type system guarantees it: a [&mut [u8]] keeps its length, and
    its elements stay bytes. *)
Class PayloadFn (f : payload_fn) : Prop :=
  payload_keeps s s' r : f s = Done (s', r) → keeps s s'.

(** ** Proofs *)

Definition wf_packet (p : Packet) : Prop := Buffer.wf (buffer p).

Definition wf_mac (m : list Z) : Prop := length m = 6%nat ∧ bytes m.

Definition wf_eth_state (st : EtherTypeState) : Prop :=
  wf_mac (es_source st) ∧ wf_mac (es_destination st)
  ∧ length (es_ether_ty st) = 2%nat ∧ bytes (es_ether_ty st).

Lemma payload_length f `{!PayloadFn f} s s' r : f s = Done (s', r) → length s' = length s.
Proof. by intros ?%payload_keeps%proj1. Qed.

(** The closure [|_| Ok(0)]. *)
Definition no_payload : payload_fn := fun s => Done (s, Ok 0).

#[export] Instance no_payload_fn : PayloadFn no_payload.
Proof. intros s s' r [= <- _]. reflexivity. Qed.

Lemma ethtype_into_from raw : ethtype_into (ethtype_from raw) = raw.
Proof. unfold ethtype_from. repeat case_decide; subst; done. Qed.

Lemma ethtype_from_into t :
  (∀ raw, t = Unknown raw → ethtype_from raw = Unknown raw) →
  ethtype_from (ethtype_into t) = t.
Proof. destruct t; intros H; try done. by apply H. Qed.

(** The fourteen header bytes, then the payload. *)
Definition frame_bytes (st : EtherTypeState) (payload : list Z) : list Z :=
  es_destination st ++ es_source st ++ es_ether_ty st ++ payload.

(** The frame a payload closure that wrote [n] bytes of [body] leads to. *)
Definition frame (st : EtherTypeState) (body : list Z) (n : Z) : Packet :=
  packet_new (new (frame_bytes st (take (Z.to_nat (Z.max n 46)) body))).

Section finish.
Context {B : Build} (st : EtherTypeState) (f : payload_fn).
Context (Hst : wf_eth_state st) `{Hf : !PayloadFn f}.

(** The buffer the closure runs on. *)
Lemma eth_finish_run :
  finish st f =
  (r ← f (replicate 1486 0);
   match r.2 with
   | Err e => Done (Err e)
   | Ok n =>
       total ← add_w 64 (Z.max n 46) 14;
       s ← slice (frame_bytes st r.1) 0 total;
       Done (Ok (packet_new (new s)))
   end).
Proof.
  destruct Hst as ([Hs _] & [Hd _] & Ht & _). unfold finish.
  remember (replicate 1500 0) as z eqn:Ez. change z with ([] ++ drop 0 z).
  assert (Hz : drop 14 z = replicate 1486 0) by by subst z; rewrite drop_replicate.
  assert (length z = 1500%nat) as Hl by by subst z; rewrite length_replicate.
  clear Ez.
  rewrite copy_next by len_lia. rewrite bind_Done_l.
  rewrite copy_next by len_lia. rewrite bind_Done_l.
  rewrite copy_next by len_lia. rewrite bind_Done_l.
  rewrite Hs, Hd, Ht. change (0 + 6 + 6 + 2)%nat with 14%nat.
  set (p := ((([] : list Z) ++ es_destination st) ++ es_source st) ++ es_ether_ty st).
  rewrite with_slice_tail, Hz by (subst p; len_lia).
  destruct (f (replicate 1486 0)) as [[t r] | w |] eqn:E; simpl; [| done | done].
  apply payload_length in E; [| done]. rewrite splice_tail; [| subst p; len_lia | done].
  unfold frame_bytes. subst p. simpl. by rewrite <- !app_assoc.
Qed.

Lemma eth_finish_ok body n :
  f (replicate 1486 0) = Done (body, Ok n) → n ≤ 1486 →
  finish st f = Done (Ok (frame st body n)).
Proof.
  intros E Hn. rewrite eth_finish_run, E. simpl.
  pose proof (payload_length _ _ _ _ E) as Hl. autorewrite with lengths in Hl.
  destruct Hst as ([Hs _] & [Hd _] & Ht & _).
  unfold add_w. rewrite arith_in by (unfold uint; lia). simpl.
  unfold frame_bytes. run_slice. do 3 f_equal. unfold frame, frame_bytes.
  do 2 f_equal. unfold sub. rewrite drop_0, !take_app, !(take_ge (es_destination st)),
    (take_ge (es_source st)), (take_ge (es_ether_ty st)) by lia.
  do 4 f_equal. lia.
Qed.

Lemma eth_finish_err body e :
  f (replicate 1486 0) = Done (body, Err e) → finish st f = Done (Err e).
Proof. intros E. by rewrite eth_finish_run, E. Qed.

Lemma eth_finish_panic why :
  f (replicate 1486 0) = Panicked why → finish st f = Panicked why.
Proof. intros E. by rewrite eth_finish_run, E. Qed.

Lemma eth_finish_too_long body n :
  f (replicate 1486 0) = Done (body, Ok n) → 1486 < n < 2 ^ 64 - 14 →
  finish st f = Panicked SliceOutOfRange.
Proof.
  intros E Hn. rewrite eth_finish_run, E. simpl.
  pose proof (payload_length _ _ _ _ E) as Hl. autorewrite with lengths in Hl.
  destruct Hst as ([Hs _] & [Hd _] & Ht & _).
  unfold add_w. rewrite arith_in by (unfold uint; lia). simpl.
  by rewrite slice_bad by (unfold frame_bytes; len_lia).
Qed.

End finish.

(** ** Reading a built frame back *)

Section frame.
Context (st : EtherTypeState) (body : list Z) (n : Z).
Context (Hst : wf_eth_state st) (Hbody : length body = 1486%nat) (Hn : n ≤ 1486).

Lemma length_frame_bytes :
  length (frame_bytes st (take (Z.to_nat (Z.max n 46)) body)) = Z.to_nat (Z.max n 46 + 14).
Proof. destruct Hst as ([? _] & [? _] & ? & _). unfold frame_bytes. len_lia. Qed.

Lemma frame_blen : blen (buffer (frame st body n)) = Z.max n 46 + 14.
Proof. unfold blen, frame. simpl. unfold len. rewrite length_frame_bytes. lia. Qed.

(** A range of a frame is that range of the bytes it was built from. *)
Lemma frame_slice p q m a b :
  frame_bytes st (take (Z.to_nat (Z.max n 46)) body) = p ++ m ++ q →
  a = len p → b = a + len m → slice (as_ref (buffer (frame st body n))) a b = Done m.
Proof.
  intros E -> ->. unfold frame, packet_new. cbn [buffer].
  pose proof length_frame_bytes as Hl.
  rewrite new_slice by (rewrite ?E in *; unfold capacity; len_lia).
  by rewrite E, sub_app_mid.
Qed.

Lemma frame_destination_mac : destination_mac (frame st body n) = Done (es_destination st).
Proof.
  destruct Hst as ([? _] & [? _] & ? & _). unfold destination_mac.
  rewrite (frame_slice [] (es_source st ++ es_ether_ty st ++ take (Z.to_nat (Z.max n 46)) body) (es_destination st)); [| done | done | len_lia].
  simpl. by apply to_array_ok.
Qed.

Lemma frame_source_mac : source_mac (frame st body n) = Done (es_source st).
Proof.
  destruct Hst as ([? _] & [? _] & ? & _). unfold source_mac.
  rewrite (frame_slice (es_destination st) (es_ether_ty st ++ take (Z.to_nat (Z.max n 46)) body) (es_source st)); [| done | len_lia | len_lia].
  simpl. by apply to_array_ok.
Qed.

Lemma frame_ether_type : ether_type (frame st body n) = Done (ethtype_from (es_ether_ty st)).
Proof.
  destruct Hst as ([? _] & [? _] & ? & _). unfold ether_type.
  rewrite (frame_slice (es_destination st ++ es_source st)
    (take (Z.to_nat (Z.max n 46)) body) (es_ether_ty st)); [| | len_lia | len_lia].
  - simpl. by rewrite to_array_ok.
  - unfold frame_bytes. by rewrite <- !app_assoc.
Qed.

Lemma frame_content :
  content (frame st body n) = Done (take (Z.to_nat (Z.max n 46)) body).
Proof.
  destruct Hst as ([? _] & [? _] & ? & _). unfold content. rewrite frame_blen.
  apply (frame_slice (es_destination st ++ es_source st ++ es_ether_ty st) []).
  - unfold frame_bytes. rewrite app_nil_r. by rewrite <- !app_assoc.
  - len_lia.
  - len_lia.
Qed.

End frame.

(** ** Frames received from the card *)

Lemma content_done p c :
  wf_packet p →
  content p = Done c ↔ 14 ≤ blen (buffer p) ≤ 2048 ∧ c = sub (as_ref (buffer p)) 14 (blen (buffer p)).
Proof.
  intros (Hl & _ & _). unfold content. rewrite slice_done.
  unfold as_ref, blen, len, capacity in *. rewrite Hl. split; intros [? ?]; split; lia || done.
Qed.

Lemma content_length p c :
  wf_packet p → content p = Done c → len c = blen (buffer p) - 14.
Proof.
  intros Hwf Hc. pose proof (proj1 (content_done p c Hwf) Hc) as [? ->].
  destruct Hwf as (Hl & _ & _). unfold len.
  rewrite length_sub; unfold as_ref, len, capacity in *; lia.
Qed.

Lemma content_bytes p c : wf_packet p → content p = Done c → bytes c.
Proof.
  intros Hwf Hc. apply content_done in Hc as [_ ->]; [| done].
  apply sub_bytes. by destruct Hwf as (_ & ? & _).
Qed.

(** The header accessors never fail: the buffer always has 2048 bytes. *)
Lemma header_reads p :
  wf_packet p →
  destination_mac p = Done (sub (as_ref (buffer p)) 0 6)
  ∧ source_mac p = Done (sub (as_ref (buffer p)) 6 12)
  ∧ ether_type p = Done (ethtype_from (sub (as_ref (buffer p)) 12 14)).
Proof.
  intros (Hl & _ & _). unfold destination_mac, source_mac, ether_type, as_ref in *.
  unfold capacity in Hl.
  rewrite !to_array_slice, array_read_bind by len_lia. done.
Qed.
