(* ===== verification/Arp.v ===== *)
(** * ARP

    [src/src/extensions/networking/protocols/arp.rs]: parsing an ARP packet out
    of an Ethernet frame, the operation codes, and the typestate builder for
    the requests and responses the handler sends. *)

From stdpp Require Import base tactics list numbers.
From Stdlib Require Import ZArith Lia.
From S2P Require Import Prelude Buffer Ethernet.

Local Open Scope Z_scope.

Record Packet := {
  hardware_ty : Z;
  protocol_ty : Z;
  hardware_size : Z;
  protocol_size : Z;
  operation : Z;
  src_mac : list Z;
  src_ip : list Z;
  dest_mac : list Z;
  dest_ip : list Z;
  eth_packet : Ethernet.Packet }.

Inductive Operation :=
  | Request
  | Response
  | Unknown (raw : Z).

#[export] Instance Operation_eq_dec : EqDecision Operation.
Proof. solve_decision. Defined.

(** [impl From<u16> for Operation] *)
Definition operation_from (raw : Z) : Operation :=
  if raw =? 1 then Request else if raw =? 2 then Response else Unknown raw.

(** [impl Into<u16> for Operation] *)
Definition operation_into (op : Operation) : Z :=
  match op with Request => 1 | Response => 2 | Unknown raw => raw end.

(** [Packet::new] *)
Definition packet_new (eth : Ethernet.Packet) : outcome (result Packet unit) :=
  content ← content eth;
  if len content <? 28 then Done (Err tt) else
  t ← slice content 0 2; hardware_ty ← to_array 2 t;
  t ← slice content 2 4; protocol_ty ← to_array 2 t;
  hardware_size ← index content 4;
  protocol_size ← index content 5;
  t ← slice content 6 8; operation ← to_array 2 t;
  t ← slice content 8 14; src_mac ← to_array 6 t;
  t ← slice content 14 18; src_ip ← to_array 4 t;
  t ← slice content 18 24; dest_mac ← to_array 6 t;
  t ← slice content 24 28; dest_ip ← to_array 4 t;
  Done (Ok {|
    hardware_ty := from_be hardware_ty;
    protocol_ty := from_be protocol_ty;
    hardware_size := hardware_size;
    protocol_size := protocol_size;
    operation := from_be operation;
    src_mac := src_mac;
    src_ip := src_ip;
    dest_mac := dest_mac;
    dest_ip := dest_ip;
    eth_packet := eth |}).

Definition get_operation (p : Packet) : Operation := operation_from (operation p).

Definition get_dest_ip (p : Packet) : list Z := dest_ip p.

(** ** The builder *)

Record SenderState := { sn_mac : list Z; sn_ip : list Z }.
Record DestinationState := { ds_sender : SenderState; ds_mac : list Z; ds_ip : list Z }.
Record OperationState := { os_destination : DestinationState; os_operation : Z }.

Definition sender (mac ip : list Z) : SenderState := {| sn_mac := mac; sn_ip := ip |}.

Definition destination (st : SenderState) (mac ip : list Z) : DestinationState :=
  {| ds_sender := st; ds_mac := mac; ds_ip := ip |}.

Definition set_operation (st : DestinationState) (op : Operation) : OperationState :=
  {| os_destination := st; os_operation := operation_into op |}.

(** The closure [finish] hands to the Ethernet builder. *)
Definition arp_payload (st : OperationState) : payload_fn := fun payload =>
  let d := os_destination st in
  payload ← copy_into payload 0 2 [0; 1];
  payload ← copy_into payload 2 4 [0x08; 0];
  payload ← write_at payload 4 6;
  payload ← write_at payload 5 4;
  payload ← copy_into payload 6 8 (to_be 2 (os_operation st));
  payload ← copy_into payload 8 14 (sn_mac (ds_sender d));
  payload ← copy_into payload 14 18 (sn_ip (ds_sender d));
  payload ← copy_into payload 18 24 (ds_mac d);
  payload ← copy_into payload 24 28 (ds_ip d);
  Done (payload, Ok 28).

Definition finish {B : Build} (st : OperationState) : outcome (result Ethernet.Packet unit) :=
  let d := os_destination st in
  Ethernet.finish
    (ether_ty (Ethernet.destination (source (sn_mac (ds_sender d))) (ds_mac d))
       (ethtype_into Ethernet.Arp))
    (arp_payload st).

(** ** Proofs *)

Definition wf_ip (ip : list Z) : Prop := length ip = 4%nat ∧ bytes ip.

Definition wf_state (st : OperationState) : Prop :=
  let d := os_destination st in
  wf_mac (sn_mac (ds_sender d)) ∧ wf_ip (sn_ip (ds_sender d))
  ∧ wf_mac (ds_mac d) ∧ wf_ip (ds_ip d) ∧ uint 16 (os_operation st).

(** The 28 bytes of an ARP packet on Ethernet and IPv4. *)
Definition arp_bytes (op : Z) (smac sip dmac dip : list Z) : list Z :=
  [0; 1; 0x08; 0; 6; 4] ++ to_be 2 op ++ smac ++ sip ++ dmac ++ dip.

Definition state_bytes (st : OperationState) : list Z :=
  let d := os_destination st in
  arp_bytes (os_operation st) (sn_mac (ds_sender d)) (sn_ip (ds_sender d)) (ds_mac d) (ds_ip d).

Lemma arp_payload_fn st : wf_state st → PayloadFn (arp_payload st).
Proof.
  intros ([_ ?] & [_ ?] & [_ ?] & [_ ?] & ?) s s' r Hrun. unfold arp_payload in Hrun.
  keeps_tac.
Qed.

Lemma arp_payload_run st s :
  wf_state st → (28 ≤ length s)%nat →
  arp_payload st s = Done (state_bytes st ++ drop 28 s, Ok 28).
Proof.
  intros ([H1 _] & [H2 _] & [H3 _] & [H4 _] & _) Hs. unfold arp_payload.
  change s with ([] ++ drop 0 s) at 1.
  rewrite copy_next by len_lia. rewrite bind_Done_l.
  rewrite copy_next by len_lia. rewrite bind_Done_l.
  rewrite write_next by len_lia. rewrite bind_Done_l.
  rewrite write_next by len_lia. rewrite bind_Done_l.
  do 5 (rewrite copy_next by len_lia; rewrite bind_Done_l).
  rewrite H1, H2, H3, H4, length_to_be. unfold state_bytes, arp_bytes. simpl.
  by rewrite <- !app_assoc.
Qed.

(** Parsing what the builder wrote. *)
Lemma packet_new_arp_bytes eth op sm si dm di rest :
  content eth = Done (arp_bytes op sm si dm di ++ rest) →
  uint 16 op → length sm = 6%nat → length si = 4%nat → length dm = 6%nat → length di = 4%nat →
  packet_new eth = Done (Ok {|
    hardware_ty := 1; protocol_ty := 0x0800; hardware_size := 6; protocol_size := 4;
    operation := op; src_mac := sm; src_ip := si; dest_mac := dm; dest_ip := di;
    eth_packet := eth |}).
Proof.
  intros Hc Hop Hsm Hsi Hdm Hdi. unfold packet_new. rewrite Hc, bind_Done_l.
  assert (from_be (to_be 2 op) = op) as E by by apply from_be_to_be2.
  unfold arp_bytes. pose proof (length_to_be 2 op) as Hb.
  clear Hc Hop. generalize dependent (to_be 2 op). intros b E Hb.
  explode_list b. explode_list sm. explode_list si. explode_list dm. explode_list di.
  rewrite (proj2 (Z.ltb_ge _ _)) by len_lia.
  run_reads. subst op. reflexivity.
Qed.

Lemma arp_finish_frame {B : Build} st :
  wf_state st →
  let d := os_destination st in
  let est := {| es_source := sn_mac (ds_sender d); es_destination := ds_mac d;
                es_ether_ty := [0x08; 0x06] |} in
  wf_eth_state est
  ∧ finish st = Done (Ok (frame est (state_bytes st ++ replicate 1458 0) 28)).
Proof.
  intros Hst. pose proof Hst as (? & ? & ? & ? & ?).
  assert (wf_eth_state {| es_source := sn_mac (ds_sender (os_destination st));
    es_destination := ds_mac (os_destination st); es_ether_ty := [0x08; 0x06] |}) as Heth.
  { split_and!; simpl; auto. repeat constructor; unfold uint; lia. }
  split; [done |].
  unfold finish. pose proof (arp_payload_fn st Hst).
  apply eth_finish_ok; [done | done | | lia].
  rewrite arp_payload_run by (try done; len_lia). by rewrite drop_replicate.
Qed.

(** What a receiver sees of the packet of a builder state. *)
Definition arp_frame (st : OperationState) (eth : Ethernet.Packet) : Prop :=
  let d := os_destination st in
  blen (buffer eth) = 60
  ∧ destination_mac eth = Done (ds_mac d)
  ∧ source_mac eth = Done (sn_mac (ds_sender d))
  ∧ ether_type eth = Done Ethernet.Arp
  ∧ packet_new eth = Done (Ok {|
      hardware_ty := 1; protocol_ty := 0x0800; hardware_size := 6; protocol_size := 4;
      operation := os_operation st;
      src_mac := sn_mac (ds_sender d); src_ip := sn_ip (ds_sender d);
      dest_mac := ds_mac d; dest_ip := ds_ip d; eth_packet := eth |}).

Lemma arp_finish_reads {B : Build} st :
  wf_state st → ∃ eth, finish st = Done (Ok eth) ∧ arp_frame st eth.
Proof.
  intros Hst. pose proof Hst as ([Hsm _] & [Hsi _] & [Hdm _] & [Hdi _] & Hop).
  destruct (arp_finish_frame st Hst) as [Heth ->].
  eexists. split; [done |].
  assert (length (state_bytes st) = 28%nat) as Hl.
  { unfold state_bytes, arp_bytes. len_lia. }
  assert (length (state_bytes st ++ replicate 1458 0) = 1486%nat) as Hlen by len_lia.
  unfold arp_frame.
  rewrite frame_blen, frame_destination_mac, frame_source_mac, frame_ether_type by (done || lia).
  split_and!; try done.
  eapply packet_new_arp_bytes; try done.
  rewrite frame_content by (done || lia).
  rewrite take_app_ge by len_lia. done.
Qed.

(** C28: an ARP packet the builder emits is a padded 60-byte frame of type ARP
    addressed to the given MAC; parsing it gives back every field, and the
    operation it was built with ([Unknown] codes that name a known operation
    come back as that operation). *)
Theorem arp_roundtrip {B : Build} (mac ip dmac dip : list Z) (op : Operation) :
  wf_mac mac → wf_ip ip → wf_mac dmac → wf_ip dip → uint 16 (operation_into op) →
  ∃ eth p, finish (set_operation (destination (sender mac ip) dmac dip) op) = Done (Ok eth)
    ∧ blen (buffer eth) = 60
    ∧ destination_mac eth = Done dmac ∧ source_mac eth = Done mac
    ∧ ether_type eth = Done Ethernet.Arp
    ∧ packet_new eth = Done (Ok p)
    ∧ src_mac p = mac ∧ src_ip p = ip ∧ dest_mac p = dmac ∧ get_dest_ip p = dip
    ∧ get_operation p
      = match op with Unknown 1 => Request | Unknown 2 => Response | _ => op end.
Proof.
  intros Hm Hi Hdm Hdi Hop. set (st := set_operation _ op).
  destruct (arp_finish_reads st ltac:(by split_and!)) as (eth & Hf & Hl & Hd & Hs & Ht & Hp).
  exists eth. eexists. split_and!; [done | done | done | done | done | exact Hp | done..|].
  unfold get_operation, operation_from. destruct op as [| | raw]; [done.. |].
  destruct (Z.eqb_spec raw 1) as [-> | ?]; [done |]. destruct (Z.eqb_spec raw 2) as [-> | ?]; [done |].
  simpl. rewrite !(proj2 (Z.eqb_neq _ _)) by done. by repeat case_match.
Qed.

Lemma arp_roundtrip_witness :
  ∃ eth p, @finish debug_build (set_operation (destination (sender [2; 0; 0; 0; 0; 1] [10; 0; 0; 1])
              [2; 0; 0; 0; 0; 2] [10; 0; 0; 2]) Response) = Done (Ok eth)
    ∧ packet_new eth = Done (Ok p) ∧ get_operation p = Response.
Proof.
  destruct (@arp_roundtrip debug_build [2; 0; 0; 0; 0; 1] [10; 0; 0; 1] [2; 0; 0; 0; 0; 2]
    [10; 0; 0; 2] Response ltac:(by split; [| repeat constructor; vm_compute])
    ltac:(by split; [| repeat constructor; vm_compute])
    ltac:(by split; [| repeat constructor; vm_compute])
    ltac:(by split; [| repeat constructor; vm_compute]) ltac:(by vm_compute))
    as (eth & p & H1 & _ & _ & _ & _ & H2 & _ & _ & _ & _ & H3).
  exists eth, p. split; [exact H1 |]. split; [exact H2 | exact H3].
Defined.

(** Parsing never panics on a frame whose recorded length is one a card
    can deliver; it fails exactly on frames shorter than 42 bytes. *)
Theorem arp_parse_total (eth : Ethernet.Packet) :
  wf_packet eth → 14 ≤ blen (buffer eth) ≤ 2048 →
  if blen (buffer eth) <? 42 then packet_new eth = Done (Err tt)
  else ∃ p, packet_new eth = Done (Ok p)
    ∧ operation p = from_be (sub (as_ref (buffer eth)) 20 22)
    ∧ src_mac p = sub (as_ref (buffer eth)) 22 28
    ∧ src_ip p = sub (as_ref (buffer eth)) 28 32
    ∧ dest_mac p = sub (as_ref (buffer eth)) 32 38
    ∧ dest_ip p = sub (as_ref (buffer eth)) 38 42.
Proof.
  intros Hwf Hlen. unfold packet_new.
  destruct (content eth) as [c | |] eqn:Hc;
    [| by rewrite (proj2 (content_done eth _ Hwf) (conj Hlen eq_refl)) in Hc ..].
  pose proof (content_length _ _ Hwf Hc) as Hl. rewrite bind_Done_l.
  apply content_done in Hc as [_ ->]; [| done].
  destruct (Z.ltb_spec (blen (buffer eth)) 42).
  - by rewrite (proj2 (Z.ltb_lt _ _)) by lia.
  - rewrite (proj2 (Z.ltb_ge _ _)) by lia.
    rewrite !array_read_bind by lia.
    destruct (index_in (sub (as_ref (buffer eth)) 14 (blen (buffer eth))) 4) as [? ->]; [lia |].
    destruct (index_in (sub (as_ref (buffer eth)) 14 (blen (buffer eth))) 5) as [? ->]; [lia |].
    rewrite !bind_Done_l, !array_read_bind by lia. rewrite !sub_sub by lia. eauto 10.
Qed.

Lemma arp_parse_total_witness :
  let eth := Ethernet.packet_new (new (replicate 60 0)) in
  wf_packet eth ∧ ∃ p, packet_new eth = Done (Ok p).
Proof.
  simpl. assert (wf_packet (Ethernet.packet_new (new (replicate 60 0)))) as Hwf
    by apply new_wf, zeros_bytes.
  split; [exact Hwf |].
  destruct (arp_parse_total _ Hwf ltac:(by vm_compute)) as (p & ? & _). by exists p.
Defined.
