(* ===== verification/Ipv4.v ===== *)
(** * IPv4

    [src/src/extensions/networking/protocols/ipv4.rs]: addresses, the header
    with its byte layout and checksum, the packet view over an Ethernet frame
    and the typestate builder. *)

From stdpp Require Import base tactics list numbers.
From Stdlib Require Import ZArith Lia.
From S2P Require Import Prelude Checksum Buffer Ethernet.

Local Open Scope Z_scope.

(** ** Addresses *)

Record Address := mk_address { addr : list Z }.

Inductive AddressType := Lan | Wan | Loopback.

#[export] Instance AddressType_eq_dec : EqDecision AddressType.
Proof. solve_decision. Defined.

Definition address_from (raw : list Z) : Address := {| addr := raw |}.
Definition address_into (a : Address) : list Z := addr a.

Definition address_ty (a : Address) : outcome AddressType :=
  a0 ← index (addr a) 0;
  a1 ← index (addr a) 1;
  a2 ← index (addr a) 2;
  Done (if a0 =? 127 then Loopback
        else if (a0 =? 10)
             || (a0 =? 192) && (a1 =? 0) && (a2 =? 0)
             || (a0 =? 192) && (a1 =? 168) then Lan
        else Wan).

(** ** Protocol numbers *)

Inductive Protocol :=
  | Icmp
  | Udp
  | Tcp
  | Unknown (proto : Z).

#[export] Instance Protocol_eq_dec : EqDecision Protocol.
Proof. solve_decision. Defined.

(** [impl Into<u8> for Protocol] *)
Definition protocol_into (p : Protocol) : Z :=
  match p with Icmp => 1 | Udp => 17 | Tcp => 6 | Unknown proto => proto end.

(** [impl From<u8> for Protocol] *)
Definition protocol_from (raw : Z) : Protocol :=
  if raw =? 1 then Icmp else if raw =? 6 then Tcp else if raw =? 17 then Udp else Unknown raw.

(** ** The header *)

Record PacketHeader := {
  version : Z;
  ihl : Z;
  dscp : Z;
  ecn : Z;
  total_length : Z;
  identification : Z;
  flags : Z;
  fragment_offset : Z;
  ttl : Z;
  protocol : Protocol;
  header_checksum : Z;
  source_ip : list Z;
  destination_ip : list Z }.

Definition with_checksum (h : PacketHeader) (c : Z) : PacketHeader := {|
  version := version h; ihl := ihl h; dscp := dscp h; ecn := ecn h;
  total_length := total_length h; identification := identification h;
  flags := flags h; fragment_offset := fragment_offset h; ttl := ttl h;
  protocol := protocol h; header_checksum := c;
  source_ip := source_ip h; destination_ip := destination_ip h |}.

(** [PacketHeader::to_bytes] *)
Definition to_bytes (h : PacketHeader) (target : list Z) : outcome (list Z * result unit unit) :=
  if len target <? 20 then Done (target, Err tt) else
  target ← write_at target 0 (Z.lor (Z.lor 0 (shl_w 8 (version h) 4)) (Z.land (ihl h) 0x0f));
  target ← write_at target 1 (Z.lor (Z.lor 0 (shl_w 8 (dscp h) 1)) (Z.land (ecn h) 0x01));
  target ← copy_into target 2 4 (to_be 2 (total_length h));
  target ← copy_into target 4 6 (to_be 2 (identification h));
  target ← copy_into target 6 8 (to_be 2 (fragment_offset h));
  b6 ← index target 6;
  target ← write_at target 6 (Z.lor b6 (shl_w 8 (flags h) 5));
  target ← write_at target 8 (ttl h);
  target ← write_at target 9 (protocol_into (protocol h));
  target ← copy_into target 10 12 (to_be 2 (header_checksum h));
  target ← copy_into target 12 16 (source_ip h);
  target ← copy_into target 16 20 (destination_ip h);
  Done (target, Ok tt).

(** [PacketHeader::set_checksum] *)
Definition set_checksum {B : Build} (h : PacketHeader) : outcome PacketHeader :=
  let h := with_checksum h 0 in
  r ← to_bytes h (replicate 20 0);
  raw_result ← sum_u32 0 (words r.1);
  let overflows := cast 16 (Z.shiftr raw_result 16) in
  let raw_checksum := cast 16 (Z.land raw_result 0xffff) in
  s ← add_w 16 raw_checksum overflows;
  Done (with_checksum h (not_w 16 s)).

(** ** The packet view *)

Record Packet := mk_packet { eth_packet : Ethernet.Packet }.

Definition packet_new (raw : Ethernet.Packet) : Packet := {| eth_packet := raw |}.

Definition header (p : Packet) : outcome PacketHeader :=
  raw_data ← content (eth_packet p);
  b0 ← index raw_data 0;
  let ihl := Z.land b0 0x0f in
  let header_size := ihl * 4 in
  header_data ← slice raw_data 0 header_size;
  h0 ← index header_data 0;
  h1 ← index header_data 1;
  t ← slice header_data 2 4; total ← to_array 2 t;
  t ← slice header_data 4 6; ident ← to_array 2 t;
  h7 ← index header_data 7;
  h8 ← index header_data 8;
  h9 ← index header_data 9;
  t ← slice header_data 10 12; checksum ← to_array 2 t;
  t ← slice header_data 12 16; source ← to_array 4 t;
  t ← slice header_data 16 20; destination ← to_array 4 t;
  Done {|
    version := Z.shiftr h0 4;
    ihl := Z.land h0 0x0f;
    dscp := Z.shiftr h1 2;
    ecn := Z.land h1 0x03;
    total_length := from_be total;
    identification := from_be ident;
    flags := Z.shiftr h7 5;
    fragment_offset := from_be [Z.land h7 0x1f; h8];
    ttl := h8;
    protocol := protocol_from h9;
    header_checksum := from_be checksum;
    source_ip := source;
    destination_ip := destination |}.

Definition eth (p : Packet) : Ethernet.Packet := eth_packet p.

Definition payload (p : Packet) : outcome (list Z) :=
  raw_data ← content (eth_packet p);
  b0 ← index raw_data 0;
  let ihl := Z.land b0 0x0f in
  let header_size := ihl * 4 in
  slice_from raw_data header_size.

(** ** The builder *)

Record DSCPState := { dscp_dscp : Z }.
Record IdentificationState := { id_dscp : Z; id_ident : Z }.
Record TTLState := { ttl_dscp : Z; ttl_ident : Z; ttl_ttl : Z }.
Record ProtocolState := { pr_dscp : Z; pr_ident : Z; pr_ttl : Z; pr_protocol : Protocol }.
Record SourceState := {
  src_dscp : Z; src_ident : Z; src_ttl : Z; src_protocol : Protocol;
  src_source : list Z; src_source_mac : list Z }.
Record DestinationState := {
  dst_dscp : Z; dst_ident : Z; dst_ttl : Z; dst_protocol : Protocol;
  dst_source : list Z; dst_source_mac : list Z;
  dst_destination : list Z; dst_destination_mac : list Z }.

Definition set_dscp (dscp : Z) : DSCPState := {| dscp_dscp := dscp |}.

Definition set_identification (st : DSCPState) (ident : Z) : IdentificationState :=
  {| id_dscp := dscp_dscp st; id_ident := ident |}.

Definition set_ttl (st : IdentificationState) (ttl : Z) : TTLState :=
  {| ttl_dscp := id_dscp st; ttl_ident := id_ident st; ttl_ttl := ttl |}.

Definition set_protocol (st : TTLState) (protocol : Protocol) : ProtocolState :=
  {| pr_dscp := ttl_dscp st; pr_ident := ttl_ident st; pr_ttl := ttl_ttl st;
     pr_protocol := protocol |}.

Definition set_source (st : ProtocolState) (source source_mac : list Z) : SourceState :=
  {| src_dscp := pr_dscp st; src_ident := pr_ident st; src_ttl := pr_ttl st;
     src_protocol := pr_protocol st; src_source := source; src_source_mac := source_mac |}.

Definition set_destination (st : SourceState) (destination destination_mac : list Z) :
    DestinationState :=
  {| dst_dscp := src_dscp st; dst_ident := src_ident st; dst_ttl := src_ttl st;
     dst_protocol := src_protocol st; dst_source := src_source st;
     dst_source_mac := src_source_mac st;
     dst_destination := destination; dst_destination_mac := destination_mac |}.

(** The header literal of [finish], before [set_checksum]. *)
Definition builder_header (st : DestinationState) (total : Z) : PacketHeader := {|
  version := 4;
  ihl := 5;
  dscp := dst_dscp st;
  ecn := 0;
  total_length := cast 16 total;
  identification := dst_ident st;
  flags := 0;
  fragment_offset := 0;
  ttl := dst_ttl st;
  protocol := dst_protocol st;
  header_checksum := 0;
  source_ip := dst_source st;
  destination_ip := dst_destination st |}.

(** The closure [finish] hands to the Ethernet builder. *)
Definition ipv4_payload {B : Build} (st : DestinationState) (payload : payload_fn)
    (payload_size : Z) : payload_fn := fun eth_payload =>
  total ← add_w 64 20 payload_size;
  header ← set_checksum (builder_header st total);
  r ← with_slice eth_payload 0 20 (to_bytes header);
  _ ← unwrap_result r.2;
  let eth_payload := r.1 in
  r ← with_slice eth_payload 20 (len eth_payload) payload;
  let eth_payload := r.1 in
  match r.2 with
  | Err e => Done (eth_payload, Err e)
  | Ok size =>
      _ ← assert_eq size payload_size;
      total ← add_w 64 20 payload_size;
      Done (eth_payload, Ok total)
  end.

Definition finish {B : Build} (st : DestinationState) (payload : payload_fn) (payload_size : Z) :
    outcome (result Ethernet.Packet unit) :=
  Ethernet.finish
    (ether_ty (Ethernet.destination (source (dst_source_mac st)) (dst_destination_mac st))
       (ethtype_into Ethernet.Ipv4))
    (ipv4_payload st payload payload_size).

(** ** Proofs: codes *)

Lemma protocol_from_into p :
  (∀ raw, p = Unknown raw → raw ≠ 1 ∧ raw ≠ 6 ∧ raw ≠ 17) → protocol_from (protocol_into p) = p.
Proof.
  destruct p as [| | | raw]; try done. intros H. destruct (H raw eq_refl) as (? & ? & ?).
  unfold protocol_from. simpl. by repeat (rewrite (proj2 (Z.eqb_neq _ _)) by lia).
Qed.

Lemma protocol_into_from raw : protocol_into (protocol_from raw) = raw.
Proof. unfold protocol_from. repeat case_match; simpl; lia. Qed.

(** ** Proofs: the header's bytes *)

Definition wf_protocol (p : Protocol) : Prop := byte (protocol_into p).

(** The field types of [PacketHeader]. *)
Definition wf_header (h : PacketHeader) : Prop :=
  byte (version h) ∧ byte (ihl h) ∧ byte (dscp h) ∧ byte (ecn h)
  ∧ uint 16 (total_length h) ∧ uint 16 (identification h) ∧ byte (flags h)
  ∧ uint 16 (fragment_offset h) ∧ byte (ttl h) ∧ wf_protocol (protocol h)
  ∧ uint 16 (header_checksum h)
  ∧ (length (source_ip h) = 4%nat ∧ bytes (source_ip h))
  ∧ (length (destination_ip h) = 4%nat ∧ bytes (destination_ip h)).

Definition header_bytes (h : PacketHeader) : list Z :=
  [Z.lor (shl_w 8 (version h) 4) (Z.land (ihl h) 0x0f);
   Z.lor (shl_w 8 (dscp h) 1) (Z.land (ecn h) 0x01);
   (total_length h / 256) mod 256; total_length h mod 256;
   (identification h / 256) mod 256; identification h mod 256;
   Z.lor ((fragment_offset h / 256) mod 256) (shl_w 8 (flags h) 5); fragment_offset h mod 256;
   ttl h; protocol_into (protocol h);
   (header_checksum h / 256) mod 256; header_checksum h mod 256]
  ++ source_ip h ++ destination_ip h.

Lemma length_header_bytes h : wf_header h → length (header_bytes h) = 20%nat.
Proof.
  intros (_ & _ & _ & _ & _ & _ & _ & _ & _ & _ & _ & [? _] & [? _]).
  unfold header_bytes. len_lia.
Qed.

Lemma header_bytes_bytes h : wf_header h → bytes (header_bytes h).
Proof.
  intros (? & ? & ? & ? & ? & ? & ? & ? & ? & ? & ? & [_ ?] & [_ ?]).
  unfold header_bytes. rewrite !Forall_app. split_and!; [| done | done].
  repeat apply Forall_cons_2; auto 6 with rust.
Qed.

Lemma to_bytes_run h s :
  wf_header h → (20 ≤ length s)%nat → to_bytes h s = Done (header_bytes h ++ drop 20 s, Ok tt).
Proof.
  intros (_ & _ & _ & _ & _ & _ & _ & _ & _ & _ & _ & [H1 _] & [H2 _]) Hs.
  unfold to_bytes. rewrite (proj2 (Z.ltb_ge _ _)) by len_lia.
  change s with ([] ++ drop 0 s) at 1.
  rewrite write_next by len_lia. rewrite bind_Done_l.
  rewrite write_next by len_lia. rewrite bind_Done_l.
  do 3 (rewrite copy_next by len_lia; rewrite bind_Done_l).
  rewrite !length_to_be, !to_be2.
  match goal with |- context [index (?P ++ ?q) 6] =>
    lazymatch eval cbn [app] in P with [?a; ?b; ?c; ?d; ?e; ?f; ?g; ?h] =>
      change P with ([a; b; c; d; e; f] ++ g :: [h]) end
  end.
  rewrite index_mid by done. rewrite bind_Done_l.
  rewrite write_at_mid by done. rewrite bind_Done_l.
  do 2 (rewrite write_next by len_lia; rewrite bind_Done_l).
  do 3 (rewrite copy_next by len_lia; rewrite bind_Done_l).
  rewrite H1, H2. unfold header_bytes. rewrite !Z.lor_0_l.
  cbn [app length Nat.add]. by rewrite <- !app_assoc.
Qed.

(** ** Proofs: the checksum *)

(** The sum the checksum is computed from: the header's words, checksum zero. *)
Definition raw_sum (h : PacketHeader) : Z := Zsum (words (header_bytes (with_checksum h 0))).

Lemma wf_with_checksum h c : wf_header h → uint 16 c → wf_header (with_checksum h c).
Proof. unfold wf_header. simpl. tauto. Qed.

Lemma raw_sum_bound h : wf_header h → 0 ≤ raw_sum h ≤ 655350.
Proof.
  intros Hh. assert (wf_header (with_checksum h 0)) as H0 by by apply wf_with_checksum.
  pose proof (Zsum_bound _ (words_uint _ (header_bytes_bytes _ H0))) as Hb.
  rewrite len_words in Hb. unfold len in Hb. rewrite length_header_bytes in Hb by done.
  change (Z.of_nat 20 / 2) with 10 in Hb. unfold raw_sum. lia.
Qed.

Lemma header_words_sum h c :
  wf_header h → uint 16 c →
  Zsum (words (header_bytes (with_checksum h c))) = raw_sum h + c.
Proof.
  intros Hh Hc. unfold raw_sum, header_bytes. cbn [app with_checksum version ihl dscp ecn
    total_length identification flags fragment_offset ttl protocol header_checksum].
  rewrite !words_cons. cbn [Zsum foldr].
  unfold uint in Hc. change (2 ^ 16) with 65536 in Hc.
  change (0 / 256 mod 256) with 0. change (0 mod 256) with 0.
  assert ((c / 256) mod 256 * 256 + c mod 256 = c) by (Z.div_mod_to_equations; lia).
  cbn [source_ip destination_ip with_checksum]. unfold Zsum. lia.
Qed.

Lemma set_checksum_run {B : Build} h :
  wf_header h →
  set_checksum h =
  if fold_once (raw_sum h) <? 65536 then
    Done (with_checksum h (65535 - fold_once (raw_sum h)))
  else if overflow_checks then Panicked ArithOverflow
  else Done (with_checksum h (65535 - (fold_once (raw_sum h) - 65536))).
Proof.
  intros Hh. unfold set_checksum.
  assert (wf_header (with_checksum h 0)) as H0 by by apply wf_with_checksum.
  rewrite to_bytes_run by (try done; len_lia). rewrite bind_Done_l. cbn [fst].
  rewrite drop_replicate, app_nil_r. pose proof (raw_sum_bound h Hh) as Hb.
  rewrite sum_u32_ok; [| by apply words_uint, header_bytes_bytes | lia |]; last first.
  { rewrite len_words. unfold len. rewrite length_header_bytes by done. done. }
  rewrite bind_Done_l, Z.add_0_l. fold (raw_sum h).
  replace (cast 16 (Z.land (raw_sum h) 0xffff)) with (cast 16 (raw_sum h)); last first.
  { unfold cast. by rewrite (Z.land_ones _ 16 : _ → Z.land _ 0xffff = _), Z.mod_mod by lia. }
  rewrite fold_add_run by lia.
  destruct (_ <? 65536); [| destruct overflow_checks]; done.
Qed.

Lemma fold_header_bound h : wf_header h → 0 ≤ fold_once (raw_sum h) < 131072.
Proof. intros Hh. pose proof (raw_sum_bound h Hh). apply fold_once_bound. lia. Qed.

Lemma set_checksum_verifies h :
  wf_header h → fold_once (raw_sum h) < 65536 →
  let c := 65535 - fold_once (raw_sum h) in
  uint 16 c ∧ verifies (words (header_bytes (with_checksum h c))) = true.
Proof.
  intros Hh Hr c. pose proof (fold_header_bound h Hh). pose proof (raw_sum_bound h Hh) as [? _].
  assert (uint 16 c) by (unfold uint, c; lia). split; [done |].
  apply (verifies_complement (words (header_bytes (with_checksum h 0)))); try done.
  - by apply words_uint, header_bytes_bytes, wf_with_checksum.
  - by apply header_words_sum.
Qed.

(** C19: [set_checksum] changes nothing but the checksum field, and the header
    it returns is the one an RFC 1071 receiver accepts exactly when adding
    the carries back once leaves 16 bits; when it does not, a build with
    overflow checks panics and one without returns a header every receiver
    rejects. *)
Theorem ipv4_set_checksum_spec {B : Build} (h : PacketHeader) :
  wf_header h →
  if fold_once (raw_sum h) <? 65536 then
    ∃ c, set_checksum h = Done (with_checksum h c) ∧ uint 16 c
      ∧ verifies (words (header_bytes (with_checksum h c))) = true
  else if overflow_checks then set_checksum h = Panicked ArithOverflow
  else ∃ c, set_checksum h = Done (with_checksum h c) ∧ uint 16 c
      ∧ verifies (words (header_bytes (with_checksum h c))) = false.
Proof.
  intros Hh. rewrite set_checksum_run by done. pose proof (raw_sum_bound h Hh) as [? _].
  pose proof (fold_header_bound h Hh).
  destruct (Z.ltb_spec (fold_once (raw_sum h)) 65536) as [Hr | Hr];
    [| destruct overflow_checks; [done |]]; (eexists; split; [done |]).
  - by apply set_checksum_verifies.
  - assert (uint 16 (65535 - (fold_once (raw_sum h) - 65536))) by (unfold uint; lia).
    split; [done |].
    apply (verifies_lost_carry (words (header_bytes (with_checksum h 0)))); try done.
    + by apply words_uint, header_bytes_bytes, wf_with_checksum.
    + fold (raw_sum h). lia.
    + by apply header_words_sum.
Qed.

(** A header whose sum needs its carries added back twice. *)
Definition carry_header : PacketHeader := {|
  version := 4; ihl := 5; dscp := 0; ecn := 0; total_length := 20;
  identification := 0xbae9; flags := 0; fragment_offset := 0; ttl := 0;
  protocol := Unknown 0; header_checksum := 0;
  source_ip := [0xff; 0xff; 0; 0]; destination_ip := [0; 0; 0; 3] |}.

Lemma ipv4_set_checksum_spec_witness :
  fold_once (raw_sum carry_header) = 65536
  ∧ @set_checksum debug_build carry_header = Panicked ArithOverflow
  ∧ ∃ c, @set_checksum release_build carry_header = Done (with_checksum carry_header c)
      ∧ verifies (words (header_bytes (with_checksum carry_header c))) = false.
Proof.
  assert (wf_header carry_header) as Hh.
  { split_and!; try by vm_compute. all: repeat constructor; by vm_compute. }
  split; [by vm_compute |]. split.
  - exact (@ipv4_set_checksum_spec debug_build carry_header Hh).
  - destruct (@ipv4_set_checksum_spec release_build carry_header Hh) as (c & H1 & _ & H2).
    by exists c.
Defined.

(** ** Proofs: reading a header *)

(** [header] returns exactly on content that holds a whole header of at
    least five words; every other received packet makes it panic. *)
Theorem ipv4_header_returns (p : Packet) (c : list Z) :
  content (eth_packet p) = Done c → bytes c →
  (returns (header p) ↔
     ∃ b0, c !! 0%nat = Some b0 ∧ 5 ≤ Z.land b0 0x0f ∧ 4 * Z.land b0 0x0f ≤ len c)
  ∧ (returns (header p) ∨ panics (header p)).
Proof.
  intros Hc Hb. unfold header. rewrite Hc, bind_Done_l. destruct c as [| b0 c].
  { split; [| right; by eexists]. split; [by intros [? ?] | by intros (? & ? & _)]. }
  change (index (b0 :: c) 0) with (Done b0). rewrite bind_Done_l. cbv zeta.
  assert (0 ≤ Z.land b0 15 < 16) as Hihl by by apply (uint_land 4).
  set (n := Z.land b0 15) in *.
  destruct (decide (n * 4 ≤ len (b0 :: c))) as [Hlen | Hlen]; last first.
  { rewrite slice_bad by lia. split; [| right; by eexists].
    split; [by intros [? ?] |]. intros (b & [= <-] & ? & ?). subst n. lia. }
  rewrite slice_ok by lia. rewrite bind_Done_l.
  set (hd := sub (b0 :: c) 0 (n * 4)).
  assert (len hd = n * 4) as Hhd.
  { unfold hd. unfold len at 1. rewrite length_sub; lia. }
  destruct (decide (5 ≤ n)) as [Hn | Hn].
  - assert (∀ i, 0 ≤ i < 20 → returns (index hd i)) as Hi by (intros; apply index_in; lia).
    destruct (Hi 0) as [h0 ->]; [lia |]. destruct (Hi 1) as [h1 ->]; [lia |].
    rewrite !bind_Done_l, !array_read_bind by lia.
    destruct (Hi 7) as [h7 ->]; [lia |]. destruct (Hi 8) as [h8 ->]; [lia |].
    destruct (Hi 9) as [h9 ->]; [lia |].
    rewrite !bind_Done_l, !array_read_bind by lia.
    split; [| left; by eexists]. split; [| intros; by eexists]. intros _. exists b0.
    split_and!; [done | done | subst n; lia].
  - match goal with |- context [returns ?m] => assert (panics m) as [why Hp] end.
    { assert (n = 0 ∨ n = 1 ∨ n = 2 ∨ n = 3 ∨ n = 4) as Hcase by lia. clearbody hd n.
      unfold len in Hhd.
      do 20 (destruct hd as [| ? hd]; [first [exfalso; simpl in Hhd; lia | by eexists] |]).
      exfalso. simpl in Hhd. lia. }
    rewrite Hp. split; [| right; by eexists]. split; [by intros [? ?] |].
    intros (b & [= <-] & ? & ?). subst n. lia.
Qed.

Lemma ipv4_header_returns_witness :
  let short := packet_new (Ethernet.packet_new (new (replicate 14 0 ++ [0x44] ++ replicate 45 0))) in
  panics (header short).
Proof.
  set (short := packet_new _). simpl.
  assert (∃ c, content (eth_packet short) = Done c ∧ c = [0x44] ++ replicate 45 0) as (c & Hc & ->).
  { eexists. split; by vm_compute. }
  destruct (ipv4_header_returns short _ Hc) as [Hr [H | H]].
  - apply Forall_app. split; [repeat constructor; by vm_compute | apply zeros_bytes].
  - exfalso. apply Hr in H as (b0 & [= <-] & H & _). by vm_compute in H.
  - exact H.
Defined.

(** What [header] reads off a 20-byte header. *)
Lemma header_of_bytes p b0 b1 b2 b3 b4 b5 b6 b7 b8 b9 b10 b11 src dst rest :
  content (eth_packet p) =
    Done (([b0; b1; b2; b3; b4; b5; b6; b7; b8; b9; b10; b11] ++ src ++ dst) ++ rest) →
  length src = 4%nat → length dst = 4%nat → Z.land b0 0x0f = 5 →
  header p = Done {|
    version := Z.shiftr b0 4; ihl := 5; dscp := Z.shiftr b1 2; ecn := Z.land b1 0x03;
    total_length := from_be [b2; b3]; identification := from_be [b4; b5];
    flags := Z.shiftr b7 5; fragment_offset := from_be [Z.land b7 0x1f; b8];
    ttl := b8; protocol := protocol_from b9; header_checksum := from_be [b10; b11];
    source_ip := src; destination_ip := dst |}.
Proof.
  intros Hc Hsrc Hdst Hihl. unfold header. rewrite Hc, bind_Done_l.
  explode_list src. explode_list dst.
  match goal with |- context [index ?s 0] => change (index s 0) with (Done b0) end.
  rewrite bind_Done_l. cbv zeta. rewrite Hihl, slice_ok by len_lia. rewrite bind_Done_l.
  match goal with |- context [sub ?s 0 (5 * 4)] =>
    let v := eval vm_compute in (sub s 0 (5 * 4)) in change (sub s 0 (5 * 4)) with v end.
  run_reads. by rewrite Hihl.
Qed.

Lemma payload_of_bytes p b0 bs rest :
  content (eth_packet p) = Done ((b0 :: bs) ++ rest) →
  length bs = 19%nat → Z.land b0 0x0f = 5 → payload p = Done rest.
Proof.
  intros Hc Hl Hihl. unfold payload. rewrite Hc, bind_Done_l.
  change (index ((b0 :: bs) ++ rest) 0) with (Done b0). rewrite bind_Done_l. cbv zeta.
  rewrite Hihl. unfold slice_from. rewrite slice_ok by len_lia.
  f_equal. rewrite sub_app_r, sub_to_end by len_lia.
  replace (Z.to_nat _) with 0%nat by len_lia. apply drop_0.
Qed.

(** ** Proofs: the builder *)

Definition wf_dst (st : DestinationState) : Prop :=
  byte (dst_dscp st) ∧ uint 16 (dst_ident st) ∧ byte (dst_ttl st) ∧ wf_protocol (dst_protocol st)
  ∧ (length (dst_source st) = 4%nat ∧ bytes (dst_source st)) ∧ wf_mac (dst_source_mac st)
  ∧ (length (dst_destination st) = 4%nat ∧ bytes (dst_destination st))
  ∧ wf_mac (dst_destination_mac st).

Lemma wf_builder_header st total : wf_dst st → wf_header (builder_header st total).
Proof.
  intros (? & ? & ? & ? & [? ?] & ? & [? ?] & ?). unfold wf_header. simpl.
  split_and!; auto with rust.
Qed.

Lemma to_bytes_keeps h s s' r : wf_header h → to_bytes h s = Done (s', r) → keeps s s'.
Proof.
  intros Hh Hr. destruct (decide (20 ≤ length s)%nat) as [Hs | Hs].
  - rewrite to_bytes_run in Hr by done.
    assert (s' = header_bytes h ++ drop 20 s) as -> by congruence. split.
    + rewrite length_app, length_header_bytes, length_drop by done. lia.
    + intros. apply Forall_app. split; [by apply header_bytes_bytes | by apply Forall_drop].
  - unfold to_bytes in Hr. rewrite (proj2 (Z.ltb_lt _ _)) in Hr by len_lia.
    by injection Hr as <- _.
Qed.

Section builder.
Context {B : Build} (st : DestinationState) (f : payload_fn) (size : Z).
Context (Hst : wf_dst st) `{Hf : !PayloadFn f}.

Lemma set_checksum_wf h h' : wf_header h → set_checksum h = Done h' → wf_header h'.
Proof.
  intros Hh. rewrite set_checksum_run by done. pose proof (fold_header_bound h Hh).
  repeat case_match; intros [= <-]; (apply wf_with_checksum; [done |]); unfold uint; lia.
Qed.

Lemma ipv4_payload_fn : PayloadFn (ipv4_payload st f size).
Proof.
  intros s s' r Hr. unfold ipv4_payload in Hr.
  apply bind_done in Hr as (total & _ & Hr).
  apply bind_done in Hr as (h & Hh & Hr).
  apply set_checksum_wf in Hh; [| by apply wf_builder_header].
  apply bind_done in Hr as ([s1 r1] & H1 & Hr).
  apply bind_done in Hr as (_ & _ & Hr).
  apply bind_done in Hr as ([s2 r2] & H2 & Hr). cbn [fst snd] in *.
  transitivity s1; [eapply with_slice_keeps; [| exact H1]; eauto using to_bytes_keeps |].
  apply with_slice_keeps in H2; [| eauto using payload_keeps].
  destruct r2; done_inv; done.
Qed.

Lemma ipv4_payload_run s h t :
  set_checksum (builder_header st (20 + size)) = Done h →
  (20 ≤ length s)%nat → uint 64 (20 + size) →
  f (drop 20 s) = Done (t, Ok size) →
  ipv4_payload st f size s = Done (header_bytes h ++ t, Ok (20 + size)).
Proof.
  intros Hh Hs Hsize Ht. unfold ipv4_payload, add_w. rewrite arith_in by done.
  rewrite bind_Done_l, Hh, bind_Done_l.
  pose proof (set_checksum_wf _ _ (wf_builder_header st _ Hst) Hh) as Hwf.
  rewrite (with_slice_head s 20 20 _ (header_bytes h) (Ok tt));
    [| done | done | | by apply length_header_bytes].
  2: { rewrite to_bytes_run by (try done; len_lia). rewrite drop_ge by len_lia.
       by rewrite app_nil_r. }
  rewrite bind_Done_l. cbn [fst snd unwrap_result]. rewrite bind_Done_l.
  rewrite with_slice_tail;
    [| unfold len; by rewrite length_header_bytes | done].
  rewrite Ht, !bind_Done_l. cbn [fst snd].
  unfold assert_eq. rewrite Z.eqb_refl. cbv iota. rewrite !bind_Done_l.
  rewrite splice_tail; [done | unfold len; by rewrite length_header_bytes |].
  by eapply payload_length.
Qed.

End builder.

(** The header [header] reads back from a packet built from [st] with a
    payload of [size] bytes and checksum [c].  The DSCP field is written one
    bit lower than it is read, and the fragment offset is read from the
    bytes that hold its low half and the TTL. *)
Definition parsed_header (st : DestinationState) (size c : Z) : PacketHeader := {|
  version := 4;
  ihl := 5;
  dscp := Z.shiftr (shl_w 8 (dst_dscp st) 1) 2;
  ecn := Z.land (shl_w 8 (dst_dscp st) 1) 0x03;
  total_length := 20 + size;
  identification := dst_ident st;
  flags := 0;
  fragment_offset := dst_ttl st;
  ttl := dst_ttl st;
  protocol := protocol_from (protocol_into (dst_protocol st));
  header_checksum := c;
  source_ip := dst_source st;
  destination_ip := dst_destination st |}.

Lemma from_be_pair v : uint 16 v → from_be [(v / 256) mod 256; v mod 256] = v.
Proof. intros. rewrite <- to_be2. by apply from_be_to_be2. Qed.

Lemma header_parsed st size c p rest :
  wf_dst st → uint 16 (20 + size) → uint 16 c →
  content (eth_packet p) =
    Done (header_bytes (with_checksum (builder_header st (20 + size)) c) ++ rest) →
  header p = Done (parsed_header st size c) ∧ payload p = Done rest.
Proof.
  intros (? & ? & ? & ? & [? ?] & ? & [? ?] & ?) Hs Hc Hcontent. split.
  - erewrite header_of_bytes; [| exact Hcontent | done | done | done].
    unfold parsed_header, with_checksum, builder_header. cbn [version ihl dscp ecn total_length
      identification flags fragment_offset ttl protocol header_checksum source_ip destination_ip].
    rewrite (cast_small 16 (20 + size)) by done. rewrite !from_be_pair by done.
    change (Z.land 0 1) with 0. by rewrite !Z.lor_0_r.
  - eapply payload_of_bytes; [exact Hcontent | | done].
    simpl. rewrite length_app. lia.
Qed.

Definition eth_state (st : DestinationState) : EtherTypeState :=
  ether_ty (Ethernet.destination (source (dst_source_mac st)) (dst_destination_mac st))
    (ethtype_into Ethernet.Ipv4).

Lemma wf_eth_state_dst st : wf_dst st → wf_eth_state (eth_state st).
Proof.
  intros (? & ? & ? & ? & ? & ? & ? & ?). split_and!; simpl; auto.
  repeat constructor; by vm_compute.
Qed.

(** The frame [finish] builds around a payload closure that succeeds, once the
    checksum is found. *)
Lemma ipv4_finish_checked {B : Build} st f size t c :
  let h := with_checksum (builder_header st (20 + size)) c in
  wf_dst st → PayloadFn f → 0 ≤ size ≤ 1466 → uint 16 c →
  set_checksum (builder_header st (20 + size)) = Done h →
  f (replicate 1466 0) = Done (t, Ok size) →
  ∃ e, finish st f size = Done (Ok e)
    ∧ e = frame (eth_state st) (header_bytes h ++ t) (20 + size)
    ∧ length (header_bytes h ++ t) = 1486%nat
    ∧ content e = Done (header_bytes h ++ take (Z.to_nat (Z.max size 26)) t)
    ∧ length (header_bytes h) = 20%nat.
Proof.
  intros h Hst Hf Hsize Hc Hset Ht.
  pose proof (wf_builder_header st (20 + size) Hst) as Hh.
  pose proof (length_header_bytes h (wf_with_checksum _ c Hh Hc)) as Hlh.
  pose proof (payload_length f _ _ _ Ht) as Hlt. autorewrite with lengths in Hlt.
  assert (Hrun : ipv4_payload st f size (replicate 1486 0)
                 = Done (header_bytes h ++ t, Ok (20 + size))).
  { apply ipv4_payload_run; [done | done | done | len_lia | unfold uint; lia |].
    by rewrite drop_replicate. }
  pose proof (ipv4_payload_fn st f size Hst) as Hpf.
  pose proof (wf_eth_state_dst st Hst) as Heth.
  assert (length (header_bytes h ++ t) = 1486%nat) as Hlen by (rewrite length_app; lia).
  exists (frame (eth_state st) (header_bytes h ++ t) (20 + size)). split_and!; try done.
  - unfold finish. erewrite eth_finish_ok; [done | done | done | exact Hrun | lia].
  - rewrite frame_content by (done || lia). f_equal.
    rewrite take_app_ge, Hlh by lia. do 2 f_equal. lia.
Qed.

(** A frame is built only when the checksum is found. *)
Lemma ipv4_finish_checksum {B : Build} st f size e :
  wf_dst st → PayloadFn f → 0 ≤ size ≤ 1466 → finish st f size = Done (Ok e) →
  ∃ c, uint 16 c ∧ set_checksum (builder_header st (20 + size))
                   = Done (with_checksum (builder_header st (20 + size)) c).
Proof.
  intros Hst Hf Hsize Hr. unfold finish in Hr. pose proof (ipv4_payload_fn st f size Hst) as Hpf.
  rewrite (eth_finish_run _ _ (wf_eth_state_dst st Hst)) in Hr.
  apply bind_done in Hr as ([s r] & Hp & _). unfold ipv4_payload, add_w in Hp.
  rewrite arith_in, bind_Done_l in Hp by (unfold uint; lia).
  apply bind_done in Hp as (h & Hh & _). pose proof (wf_builder_header st (20 + size) Hst) as Hwf.
  rewrite set_checksum_run in Hh |- * by done. pose proof (fold_header_bound _ Hwf).
  destruct (Z.ltb_spec (fold_once (raw_sum (builder_header st (20 + size)))) 65536);
    [| destruct overflow_checks; [done |]]; (eexists; split; [| reflexivity]); unfold uint; lia.
Qed.

(** With header words that need one fold the checksum is found and verifies. *)
Lemma ipv4_finish_frame {B : Build} st f size t :
  wf_dst st → PayloadFn f → 0 ≤ size ≤ 1466 →
  fold_once (raw_sum (builder_header st (20 + size))) < 65536 →
  f (replicate 1466 0) = Done (t, Ok size) →
  ∃ e c, let h := with_checksum (builder_header st (20 + size)) c in
    finish st f size = Done (Ok e) ∧ uint 16 c
    ∧ e = frame (eth_state st) (header_bytes h ++ t) (20 + size)
    ∧ length (header_bytes h ++ t) = 1486%nat
    ∧ content e = Done (header_bytes h ++ take (Z.to_nat (Z.max size 26)) t)
    ∧ length (header_bytes h) = 20%nat
    ∧ verifies (words (header_bytes h)) = true.
Proof.
  intros Hst Hf Hsize Hck Ht.
  pose proof (wf_builder_header st (20 + size) Hst) as Hh.
  pose proof (set_checksum_run (builder_header st (20 + size)) Hh) as Hset.
  pose proof (set_checksum_verifies (builder_header st (20 + size)) Hh Hck) as [Hc Hver].
  rewrite (proj2 (Z.ltb_lt _ _)) in Hset by done.
  destruct (ipv4_finish_checked st f size t _ Hst Hf Hsize Hc Hset Ht) as (e & ? & ? & ? & ? & ?).
  by eexists e, _.
Qed.

(** DSCP is written shifted by one bit and read shifted by two: it reads back
    halved, and its lowest bit lands in the ECN. *)
Lemma parsed_dscp st size c :
  0 ≤ dst_dscp st →
  dscp (parsed_header st size c) = (dst_dscp st mod 128) / 2
  ∧ ecn (parsed_header st size c) = 2 * (dst_dscp st mod 2).
Proof.
  intros Hd. unfold parsed_header, shl_w, cast. cbn [dscp ecn].
  change 0x03 with (Z.ones 2). rewrite Z.land_ones by lia.
  rewrite Z.shiftl_mul_pow2, Z.shiftr_div_pow2 by lia. change (2 ^ 8) with 256. change (2 ^ 1) with 2.
  change (2 ^ 2) with 4. split; Z.to_euclidean_division_equations; lia.
Qed.

(** C18: building an IPv4 packet and reading it back.  For a payload closure
    that writes [size] bytes, and header words whose sum needs its carries
    folded once only, the frame is an Ethernet frame of type IPv4 between the
    given MACs, its header verifies under RFC 1071, and the length, the
    identification, the TTL, the protocol number, the two addresses and the
    payload, followed by the padding that fills a 60-byte frame, read back as
    the builder was given them.  Three fields do not: DSCP reads back halved, the
    ECN shows its lowest bit, and the fragment offset shows the TTL. *)
Theorem ipv4_roundtrip {B : Build} (st : DestinationState) (f : payload_fn) (size : Z) (t : list Z) :
  wf_dst st → PayloadFn f → 0 ≤ size ≤ 1466 →
  fold_once (raw_sum (builder_header st (20 + size))) < 65536 →
  f (replicate 1466 0) = Done (t, Ok size) →
  ∃ e c, finish st f size = Done (Ok e)
    ∧ destination_mac e = Done (dst_destination_mac st)
    ∧ source_mac e = Done (dst_source_mac st)
    ∧ ether_type e = Done Ethernet.Ipv4
    ∧ (∃ h, header (packet_new e) = Done h ∧ h = parsed_header st size c
         ∧ total_length h = 20 + size ∧ identification h = dst_ident st ∧ ttl h = dst_ttl st
         ∧ protocol_into (protocol h) = protocol_into (dst_protocol st)
         ∧ source_ip h = dst_source st ∧ destination_ip h = dst_destination st
         ∧ dscp h = (dst_dscp st mod 128) / 2 ∧ ecn h = 2 * (dst_dscp st mod 2)
         ∧ fragment_offset h = dst_ttl st)
    ∧ payload (packet_new e) = Done (take (Z.to_nat (Z.max size 26)) t)
    ∧ (∃ bs, content e = Done bs ∧ verifies (words (take 20 bs)) = true).
Proof.
  intros Hst Hf Hsize Hck Ht.
  destruct (ipv4_finish_frame st f size t Hst Hf Hsize Hck Ht)
    as (e & c & Hfin & Hc & He & Hlen & Hcontent & Hlh & Hver).
  pose proof (wf_eth_state_dst st Hst) as Heth.
  exists e, c.
  destruct (header_parsed st size c (packet_new e) _ Hst ltac:(unfold uint; lia) Hc Hcontent)
    as [-> ->].
  assert (0 ≤ dst_dscp st) as Hd by (destruct Hst as [[? ?] _]; lia).
  destruct (parsed_dscp st size c Hd). split_and!; try done.
  - by rewrite He, frame_destination_mac by (done || lia).
  - by rewrite He, frame_source_mac by (done || lia).
  - by rewrite He, frame_ether_type by (done || lia).
  - eexists. split; [reflexivity |]. cbn [protocol parsed_header]. by rewrite protocol_into_from.
  - eexists. split; [exact Hcontent |]. by rewrite take_app_le, take_ge by lia.
Qed.

Definition sample_dst : DestinationState :=
  set_destination (set_source (set_protocol (set_ttl (set_identification (set_dscp 0) 0x1234) 20)
    Icmp) [10; 0; 2; 15] [2; 0; 0; 0; 0; 1]) [10; 0; 2; 2] [2; 0; 0; 0; 0; 2].

Lemma wf_sample_dst : wf_dst sample_dst.
Proof. split_and!; try by vm_compute. all: repeat constructor; by vm_compute. Qed.

Lemma ipv4_roundtrip_witness :
  ∃ e c, @finish debug_build sample_dst no_payload 0 = Done (Ok e)
    ∧ header (packet_new e) = Done (parsed_header sample_dst 0 c)
    ∧ payload (packet_new e) = Done (replicate 26 0).
Proof.
  destruct (@ipv4_roundtrip debug_build sample_dst no_payload 0 (replicate 1466 0)
    wf_sample_dst _ ltac:(lia) ltac:(by vm_compute) eq_refl)
    as (e & c & H1 & _ & _ & _ & (h & H2 & -> & _) & H3 & _).
  exists e, c. split; [exact H1 |]. split; [exact H2 |]. exact H3.
Defined.
