(* ===== verification/Udp.v ===== *)
(** * UDP

    [src/src/extensions/networking/protocols/udp.rs]: the header, the datagram
    view over an IPv4 packet and the builder on top of the IPv4 builder. *)

From stdpp Require Import base tactics list numbers.
From Stdlib Require Import ZArith Lia.
From S2P Require Import Prelude Checksum Buffer Ethernet Ipv4.

Local Open Scope Z_scope.

Record Packet := mk_packet { ip_packet : Ipv4.Packet }.

Record PacketHeader := {
  source_port : Z;
  destination_port : Z;
  length_ : Z;
  checksum : Z }.

(** [impl TryFrom<&[u8]> for PacketHeader] *)
Definition header_try_from (value : list Z) : outcome (result PacketHeader unit) :=
  if len value <? 8 then Done (Err tt) else
  t ← slice value 0 2; source_port ← to_array 2 t;
  t ← slice value 2 4; destination_port ← to_array 2 t;
  t ← slice value 4 6; length ← to_array 2 t;
  t ← slice value 6 8; checksum ← to_array 2 t;
  Done (Ok {|
    source_port := from_be source_port;
    destination_port := from_be destination_port;
    length_ := from_be length;
    checksum := from_be checksum |}).

(** [PacketHeader::to_bytes] *)
Definition to_bytes (h : PacketHeader) (buffer : list Z) : outcome (list Z * result unit unit) :=
  if len buffer <? 8 then Done (buffer, Err tt) else
  buffer ← copy_into buffer 0 2 (to_be 2 (source_port h));
  buffer ← copy_into buffer 2 4 (to_be 2 (destination_port h));
  buffer ← copy_into buffer 4 6 (to_be 2 (length_ h));
  buffer ← copy_into buffer 6 8 (to_be 2 (checksum h));
  Done (buffer, Ok tt).

Definition packet_new (p : Ipv4.Packet) : Packet := {| ip_packet := p |}.

Definition header (p : Packet) : outcome PacketHeader :=
  ip_payload ← Ipv4.payload (ip_packet p);
  t ← slice ip_payload 0 8;
  r ← header_try_from t;
  unwrap_result r.

Definition payload (p : Packet) : outcome (list Z) :=
  ip_payload ← Ipv4.payload (ip_packet p);
  slice_from ip_payload 8.

Definition get_ip_packet (p : Packet) : Ipv4.Packet := ip_packet p.

(** ** The builder *)

Record SourcePort := { sp_source_port : Z }.
Record DestinationPort := { dp_source_port : Z; dp_destination_port : Z }.

Definition set_source_port (port : Z) : SourcePort := {| sp_source_port := port |}.

Definition set_destination_port (st : SourcePort) (port : Z) : DestinationPort :=
  {| dp_source_port := sp_source_port st; dp_destination_port := port |}.

(** The closure [finish] hands to the IPv4 builder. *)
Definition udp_payload {B : Build} (st : DestinationPort) (payload : payload_fn)
    (payload_size : Z) : payload_fn := fun ip_payload =>
  total ← add_w 64 8 payload_size;
  let header := {|
    source_port := dp_source_port st;
    destination_port := dp_destination_port st;
    length_ := cast 16 total;
    checksum := 0 |} in
  r ← with_slice ip_payload 0 8 (to_bytes header);
  let ip_payload := r.1 in
  r ← with_slice ip_payload 8 (len ip_payload) payload;
  let ip_payload := r.1 in
  match r.2 with
  | Err e => Done (ip_payload, Err e)
  | Ok size =>
      _ ← assert_eq size payload_size;
      total ← add_w 64 8 payload_size;
      Done (ip_payload, Ok total)
  end.

Definition finish {B : Build} (st : DestinationPort) (ip_packet_builder : Ipv4.DestinationState)
    (payload : payload_fn) (payload_size : Z) : outcome (result Ethernet.Packet unit) :=
  size ← add_w 64 8 payload_size;
  Ipv4.finish ip_packet_builder (udp_payload st payload payload_size) size.

(** ** Proofs *)

Definition header_bytes (h : PacketHeader) : list Z :=
  to_be 2 (source_port h) ++ to_be 2 (destination_port h) ++ to_be 2 (length_ h)
  ++ to_be 2 (checksum h).

Definition wf_header (h : PacketHeader) : Prop :=
  uint 16 (source_port h) ∧ uint 16 (destination_port h) ∧ uint 16 (length_ h)
  ∧ uint 16 (checksum h).

Lemma udp_to_bytes_run h s :
  (8 ≤ length s)%nat → to_bytes h s = Done (header_bytes h ++ drop 8 s, Ok tt).
Proof.
  intros Hs. unfold to_bytes. rewrite (proj2 (Z.ltb_ge _ _)) by len_lia.
  change s with ([] ++ drop 0 s) at 1.
  do 4 (rewrite copy_next by len_lia; rewrite bind_Done_l).
  rewrite !length_to_be. unfold header_bytes. by rewrite <- !app_assoc.
Qed.

Lemma length_udp_header h : length (header_bytes h) = 8%nat.
Proof. reflexivity. Qed.

Lemma udp_header_bytes h : bytes (header_bytes h).
Proof. unfold header_bytes. rewrite !Forall_app. auto using to_be_bytes. Qed.

Lemma header_try_from_bytes h rest :
  wf_header h → header_try_from (header_bytes h ++ rest) = Done (Ok h).
Proof.
  intros (H1 & H2 & H3 & H4). unfold header_try_from.
  rewrite (proj2 (Z.ltb_ge _ _)) by (unfold len; rewrite length_app, length_udp_header; lia).
  unfold header_bytes. rewrite !to_be2. cbn [app].
  rewrite !array_read_bind by len_lia. destruct h as [sp dp l c]. simpl in *.
  do 3 f_equal; by apply from_be_pair.
Qed.

(** A header written to a buffer parses back to itself, whatever follows it. *)
Theorem udp_header_roundtrip (h : PacketHeader) (s : list Z) :
  wf_header h →
  if len s <? 8 then to_bytes h s = Done (s, Err tt) ∧ header_try_from s = Done (Err tt)
  else ∃ s', to_bytes h s = Done (s', Ok tt) ∧ length s' = length s
    ∧ header_try_from s' = Done (Ok h) ∧ drop 8 s' = drop 8 s.
Proof.
  intros Hh. destruct (Z.ltb_spec (len s) 8) as [Hs | Hs].
  - unfold to_bytes, header_try_from. by rewrite !(proj2 (Z.ltb_lt _ _)) by done.
  - rewrite udp_to_bytes_run by len_lia. eexists. split; [done |]. split_and!.
    + rewrite length_app, length_udp_header, length_drop. len_lia.
    + by apply header_try_from_bytes.
    + by rewrite drop_app_ge, length_udp_header, drop_0 by (rewrite length_udp_header; lia).
Qed.

Lemma udp_header_roundtrip_witness :
  let h := {| source_port := 68; destination_port := 67; length_ := 8; checksum := 0 |} in
  ∃ s', to_bytes h (replicate 8 0) = Done (s', Ok tt) ∧ header_try_from s' = Done (Ok h).
Proof.
  intros h. assert (wf_header h) as Hh by by vm_compute.
  destruct (udp_header_roundtrip h (replicate 8 0) Hh) as (s' & H1 & _ & H2 & _).
  by exists s'.
Defined.

(** ** Proofs: the builder *)

Definition udp_header (st : DestinationPort) (size : Z) : PacketHeader := {|
  source_port := dp_source_port st; destination_port := dp_destination_port st;
  length_ := 8 + size; checksum := 0 |}.

Lemma udp_to_bytes_keeps h s s' r : to_bytes h s = Done (s', r) → keeps s s'.
Proof.
  intros Hr. destruct (decide (8 ≤ length s)%nat) as [Hs | Hs].
  - rewrite udp_to_bytes_run in Hr by done.
    assert (s' = header_bytes h ++ drop 8 s) as -> by congruence. split.
    + rewrite length_app, length_udp_header, length_drop. lia.
    + intros. apply Forall_app. auto using udp_header_bytes, Forall_drop.
  - unfold to_bytes in Hr. rewrite (proj2 (Z.ltb_lt _ _)) in Hr by len_lia.
    by injection Hr as <- _.
Qed.

Section builder.
Context {B : Build} (st : DestinationPort) (f : payload_fn) (size : Z).
Context `{Hf : !PayloadFn f}.

#[export] Instance udp_payload_fn : PayloadFn (udp_payload st f size).
Proof.
  intros s s' r Hr. unfold udp_payload in Hr.
  apply bind_done in Hr as (total & _ & Hr).
  apply bind_done in Hr as ([s1 r1] & H1 & Hr).
  apply bind_done in Hr as ([s2 r2] & H2 & Hr). cbn [fst snd] in *.
  transitivity s1; [eapply with_slice_keeps; [| exact H1]; eauto using udp_to_bytes_keeps |].
  apply with_slice_keeps in H2; [| eauto using payload_keeps].
  destruct r2; done_inv; done.
Qed.

Lemma udp_payload_run s t :
  (8 ≤ length s)%nat → uint 16 (8 + size) → f (drop 8 s) = Done (t, Ok size) →
  udp_payload st f size s = Done (header_bytes (udp_header st size) ++ t, Ok (8 + size)).
Proof.
  intros Hs Hsize Ht. unfold udp_payload, add_w.
  rewrite arith_in by (unfold uint in *; lia). rewrite bind_Done_l, cast_small by done.
  fold (udp_header st size).
  rewrite (with_slice_head s 8 8 _ (header_bytes (udp_header st size)) (Ok tt)); [| done | done | | done].
  2: { rewrite udp_to_bytes_run by len_lia. rewrite drop_ge by len_lia. by rewrite app_nil_r. }
  rewrite bind_Done_l. cbn [fst]. rewrite with_slice_tail by done.
  rewrite Ht, !bind_Done_l. cbn [fst snd].
  unfold assert_eq. rewrite Z.eqb_refl. cbv iota. rewrite !bind_Done_l.
  rewrite splice_tail; [done | done |]. by eapply payload_length.
Qed.

End builder.

(** The header and payload of a datagram, off the payload of its IP packet. *)
Lemma datagram_of_ip p st size rest :
  wf_header (udp_header st size) →
  Ipv4.payload p = Done (header_bytes (udp_header st size) ++ rest) →
  header (packet_new p) = Done (udp_header st size) ∧ payload (packet_new p) = Done rest.
Proof.
  intros Hh Hp. unfold header, payload, packet_new. cbn [ip_packet]. rewrite Hp, !bind_Done_l.
  unfold slice_from. rewrite !slice_ok by (rewrite ?len_app; change (len (header_bytes _)) with 8;
    pose proof (len_nonneg rest); lia).
  rewrite bind_Done_l. split.
  - rewrite sub_app_l by done.
    change (sub (header_bytes (udp_header st size)) 0 8) with (header_bytes (udp_header st size)).
    rewrite <- (app_nil_r (header_bytes _)). by rewrite header_try_from_bytes.
  - f_equal. rewrite sub_app_r, sub_to_end by (rewrite ?len_app; change (len (header_bytes _)) with 8; lia).
    apply drop_0.
Qed.

(** The frame [finish] builds around a payload closure that succeeds. *)
Lemma udp_finish_frame {B : Build} st ip f size t :
  wf_dst ip → uint 16 (dp_source_port st) → uint 16 (dp_destination_port st) →
  PayloadFn f → 0 ≤ size ≤ 1458 →
  fold_once (raw_sum (builder_header ip (28 + size))) < 65536 →
  f (replicate 1458 0) = Done (t, Ok size) →
  ∃ body c, let e := frame (eth_state ip) body (28 + size) in
    finish st ip f size = Done (Ok e) ∧ length body = 1486%nat
    ∧ Ipv4.header (Ipv4.packet_new e) = Done (parsed_header ip (8 + size) c)
    ∧ header (packet_new (Ipv4.packet_new e)) = Done (udp_header st size)
    ∧ payload (packet_new (Ipv4.packet_new e)) = Done (take (Z.to_nat (Z.max size 18)) t).
Proof.
  intros Hip Hsp Hdp Hf Hsize Hck Ht.
  assert (udp_payload st f size (replicate 1466 0)
          = Done (header_bytes (udp_header st size) ++ t, Ok (8 + size))) as Hrun.
  { apply udp_payload_run; [done | len_lia | unfold uint; lia |]. by rewrite drop_replicate. }
  destruct (ipv4_finish_frame ip (udp_payload st f size) (8 + size) _ Hip _ ltac:(lia)
    ltac:(by replace (20 + (8 + size)) with (28 + size) by lia) Hrun)
    as (e & c & Hfin & Hc & He & Hlen & Hcontent & _).
  rewrite He in Hfin, Hcontent. clear e He.
  destruct (header_parsed ip (8 + size) c (Ipv4.packet_new _) _ Hip ltac:(unfold uint; lia) Hc Hcontent)
    as [Hhdr Hpay].
  replace (20 + (8 + size)) with (28 + size) in * by lia.
  eexists _, c. cbv zeta. split; [| split; [exact Hlen | split; [exact Hhdr |]]].
  { unfold finish, add_w. rewrite arith_in by (unfold uint; lia). exact Hfin. }
  apply datagram_of_ip.
  - split_and!; try done; unfold uint, udp_header; simpl; lia.
  - rewrite Hpay. f_equal. rewrite take_app_ge by (rewrite length_udp_header; lia).
    rewrite length_udp_header. do 2 f_equal. lia.
Qed.

(** C23: a datagram built over IPv4 reads back: the frame goes between the
    builder's MACs, the ports and the length (header included) are the ones
    given, the IP header carries them with the builder's addresses and
    protocol, and the payload follows, padded with what the payload closure
    left behind it when the frame is short. *)
Theorem udp_roundtrip {B : Build} (st : DestinationPort) (ip : Ipv4.DestinationState)
    (f : payload_fn) (size : Z) (t : list Z) :
  wf_dst ip → uint 16 (dp_source_port st) → uint 16 (dp_destination_port st) →
  PayloadFn f → 0 ≤ size ≤ 1458 →
  fold_once (raw_sum (builder_header ip (28 + size))) < 65536 →
  f (replicate 1458 0) = Done (t, Ok size) →
  ∃ e c, finish st ip f size = Done (Ok e)
    ∧ destination_mac e = Done (dst_destination_mac ip)
    ∧ source_mac e = Done (dst_source_mac ip)
    ∧ Ipv4.header (Ipv4.packet_new e) = Done (parsed_header ip (8 + size) c)
    ∧ header (packet_new (Ipv4.packet_new e)) = Done (udp_header st size)
    ∧ payload (packet_new (Ipv4.packet_new e)) = Done (take (Z.to_nat (Z.max size 18)) t).
Proof.
  intros Hip Hsp Hdp Hf Hsize Hck Ht.
  destruct (udp_finish_frame st ip f size t Hip Hsp Hdp Hf Hsize Hck Ht)
    as (body & c & Hfin & Hlen & Hhdr & Hu & Hp).
  pose proof (wf_eth_state_dst ip Hip) as Heth.
  eexists _, c. split_and!; [exact Hfin | | | exact Hhdr | exact Hu | exact Hp].
  - by rewrite frame_destination_mac by (done || lia).
  - by rewrite frame_source_mac by (done || lia).
Qed.

Lemma udp_roundtrip_witness :
  let st := set_destination_port (set_source_port 68) 67 in
  ∃ e, @finish debug_build st sample_dst no_payload 0 = Done (Ok e)
    ∧ header (packet_new (Ipv4.packet_new e)) = Done (udp_header st 0).
Proof.
  intros st.
  destruct (@udp_roundtrip debug_build st sample_dst no_payload 0 (replicate 1458 0)
    wf_sample_dst ltac:(by vm_compute) ltac:(by vm_compute) _ ltac:(lia) ltac:(by vm_compute) eq_refl)
    as (e & c & H1 & _ & _ & _ & H2 & _).
  exists e. split; [exact H1 | exact H2].
Defined.
