(* ===== verification/Icmp.v ===== *)
(** * ICMP

    [src/src/extensions/networking/protocols/icmp.rs]: the message types, the
    message view over an IPv4 packet, and the builder with its checksum. *)

From stdpp Require Import base tactics list numbers.
From Stdlib Require Import ZArith Lia.
From S2P Require Import Prelude Checksum Buffer Ethernet Ipv4.

Local Open Scope Z_scope.

Record Packet := mk_packet { ip_packet : Ipv4.Packet }.

Inductive Type_ :=
  | EchoRequest (identifier sequence : Z)
  | EchoReply (identifier sequence : Z)
  | Unknown (raw : list Z).

#[export] Instance Type_eq_dec : EqDecision Type_.
Proof. solve_decision. Defined.

(** [impl From<&[u8]> for Type] *)
Definition type_from (raw : list Z) : outcome Type_ :=
  ty ← index raw 0;
  sub_ty ← index raw 1;
  if (ty =? 0) && (sub_ty =? 0) then
    t ← slice raw 4 6; identifier ← to_array 2 t;
    t ← slice raw 6 8; sequence ← to_array 2 t;
    Done (EchoReply (from_be identifier) (from_be sequence))
  else if (ty =? 8) && (sub_ty =? 0) then
    t ← slice raw 4 6; identifier ← to_array 2 t;
    t ← slice raw 6 8; sequence ← to_array 2 t;
    Done (EchoRequest (from_be identifier) (from_be sequence))
  else Done (Unknown [ty; sub_ty]).

(** [impl Into<([u8; 2], [u8; 4])> for Type] *)
Definition type_into (ty : Type_) : list Z * list Z :=
  match ty with
  | EchoReply identifier sequence => ([0; 0], to_be 2 identifier ++ to_be 2 sequence)
  | EchoRequest identifier sequence => ([8; 0], to_be 2 identifier ++ to_be 2 sequence)
  | Unknown d => (d, [0; 0; 0; 0])
  end.

Definition packet_new (p : Ipv4.Packet) : Packet := {| ip_packet := p |}.

Definition get_type (p : Packet) : outcome Type_ :=
  raw_data ← Ipv4.payload (ip_packet p);
  type_from raw_data.

Definition ipv4_packet (p : Packet) : Ipv4.Packet := ip_packet p.

Definition payload (p : Packet) : outcome (list Z) :=
  raw_payload ← Ipv4.payload (ip_packet p);
  ty ← get_type p;
  let offset := match ty with EchoReply _ _ => 8 | EchoRequest _ _ => 8 | Unknown _ => 8 end in
  slice_from raw_payload offset.

(** ** The builder *)

Record TypeState := { ts_ty : Type_ }.

Definition set_type (ty : Type_) : TypeState := {| ts_ty := ty |}.

Definition header_size (ty : Type_) : Z :=
  match ty with EchoReply _ _ => 8 | EchoRequest _ _ => 8 | Unknown _ => 8 end.

(** The closure [finish] hands to the IPv4 builder. *)
Definition icmp_payload {B : Build} (st : TypeState) (payload_func : payload_fn)
    (payload_size : Z) : payload_fn := fun payload =>
  let '(type_bytes, rest_header_bytes) := type_into (ts_ty st) in
  payload ← copy_into payload 0 2 type_bytes;
  payload ← copy_into payload 2 4 [0; 0];
  payload ← copy_into payload 4 8 rest_header_bytes;
  r ← with_slice payload 8 (len payload) payload_func;
  let payload := r.1 in
  total ← add_w 64 (header_size (ts_ty st)) payload_size;
  raw_checksum ← sum_u32 0 (take (Z.to_nat (total / 2)) (words payload));
  s ← add_w 16 (cast 16 raw_checksum) (cast 16 (Z.shiftr raw_checksum 16));
  let checksum := not_w 16 s in
  payload ← copy_into payload 2 4 (to_be 2 checksum);
  total ← add_w 64 (header_size (ts_ty st)) payload_size;
  Done (payload, Ok total).

Definition finish {B : Build} (st : TypeState) (builder : Ipv4.DestinationState)
    (payload_func : payload_fn) (payload_size : Z) : outcome (result Ethernet.Packet unit) :=
  size ← add_w 64 (header_size (ts_ty st)) payload_size;
  Ipv4.finish builder (icmp_payload st payload_func payload_size) size.

(** ** Proofs *)

Definition wf_type (ty : Type_) : Prop :=
  match ty with
  | EchoRequest i s | EchoReply i s => uint 16 i ∧ uint 16 s
  | Unknown raw => length raw = 2%nat ∧ bytes raw
  end.

(** The types whose codes the parser does not give another meaning. *)
Definition canonical (ty : Type_) : bool :=
  match ty with
  | Unknown [a; b] => negb ((b =? 0) && ((a =? 0) || (a =? 8)))
  | _ => true
  end.

Definition message (ty : Type_) (c : Z) (body : list Z) : list Z :=
  (type_into ty).1 ++ to_be 2 c ++ (type_into ty).2 ++ body.

Lemma type_into_lengths ty :
  wf_type ty → length (type_into ty).1 = 2%nat ∧ length (type_into ty).2 = 4%nat
    ∧ bytes (type_into ty).1 ∧ bytes (type_into ty).2.
Proof.
  destruct ty as [i s | i s | raw]; simpl; intros [? ?]; split_and!; try done.
  all: repeat apply Forall_cons_2; auto with rust.
Qed.

Lemma length_message ty c body :
  wf_type ty → length (message ty c body) = (8 + length body)%nat.
Proof.
  intros (? & ? & _)%type_into_lengths. unfold message. len_lia.
Qed.

Lemma message_bytes ty c body : wf_type ty → bytes body → bytes (message ty c body).
Proof.
  intros (_ & _ & ? & ?)%type_into_lengths ?. unfold message. rewrite !Forall_app.
  auto using to_be_bytes.
Qed.

Lemma type_from_echo a c i s body :
  uint 16 i → uint 16 s → (a =? 0) || (a =? 8) = true →
  type_from ([a; 0] ++ to_be 2 c ++ (to_be 2 i ++ to_be 2 s) ++ body)
  = Done (if a =? 0 then EchoReply i s else EchoRequest i s).
Proof.
  intros Hi Hs Ha. unfold type_from. rewrite !to_be2. cbn [app].
  match goal with |- context [index (?x :: ?y :: ?l) 0] =>
    change (index (x :: y :: l) 0) with (Done x);
    change (index (x :: y :: l) 1) with (Done y) end.
  rewrite !bind_Done_l. change (0 =? 0) with true.
  destruct (a =? 0), (a =? 8); try done; cbn [andb]; rewrite !array_read_bind by len_lia;
    do 2 f_equal; by apply from_be_pair.
Qed.

(** A written type parses back, the non-canonical unknown codes excepted. *)
Lemma type_from_message ty c body :
  wf_type ty → canonical ty = true → type_from (message ty c body) = Done ty.
Proof.
  intros Hty Hcan. unfold message. destruct ty as [i s | i s | raw]; cbn [type_into fst snd].
  - destruct Hty. by rewrite type_from_echo.
  - destruct Hty. by rewrite type_from_echo.
  - destruct Hty as [Hl _]. explode_list raw. unfold type_from. cbn [app canonical] in *.
    match goal with |- context [index (?a :: ?b :: ?l) 0] =>
      change (index (a :: b :: l) 0) with (Done a);
      change (index (a :: b :: l) 1) with (Done b) end.
    rewrite !bind_Done_l. destruct (z =? 0), (z0 =? 0), (z =? 8); done.
Qed.

(** ** Proofs: the checksum and the builder *)

(** The sum the checksum is computed from. *)
Definition raw_sum (ty : Type_) (body : list Z) (size : Z) : Z :=
  Zsum (take (Z.to_nat ((8 + size) / 2)) (words (message ty 0 body))).

Lemma message_words_sum ty c body n :
  wf_type ty → uint 16 c → (2 ≤ n)%nat →
  Zsum (take n (words (message ty c body))) = Zsum (take n (words (message ty 0 body))) + c.
Proof.
  intros Hty Hc Hn. unfold message.
  destruct (type_into_lengths ty Hty) as (H1 & H2 & _).
  destruct (type_into ty) as [tb rb]. cbn [fst snd] in *. explode_list tb.
  rewrite !to_be2. cbn [app]. rewrite !words_cons.
  destruct n as [| [| n]]; [lia.. |]. cbn [take Zsum foldr].
  unfold uint in Hc. change (2 ^ 16) with 65536 in Hc.
  change (0 / 256 mod 256) with 0. change (0 mod 256) with 0.
  assert ((c / 256) mod 256 * 256 + c mod 256 = c) by (Z.div_mod_to_equations; lia).
  unfold Zsum. lia.
Qed.

Lemma icmp_sum_bound ty body size :
  wf_type ty → bytes body → (length body ≤ 4096)%nat → 0 ≤ raw_sum ty body size < 65535 * 65536.
Proof.
  intros Hty Hb Hl. unfold raw_sum.
  pose proof (Zsum_bound (take (Z.to_nat ((8 + size) / 2)) (words (message ty 0 body)))
    (Forall_take _ _ _ (words_uint _ (message_bytes ty 0 body Hty Hb)))) as Hs.
  pose proof (len_words (message ty 0 body)) as Hw.
  unfold len in *. rewrite length_message in Hw by done. rewrite length_take in Hs.
  Z.div_mod_to_equations. lia.
Qed.

Section builder.
Context {B : Build} (st : TypeState) (f : payload_fn) (size : Z).
Context (Hty : wf_type (ts_ty st)) `{Hf : !PayloadFn f}.

Lemma icmp_payload_fn : PayloadFn (icmp_payload st f size).
Proof.
  intros s s' r Hr. unfold icmp_payload in Hr.
  destruct (type_into_lengths _ Hty) as (_ & _ & H1 & H2).
  destruct (type_into (ts_ty st)) as [tb rb]. cbn [fst snd] in *.
  apply bind_done in Hr as (s1 & E1 & Hr).
  apply bind_done in Hr as (s2 & E2 & Hr).
  apply bind_done in Hr as (s3 & E3 & Hr).
  apply bind_done in Hr as ([s4 r4] & E4 & Hr). cbn [fst] in Hr.
  apply with_slice_keeps in E4; [| eauto using payload_keeps].
  assert (keeps s s4).
  { transitivity s3; [| done]. clear Hr E4. keeps_tac. }
  do 3 apply bind_done in Hr as (? & _ & Hr).
  apply bind_done in Hr as (s5 & E5 & Hr). transitivity s4; [done |].
  done_inv. eapply copy_into_keeps; [| exact E5]. apply to_be_bytes.
Qed.

Lemma icmp_payload_run s t r :
  (8 ≤ length s ≤ 4096)%nat → bytes s → uint 64 (8 + size) →
  f (drop 8 s) = Done (t, r) →
  let ty := ts_ty st in
  let rs := fold_once (raw_sum ty t size) in
  icmp_payload st f size s =
  if rs <? 65536 then Done (message ty (65535 - rs) t, Ok (8 + size))
  else if overflow_checks then Panicked ArithOverflow
  else Done (message ty (65535 - (rs - 65536)) t, Ok (8 + size)).
Proof.
  intros Hs Hb Hsize Ht ty rs. unfold icmp_payload.
  destruct (type_into_lengths _ Hty) as (H1 & H2 & _).
  pose proof (payload_keeps _ _ _ Ht) as [Hlt Hbt]. rewrite length_drop in Hlt.
  specialize (Hbt (Forall_drop _ _ _ Hb)).
  assert (raw_sum ty t size = Zsum (take (Z.to_nat ((8 + size) / 2)) (words (message ty 0 t)))) as Hrs
    by done.
  destruct (type_into (ts_ty st)) as [tb rb] eqn:Eti. cbn [fst snd] in *.
  change s with ([] ++ drop 0 s) at 1.
  do 3 (rewrite copy_next by len_lia; rewrite bind_Done_l).
  replace (drop (0 + length tb + length [0; 0] + length rb) s) with (drop 8 s)
    by (rewrite H1, H2; done).
  rewrite with_slice_tail, Ht, bind_Done_l by len_lia. cbn [fst snd].
  rewrite bind_Done_l. cbn [fst]. rewrite splice_tail by len_lia.
  replace (((([] ++ tb) ++ [0; 0]) ++ rb) ++ t) with (message ty 0 t); last first.
  { unfold message, ty. rewrite Eti. cbn [fst snd]. rewrite <- !app_assoc. done. }
  replace (header_size (ts_ty st)) with 8 by by destruct (ts_ty st).
  assert (add_w 64 8 size = Done (8 + size)) as -> by by apply arith_in.
  rewrite bind_Done_l.
  pose proof (icmp_sum_bound ty t size Hty Hbt ltac:(lia)) as Hbound.
  rewrite sum_u32_ok; [| apply Forall_take, words_uint, message_bytes; done | lia |]; last first.
  { pose proof (len_words (message ty 0 t)) as Hw. unfold len in *.
    rewrite length_message in Hw by done. rewrite length_take. Z.div_mod_to_equations. lia. }
  rewrite bind_Done_l, Z.add_0_l, <- Hrs, fold_add_run by done. fold rs.
  assert (∀ c, copy_into (message ty 0 t) 2 4 (to_be 2 c) = Done (message ty c t)) as Hcopy.
  { intros c. unfold message, ty. rewrite Eti. cbn [fst snd].
    change (to_be 2 0 ++ rb ++ t) with (drop 0 (to_be 2 0 ++ rb ++ t)).
    rewrite copy_next by len_lia. simpl drop. by rewrite <- app_assoc. }
  destruct (rs <? 65536); [| destruct overflow_checks; [done |]];
    by rewrite bind_Done_l, Hcopy, !bind_Done_l.
Qed.

End builder.

Lemma take_message ty c body n :
  wf_type ty → take (8 + n) (message ty c body) = message ty c (take n body).
Proof.
  intros (H1 & H2 & _)%type_into_lengths. unfold message.
  rewrite !take_app, length_to_be, H1, H2.
  rewrite !(take_ge (type_into ty).1), (take_ge (to_be 2 c)), (take_ge (type_into ty).2)
    by (rewrite ?length_to_be; lia).
  do 4 f_equal. lia.
Qed.

(** The checksum a message of [size] payload bytes gets makes its whole
    16-bit words verify. *)
Lemma message_verifies ty body size :
  wf_type ty → bytes body → (length body ≤ 4096)%nat → 0 ≤ size →
  let rs := fold_once (raw_sum ty body size) in
  rs < 65536 →
  uint 16 (65535 - rs)
  ∧ verifies (words (message ty (65535 - rs) (take (Z.to_nat (size / 2 * 2)) body))) = true.
Proof.
  intros Hty Hb Hl Hsize rs Hrs.
  pose proof (icmp_sum_bound ty body size Hty Hb Hl) as Hbound.
  pose proof (fold_once_bound _ Hbound) as Hfo. fold rs in Hfo.
  assert (uint 16 (65535 - rs)) as Hc by (unfold uint; lia). split; [done |].
  rewrite <- take_message by done.
  replace (8 + Z.to_nat (size / 2 * 2))%nat with (2 * Z.to_nat ((8 + size) / 2))%nat
    by (Z.div_mod_to_equations; lia).
  rewrite <- take_words.
  apply (verifies_complement (take (Z.to_nat ((8 + size) / 2)) (words (message ty 0 body)))).
  - by apply Forall_take, words_uint, message_bytes.
  - apply Hbound.
  - done.
  - apply message_words_sum; [done | done |]. Z.div_mod_to_equations; lia.
Qed.

Lemma odd_message_verifies ty c body size b :
  wf_type ty → bytes body → 0 ≤ size → size mod 2 = 1 → body !! Z.to_nat (size - 1) = Some b →
  verifies (words (message ty c (take (Z.to_nat (size / 2 * 2)) body))) = true →
  verifies (words (message ty c (take (Z.to_nat size) body) ++ [0])) = (b =? 0).
Proof.
  intros Hty Hb Hs Ho Hl Hv. assert (1 ≤ size) by (Z.div_mod_to_equations; lia).
  replace (Z.to_nat size) with (S (Z.to_nat (size - 1))) by lia.
  replace (size / 2 * 2) with (size - 1) in Hv by (Z.div_mod_to_equations; lia).
  rewrite (take_S_r _ _ b) by done. unfold message in *. rewrite <- !app_assoc.
  assert (∀ p, [b] ++ p = b :: p) as -> by done. cbn [app].
  rewrite !app_assoc, words_app, <- !app_assoc.
  - change (words [b; 0]) with [b * 256 + 0]. apply verifies_extra; [done |].
    by eapply Forall_lookup_1 in Hl.
  - pose proof (type_into_lengths ty Hty) as (H1 & H2 & _).
    apply lookup_lt_Some in Hl.
    rewrite !length_app, length_to_be, H1, H2, length_take, Nat.min_l by lia.
    exists (4 + Z.to_nat ((size - 1) / 2))%nat. Z.div_mod_to_equations; lia.
Qed.

(** The payload of a message, off the payload of its IP packet. *)
Lemma icmp_payload_of_ip p ty c body :
  wf_type ty → get_type (packet_new p) = Done ty → Ipv4.payload p = Done (message ty c body) →
  payload (packet_new p) = Done body.
Proof.
  intros Hty Hg Hp. unfold payload, packet_new in *. cbn [ip_packet]. rewrite Hp, Hg, !bind_Done_l.
  replace (match ty with EchoReply _ _ | _ => 8 end) with 8 by by destruct ty.
  pose proof (length_message ty c body Hty) as Hl.
  unfold slice_from. rewrite slice_ok by len_lia. f_equal.
  rewrite sub_to_end by lia. change (Z.to_nat 8) with 8%nat.
  pose proof (type_into_lengths ty Hty) as (H1 & H2 & _). unfold message.
  by rewrite !app_assoc, drop_app_length' by len_lia.
Qed.

(** The frame of a message and what it reads back as, once the checksum of the
    IP header is found. *)
Lemma icmp_finish_checked {B : Build} (ty : Type_) (ip : Ipv4.DestinationState)
    (f : payload_fn) (size : Z) (t : list Z) (r : result Z unit) (c' : Z) :
  wf_dst ip → wf_type ty → canonical ty = true → PayloadFn f → 0 ≤ size ≤ 1458 → uint 16 c' →
  set_checksum (builder_header ip (28 + size)) = Done (with_checksum (builder_header ip (28 + size)) c') →
  f (replicate 1458 0) = Done (t, r) →
  fold_once (raw_sum ty t size) < 65536 →
  ∃ e, finish (set_type ty) ip f size = Done (Ok e)
    ∧ destination_mac e = Done (dst_destination_mac ip)
    ∧ source_mac e = Done (dst_source_mac ip)
    ∧ ether_type e = Done Ethernet.Ipv4
    ∧ Ipv4.header (Ipv4.packet_new e) = Done (parsed_header ip (8 + size) c')
    ∧ get_type (packet_new (Ipv4.packet_new e)) = Done ty
    ∧ Ipv4.payload (Ipv4.packet_new e)
      = Done (message ty (65535 - fold_once (raw_sum ty t size)) (take (Z.to_nat (Z.max size 18)) t)).
Proof.
  intros Hip Hty Hcan Hf Hsize Hc' Hset Ht Hrs.
  pose proof (payload_keeps _ _ _ Ht) as [Hlt Hbt].
  specialize (Hbt (zeros_bytes _)). rewrite length_replicate in Hlt.
  destruct (message_verifies ty t size Hty Hbt ltac:(lia) ltac:(lia) Hrs) as [Hc _].
  set (c := 65535 - fold_once (raw_sum ty t size)) in *.
  assert (icmp_payload (set_type ty) f size (replicate 1466 0) = Done (message ty c t, Ok (8 + size)))
    as Hrun.
  { rewrite (icmp_payload_run (set_type ty) f size Hty _ t r);
      [| len_lia | apply zeros_bytes | unfold uint; lia | by rewrite drop_replicate].
    simpl. by rewrite (proj2 (Z.ltb_lt _ _)) by done. }
  pose proof (icmp_payload_fn (set_type ty) f size Hty) as Hpf.
  replace (28 + size) with (20 + (8 + size)) in Hset by lia.
  destruct (ipv4_finish_checked ip (icmp_payload (set_type ty) f size) (8 + size) _ c' Hip Hpf ltac:(lia)
    Hc' Hset Hrun) as (e & Hfin & Hframe & Hlen & Hcontent & _).
  destruct (header_parsed ip (8 + size) c' (Ipv4.packet_new e) _ Hip ltac:(unfold uint; lia) Hc' Hcontent)
    as [Hhdr Hpay].
  replace (Z.to_nat (Z.max (8 + size) 26)) with (8 + Z.to_nat (Z.max size 18))%nat in Hpay by lia.
  rewrite take_message in Hpay by done. pose proof (wf_eth_state_dst ip Hip) as Heth.
  exists e. split_and!; try done.
  - unfold finish, add_w. replace (header_size _) with 8 by by destruct ty.
    rewrite arith_in by (unfold uint; lia). exact Hfin.
  - subst e. by rewrite frame_destination_mac by (done || lia).
  - subst e. by rewrite frame_source_mac by (done || lia).
  - subst e. by rewrite frame_ether_type by (done || lia).
  - unfold get_type, packet_new. cbn [ip_packet]. rewrite Hpay. by apply type_from_message.
Qed.

(** A message is built only when the checksum of its IP header is found. *)
Lemma icmp_finish_checksum {B : Build} ty ip f size e :
  wf_dst ip → wf_type ty → PayloadFn f → 0 ≤ size ≤ 1458 → finish (set_type ty) ip f size = Done (Ok e) →
  ∃ c, uint 16 c ∧ set_checksum (builder_header ip (28 + size))
                   = Done (with_checksum (builder_header ip (28 + size)) c).
Proof.
  intros Hip Hty Hf Hsize Hr. unfold finish, add_w in Hr. replace (header_size _) with 8 in Hr by by destruct ty.
  rewrite arith_in, bind_Done_l in Hr by (unfold uint; lia).
  apply ipv4_finish_checksum in Hr; [| done | by apply icmp_payload_fn | lia].
  by replace (20 + (8 + size)) with (28 + size) in Hr by lia.
Qed.

Lemma icmp_finish_reads {B : Build} (ty : Type_) (ip : Ipv4.DestinationState)
    (f : payload_fn) (size : Z) (t : list Z) (r : result Z unit) :
  wf_dst ip → wf_type ty → canonical ty = true → PayloadFn f → 0 ≤ size ≤ 1458 →
  fold_once (Ipv4.raw_sum (builder_header ip (28 + size))) < 65536 →
  f (replicate 1458 0) = Done (t, r) →
  fold_once (raw_sum ty t size) < 65536 →
  ∃ e, finish (set_type ty) ip f size = Done (Ok e)
    ∧ destination_mac e = Done (dst_destination_mac ip)
    ∧ (∃ c', Ipv4.header (Ipv4.packet_new e) = Done (parsed_header ip (8 + size) c'))
    ∧ get_type (packet_new (Ipv4.packet_new e)) = Done ty
    ∧ Ipv4.payload (Ipv4.packet_new e)
      = Done (message ty (65535 - fold_once (raw_sum ty t size)) (take (Z.to_nat (Z.max size 18)) t)).
Proof.
  intros Hip Hty Hcan Hf Hsize Hck Ht Hrs. pose proof (wf_builder_header ip (28 + size) Hip) as Hh.
  pose proof (set_checksum_run _ Hh) as Hset. rewrite (proj2 (Z.ltb_lt _ _)) in Hset by done.
  destruct (set_checksum_verifies _ Hh Hck) as [Hc' _].
  destruct (icmp_finish_checked ty ip f size t r _ Hip Hty Hcan Hf Hsize Hc' Hset Ht Hrs)
    as (e & ? & ? & _ & _ & ? & ? & ?).
  exists e. split_and!; try done. by eexists.
Qed.

(** C24: an ICMP message built over IPv4 reads back: its type (identifier and
    sequence included), its payload (padded in a short frame), and a checksum
    that a receiver accepts when the payload has an even number of bytes.
    With an odd number the checksum leaves the last byte out, so a receiver,
    which pads the message with a zero byte, accepts it only if that byte is
    zero. *)
Theorem icmp_roundtrip {B : Build} (ty : Type_) (ip : Ipv4.DestinationState)
    (f : payload_fn) (size : Z) (t : list Z) (r : result Z unit) :
  wf_dst ip → wf_type ty → canonical ty = true → PayloadFn f → 0 ≤ size ≤ 1458 →
  fold_once (Ipv4.raw_sum (builder_header ip (28 + size))) < 65536 →
  f (replicate 1458 0) = Done (t, r) →
  fold_once (raw_sum ty t size) < 65536 →
  ∃ e c, finish (set_type ty) ip f size = Done (Ok e)
    ∧ get_type (packet_new (Ipv4.packet_new e)) = Done ty
    ∧ payload (packet_new (Ipv4.packet_new e)) = Done (take (Z.to_nat (Z.max size 18)) t)
    ∧ Ipv4.payload (Ipv4.packet_new e)
      = Done (message ty c (take (Z.to_nat (Z.max size 18)) t))
    ∧ (size mod 2 = 0 → verifies (words (message ty c (take (Z.to_nat size) t))) = true)
    ∧ (size mod 2 = 1 → ∀ b, t !! Z.to_nat (size - 1) = Some b →
         verifies (words (message ty c (take (Z.to_nat size) t) ++ [0])) = (b =? 0)).
Proof.
  intros Hip Hty Hcan Hf Hsize Hck Ht Hrs.
  pose proof (payload_keeps _ _ _ Ht) as [Hlt Hbt].
  specialize (Hbt (zeros_bytes _)). rewrite length_replicate in Hlt.
  destruct (message_verifies ty t size Hty Hbt ltac:(lia) ltac:(lia) Hrs) as [Hc Hver].
  destruct (icmp_finish_reads ty ip f size t r Hip Hty Hcan Hf Hsize Hck Ht Hrs) as (e & Hfin & _ & _ & Hget & Hpay).
  eexists e, _. split_and!; try done.
  - by eapply icmp_payload_of_ip.
  - intros He. replace (size / 2 * 2) with size in Hver by (Z.div_mod_to_equations; lia). done.
  - intros Ho b Hb. apply odd_message_verifies; done || lia.
Qed.

Lemma icmp_roundtrip_witness :
  ∃ e, @finish debug_build (set_type (EchoRequest 0x1234 0x2345)) sample_dst no_payload 0 = Done (Ok e)
    ∧ get_type (packet_new (Ipv4.packet_new e)) = Done (EchoRequest 0x1234 0x2345).
Proof.
  destruct (@icmp_roundtrip debug_build (EchoRequest 0x1234 0x2345) sample_dst no_payload 0
    (replicate 1458 0) (Ok 0) wf_sample_dst ltac:(by vm_compute) eq_refl _ ltac:(lia)
    ltac:(by vm_compute) eq_refl ltac:(by vm_compute)) as (e & c & H1 & H2 & _).
  exists e. split; [exact H1 | exact H2].
Defined.
