(* ===== verification/Dhcp.v ===== *)
(** * DHCP

    [src/src/extensions/networking/protocols/dhcp.rs]: parsing the fixed part
    of a DHCP message and its message-type option, and the two messages the
    kernel sends. *)

From stdpp Require Import base tactics list numbers.
From Stdlib Require Import ZArith Lia.
From S2P Require Import Prelude Checksum Buffer Ethernet Ipv4 Udp.

Local Open Scope Z_scope.

Record Packet := mk_packet { datagram : Udp.Packet }.

Inductive Operation :=
  | Discover
  | Offer
  | Request
  | Ack
  | Unknown (raw : Z).

#[export] Instance Operation_eq_dec : EqDecision Operation.
Proof. solve_decision. Defined.

(** [impl From<u8> for Operation] *)
Definition operation_from (raw : Z) : Operation :=
  if raw =? 1 then Discover
  else if raw =? 2 then Offer
  else if raw =? 3 then Request
  else if raw =? 5 then Ack
  else Unknown raw.

Record Data := {
  op : Z;
  htype : Z;
  hlen : Z;
  hops : Z;
  xid : Z;
  secs : Z;
  flags : Z;
  ciaddr : list Z;
  yiaddr : list Z;
  siaddr : list Z;
  giaddr : list Z;
  chaddr : list Z;
  operation : Operation }.

(** The loop over the options: each round takes the code, then either the
    value of option 53 or the length [n] and the [n] bytes it announces
    ([skip(n - 1)] followed by [next()]).  The iterator loses at least the
    code each round, so its length bounds the rounds. *)
Fixpoint find_operation {B : Build} (fuel : nat) (iter : list Z) : outcome Z :=
  match fuel with
  | O => OutOfFuel
  | S fuel =>
      match iter with
      | [] => Panicked UnwrapFailed
      | option_code :: iter =>
          if option_code =? 53 then
            match drop 1 iter with
            | [] => Panicked UnwrapFailed
            | value :: _ => Done value
            end
          else
            match iter with
            | [] => Panicked UnwrapFailed
            | len :: iter =>
                n ← sub_w 8 len 1;
                find_operation fuel (drop (Z.to_nat n + 1) iter)
            end
      end
  end.

(** [impl TryFrom<&[u8]> for Data] *)
Definition data_try_from {B : Build} (value : list Z) : outcome (result Data unit) :=
  if len value <? 244 then Done (Err tt) else
  let iter := drop (44 + 192 + 4) value in
  raw_op ← find_operation (S (length iter)) iter;
  op ← index value 0;
  htype ← index value 1;
  hlen ← index value 2;
  hops ← index value 3;
  t ← slice value 4 8; xid ← to_array 4 t;
  t ← slice value 8 10; secs ← to_array 2 t;
  t ← slice value 10 12; flags ← to_array 2 t;
  t ← slice value 12 16; ciaddr ← to_array 4 t;
  t ← slice value 16 20; yiaddr ← to_array 4 t;
  t ← slice value 20 24; siaddr ← to_array 4 t;
  t ← slice value 24 28; giaddr ← to_array 4 t;
  t ← slice value 28 44; chaddr ← to_array 16 t;
  Done (Ok {|
    op := op; htype := htype; hlen := hlen; hops := hops;
    xid := from_be xid; secs := from_be secs; flags := from_be flags;
    ciaddr := ciaddr; yiaddr := yiaddr; siaddr := siaddr; giaddr := giaddr;
    chaddr := chaddr; operation := operation_from raw_op |}).

Definition packet_new (d : Udp.Packet) : Packet := {| datagram := d |}.

Definition get {B : Build} (p : Packet) : outcome Data :=
  payload ← Udp.payload (datagram p);
  r ← data_try_from payload;
  unwrap_result r.

Definition udp_datagram (p : Packet) : Udp.Packet := datagram p.

(** ** The messages the kernel sends *)

(** The IPv4 builder both messages use. *)
Definition client_ip (own_mac : list Z) (ip_ident : Z) : Ipv4.DestinationState :=
  set_destination
    (set_source (set_protocol (set_ttl (set_identification (set_dscp 0) ip_ident) 20) Ipv4.Udp)
       [0; 0; 0; 0] own_mac)
    [255; 255; 255; 255] [0xff; 0xff; 0xff; 0xff; 0xff; 0xff].

(** The writes the two payload closures start with. *)
Definition write_bootp (own_mac : list Z) (xid : Z) (ci si : list Z) (payload : list Z) :
    outcome (list Z) :=
  payload ← write_at payload 0 0x1;
  payload ← write_at payload 1 0x1;
  payload ← write_at payload 2 0x6;
  payload ← write_at payload 3 0x0;
  payload ← copy_into payload 4 8 (to_be 4 xid);
  payload ← copy_into payload 8 10 [0; 0];
  payload ← copy_into payload 10 12 [0x80; 0];
  payload ← copy_into payload 12 16 ci;
  payload ← copy_into payload 16 20 [0; 0; 0; 0];
  payload ← copy_into payload 20 24 si;
  payload ← copy_into payload 24 28 [0; 0; 0; 0];
  payload ← copy_into payload 28 34 own_mac;
  copy_into payload 236 240 (to_be 4 0x63825363).

Definition discover_payload (own_mac : list Z) (xid : Z) : payload_fn := fun payload =>
  payload ← write_bootp own_mac xid [0; 0; 0; 0] [0; 0; 0; 0] payload;
  payload ← write_at payload 240 53;
  payload ← write_at payload 241 1;
  payload ← write_at payload 242 1;
  payload ← write_at payload 243 0xff;
  Done (payload, Ok 244).

Definition discover_message {B : Build} (own_mac : list Z) (xid ip_ident : Z) :
    outcome (result Ethernet.Packet unit) :=
  Udp.finish (set_destination_port (set_source_port 68) 67) (client_ip own_mac ip_ident)
    (discover_payload own_mac xid) 244.

Definition request_payload (own_mac : list Z) (xid : Z) (ip server_ip : list Z) : payload_fn :=
  fun payload =>
  payload ← write_bootp own_mac xid ip server_ip payload;
  payload ← write_at payload 240 53;
  payload ← write_at payload 241 1;
  payload ← write_at payload 242 3;
  payload ← write_at payload 243 54;
  payload ← write_at payload 244 4;
  payload ← copy_into payload 245 249 server_ip;
  payload ← write_at payload 250 50;
  payload ← write_at payload 251 4;
  payload ← copy_into payload 252 256 ip;
  payload ← write_at payload 257 0xff;
  Done (payload, Ok 257).

Definition request_message {B : Build} (own_mac : list Z) (xid : Z) (ip server_ip : list Z)
    (ip_ident : Z) : outcome (result Ethernet.Packet unit) :=
  Udp.finish (set_destination_port (set_source_port 68) 67) (client_ip own_mac ip_ident)
    (request_payload own_mac xid ip server_ip) 257.

(** ** Proofs: the option loop *)

Lemma find_operation_terminates {B : Build} fuel iter :
  (length iter < fuel)%nat → find_operation fuel iter ≠ OutOfFuel.
Proof.
  revert iter. induction fuel as [| fuel IH]; [lia |].
  intros [| code iter] Hl; [done |]. simpl in *. case_match; [by case_match |].
  destruct iter as [| l iter]; [done |]. simpl in Hl.
  unfold sub_w, arith. repeat case_match; simpl; try done; apply IH; rewrite length_drop; lia.
Qed.

(** More fuel than needed changes nothing. *)
Lemma find_operation_fuel {B : Build} fuel fuel' iter :
  (length iter < fuel)%nat → (length iter < fuel')%nat →
  find_operation fuel iter = find_operation fuel' iter.
Proof.
  revert fuel' iter. induction fuel as [| fuel IH]; [lia |].
  intros [| fuel'] [| code iter] Hl Hl'; try (simpl in *; lia); [done |]. simpl in *.
  case_match; [done |]. destruct iter as [| l iter]; [done |]. simpl in Hl, Hl'.
  destruct (sub_w 8 l 1); simpl; [| done | done]. apply IH; rewrite length_drop; lia.
Qed.

(** An option as it is encoded: code, length, value. *)
Definition tlv (o : Z * list Z) : list Z := o.1 :: len o.2 :: o.2.

Definition skippable (o : Z * list Z) : Prop := o.1 ≠ 53 ∧ 1 ≤ len o.2 ≤ 255.

Lemma find_operation_options {B : Build} opts rest n value fuel :
  Forall skippable opts →
  (length (concat (map tlv opts) ++ 53%Z :: n :: value :: rest) < fuel)%nat →
  find_operation fuel (concat (map tlv opts) ++ 53 :: n :: value :: rest) = Done value.
Proof.
  intros Hopts. revert fuel. induction Hopts as [| [c d] opts [Hc Hd] Hopts IH]; intros fuel Hf.
  - destruct fuel; [simpl in *; lia |]. done.
  - destruct fuel as [| fuel]; [lia |]. simpl in *.
    rewrite (proj2 (Z.eqb_neq c 53)) by done.
    unfold sub_w. rewrite arith_in by (unfold uint; lia). simpl.
    replace (Z.to_nat (len d - 1) + 1)%nat with (length d) by (unfold len in *; lia).
    rewrite <- app_assoc, drop_app_length. apply IH.
    rewrite !length_app in *. simpl in *. lia.
Qed.

(** C26: the option walk always ends, and on a well-formed option list it
    returns the value of the first message-type option, whatever precedes
    and follows it. *)
Theorem dhcp_find_operation_spec {B : Build} :
  (∀ iter, find_operation (S (length iter)) iter ≠ OutOfFuel)
  ∧ (∀ opts n value rest, Forall skippable opts →
       let iter := concat (map tlv opts) ++ 53 :: n :: value :: rest in
       find_operation (S (length iter)) iter = Done value).
Proof.
  split.
  - intros iter. apply find_operation_terminates. lia.
  - intros opts n value rest Hopts iter. apply find_operation_options; [done | subst iter; lia].
Qed.

(** ** Proofs: the messages *)

Definition wf_ip (ip : list Z) : Prop := length ip = 4%nat ∧ bytes ip.

(** The 240 bytes before the options: the fixed part, the unused name and
    file fields, and the magic cookie. *)
Definition bootp (mac : list Z) (xid : Z) (ci si : list Z) : list Z :=
  ([1; 1; 6; 0] ++ to_be 4 xid ++ [0; 0] ++ [0x80; 0] ++ ci ++ [0; 0; 0; 0] ++ si
    ++ [0; 0; 0; 0] ++ mac) ++ replicate 202 0 ++ to_be 4 0x63825363.

Lemma length_bootp mac xid ci si :
  length mac = 6%nat → length ci = 4%nat → length si = 4%nat →
  length (bootp mac xid ci si) = 240%nat.
Proof. intros. unfold bootp. len_lia. Qed.

Lemma write_bootp_run mac xid ci si n :
  length mac = 6%nat → length ci = 4%nat → length si = 4%nat → (240 ≤ n)%nat →
  write_bootp mac xid ci si (replicate n 0) = Done (bootp mac xid ci si ++ drop 240 (replicate n 0)).
Proof.
  intros H1 H2 H3 Hn. unfold write_bootp.
  remember (replicate n 0) as s eqn:Es.
  assert (take 202 (drop 34 s) = replicate 202 0) as Hgap.
  { subst s. rewrite drop_replicate, take_replicate. f_equal. lia. }
  assert (length s = n) as Hs by (subst s; apply length_replicate). clear Es.
  change s with ([] ++ drop 0 s) at 1.
  do 4 (rewrite write_next by len_lia; rewrite bind_Done_l).
  do 8 (rewrite copy_next by len_lia; rewrite bind_Done_l).
  match goal with |- context [drop ?k s] => replace k with 34%nat by len_lia end.
  rewrite (skip_gap _ s 34 202), Hgap, copy_next by len_lia.
  rewrite length_to_be. unfold bootp. by rewrite <- !app_assoc.
Qed.

Lemma write_bootp_keeps mac xid ci si s s' :
  bytes mac → bytes ci → bytes si → write_bootp mac xid ci si s = Done s' → keeps s s'.
Proof. intros ? ? ? Hrun. unfold write_bootp in Hrun. keeps_tac. Qed.

Lemma discover_payload_fn mac xid : bytes mac → PayloadFn (discover_payload mac xid).
Proof.
  intros Hm s s' r Hrun. unfold discover_payload in Hrun.
  apply bind_done in Hrun as (s1 & H1 & Hrun).
  apply write_bootp_keeps in H1; auto with rust. transitivity s1; [done |]. keeps_tac.
Qed.

Lemma request_payload_fn mac xid ip server :
  bytes mac → bytes ip → bytes server → PayloadFn (request_payload mac xid ip server).
Proof.
  intros Hm Hi Hs s s' r Hrun. unfold request_payload in Hrun.
  apply bind_done in Hrun as (s1 & H1 & Hrun).
  apply write_bootp_keeps in H1; auto. transitivity s1; [done |]. keeps_tac.
Qed.

Lemma discover_payload_run mac xid :
  length mac = 6%nat →
  discover_payload mac xid (replicate 1458 0)
  = Done (bootp mac xid [0; 0; 0; 0] [0; 0; 0; 0] ++ [53; 1; 1; 0xff] ++ replicate 1214 0, Ok 244).
Proof.
  intros Hm. unfold discover_payload. rewrite write_bootp_run by (done || lia). rewrite bind_Done_l.
  pose proof (length_bootp mac xid [0; 0; 0; 0] [0; 0; 0; 0] Hm eq_refl eq_refl) as Hl.
  generalize dependent (bootp mac xid [0; 0; 0; 0] [0; 0; 0; 0]). intros p Hl.
  do 4 (rewrite write_next by len_lia; rewrite bind_Done_l).
  rewrite drop_replicate, <- !app_assoc. done.
Qed.

Lemma request_payload_run mac xid ip server :
  length mac = 6%nat → length ip = 4%nat → length server = 4%nat →
  request_payload mac xid ip server (replicate 1458 0)
  = Done (bootp mac xid ip server ++ ([53; 1; 3; 54; 4] ++ server ++ [0; 50; 4] ++ ip ++ [0])
          ++ 0xff :: replicate 1200 0, Ok 257).
Proof.
  intros Hm Hi Hs. unfold request_payload. rewrite write_bootp_run by (done || lia).
  rewrite bind_Done_l. pose proof (length_bootp mac xid ip server Hm Hi Hs) as Hl.
  generalize dependent (bootp mac xid ip server). intros p Hl.
  remember (replicate 1458 0) as z eqn:Ez.
  assert (length z = 1458%nat) as Hz by (subst z; apply length_replicate).
  do 5 (rewrite write_next by len_lia; rewrite bind_Done_l).
  rewrite copy_next, bind_Done_l by len_lia.
  match goal with |- context [drop ?k z] => replace k with 249%nat by len_lia end.
  rewrite (skip_gap _ z 249 1).
  replace (take 1 (drop 249 z)) with [0] by by subst z; rewrite drop_replicate.
  do 2 (rewrite write_next by len_lia; rewrite bind_Done_l).
  rewrite copy_next, bind_Done_l by len_lia.
  match goal with |- context [drop ?k z] => replace k with 256%nat by len_lia end.
  rewrite (skip_gap _ z 256 1).
  replace (take 1 (drop 256 z)) with [0] by by subst z; rewrite drop_replicate.
  rewrite write_next, bind_Done_l by len_lia.
  subst z. rewrite drop_replicate, <- !app_assoc. done.
Qed.

(** The fixed part of a message, as the parser reads it. *)
Definition client_data (mac : list Z) (xid : Z) (ci si : list Z) (o : Operation) : Data := {|
  op := 1; htype := 1; hlen := 6; hops := 0; xid := xid; secs := 0; flags := 0x8000;
  ciaddr := ci; yiaddr := [0; 0; 0; 0]; siaddr := si; giaddr := [0; 0; 0; 0];
  chaddr := mac ++ replicate 10 0; operation := o |}.

Lemma data_try_from_bootp {B : Build} mac xid ci si opts v :
  length mac = 6%nat → length ci = 4%nat → length si = 4%nat → uint 32 xid →
  (4 ≤ length opts)%nat → find_operation (S (length opts)) opts = Done v →
  data_try_from (bootp mac xid ci si ++ opts)
  = Done (Ok (client_data mac xid ci si (operation_from v))).
Proof.
  intros Hm Hc Hs Hx Ho Hv. unfold data_try_from.
  pose proof (length_bootp mac xid ci si Hm Hc Hs) as Hl.
  rewrite (proj2 (Z.ltb_ge _ _)) by (rewrite len_app; unfold len; lia).
  rewrite drop_app_length' by done. rewrite Hv, bind_Done_l. clear Hv Hl.
  assert (from_be (to_be 4 xid) = xid) as E by (rewrite from_be_to_be; by apply cast_small).
  unfold bootp. pose proof (length_to_be 4 xid) as Hb. clear Hx.
  generalize dependent (to_be 4 xid). intros b E Hb.
  explode_list mac. explode_list ci. explode_list si. explode_list b.
  change (replicate 202 0) with ([0; 0; 0; 0; 0; 0; 0; 0; 0; 0] ++ replicate 192 0).
  rewrite <- !app_assoc. generalize (replicate 192 0 ++ to_be 4 0x63825363 ++ opts). intros q.
  cbn [app]. run_reads. subst xid. reflexivity.
Qed.

(** The sum of the header words is affine in the identification, so the
    single carry of [set_checksum] is lost for two values of it only. *)
Lemma client_sum mac ident size :
  uint 16 ident → uint 16 (28 + size) →
  raw_sum (builder_header (client_ip mac ident) (28 + size))
  = 0x4500 + (28 + size) + ident + 0x1411 + 0x1fffe.
Proof.
  intros Hi Hs. unfold raw_sum, builder_header. rewrite cast_small by done.
  unfold Ipv4.header_bytes, client_ip, with_checksum.
  cbn [set_destination set_source set_protocol set_ttl set_identification set_dscp
    version ihl dscp ecn total_length identification Ipv4.flags fragment_offset ttl protocol
    header_checksum source_ip destination_ip dst_dscp dst_ident dst_ttl dst_protocol dst_source
    dst_source_mac dst_destination dst_destination_mac src_dscp src_ident src_ttl src_protocol
    src_source src_source_mac pr_dscp pr_ident pr_ttl pr_protocol ttl_dscp ttl_ident ttl_ttl
    id_dscp id_ident dscp_dscp app].
  rewrite !words_cons, words_nil. unfold Zsum. cbn [foldr].
  change (Z.lor (shl_w 8 4 4) (Z.land 5 15) * 256 + Z.lor (shl_w 8 0 1) (Z.land 0 1)) with 0x4500.
  change (20 * 256 + protocol_into Ipv4.Udp) with 0x1411.
  change (Z.lor ((0 / 256) mod 256) (shl_w 8 0 5) * 256 + 0 mod 256) with 0.
  rewrite !word_split by done. change ((0 / 256) mod 256 * 256 + 0 mod 256) with 0. lia.
Qed.

(** The identifications for which [set_checksum] loses its carry. *)
Definition loses_carry (size ident : Z) : Prop := ident + size = 42707 ∨ ident + size = 42708.

Lemma client_checksum mac ident size :
  uint 16 ident → 0 ≤ size ≤ 1458 → ¬ loses_carry size ident →
  fold_once (raw_sum (builder_header (client_ip mac ident) (28 + size))) < 65536.
Proof.
  intros Hi Hs Hl. rewrite client_sum by (done || unfold uint; lia).
  unfold fold_once, loses_carry, uint in *. change (2 ^ 16) with 65536 in Hi.
  set (s := _ + 0x1fffe). pose proof (Z.div_mod s 65536 ltac:(lia)) as E.
  pose proof (Z.mod_pos_bound s 65536 ltac:(lia)). lia.
Qed.

Lemma wf_client mac ident : wf_mac mac → uint 16 ident → wf_dst (client_ip mac ident).
Proof.
  intros Hm Hi. split_and!; simpl; try done; try apply Hm; repeat constructor; by vm_compute.
Qed.

(** What a receiver sees of a client message: the frame goes from the device
    to everybody, from port 68 to port 67 and from 0.0.0.0 to the broadcast
    address. *)
Definition client_frame (mac : list Z) (ident size : Z) (e : Ethernet.Packet) : Prop :=
  destination_mac e = Done [0xff; 0xff; 0xff; 0xff; 0xff; 0xff]
  ∧ source_mac e = Done mac
  ∧ Ethernet.ether_type e = Done Ethernet.Ipv4
  ∧ (∃ c, Ipv4.header (Ipv4.packet_new e) = Done (parsed_header (client_ip mac ident) (8 + size) c))
  ∧ header (Udp.packet_new (Ipv4.packet_new e))
    = Done (udp_header (set_destination_port (set_source_port 68) 67) size).

Lemma client_message {B : Build} mac ident size f t :
  wf_mac mac → uint 16 ident → 18 ≤ size ≤ 1458 → ¬ loses_carry size ident → PayloadFn f →
  f (replicate 1458 0) = Done (t, Ok size) →
  ∃ e, Udp.finish (set_destination_port (set_source_port 68) 67) (client_ip mac ident) f size
       = Done (Ok e)
    ∧ client_frame mac ident size e
    ∧ payload (Udp.packet_new (Ipv4.packet_new e)) = Done (take (Z.to_nat size) t).
Proof.
  intros Hm Hi Hs Hl Hf Ht.
  pose proof (wf_client mac ident Hm Hi) as Hst.
  pose proof (wf_eth_state_dst _ Hst) as Heth.
  destruct (udp_finish_frame (set_destination_port (set_source_port 68) 67) (client_ip mac ident)
    f size t Hst ltac:(by vm_compute) ltac:(by vm_compute) Hf ltac:(lia)
    ltac:(by apply client_checksum; [| lia |]) Ht) as (body & c & Hfin & Hlen & Hhdr & Hu & Hp).
  rewrite Z.max_l in Hp by lia.
  eexists. split; [exact Hfin |]. split; [| exact Hp]. split_and!; [| | | by exists c | exact Hu].
  - by rewrite frame_destination_mac by (done || lia).
  - by rewrite frame_source_mac by (done || lia).
  - by rewrite frame_ether_type by (done || lia).
Qed.

Lemma get_of_payload {B : Build} d bs data :
  payload d = Done bs → data_try_from bs = Done (Ok data) → get (packet_new d) = Done data.
Proof. intros Hp Hd. unfold get. cbn [datagram packet_new]. by rewrite Hp, bind_Done_l, Hd. Qed.

(** The two messages, as a receiver that uses this same parser sees them. *)
Lemma discover_message_reads {B : Build} mac xid ident :
  wf_mac mac → uint 32 xid → uint 16 ident → ¬ loses_carry 244 ident →
  ∃ e, discover_message mac xid ident = Done (Ok e)
    ∧ client_frame mac ident 244 e
    ∧ get (packet_new (Udp.packet_new (Ipv4.packet_new e)))
      = Done (client_data mac xid [0; 0; 0; 0] [0; 0; 0; 0] Discover).
Proof.
  intros Hm Hx Hi Hl. pose proof (discover_payload_fn mac xid (proj2 Hm)) as Hf.
  destruct (client_message mac ident 244 _ _ Hm Hi ltac:(lia) Hl Hf
    (discover_payload_run mac xid (proj1 Hm))) as (e & Hfin & Hc & Hp).
  exists e. split; [exact Hfin |]. split; [exact Hc |]. eapply get_of_payload; [exact Hp |].
  rewrite app_assoc, take_app_length' by (rewrite length_app, length_bootp by (done || apply Hm); done).
  by apply (data_try_from_bootp mac xid _ _ [53; 1; 1; 0xff] 1); [apply Hm | | | | simpl; lia |].
Qed.

Lemma request_message_reads {B : Build} mac xid ip server ident :
  wf_mac mac → uint 32 xid → wf_ip ip → wf_ip server → uint 16 ident → ¬ loses_carry 257 ident →
  ∃ e, request_message mac xid ip server ident = Done (Ok e)
    ∧ client_frame mac ident 257 e
    ∧ payload (Udp.packet_new (Ipv4.packet_new e))
      = Done (bootp mac xid ip server ++ [53; 1; 3; 54; 4] ++ server ++ [0; 50; 4] ++ ip ++ [0])
    ∧ get (packet_new (Udp.packet_new (Ipv4.packet_new e)))
      = Done (client_data mac xid ip server Request).
Proof.
  intros Hm Hx [Hip Hipb] [Hsv Hsvb] Hi Hl.
  pose proof (request_payload_fn mac xid ip server (proj2 Hm) Hipb Hsvb) as Hf.
  destruct (client_message mac ident 257 _ _ Hm Hi ltac:(lia) Hl Hf
    (request_payload_run mac xid ip server (proj1 Hm) Hip Hsv)) as (e & Hfin & Hc & Hp).
  rewrite app_assoc, take_app_length' in Hp
    by (rewrite length_app, length_bootp by (done || apply Hm); len_lia).
  exists e. split_and!; [exact Hfin | apply Hc.. | exact Hp |]. eapply get_of_payload; [exact Hp |].
  apply (data_try_from_bootp mac xid _ _ _ 3); [apply Hm | done | done | done | len_lia | done].
Qed.

(** The DISCOVER message.  For every identification that does not lose the
    checksum's carry, building it succeeds, and a receiver that parses the
    broadcast frame with this same code gets a client DISCOVER with the
    device's MAC and the given transaction id. *)
Theorem dhcp_discover_roundtrip {B : Build} (mac : list Z) (xid ident : Z) :
  wf_mac mac → uint 32 xid → uint 16 ident → ¬ loses_carry 244 ident →
  ∃ e, discover_message mac xid ident = Done (Ok e)
    ∧ client_frame mac ident 244 e
    ∧ get (packet_new (Udp.packet_new (Ipv4.packet_new e)))
      = Done (client_data mac xid [0; 0; 0; 0] [0; 0; 0; 0] Discover).
Proof. apply discover_message_reads. Qed.

Lemma dhcp_discover_roundtrip_witness :
  ∃ e, @discover_message debug_build [2; 0; 0; 0; 0; 1] 0x12345678 13 = Done (Ok e)
    ∧ client_frame [2; 0; 0; 0; 0; 1] 13 244 e.
Proof.
  destruct (@dhcp_discover_roundtrip debug_build [2; 0; 0; 0; 0; 1] 0x12345678 13
    ltac:(by split; [| repeat constructor; vm_compute]) ltac:(by vm_compute) ltac:(by vm_compute)
    ltac:(by intros [|])) as (e & H1 & H2 & _).
  exists e. split; [exact H1 | exact H2].
Defined.

(** C25: the REQUEST message.  It parses back to a client REQUEST for the offered
    address; its 257 transmitted bytes carry the message type, the server
    identifier, a pad and the requested address, and stop one byte before the
    end marker the closure writes. *)
Theorem dhcp_request_roundtrip {B : Build} (mac : list Z) (xid : Z) (ip server : list Z) (ident : Z) :
  wf_mac mac → uint 32 xid → wf_ip ip → wf_ip server → uint 16 ident → ¬ loses_carry 257 ident →
  ∃ e, request_message mac xid ip server ident = Done (Ok e)
    ∧ client_frame mac ident 257 e
    ∧ payload (Udp.packet_new (Ipv4.packet_new e))
      = Done (bootp mac xid ip server ++ [53; 1; 3; 54; 4] ++ server ++ [0; 50; 4] ++ ip ++ [0])
    ∧ get (packet_new (Udp.packet_new (Ipv4.packet_new e)))
      = Done (client_data mac xid ip server Request).
Proof. apply request_message_reads. Qed.

Lemma dhcp_request_roundtrip_witness :
  ∃ e, @request_message debug_build [2; 0; 0; 0; 0; 1] 0x12345678 [10; 0; 2; 15] [10; 0; 2; 2] 0
       = Done (Ok e)
    ∧ client_frame [2; 0; 0; 0; 0; 1] 0 257 e.
Proof.
  destruct (@dhcp_request_roundtrip debug_build [2; 0; 0; 0; 0; 1] 0x12345678 [10; 0; 2; 15]
    [10; 0; 2; 2] 0 ltac:(by split; [| repeat constructor; vm_compute]) ltac:(by vm_compute)
    ltac:(by split; [| repeat constructor; vm_compute])
    ltac:(by split; [| repeat constructor; vm_compute]) ltac:(by vm_compute)
    ltac:(by intros [|])) as (e & H1 & H2 & _).
  exists e. split; [exact H1 | exact H2].
Defined.

(** What the parser takes from a message is made of its bytes. *)
Lemma to_array_done n (s t : list Z) : to_array n s = Done t → t = s ∧ length s = n.
Proof. unfold to_array. case_match; naive_solver. Qed.

Lemma data_addresses {B : Build} bs data :
  bytes bs → data_try_from bs = Done (Ok data) → wf_ip (yiaddr data) ∧ wf_ip (siaddr data).
Proof.
  intros Hb Hd. unfold data_try_from in Hd. case_match; [done |].
  repeat (apply bind_done in Hd as (? & ? & Hd)). injection Hd as <-. cbn [yiaddr siaddr].
  repeat match goal with
  | Ha : to_array _ _ = Done _ |- _ => apply to_array_done in Ha as [-> ?]
  | Hs : slice _ _ _ = Done _ |- _ => apply slice_done in Hs as [? ->]
  end.
  split; (split; [done | by apply sub_bytes]).
Qed.

Lemma payload_bytes d bs :
  wf_packet (Ipv4.eth_packet (Udp.ip_packet d)) → payload d = Done bs → bytes bs.
Proof.
  intros Hw Hp. unfold payload, Ipv4.payload, slice_from in Hp.
  apply bind_done in Hp as (x & Hx & Hp). apply bind_done in Hx as (c & Hc & Hx).
  apply bind_done in Hx as (b0 & _ & Hx).
  apply slice_done in Hp as [_ ->], Hx as [_ ->].
  apply content_bytes in Hc; [| done]. by do 2 apply sub_bytes.
Qed.

Lemma get_addresses {B : Build} p data :
  wf_packet (Ipv4.eth_packet (Udp.ip_packet (datagram p))) → get p = Done data →
  wf_ip (yiaddr data) ∧ wf_ip (siaddr data).
Proof.
  intros Hw Hg. unfold get in Hg. apply bind_done in Hg as (bs & Hp & Hg).
  apply bind_done in Hg as ([d | e] & Hd & [= <-]).
  eapply data_addresses; [| done]. by eapply payload_bytes.
Qed.
