(* ===== verification/Queue.v ===== *)
(** * Queues and stateful code

    The queues of the [nolock] crate ([mpsc::jiffy], [mpmc::bounded::scq],
    [spsc::bounded]) are used by the kernel, not defined in it.  They are an
    interface here: a queue type with its operations, and the documented laws
    the kernel relies on (first in, first out; an operation that fails leaves
    the queue as it was; a closed queue accepts nothing).  [List_queue] is an
    implementation, which shows that the laws can be met.

    The file also has the state monad in which the stateful components are
    written: a Rust function that mutates what it borrows is a function from
    the state to an outcome. *)

From stdpp Require Import base tactics list numbers.
From Stdlib Require Import ZArith Lia.
From S2P Require Import Prelude.

Local Open Scope Z_scope.

(** ** State and panics *)

Definition M (S A : Type) : Type := S → outcome (S * A).

#[export] Instance M_ret {S} : MRet (M S) := fun A a s => Done (s, a).
#[export] Instance M_bind {S} : MBind (M S) := fun A B f m s =>
  match m s with
  | Done (s, a) => f a s
  | Panicked why => Panicked why
  | OutOfFuel => OutOfFuel
  end.

Section monad.
Context {S : Type}.

Definition lift {A} (o : outcome A) : M S A := fun s =>
  match o with
  | Done a => Done (s, a)
  | Panicked why => Panicked why
  | OutOfFuel => OutOfFuel
  end.

Definition gets {A} (f : S → A) : M S A := fun s => Done (s, f s).

Definition modify (f : S → S) : M S unit := fun s => Done (f s, tt).

(** A [for] loop over a vector that is updated in place ([iter_mut]). *)
Fixpoint for_mut {A} (f : A → M S A) (l : list A) : M S (list A) :=
  match l with
  | [] => mret []
  | a :: l => a ← f a; l ← for_mut f l; mret (a :: l)
  end.

(** A [for] loop over a range. *)
Fixpoint for_each {A} (f : A → M S unit) (l : list A) : M S unit :=
  match l with
  | [] => mret tt
  | a :: l => _ ← f a; for_each f l
  end.

Lemma M_bind_run {A B} (m : M S A) (f : A → M S B) s s' a :
  m s = Done (s', a) → (x ← m; f x) s = f a s'.
Proof. intros Hm. unfold mbind, M_bind. by rewrite Hm. Qed.

Lemma M_bind_done {A B} (m : M S A) (f : A → M S B) s r :
  (x ← m; f x) s = Done r ↔ ∃ s' a, m s = Done (s', a) ∧ f a s' = Done r.
Proof.
  unfold mbind, M_bind. destruct (m s) as [[s' a] | |]; split; intros H.
  - by exists s', a.
  - by destruct H as (? & ? & [= -> ->] & ?).
  - done.
  - by destruct H as (? & ? & ? & ?).
  - done.
  - by destruct H as (? & ? & ? & ?).
Qed.

Lemma M_bind_lift {A B} (o : outcome A) a (f : A → M S B) s :
  o = Done a → (x ← lift o; f x) s = f a s.
Proof. by intros ->. Qed.

Lemma lift_done {A} (o : outcome A) s s' a : lift o s = Done (s', a) ↔ o = Done a ∧ s' = s.
Proof. unfold lift. destruct o; naive_solver. Qed.

(** A computation on a part of the state. *)
Definition zoom {T A} (get : S → T) (put : T → S → S) (k : M T A) : M S A := fun s =>
  match k (get s) with
  | Done (t, a) => Done (put t s, a)
  | Panicked why => Panicked why
  | OutOfFuel => OutOfFuel
  end.

Lemma zoom_run {T A} (get : S → T) put (k : M T A) s t a :
  k (get s) = Done (t, a) → zoom get put k s = Done (put t s, a).
Proof. intros Hk. unfold zoom. by rewrite Hk. Qed.

Lemma for_mut_Forall2 {A} (f : A → M S A) (R : A → A → Prop) l s s' l' :
  (∀ a s s' a', f a s = Done (s', a') → R a a') →
  for_mut f l s = Done (s', l') → Forall2 R l l'.
Proof.
  intros Hf. revert s s' l'. induction l as [| a l IH]; simpl; intros s s' l' Hr.
  - by injection Hr as <- <-.
  - apply M_bind_done in Hr as (s1 & a' & Ha & Hr). apply M_bind_done in Hr as (s2 & l2 & Hl & Hr).
    injection Hr as <- <-. constructor; eauto.
Qed.

Lemma for_each_app {A} (f : A → M S unit) l1 l2 s : for_each f (l1 ++ l2) s = (_ ← for_each f l1; for_each f l2) s.
Proof.
  revert s. induction l1 as [| a l1 IH]; intros s; cbn [for_each app]; [done |].
  unfold mbind, M_bind in *. destruct (f a s) as [[s1 []] | |]; [apply IH | done | done].
Qed.

Lemma for_each_fmap {A A'} (g : A → A') (f : A' → M S unit) l : for_each f (g <$> l) = for_each (λ a, f (g a)) l.
Proof. induction l as [| a l IH]; cbn; [done | by rewrite <- IH]. Qed.

(** Two nested loops are one over the pairs. *)
Lemma for_each_nested {X Y} (f : X * Y → M S unit) (ys : list Y) (xs : list X) s :
  for_each f (y ← ys; (λ x, (x, y)) <$> xs) s = for_each (λ y, for_each (λ x, f (x, y)) xs) ys s.
Proof.
  revert s. induction ys as [| y ys IH]; intros s; [done |]. rewrite bind_cons, for_each_app, for_each_fmap.
  cbn [for_each]. unfold mbind at 1 3, M_bind. by destruct (for_each _ xs s) as [[s1 []] | |].
Qed.

End monad.

(** ** Computations that stay within a relation *)

(** Whatever [k] does when it returns is related by [R]. *)
Definition stays {S A} (R : S → S → Prop) (k : M S A) : Prop := ∀ s s' a, k s = Done (s', a) → R s s'.

Section stays.
Context {S : Type} (R : S → S → Prop) `{!PreOrder R}.

Lemma stays_bind {A B} (k : M S A) (f : A → M S B) : stays R k → (∀ a, stays R (f a)) → stays R (x ← k; f x).
Proof. intros Hk Hf s s' b (s1 & a & H1 & H2)%M_bind_done. etrans; [by eapply Hk | by eapply Hf]. Qed.

Lemma stays_mret {A} (a : A) : stays R (mret a).
Proof. intros s s' a' [= <- _]. reflexivity. Qed.

Lemma stays_lift {A} (o : outcome A) : stays R (lift o).
Proof. intros s s' a [_ ->]%lift_done. reflexivity. Qed.

Lemma stays_gets {A} (f : S → A) : stays R (gets f).
Proof. intros s s' a [= <- _]. reflexivity. Qed.

Lemma stays_panic {A} why : stays R ((λ _, Panicked why) : M S A).
Proof. by intros s s' a. Qed.

Lemma stays_fuel {A} : stays R ((λ _, OutOfFuel) : M S A).
Proof. by intros s s' a. Qed.

Lemma stays_for_mut {A} (f : A → M S A) l : (∀ a, stays R (f a)) → stays R (for_mut f l).
Proof.
  intros Hf. induction l as [| a l IH]; cbn [for_mut]; [apply stays_mret |].
  apply stays_bind; [apply Hf |]. intros. apply stays_bind; [apply IH |]. intros. apply stays_mret.
Qed.

End stays.

Lemma stays_modify {S} (R : S → S → Prop) (f : S → S) : (∀ s, R s (f s)) → stays R (modify f).
Proof. intros Hf s s' a [= <- _]. apply Hf. Qed.

(** A computation on a part of the state. *)
Lemma stays_zoom {S T A} (R : S → S → Prop) (RT : T → T → Prop) (get : S → T) put (k : M T A) :
  (∀ s t, RT (get s) t → R s (put t s)) → stays RT k → stays R (zoom get put k).
Proof. intros HR Hk s s' a. unfold zoom. intros Hr. case_match; simplify_eq. case_match; simplify_eq. by eapply HR, Hk. Qed.

Lemma stays_impl {S A} (R R' : S → S → Prop) (k : M S A) : (∀ s s', R s s' → R' s s') → stays R k → stays R' k.
Proof. intros HR Hk s s' a Hr. by eapply HR, Hk. Qed.

Create HintDb stays.
#[export] Hint Resolve stays_mret stays_lift stays_gets stays_panic stays_fuel : stays.
#[export] Hint Extern 0 (PreOrder _) => typeclasses eauto : stays.

(** Follow a computation through its binds and branches. *)
Ltac stays :=
  repeat (intros; first [ solve [eauto 3 with stays] | case_match | apply stays_bind; [typeclasses eauto | |] ]).

(** ** Computations that keep an invariant and yield a kind of value *)

(** From a state that satisfies [I], a run of [k] that returns leaves one and
    yields a value of [P]. *)
Definition ensures {S A} (I : S → Prop) (k : M S A) (P : A → Prop) : Prop :=
  ∀ s s' a, I s → k s = Done (s', a) → I s' ∧ P a.

Section ensures.
Context {S : Type} (I : S → Prop).

Lemma ensures_mret {A} (P : A → Prop) a : P a → ensures I (mret a) P.
Proof. intros Ha s s' a' Hs [= <- <-]. done. Qed.

Lemma ensures_bind {A B} (k : M S A) (f : A → M S B) P R :
  ensures I k P → (∀ a, P a → ensures I (f a) R) → ensures I (x ← k; f x) R.
Proof.
  intros Hk Hf s s' b Hs (s1 & a & H1 & H2)%M_bind_done.
  destruct (Hk s s1 a Hs H1) as [Hs1 Ha]. exact (Hf a Ha s1 s' b Hs1 H2).
Qed.

Lemma ensures_lift {A} (o : outcome A) : ensures I (lift o) (λ a, o = Done a).
Proof. intros s s' a Hs [Ho ->]%lift_done. done. Qed.

Lemma ensures_gets {A} (f : S → A) (P : A → Prop) : (∀ s, I s → P (f s)) → ensures I (gets f) P.
Proof. intros Hf s s' a Hs [= <- <-]. auto. Qed.

Lemma ensures_modify (f : S → S) : (∀ s, I s → I (f s)) → ensures I (modify f) (λ _, True).
Proof. intros Hf s s' a Hs [= <- _]. auto. Qed.

Lemma ensures_for_mut {A} (P : A → Prop) (f : A → M S A) l :
  (∀ a, P a → ensures I (f a) P) → Forall P l → ensures I (for_mut f l) (Forall P).
Proof.
  intros Hf. induction 1 as [| a l Ha _ IH]; cbn [for_mut]; [by apply ensures_mret |].
  eapply ensures_bind; [by apply Hf |]. intros a' Ha'. eapply ensures_bind; [apply IH |].
  intros l' Hl'. apply ensures_mret. by constructor.
Qed.

End ensures.

(** ** The queue interface *)

Inductive DequeueError := Empty | Closed.

Class QueueOps (Q : Type → Type) := {
  q_items : ∀ {A}, Q A → list A;
  q_is_closed : ∀ {A}, Q A → bool;
  (** room for another element; always true of an unbounded queue *)
  q_has_room : ∀ {A}, Q A → bool;
  q_try_enqueue : ∀ {A}, Q A → A → Q A * result unit unit;
  q_try_dequeue : ∀ {A}, Q A → Q A * result A DequeueError;
  (** one end is dropped *)
  q_close : ∀ {A}, Q A → Q A }.

Class QueueLaws (Q : Type → Type) `{QueueOps Q} : Prop := {
  enqueue_ok : ∀ A (q : Q A) a, q_is_closed q = false → q_has_room q = true →
    (q_try_enqueue q a).2 = Ok tt ∧ q_items (q_try_enqueue q a).1 = q_items q ++ [a]
    ∧ q_is_closed (q_try_enqueue q a).1 = false;
  enqueue_err : ∀ A (q : Q A) a, q_is_closed q = true ∨ q_has_room q = false →
    q_try_enqueue q a = (q, Err tt);
  dequeue_some : ∀ A (q : Q A) a rest, q_items q = a :: rest →
    (q_try_dequeue q).2 = Ok a ∧ q_items (q_try_dequeue q).1 = rest
    ∧ q_is_closed (q_try_dequeue q).1 = q_is_closed q;
  dequeue_none : ∀ A (q : Q A), q_items q = [] →
    q_try_dequeue q = (q, Err (if q_is_closed q then Closed else Empty));
  close_spec : ∀ A (q : Q A),
    q_items (q_close q) = q_items q ∧ q_is_closed (q_close q) = true }.

(** ** A queue as a list *)

Record list_queue (A : Type) := mk_queue {
  lq_items : list A;
  lq_capacity : option nat;
  lq_closed : bool }.
Arguments mk_queue {A} _ _ _.
Arguments lq_items {A} _.
Arguments lq_capacity {A} _.
Arguments lq_closed {A} _.

Definition lq_room {A} (q : list_queue A) : bool :=
  match lq_capacity q with
  | None => true
  | Some n => (length (lq_items q) <? n)%nat
  end.

#[export] Instance List_queue : QueueOps list_queue := {|
  q_items := @lq_items;
  q_is_closed := @lq_closed;
  q_has_room := @lq_room;
  q_try_enqueue A q a :=
    if lq_closed q then (q, Err tt)
    else if lq_room q then
      (mk_queue (lq_items q ++ [a]) (lq_capacity q) (lq_closed q), Ok tt)
    else (q, Err tt);
  q_try_dequeue A q :=
    match lq_items q with
    | [] => (q, Err (if lq_closed q then Closed else Empty))
    | a :: rest => (mk_queue rest (lq_capacity q) (lq_closed q), Ok a)
    end;
  q_close A q := mk_queue (lq_items q) (lq_capacity q) true |}.

#[export] Instance List_queue_laws : QueueLaws list_queue.
Proof.
  split; simpl; intros A q.
  - intros a -> ->. done.
  - intros a [-> | Hr]; [done |]. rewrite Hr. by destruct (lq_closed q).
  - intros a rest ->. done.
  - intros ->. done.
  - done.
Qed.

(** ** Unbounded queues *)

(** [mpsc::jiffy] is unbounded: only closing it makes an enqueue fail. *)
Class UnboundedQueue (Q : Type → Type) `{QueueOps Q} : Prop :=
  always_room : ∀ A (q : Q A), q_has_room q = true.

Record jiffy_queue (A : Type) := mk_jiffy { jq_items : list A; jq_closed : bool }.
Arguments mk_jiffy {A} _ _.
Arguments jq_items {A} _.
Arguments jq_closed {A} _.

#[export] Instance Jiffy_queue : QueueOps jiffy_queue := {|
  q_items := @jq_items;
  q_is_closed := @jq_closed;
  q_has_room A q := true;
  q_try_enqueue A q a :=
    if jq_closed q then (q, Err tt) else (mk_jiffy (jq_items q ++ [a]) (jq_closed q), Ok tt);
  q_try_dequeue A q :=
    match jq_items q with
    | [] => (q, Err (if jq_closed q then Closed else Empty))
    | a :: rest => (mk_jiffy rest (jq_closed q), Ok a)
    end;
  q_close A q := mk_jiffy (jq_items q) true |}.

#[export] Instance Jiffy_queue_laws : QueueLaws jiffy_queue.
Proof.
  split; simpl; intros A q.
  - intros a -> _. done.
  - by intros a [-> | ?].
  - intros a rest ->. done.
  - intros ->. done.
  - done.
Qed.

#[export] Instance Jiffy_unbounded : UnboundedQueue jiffy_queue.
Proof. done. Qed.

(** Enqueueing a batch on an open unbounded queue appends it. *)
Lemma enqueue_open {Q : Type → Type} `{QueueLaws Q} `{!UnboundedQueue Q} {A} (q : Q A) a :
  q_is_closed q = false →
  q_items (q_try_enqueue q a).1 = q_items q ++ [a] ∧ q_is_closed (q_try_enqueue q a).1 = false.
Proof. intros Ho. by destruct (enqueue_ok _ q a Ho (always_room _ q)) as (_ & ? & ?). Qed.

(** ** Positions on a ring *)

Definition ring_pos (R n j : nat) : nat := (n + j) mod R.

Lemma ring_pos_0 R n : (n < R)%nat → ring_pos R n 0 = n.
Proof. intros. unfold ring_pos. rewrite Nat.add_0_r. by apply Nat.mod_small. Qed.

Lemma ring_pos_S R n j : ring_pos R ((n + 1) mod R) j = ring_pos R n (S j).
Proof. unfold ring_pos. rewrite Nat.Div0.add_mod_idemp_l. f_equal. lia. Qed.

Lemma ring_pos_ne R n j : (0 < j < R)%nat → (n < R)%nat → ring_pos R n j ≠ n.
Proof.
  intros Hj Hn E. unfold ring_pos in E. destruct (Nat.lt_ge_cases (n + j) R).
  - rewrite Nat.mod_small in E by lia. lia.
  - assert ((n + j) mod R = n + j - R)%nat as E'; [| lia].
    replace (n + j)%nat with ((n + j - R) + 1 * R)%nat at 1 by lia.
    rewrite Nat.Div0.mod_add. apply Nat.mod_small. lia.
Qed.

Lemma ring_pos_lt R n j : (0 < R)%nat → (ring_pos R n j < R)%nat.
Proof. intros. apply Nat.mod_upper_bound. lia. Qed.

(** Invert a run of the state monad that returned. *)
Ltac m_inv :=
  repeat match goal with
  | H : mbind _ _ _ = Done _ |- _ => apply M_bind_done in H as (? & ? & ? & H)
  | H : lift _ _ = Done (_, _) |- _ => apply lift_done in H as [H ->]
  | H : mret _ _ = Done _ |- _ => injection H as ? ?; subst
  | H : gets _ _ = Done _ |- _ => injection H as ? ?; subst
  | H : modify _ _ = Done _ |- _ => injection H as ? ?; subst
  | H : Panicked _ = Done _ |- _ => discriminate H
  end.

Ltac m_cases := repeat (progress m_inv || case_match).
