(* ===== verification/Device.v ===== *)
(** * Network devices

    [src/src/hardware/device.rs]: what the handler keeps per device, the DHCP
    exchange of a device and its packet queue; and [IpMap] of
    [src/src/extensions/networking/protocols.rs].

    A [NetworkDevice] owns its packet queue here; the driver's end of it is
    the [PacketQueueReceiver] operation on the same queue.  Shared cells
    ([Arc<AtomicBool>]), wakers and notification closures are identities;
    what happens to them is recorded in the world of [Handler]. *)

From stdpp Require Import base tactics list gmap numbers.
From Stdlib Require Import ZArith Lia.
From S2P Require Import Prelude Queue Buffer Ethernet.

Local Open Scope Z_scope.

(** ** [IpMap] *)

Definition IpMap : Type := gmap (list Z) (list Z).

Definition ipmap_new : IpMap := ∅.
Definition try_get (m : IpMap) (ip : list Z) : option (list Z) := m !! ip.
Definition set (m : IpMap) (ip mac : list Z) : IpMap := <[ip := mac]> m.

(** ** Devices *)

(** An [Arc<AtomicBool>] is the identity of its cell. *)
Abbreviation cell := Z (only parsing).

Inductive DHCPExchange :=
  | Initial
  | Discover (indicator : cell) (transaction_id : Z)
  | Requested (indicator : cell) (transaction_id : Z) (own_ip server_ip : list Z)
  | Done_.

#[export] Instance DHCPExchange_eq_dec : EqDecision DHCPExchange.
Proof. solve_decision. Defined.

Record NetworkingMetadata := {
  mac : list Z;
  ip : option (list Z);
  dhcp : DHCPExchange }.

Section device.
Context (Q : Type → Type) `{QueueOps Q}.

(** [notify] is the identity of the notification closure. *)
Record PacketQueueSender := {
  sender_queue : Q Ethernet.Packet;
  notify : Z }.

Record NetworkDevice := {
  id : Z;
  dev_mac : list Z;
  packet_queue : PacketQueueSender;
  metadata : NetworkingMetadata;
  udp_bindings : gmap Z Z }.

(** [PacketQueueSender::enqueue] up to the call of [notify]: the result of
    the queue's [enqueue] is dropped. *)
Definition sender_enqueue (q : PacketQueueSender) (packet : Ethernet.Packet) : PacketQueueSender :=
  {| sender_queue := (q_try_enqueue (sender_queue q) packet).1; notify := notify q |}.

(** [PacketQueueReceiver::dequeue], on the queue both ends share. *)
Definition receiver_dequeue (q : PacketQueueSender) :
    PacketQueueSender * option Ethernet.Packet :=
  let '(q', r) := q_try_dequeue (sender_queue q) in
  ({| sender_queue := q'; notify := notify q |},
   match r with Ok p => Some p | Err _ => None end).

Definition with_metadata (d : NetworkDevice) (m : NetworkingMetadata) : NetworkDevice :=
  {| id := id d; dev_mac := dev_mac d; packet_queue := packet_queue d; metadata := m;
     udp_bindings := udp_bindings d |}.

Definition with_queue (d : NetworkDevice) (q : PacketQueueSender) : NetworkDevice :=
  {| id := id d; dev_mac := dev_mac d; packet_queue := q; metadata := metadata d;
     udp_bindings := udp_bindings d |}.

Definition with_dhcp (m : NetworkingMetadata) (x : DHCPExchange) : NetworkingMetadata :=
  {| mac := mac m; ip := ip m; dhcp := x |}.

Definition with_ip (m : NetworkingMetadata) (a : option (list Z)) : NetworkingMetadata :=
  {| mac := mac m; ip := a; dhcp := dhcp m |}.

(** The frames waiting in the device's queue. *)
Definition queued (d : NetworkDevice) : list Ethernet.Packet :=
  q_items (sender_queue (packet_queue d)).

End device.

Arguments PacketQueueSender Q : clear implicits.
Arguments NetworkDevice Q : clear implicits.
Arguments sender_queue {Q} _.
Arguments notify {Q} _.
Arguments id {Q} _.
Arguments dev_mac {Q} _.
Arguments udp_bindings {Q} _.
Arguments packet_queue {Q} _.
Arguments metadata {Q} _.
Arguments Build_PacketQueueSender {Q} _ _.
Arguments Build_NetworkDevice {Q} _ _ _ _ _.
Arguments sender_enqueue {Q _} _ _.
Arguments receiver_dequeue {Q _} _.
Arguments with_metadata {Q} _ _.
Arguments with_queue {Q} _ _.
Arguments queued {Q _} _.
