(* ===== verification/Handler.v ===== *)
(** * The network handler

    [src/src/extensions/networking/handler.rs] and the message types of
    [src/src/extensions/networking.rs]: the task that owns the devices,
    starts DHCP on each and reacts to received packets and to requests of
    the API.

    The handler's own state is [Handler] (devices and bindings); what it
    shares with the rest of the kernel is [World] (atomic cells, the queues
    on which results go back, the ARP table, and the trace of notifications,
    wake-ups and console output).  [Q] are the queues on which results go back
    ([spsc::bounded]), [D] those of the devices ([mpsc::jiffy]). *)

From stdpp Require Import base tactics list gmap numbers.
From Stdlib Require Import ZArith Lia.
From S2P Require Import Prelude Queue Checksum Buffer Ethernet Arp Ipv4 Udp Icmp Dhcp Device.

Local Open Scope Z_scope.

Inductive Printed :=
  | UnknownArp (op : Z)
  | WakeOnLanContent (bytes : list Z)
  | UnknownIcmp (raw : list Z)
  | UnexpectedDhcp (data : Dhcp.Data)
  | UnboundUdpHeader (h : Udp.PacketHeader)
  | UnboundUdpPayload (bytes : list Z)
  | TcpPacket
  | UnknownProtocol (raw : Z).

Inductive Event :=
  | Notified (notify : Z)
  | Woken (waker : Z)
  | Println (what : Printed)
  (** [tracing::debug!("Received ARP for ..")] *)
  | ReceivedArp (src_ip : list Z).

Section handler.
Context (Q : Type → Type) {D : Type → Type} `{QueueOps Q} `{QueueOps D} {B : Build}.

Record RawPacket := { raw_id : Z; raw_buffer : Buffer }.

Inductive ActionRequest :=
  | SendArpRequest (ip : list Z) (ret_queue : Z)
  | PingRequest (waker : Z) (ip mac : list Z) (result : Z).

Inductive HandlerMessage :=
  | Packet (raw : RawPacket)
  | Action (action : ActionRequest).

Record World := {
  cells : gmap Z bool;
  next_cell : Z;
  mac_queues : gmap Z (Q (list Z));
  udp_queues : gmap Z (Q Udp.Packet);
  ips : option IpMap;
  trace : list Event }.

Record Bindings := {
  udp : gmap Z Z;
  arp : gmap (list Z) Z;
  ping : gmap (list Z) (Z * Z) }.

Record Handler := {
  devices : list (NetworkDevice D);
  bindings : Bindings }.

(** ** Operations on the world *)

Definition set_cells (f : gmap Z bool → gmap Z bool) (w : World) : World :=
  {| cells := f (cells w); next_cell := next_cell w; mac_queues := mac_queues w;
     udp_queues := udp_queues w; ips := ips w; trace := trace w |}.
Definition set_mac_queues (f : gmap Z (Q (list Z)) → gmap Z (Q (list Z))) (w : World) : World :=
  {| cells := cells w; next_cell := next_cell w; mac_queues := f (mac_queues w);
     udp_queues := udp_queues w; ips := ips w; trace := trace w |}.
Definition set_udp_queues (f : gmap Z (Q Udp.Packet) → gmap Z (Q Udp.Packet)) (w : World) : World :=
  {| cells := cells w; next_cell := next_cell w; mac_queues := mac_queues w;
     udp_queues := f (udp_queues w); ips := ips w; trace := trace w |}.
Definition set_ips (m : IpMap) (w : World) : World :=
  {| cells := cells w; next_cell := next_cell w; mac_queues := mac_queues w;
     udp_queues := udp_queues w; ips := Some m; trace := trace w |}.
Definition add_event (e : Event) (w : World) : World :=
  {| cells := cells w; next_cell := next_cell w; mac_queues := mac_queues w;
     udp_queues := udp_queues w; ips := ips w; trace := trace w ++ [e] |}.

Definition emit (e : Event) : M World unit := modify (add_event e).

(** [Arc::new(AtomicBool::new(b))] *)
Definition new_cell (b : bool) : M World Z := fun w =>
  Done ({| cells := <[next_cell w := b]> (cells w); next_cell := next_cell w + 1;
           mac_queues := mac_queues w; udp_queues := udp_queues w; ips := ips w;
           trace := trace w |}, next_cell w).

Definition store (c : Z) (b : bool) : M World unit := modify (set_cells <[c := b]>).

(** [try_enqueue] on a result queue; the handle always names a queue, so a
    missing one is a queue whose other end is gone. *)
Definition mac_try_enqueue (q : Z) (v : list Z) : M World (result unit unit) := fun w =>
  match mac_queues w !! q with
  | None => Done (w, Err tt)
  | Some s => let '(s, r) := q_try_enqueue s v in Done (set_mac_queues <[q := s]> w, r)
  end.

Definition udp_try_enqueue (q : Z) (v : Udp.Packet) : M World (result unit unit) := fun w =>
  match udp_queues w !! q with
  | None => Done (w, Err tt)
  | Some s => let '(s, r) := q_try_enqueue s v in Done (set_udp_queues <[q := s]> w, r)
  end.

(** Dropping the sender of a result queue closes it. *)
Definition drop_mac_sender (q : Z) : M World unit := modify (set_mac_queues (alter q_close q)).

(** [device.packet_queue.enqueue(packet)] *)
Definition device_enqueue (d : NetworkDevice D) (packet : Ethernet.Packet) : M World (NetworkDevice D) :=
  _ ← emit (Notified (notify (packet_queue d)));
  mret (with_queue d (sender_enqueue (packet_queue d) packet)).

(** ** Received packets *)

Definition broadcast : list Z := [0xff; 0xff; 0xff; 0xff; 0xff; 0xff].

Definition handle_arp (d : NetworkDevice D) (b : Bindings) (eth_packet : Ethernet.Packet) :
    M World (NetworkDevice D * Bindings) :=
  r ← lift (Arp.packet_new eth_packet);
  arp_packet ← lift (unwrap_result r);
  match Arp.get_operation arp_packet with
  | Arp.Request =>
      match ip (metadata d) with
      | None => mret (d, b)
      | Some own_ip =>
          if bool_decide (own_ip ≠ Arp.get_dest_ip arp_packet) then mret (d, b) else
          r ← lift (Arp.finish
                (Arp.set_operation
                   (Arp.destination (Arp.sender (mac (metadata d)) own_ip)
                      (Arp.src_mac arp_packet) (Arp.src_ip arp_packet))
                   Arp.Response));
          packet ← lift (unwrap_result r);
          d ← device_enqueue d packet;
          mret (d, b)
      end
  | Arp.Response =>
      known ← gets ips;
      known ← lift (unwrap known);
      _ ← modify (set_ips (Device.set known (Arp.src_ip arp_packet) (Arp.src_mac arp_packet)));
      _ ← emit (ReceivedArp (Arp.src_ip arp_packet));
      match arp b !! Arp.src_ip arp_packet with
      | None => mret (d, b)
      | Some listeners =>
          let b := {| udp := udp b; arp := delete (Arp.src_ip arp_packet) (arp b); ping := ping b |} in
          r ← mac_try_enqueue listeners (Arp.src_mac arp_packet);
          _ ← lift (unwrap_result r);
          _ ← drop_mac_sender listeners;
          mret (d, b)
      end
  | Arp.Unknown op =>
      _ ← emit (Println (UnknownArp op));
      mret (d, b)
  end.

Definition handle_icmp (d : NetworkDevice D) (b : Bindings) (ip_packet : Ipv4.Packet) :
    M World (NetworkDevice D * Bindings) :=
  let icmp_packet := Icmp.packet_new ip_packet in
  ty ← lift (Icmp.get_type icmp_packet);
  match ty with
  | Icmp.EchoRequest _ _ =>
      _ ← lift (Ipv4.header (Icmp.ipv4_packet icmp_packet));
      _ ← lift (Icmp.payload icmp_packet);
      lift (Panicked Todo)
  | Icmp.EchoReply _ _ =>
      h ← lift (Ipv4.header (Icmp.ipv4_packet icmp_packet));
      match ping b !! Ipv4.source_ip h with
      | None => mret (d, b)
      | Some (waker, result) =>
          let b := {| udp := udp b; arp := arp b; ping := delete (Ipv4.source_ip h) (ping b) |} in
          _ ← store result true;
          _ ← emit (Woken waker);
          mret (d, b)
      end
  | Icmp.Unknown raw =>
      _ ← emit (Println (UnknownIcmp raw));
      mret (d, b)
  end.

Definition handle_dhcp (d : NetworkDevice D) (udp_packet : Udp.Packet) : M World (NetworkDevice D) :=
  dhcp_data ← lift (Dhcp.get (Dhcp.packet_new udp_packet));
  let exchange := dhcp (metadata d) in
  let unexpected :=
    _ ← emit (Println (UnexpectedDhcp dhcp_data));
    mret (with_metadata d (with_dhcp (metadata d) exchange)) in
  match exchange, Dhcp.operation dhcp_data with
  | Discover indicator transaction_id, Dhcp.Offer =>
      if transaction_id =? Dhcp.xid dhcp_data then
        let offered_ip := Dhcp.yiaddr dhcp_data in
        let server_ip := Dhcp.siaddr dhcp_data in
        let d := with_metadata d (with_dhcp (metadata d) Initial) in
        r ← lift (Dhcp.request_message (mac (metadata d)) transaction_id offered_ip server_ip 0);
        packet ← lift (unwrap_result r);
        d ← device_enqueue d packet;
        mret (with_metadata d
          (with_dhcp (metadata d) (Requested indicator transaction_id offered_ip server_ip)))
      else unexpected
  | Requested indicator transaction_id own_ip _, Dhcp.Ack =>
      if transaction_id =? Dhcp.xid dhcp_data then
        let d := with_metadata d (with_ip (with_dhcp (metadata d) Done_) (Some own_ip)) in
        _ ← store indicator true;
        mret d
      else unexpected
  | _, _ => unexpected
  end.

Definition handle_udp (d : NetworkDevice D) (b : Bindings) (ip_packet : Ipv4.Packet) :
    M World (NetworkDevice D * Bindings) :=
  let udp_packet := Udp.packet_new ip_packet in
  udp_header ← lift (Udp.header udp_packet);
  if (Udp.source_port udp_header =? 67) && (Udp.destination_port udp_header =? 68) then
    d ← handle_dhcp d udp_packet;
    mret (d, b)
  else
    match udp b !! Udp.destination_port udp_header with
    | Some bind_queue =>
        _ ← udp_try_enqueue bind_queue udp_packet;
        mret (d, b)
    | None =>
        _ ← emit (Println (UnboundUdpHeader udp_header));
        p ← lift (Udp.payload udp_packet);
        _ ← emit (Println (UnboundUdpPayload p));
        mret (d, b)
    end.

(** The body of [handle_packet_] once the device is found. *)
Definition handle_frame (d : NetworkDevice D) (b : Bindings) (buffer : Buffer) :
    M World (NetworkDevice D * Bindings) :=
  let eth_packet := Ethernet.packet_new buffer in
  destination ← lift (destination_mac eth_packet);
  if bool_decide (destination ≠ broadcast) && bool_decide (destination ≠ mac (metadata d)) then
    mret (d, b)
  else
    ty ← lift (ether_type eth_packet);
    match ty with
    | Ethernet.Arp => handle_arp d b eth_packet
    | Ethernet.WakeOnLan =>
        c ← lift (content eth_packet);
        _ ← emit (Println (WakeOnLanContent c));
        mret (d, b)
    | Ethernet.Ipv4 =>
        let ip_packet := Ipv4.packet_new eth_packet in
        h ← lift (Ipv4.header ip_packet);
        match Ipv4.protocol h with
        | Ipv4.Icmp => handle_icmp d b ip_packet
        | Ipv4.Udp => handle_udp d b ip_packet
        | Ipv4.Tcp => _ ← emit (Println TcpPacket); mret (d, b)
        | Ipv4.Unknown raw => _ ← emit (Println (UnknownProtocol raw)); mret (d, b)
        end
    | Ethernet.Ipv6 => mret (d, b)
    | Ethernet.Unknown _ => mret (d, b)
    end.

Definition handle_packet_ (raw : RawPacket) (h : Handler) : M World Handler :=
  found ← lift (unwrap (list_find (λ d, id d = raw_id raw) (devices h)));
  let '(i, d) := found in
  r ← handle_frame d (bindings h) (raw_buffer raw);
  mret {| devices := <[i := r.1]> (devices h); bindings := r.2 |}.

(** ** The task *)

Definition tx_id : Z := 0x12345678.

Definition init_device (d : NetworkDevice D) : M World (NetworkDevice D) :=
  indicator ← new_cell false;
  let d := with_metadata d (with_dhcp (metadata d) (Discover indicator tx_id)) in
  r ← lift (Dhcp.discover_message (mac (metadata d)) tx_id 13);
  packet ← lift (unwrap_result r);
  device_enqueue d packet.

Definition no_bindings : Bindings := {| udp := ∅; arp := ∅; ping := ∅ |}.

(** [network_handler] up to its loop. *)
Definition init_handler (ds : list (NetworkDevice D)) : M World Handler :=
  ds ← for_mut init_device ds;
  mret {| devices := ds; bindings := no_bindings |}.

Definition own_ip_or_zero (d : NetworkDevice D) : list Z :=
  match ip (metadata d) with Some a => a | None => [0; 0; 0; 0] end.

Definition send_arp_request (target_ip : list Z) (d : NetworkDevice D) : M World (NetworkDevice D) :=
  r ← lift (Arp.finish
        (Arp.set_operation
           (Arp.destination (Arp.sender (mac (metadata d)) (own_ip_or_zero d)) broadcast target_ip)
           Arp.Request));
  packet ← lift (unwrap_result r);
  device_enqueue d packet.

(** The IPv4 builder of a ping. *)
Definition ping_ip (d : NetworkDevice D) (target_ip target_mac : list Z) : Ipv4.DestinationState :=
  set_destination
    (set_source (set_protocol (set_ttl (set_identification (set_dscp 0) 0x1234) 20) Ipv4.Icmp)
       (own_ip_or_zero d) (mac (metadata d)))
    target_ip target_mac.

Definition send_ping (target_ip target_mac : list Z) (d : NetworkDevice D) : M World (NetworkDevice D) :=
  r ← lift (Icmp.finish (Icmp.set_type (Icmp.EchoRequest 0x1234 0x2345))
        (ping_ip d target_ip target_mac) no_payload 0);
  packet ← lift (unwrap_result r);
  device_enqueue d packet.

(** [map.insert(key, sender)] drops the sender the key had. *)
Definition insert_arp (b : Bindings) (target_ip : list Z) (ret_queue : Z) : M World Bindings :=
  _ ← match arp b !! target_ip with
      | Some old => drop_mac_sender old
      | None => mret tt
      end;
  mret {| udp := udp b; arp := <[target_ip := ret_queue]> (arp b); ping := ping b |}.

Definition handle_action (action : ActionRequest) (h : Handler) : M World Handler :=
  match action with
  | SendArpRequest ip ret_queue =>
      b ← insert_arp (bindings h) ip ret_queue;
      ds ← for_mut (send_arp_request ip) (devices h);
      mret {| devices := ds; bindings := b |}
  | PingRequest waker ip mac result =>
      let b := {| udp := udp (bindings h); arp := arp (bindings h);
                  ping := <[ip := (waker, result)]> (ping (bindings h)) |} in
      ds ← for_mut (send_ping ip mac) (devices h);
      mret {| devices := ds; bindings := b |}
  end.

Definition handle_message (m : HandlerMessage) (h : Handler) : M World Handler :=
  match m with
  | Packet raw => handle_packet_ raw h
  | Action action => handle_action action h
  end.

(** The loop over the messages the task dequeues before its queue fails. *)
Fixpoint handle_messages (ms : list HandlerMessage) (h : Handler) : M World Handler :=
  match ms with
  | [] => mret h
  | m :: ms => h ← handle_message m h; handle_messages ms h
  end.

Definition network_handler (ds : list (NetworkDevice D)) (ms : list HandlerMessage) : M World Handler :=
  h ← init_handler ds;
  handle_messages ms h.

End handler.

Arguments Handler D : clear implicits.
Arguments Build_Handler {D} _ _.
Arguments devices {D} _.
Arguments bindings {D} _.
