(* ===== verification/HandlerSpec.v ===== *)
(** * What the network handler guarantees

    The DHCP client of a device as an abstract state machine, the refinement
    of that machine by every run of the handler, and the behaviour of the
    handler on each kind of message. *)

From stdpp Require Import base tactics list gmap numbers relations.
From Stdlib Require Import ZArith Lia.
From S2P Require Import Prelude Queue Checksum Buffer Ethernet Arp Ipv4 Udp Icmp Dhcp Device Handler.

Local Open Scope Z_scope.


(** ** The DHCP client, abstractly *)

(** The address of a device and where its exchange stands. *)
Definition lease : Type := option (list Z) * DHCPExchange.

(** What a DHCP message does to a lease: an OFFER of the own transaction
    fixes the address to request, the ACK of that transaction grants it, and
    every other message is ignored. *)
Definition client (l : lease) (m : Dhcp.Data) : lease :=
  match l.2, Dhcp.operation m with
  | Discover c x, Dhcp.Offer =>
      if x =? Dhcp.xid m then (l.1, Requested c x (Dhcp.yiaddr m) (Dhcp.siaddr m)) else l
  | Requested c x own _, Dhcp.Ack => if x =? Dhcp.xid m then (Some own, Done_) else l
  | _, _ => l
  end.

(** A lease has an address exactly when its exchange is done. *)
Definition lease_ok (l : lease) : Prop := is_Some l.1 ↔ l.2 = Done_.

Lemma client_ok l m : lease_ok l → lease_ok (client l m).
Proof.
  destruct l as [a x]. unfold client, lease_ok. cbn [fst snd]. intros Hl.
  repeat case_match; simpl in *; try done; naive_solver.
Qed.

Lemma clients_ok l ms : lease_ok l → lease_ok (foldl client l ms).
Proof. revert l. induction ms; simpl; eauto using client_ok. Qed.

(** A finished exchange is never left. *)
Lemma clients_done a ms : foldl client (a, Done_) ms = (a, Done_).
Proof. by induction ms. Qed.

Section spec.
Context {Q D : Type → Type} `{QueueOps Q} `{QueueOps D} {B : Build}.

Implicit Types (d : NetworkDevice D) (h : Handler D) (w : World Q) (b : Bindings).

Definition lease_of d : lease := (ip (metadata d), dhcp (metadata d)).

(** What never changes of a device. *)
Definition same_device d d' : Prop :=
  id d' = id d ∧ dev_mac d' = dev_mac d ∧ mac (metadata d') = mac (metadata d)
  ∧ notify (packet_queue d') = notify (packet_queue d).

#[local] Instance same_device_preorder : PreOrder same_device.
Proof.
  split; [by intros d; split_and! |].
  intros d d' d'' (E1 & E2 & E3 & E4) (F1 & F2 & F3 & F4). split_and!; congruence.
Qed.

(** The DHCP message of a frame for the address [own], if it carries one:
    a UDP datagram from port 67 to port 68 that parses. *)
Definition dhcp_of (own : list Z) (buf : Buffer) : option Dhcp.Data :=
  let e := Ethernet.packet_new buf in
  let i := Ipv4.packet_new e in
  let u := Udp.packet_new i in
  match destination_mac e with
  | Done dst =>
      if bool_decide (dst ≠ broadcast) && bool_decide (dst ≠ own) then None else
      match ether_type e, Ipv4.header i with
      | Done Ethernet.Ipv4, Done ih =>
          match Ipv4.protocol ih, Udp.header u, Dhcp.get (Dhcp.packet_new u) with
          | Ipv4.Udp, Done uh, Done data =>
              if (Udp.source_port uh =? 67) && (Udp.destination_port uh =? 68) then Some data else None
          | _, _, _ => None
          end
      | _, _ => None
      end
  | _ => None
  end.

(** The DHCP message that a message of the handler brings to a device. *)
Definition delivered d (m : HandlerMessage) : option Dhcp.Data :=
  match m with
  | Packet raw =>
      if bool_decide (raw_id raw = id d) then dhcp_of (mac (metadata d)) (raw_buffer raw) else None
  | Action _ => None
  end.

Lemma delivered_same d d' m : same_device d d' → delivered d' m = delivered d m.
Proof. by intros (E & _ & E' & _); destruct m; simpl; rewrite ?E, ?E'. Qed.

Lemma omap_delivered_same d d' (ms : list HandlerMessage) :
  same_device d d' → omap (delivered d') ms = omap (delivered d) ms.
Proof. intros Hs. induction ms as [| m ms IH]; [done |]. cbn. by rewrite (delivered_same d d') by done; case_match; rewrite ?IH. Qed.

Definition device_step (o : option Dhcp.Data) d d' : Prop :=
  same_device d d'
  ∧ lease_of d' = match o with Some data => client (lease_of d) data | None => lease_of d end.

Lemma device_enqueue_inv d p w w' d' :
  device_enqueue Q d p w = Done (w', d') →
  w' = add_event Q (Notified (notify (packet_queue d))) w
  ∧ d' = with_queue d (sender_enqueue (packet_queue d) p).
Proof. intros Hr. unfold device_enqueue, emit in Hr. by m_inv. Qed.

(** Replace a call of [device_enqueue] by its effect. *)
Ltac enqueue_inv :=
  match goal with
  | Hd : device_enqueue _ _ _ _ = Done _ |- _ => apply device_enqueue_inv in Hd as [-> ->]
  end.

Lemma device_step_refl d : device_step None d d.
Proof. by split. Qed.

Lemma device_step_queue d q : notify q = notify (packet_queue d) → device_step None d (with_queue d q).
Proof. intros Hn. split; [by split_and! | done]. Qed.

Lemma handle_arp_device d b e w w' d' b' :
  handle_arp Q d b e w = Done (w', (d', b')) → device_step None d d'.
Proof.
  unfold handle_arp. intros Hr. m_cases; try apply device_step_refl.
  enqueue_inv. by apply device_step_queue.
Qed.

Lemma handle_icmp_device d b p w w' d' b' :
  handle_icmp Q d b p w = Done (w', (d', b')) → d' = d.
Proof. unfold handle_icmp. intros Hr. by m_cases. Qed.

Lemma with_dhcp_same d : with_metadata d (with_dhcp (metadata d) (dhcp (metadata d))) = d.
Proof. by destruct d as [? ? ? [] ?]. Qed.

Lemma handle_dhcp_device d p w w' d' :
  handle_dhcp Q d p w = Done (w', d') →
  ∃ data, Dhcp.get (Dhcp.packet_new p) = Done data ∧ device_step (Some data) d d'.
Proof.
  unfold handle_dhcp. intros Hr. apply M_bind_done in Hr as (w1 & data & Hg & Hr).
  exists data. m_inv. split; [done |]. unfold device_step, client, lease_of at 2 4 5.
  cbn [fst snd]. destruct (dhcp (metadata d)) eqn:Ed; m_cases;
    rewrite <- ?Ed, ?with_dhcp_same, ?Ed; try enqueue_inv; split; try done.
  all: unfold lease_of; by rewrite ?Ed.
Qed.

Lemma handle_frame_device d b buf w w' d' b' :
  handle_frame Q d b buf w = Done (w', (d', b')) →
  device_step (dhcp_of (mac (metadata d)) buf) d d'.
Proof.
  unfold handle_frame, dhcp_of. intros Hr. m_inv.
  match goal with Hd : destination_mac _ = Done _ |- _ => rewrite Hd end.
  case_match; m_inv; [apply device_step_refl |].
  match goal with Hd : ether_type _ = Done ?t |- _ => rewrite Hd; destruct t end;
    m_inv; try apply device_step_refl; [| by eapply handle_arp_device].
  match goal with Hd : Ipv4.header _ = Done _ |- _ => rewrite Hd end.
  case_match; m_inv; try apply device_step_refl.
  - apply handle_icmp_device in Hr as ->. apply device_step_refl.
  - unfold handle_udp in Hr. m_inv.
    match goal with Hd : Udp.header _ = Done _ |- _ => rewrite Hd end.
    case_match; m_inv.
    + match goal with Hd : handle_dhcp _ _ _ _ = Done _ |- _ =>
        apply handle_dhcp_device in Hd as (data & Hg & Hs) end. by rewrite Hg.
    + repeat case_match; m_inv; apply device_step_refl.
Qed.

(** The devices keep their identities, so that each packet is for one of them. *)
Definition distinct (ds : list (NetworkDevice D)) : Prop := NoDup (map id ds).

Lemma handle_packet_devices raw h w w' h' :
  distinct (devices h) → handle_packet_ Q raw h w = Done (w', h') →
  Forall2 (λ d d', device_step (delivered d (Packet raw)) d d') (devices h) (devices h').
Proof.
  unfold handle_packet_. intros Hn Hr. m_inv. destruct x0 as [i d]. m_inv.
  match goal with Hf : handle_frame _ _ _ _ _ = Done (_, ?r) |- _ =>
    destruct r as [d' b']; apply handle_frame_device in Hf as Hd end.
  cbn [devices fst]. destruct (list_find _ _) as [[i' ?]|] eqn:Ef; simplify_eq/=.
  apply list_find_Some in Ef as (Hi & Hid & _). apply Forall2_same_length_lookup_2.
  { by rewrite length_insert. }
  intros j e e' Hj Hj'. destruct (decide (j = i)) as [-> | Hne].
  - rewrite list_lookup_insert_eq in Hj' by (by eapply lookup_lt_Some). simplify_eq.
    by rewrite bool_decide_eq_true_2.
  - rewrite list_lookup_insert_ne in Hj' by done. simplify_eq.
    rewrite bool_decide_eq_false_2; [apply device_step_refl |].
    intros E. apply Hne. eapply NoDup_lookup; [exact Hn | ..]; rewrite list_lookup_fmap.
    + rewrite Hj. simpl. by rewrite <- E.
    + by rewrite Hi, <- Hid.
Qed.

Lemma send_arp_request_device a d w w' d' :
  send_arp_request Q a d w = Done (w', d') → device_step None d d'.
Proof. unfold send_arp_request. intros. m_inv. enqueue_inv. by apply device_step_queue. Qed.

Lemma send_ping_device a m d w w' d' :
  send_ping Q a m d w = Done (w', d') → device_step None d d'.
Proof. unfold send_ping. intros. m_inv. enqueue_inv. by apply device_step_queue. Qed.

Lemma handle_message_devices m h w w' h' :
  distinct (devices h) → handle_message Q m h w = Done (w', h') →
  Forall2 (λ d d', device_step (delivered d m) d d') (devices h) (devices h').
Proof.
  intros Hn. destruct m as [raw | [a q | wk a mc r]]; simpl; [by apply handle_packet_devices | |];
    intros Hr; m_inv; cbn [devices]; (eapply for_mut_Forall2; [| eassumption]);
    eauto using send_arp_request_device, send_ping_device.
Qed.

Lemma Forall2_same_distinct (R : NetworkDevice D → NetworkDevice D → Prop) ds ds' :
  (∀ d d', R d d' → same_device d d') → Forall2 R ds ds' → distinct ds → distinct ds'.
Proof.
  intros HR HF. unfold distinct. replace (map id ds') with (map id ds); [done |].
  induction HF as [| d d' ds ds' Hd _ IH]; simpl; [done |].
  destruct (HR _ _ Hd) as (-> & _). by rewrite IH.
Qed.

(** Any number of messages moves each lease as the client does on the DHCP
    messages among them that are for its device. *)
Definition device_steps (ms : list HandlerMessage) d d' : Prop :=
  same_device d d' ∧ lease_of d' = foldl client (lease_of d) (omap (delivered d) ms).

Lemma device_steps_cons m ms d d1 d' :
  device_step (delivered d m) d d1 → device_steps ms d1 d' → device_steps (m :: ms) d d'.
Proof.
  intros [Hs Hl] [Hs' Hl']. split; [by etrans |]. rewrite Hl', Hl. cbn [omap list_omap].
  rewrite (omap_delivered_same d d1) by done. by destruct (delivered d m).
Qed.

Lemma handle_messages_devices ms h w w' h' :
  distinct (devices h) → handle_messages Q ms h w = Done (w', h') →
  Forall2 (device_steps ms) (devices h) (devices h').
Proof.
  revert h w. induction ms as [| m ms IH]; simpl; intros h w Hn Hr; m_inv.
  { apply Forall_Forall2_diag, Forall_forall. by intros d _; split. }
  match goal with Hm : handle_message _ _ _ _ = _ |- _ =>
    apply handle_message_devices in Hm as H1; [| done] end.
  eapply Forall2_trans; [| exact H1 | eapply IH; [| exact Hr]].
  - intros d d1 d'. apply device_steps_cons.
  - eapply Forall2_same_distinct; [| exact H1 | done]. by intros d d' [].
Qed.

Lemma init_device_inv d w w' d' :
  init_device Q d w = Done (w', d') →
  same_device d d' ∧ lease_of d' = (ip (metadata d), Discover (next_cell Q w) tx_id).
Proof.
  unfold init_device. intros Hr. apply M_bind_done in Hr as (w1 & c & [= <- <-] & Hr).
  m_inv. by enqueue_inv.
Qed.

Definition initialised d d' : Prop :=
  same_device d d' ∧ ∃ c, lease_of d' = (ip (metadata d), Discover c tx_id).

Lemma init_devices_inv ds w w' ds' :
  for_mut (init_device Q) ds w = Done (w', ds') → Forall2 initialised ds ds'.
Proof.
  intros Hi. eapply for_mut_Forall2; [| exact Hi].
  intros ? ? ? ? [??]%init_device_inv. split; eauto.
Qed.

(** C5: the handler runs the DHCP client of every device.  Whatever messages
    arrive, as long as the task does not panic each device keeps its identity,
    its lease is what the abstract client makes, from the DISCOVER that
    start-up sends, of the DHCP messages that are addressed to the device, in
    their order, and it has an address exactly when its exchange is done. *)
Theorem network_handler_refines_lease (ds : list (NetworkDevice D)) ms (w w' : World Q) h' :
  distinct ds → Forall (λ d, ip (metadata d) = None) ds →
  network_handler Q ds ms w = Done (w', h') →
  Forall2 (λ d d', same_device d d'
      ∧ (∃ c, lease_of d' = foldl client (None, Discover c tx_id) (omap (delivered d) ms))
      ∧ (is_Some (ip (metadata d')) ↔ dhcp (metadata d') = Done_))
    ds (devices h').
Proof.
  intros Hn Hds Hr. unfold network_handler, init_handler in Hr. m_inv.
  match goal with Hi : for_mut _ _ _ = _ |- _ => apply init_devices_inv in Hi as Hinit end.
  apply handle_messages_devices in Hr; cbn [devices] in *.
  2: { eapply Forall2_same_distinct; [| exact Hinit | done]. by intros ? ? []. }
  eapply Forall2_trans; [| exact (Forall2_and_l _ _ _ _ Hds Hinit) | exact Hr].
  intros d d1 d' (Hip & Hs & c & Hc) [Hs' Hl]. rewrite Hc, Hip in Hl.
  split; [by etrans |]. split.
  - exists c. by rewrite Hl, (omap_delivered_same d d1).
  - pose proof (clients_ok (None, Discover c tx_id) (omap (delivered d1) ms)) as Hok.
    rewrite <- Hl in Hok. apply Hok. split; simpl; [by intros [] | done].
Qed.

(** An address is final.  Once a device's exchange is done, no message
    changes its address or its exchange. *)
Theorem network_handler_lease_final ms (h h' : Handler D) (w w' : World Q) i d :
  distinct (devices h) → devices h !! i = Some d → dhcp (metadata d) = Done_ →
  handle_messages Q ms h w = Done (w', h') →
  ∃ d', devices h' !! i = Some d' ∧ lease_of d' = lease_of d ∧ same_device d d'.
Proof.
  intros Hn Hi Hd Hr. apply handle_messages_devices in Hr; [| done].
  destruct (Forall2_lookup_l _ _ _ _ _ Hr Hi) as (d' & Hi' & Hs & Hl).
  exists d'. split_and!; try done; try apply Hs.
  rewrite Hl. unfold lease_of. rewrite Hd. apply clients_done.
Qed.

(** ** Single frames *)

(** The device a packet is for, as [find] sees it. *)
Definition found (raw : RawPacket) h i d : Prop :=
  list_find (λ d, id d = raw_id raw) (devices h) = Some (i, d).

Definition addressed d (buf : Buffer) : Prop :=
  destination_mac (Ethernet.packet_new buf) = Done broadcast
  ∨ destination_mac (Ethernet.packet_new buf) = Done (mac (metadata d)).

Definition with_device h i d b : Handler D := {| devices := <[i := d]> (devices h); bindings := b |}.

Lemma handle_packet_run raw h i d w w' d' b' :
  found raw h i d → handle_frame Q d (bindings h) (raw_buffer raw) w = Done (w', (d', b')) →
  handle_packet_ Q raw h w = Done (w', with_device h i d' b').
Proof.
  intros Hf Hr. unfold handle_packet_, found in *. rewrite Hf. cbn [unwrap].
  rewrite (M_bind_lift _ _ _ _ eq_refl). by rewrite (M_bind_run _ _ _ _ _ Hr).
Qed.

Lemma found_insert h i d raw : found raw h i d → <[i := d]> (devices h) = devices h.
Proof. intros (Hi & _)%list_find_Some. by apply list_insert_id. Qed.

Lemma with_device_same h i d raw : found raw h i d → with_device h i d (bindings h) = h.
Proof. intros Hf. unfold with_device. rewrite (found_insert _ _ _ _ Hf). by destruct h. Qed.

Lemma handle_frame_addressed d b buf ty w :
  addressed d buf → ether_type (Ethernet.packet_new buf) = Done ty →
  handle_frame Q d b buf w
  = match ty with
    | Ethernet.Arp => handle_arp Q d b (Ethernet.packet_new buf) w
    | Ethernet.Ipv4 =>
        (h ← lift (Ipv4.header (Ipv4.packet_new (Ethernet.packet_new buf)));
         match Ipv4.protocol h with
         | Ipv4.Icmp => handle_icmp Q d b (Ipv4.packet_new (Ethernet.packet_new buf))
         | Ipv4.Udp => handle_udp Q d b (Ipv4.packet_new (Ethernet.packet_new buf))
         | Ipv4.Tcp => _ ← emit Q (Println TcpPacket); mret (d, b)
         | Ipv4.Unknown raw => _ ← emit Q (Println (UnknownProtocol raw)); mret (d, b)
         end) w
    | Ethernet.WakeOnLan =>
        (c ← lift (content (Ethernet.packet_new buf));
         _ ← emit Q (Println (WakeOnLanContent c)); mret (d, b)) w
    | _ => Done (w, (d, b))
    end.
Proof.
  intros Ha Ht. unfold handle_frame.
  assert (∀ l : list Z, bool_decide (l ≠ l) = false) as E
    by (intros; apply bool_decide_eq_false_2; naive_solver).
  destruct Ha as [Ha | Ha]; rewrite Ha, (M_bind_lift _ _ _ _ eq_refl), E, ?andb_false_r;
    cbn [andb]; rewrite Ht, (M_bind_lift _ _ _ _ eq_refl); by destruct ty.
Qed.

(** Frames for somebody else are ignored.  A frame whose destination is
    neither broadcast nor the device's MAC changes nothing at all, whatever
    it contains. *)
Theorem foreign_frame_ignored raw h i d w dst :
  found raw h i d → destination_mac (Ethernet.packet_new (raw_buffer raw)) = Done dst →
  dst ≠ broadcast → dst ≠ mac (metadata d) →
  handle_message Q (Packet raw) h w = Done (w, h).
Proof.
  intros Hf Hd H1 H2. cbn [handle_message]. erewrite handle_packet_run; [| exact Hf |].
  - by rewrite (with_device_same _ _ _ _ Hf).
  - unfold handle_frame. rewrite Hd, (M_bind_lift _ _ _ _ eq_refl).
    by rewrite !bool_decide_eq_true_2.
Qed.

(** ** ARP *)

Definition arp_received (buf : Buffer) (p : Arp.Packet) : Prop :=
  ether_type (Ethernet.packet_new buf) = Done Ethernet.Arp
  ∧ Arp.packet_new (Ethernet.packet_new buf) = Done (Ok p)
  ∧ wf_mac (Arp.src_mac p) ∧ Arp.wf_ip (Arp.src_ip p).

Definition arp_answer d own_ip (p : Arp.Packet) : Arp.OperationState :=
  Arp.set_operation
    (Arp.destination (Arp.sender (mac (metadata d)) own_ip) (Arp.src_mac p) (Arp.src_ip p))
    Arp.Response.

(** C21: ARP requests are answered for the device's own address only.  The
    answer is one frame to the requester, in which the device's MAC and
    address are the sender's, queued and notified once; a request for any
    other address, or before the device has one, changes nothing. *)
Theorem arp_request_answered raw h i d w p :
  found raw h i d → addressed d (raw_buffer raw) → arp_received (raw_buffer raw) p →
  Arp.get_operation p = Arp.Request → wf_mac (mac (metadata d)) →
  (∀ a, ip (metadata d) = Some a → Arp.wf_ip a) →
  if bool_decide (ip (metadata d) = Some (Arp.get_dest_ip p)) then
    ∃ e, handle_message Q (Packet raw) h w
         = Done (add_event Q (Notified (notify (packet_queue d))) w,
             with_device h i (with_queue d (sender_enqueue (packet_queue d) e)) (bindings h))
      ∧ arp_frame (arp_answer d (Arp.get_dest_ip p) p) e
  else handle_message Q (Packet raw) h w = Done (w, h).
Proof.
  intros Hf Ha (Ht & Hp & Hsm & Hsi) Hop Hm Hip. cbn [handle_message].
  assert (∀ w, handle_frame Q d (bindings h) (raw_buffer raw) w =
    match ip (metadata d) with
    | None => Done (w, (d, bindings h))
    | Some own_ip =>
        if bool_decide (own_ip ≠ Arp.get_dest_ip p) then Done (w, (d, bindings h)) else
        (r ← lift (Arp.finish (arp_answer d own_ip p)); packet ← lift (unwrap_result r);
         d ← device_enqueue Q d packet; mret (d, bindings h)) w
    end) as Hrun.
  { intros w0. rewrite (handle_frame_addressed _ _ _ _ _ Ha Ht). unfold handle_arp.
    rewrite Hp, (M_bind_lift _ _ _ _ eq_refl). cbn [unwrap_result].
    rewrite (M_bind_lift _ _ _ _ eq_refl), Hop.
    destruct (ip (metadata d)); [| done]. by case_match. }
  case_bool_decide as E.
  - destruct (arp_finish_reads (arp_answer d (Arp.get_dest_ip p) p)) as (e & Hfin & He).
    { split_and!; simpl; try apply Hm; try apply Hsm; try apply Hsi; try apply (Hip _ E).
      all: by vm_compute. }
    exists e. split; [| done]. eapply handle_packet_run; [done |]. rewrite Hrun, E.
    rewrite bool_decide_eq_false_2 by naive_solver.
    by rewrite Hfin.
  - erewrite handle_packet_run; [by rewrite (with_device_same _ _ _ _ Hf) | done |].
    rewrite Hrun. destruct (ip (metadata d)) as [a |]; [| done].
    rewrite bool_decide_eq_true_2; [done |]. naive_solver.
Qed.

Lemma mac_try_enqueue_run q v w s :
  mac_queues Q w !! q = Some s →
  mac_try_enqueue Q q v w
  = Done (set_mac_queues Q <[q := (q_try_enqueue s v).1]> w, (q_try_enqueue s v).2).
Proof. intros Hs. unfold mac_try_enqueue. rewrite Hs. by destruct (q_try_enqueue s v). Qed.

(** An ARP response, run. *)
Lemma arp_response_run `{!QueueLaws Q} raw h i d w p m q s :
  found raw h i d → addressed d (raw_buffer raw) → arp_received (raw_buffer raw) p →
  Arp.get_operation p = Arp.Response → ips Q w = Some m →
  arp (bindings h) !! Arp.src_ip p = Some q → mac_queues Q w !! q = Some s →
  q_is_closed s = false → q_has_room s = true →
  handle_message Q (Packet raw) h w
  = Done (set_mac_queues Q (alter q_close q)
            (set_mac_queues Q <[q := (q_try_enqueue s (Arp.src_mac p)).1]>
               (add_event Q (ReceivedArp (Arp.src_ip p)) (set_ips Q (Device.set m (Arp.src_ip p) (Arp.src_mac p)) w))),
          with_device h i d {| udp := udp (bindings h);
            arp := delete (Arp.src_ip p) (arp (bindings h)); ping := ping (bindings h) |}).
Proof.
  intros Hf Ha (Ht & Hp & _) Hop Hips Hq Hs Ho Hr. cbn [handle_message].
  eapply handle_packet_run; [done |]. rewrite (handle_frame_addressed _ _ _ _ _ Ha Ht).
  unfold handle_arp. rewrite Hp, (M_bind_lift _ _ _ _ eq_refl). cbn [unwrap_result].
  rewrite (M_bind_lift _ _ _ _ eq_refl), Hop.
  rewrite (M_bind_run _ _ _ _ _ eq_refl), Hips. cbn [unwrap].
  rewrite (M_bind_lift _ _ _ _ eq_refl), !(M_bind_run _ _ _ _ _ eq_refl), Hq. cbv zeta.
  destruct (enqueue_ok _ s (Arp.src_mac p) Ho Hr) as (E & _ & _).
  by erewrite M_bind_run, E by (apply mac_try_enqueue_run; exact Hs).
Qed.

(** Resolving an address.  After an ARP request of the API was sent for
    [a] with result queue [q], the first response from [a] records [a]'s MAC
    in the ARP table, delivers it on [q] (and to nobody else), and closes and
    forgets [q]; the task does not panic as long as [q] is still open. *)
Theorem arp_resolution `{!QueueLaws Q} raw h h1 i d w w1 p m q s :
  handle_message Q (Action (SendArpRequest (Arp.src_ip p) q)) h w = Done (w1, h1) →
  found raw h1 i d → addressed d (raw_buffer raw) → arp_received (raw_buffer raw) p →
  Arp.get_operation p = Arp.Response → ips Q w1 = Some m →
  mac_queues Q w1 !! q = Some s → q_is_closed s = false → q_has_room s = true →
  ∃ w2 h2 s', handle_message Q (Packet raw) h1 w1 = Done (w2, h2)
    ∧ ips Q w2 = Some (<[Arp.src_ip p := Arp.src_mac p]> m)
    ∧ mac_queues Q w2 = <[q := s']> (mac_queues Q w1)
    ∧ q_items s' = q_items s ++ [Arp.src_mac p] ∧ q_is_closed s' = true
    ∧ arp (bindings h2) = delete (Arp.src_ip p) (arp (bindings h1))
    ∧ devices h2 = devices h1 ∧ trace Q w2 = trace Q w1 ++ [ReceivedArp (Arp.src_ip p)].
Proof.
  intros Hact Hf Ha Hp Hop Hips Hs Ho Hr.
  assert (arp (bindings h1) !! Arp.src_ip p = Some q) as Hq.
  { simpl in Hact. m_inv. cbn [bindings]. unfold insert_arp in *. m_inv. apply lookup_insert_eq. }
  erewrite arp_response_run by done. eexists _, _, _. split; [done |].
  destruct (enqueue_ok _ s (Arp.src_mac p) Ho Hr) as (_ & Hi & _).
  destruct (close_spec _ (q_try_enqueue s (Arp.src_mac p)).1) as [Hci Hcc].
  split_and!; [done | | | exact Hcc | done | | done].
  - cbn [mac_queues set_mac_queues set_ips]. by rewrite alter_insert_eq.
  - by rewrite Hci.
  - by eapply found_insert.
Qed.

(** ** Ping *)

Definition echo_reply_received (buf : Buffer) (hdr : Ipv4.PacketHeader) : Prop :=
  let p := Ipv4.packet_new (Ethernet.packet_new buf) in
  ether_type (Ethernet.packet_new buf) = Done Ethernet.Ipv4
  ∧ Ipv4.header p = Done hdr ∧ Ipv4.protocol hdr = Ipv4.Icmp
  ∧ (∃ ident seq, Icmp.get_type (Icmp.packet_new p) = Done (Icmp.EchoReply ident seq)).

Lemma echo_reply_run raw h i d w hdr :
  found raw h i d → addressed d (raw_buffer raw) → echo_reply_received (raw_buffer raw) hdr →
  handle_message Q (Packet raw) h w
  = Done (match ping (bindings h) !! Ipv4.source_ip hdr with
          | None => (w, h)
          | Some (waker, c) =>
              (add_event Q (Woken waker) (set_cells Q <[c := true]> w),
               with_device h i d {| udp := udp (bindings h); arp := arp (bindings h);
                 ping := delete (Ipv4.source_ip hdr) (ping (bindings h)) |})
          end).
Proof.
  intros Hf Ha (Ht & Hh & Hpr & ident & seq & Hty). cbn [handle_message].
  assert (∀ w, handle_frame Q d (bindings h) (raw_buffer raw) w =
    (match ping (bindings h) !! Ipv4.source_ip hdr with
     | None => mret (d, bindings h)
     | Some (waker, result) =>
         _ ← store Q result true; _ ← emit Q (Woken waker);
         mret (d, {| udp := udp (bindings h); arp := arp (bindings h);
                     ping := delete (Ipv4.source_ip hdr) (ping (bindings h)) |})
     end) w) as Hrun.
  { intros w0. rewrite (handle_frame_addressed _ _ _ _ _ Ha Ht), Hh, (M_bind_lift _ _ _ _ eq_refl), Hpr.
    unfold handle_icmp. cbv zeta. rewrite Hty, (M_bind_lift _ _ _ _ eq_refl).
    unfold Icmp.ipv4_packet. cbn [Icmp.ip_packet Icmp.packet_new]. by rewrite Hh. }
  destruct (ping (bindings h) !! _) as [[waker c] |].
  - eapply handle_packet_run; [done |]. by rewrite Hrun.
  - erewrite handle_packet_run; [by rewrite (with_device_same _ _ _ _ Hf) | done |]. by rewrite Hrun.
Qed.

(** A ping completes once.  After a ping to [a] with waker [wk] and result
    cell [c] was sent, the first echo reply from [a] sets [c], wakes [wk] and
    nothing else; a second one changes nothing. *)
Theorem ping_completes raw h h1 i d w w1 hdr wk m c :
  handle_message Q (Action (PingRequest wk (Ipv4.source_ip hdr) m c)) h w = Done (w1, h1) →
  found raw h1 i d → addressed d (raw_buffer raw) → echo_reply_received (raw_buffer raw) hdr →
  ∃ w2 h2, handle_message Q (Packet raw) h1 w1 = Done (w2, h2)
    ∧ cells Q w2 = <[c := true]> (cells Q w1) ∧ trace Q w2 = trace Q w1 ++ [Woken wk]
    ∧ devices h2 = devices h1
    ∧ ping (bindings h2) = delete (Ipv4.source_ip hdr) (ping (bindings h1))
    ∧ handle_message Q (Packet raw) h2 w2 = Done (w2, h2).
Proof.
  intros Hact Hf Ha Hp.
  assert (ping (bindings h1) !! Ipv4.source_ip hdr = Some (wk, c)) as Hq.
  { simpl in Hact. m_inv. apply lookup_insert_eq. }
  erewrite echo_reply_run by done. rewrite Hq. eexists _, _. split; [done |].
  pose proof (found_insert _ _ _ _ Hf) as Hd.
  split_and!; try done.
  erewrite echo_reply_run; [| | done | done].
  - cbn [with_device bindings ping]. by rewrite lookup_delete_eq.
  - unfold found. cbn [with_device devices]. rewrite Hd. exact Hf.
Qed.

(** A ping from the network stops the kernel.  An echo request addressed to
    the device reaches [todo!]: no reply is sent. *)
Theorem echo_request_panics raw h i d w hdr ident seq body :
  let p := Ipv4.packet_new (Ethernet.packet_new (raw_buffer raw)) in
  found raw h i d → addressed d (raw_buffer raw) →
  ether_type (Ethernet.packet_new (raw_buffer raw)) = Done Ethernet.Ipv4 →
  Ipv4.header p = Done hdr → Ipv4.protocol hdr = Ipv4.Icmp →
  Icmp.get_type (Icmp.packet_new p) = Done (Icmp.EchoRequest ident seq) →
  Icmp.payload (Icmp.packet_new p) = Done body →
  handle_message Q (Packet raw) h w = Panicked Todo.
Proof.
  intros p Hf Ha Ht Hh Hpr Hty Hb. cbn [handle_message]. unfold handle_packet_, found in *.
  rewrite Hf. cbn [unwrap]. rewrite (M_bind_lift _ _ _ _ eq_refl).
  unfold mbind at 1, M_bind at 1. rewrite (handle_frame_addressed _ _ _ _ _ Ha Ht).
  fold p. rewrite Hh, (M_bind_lift _ _ _ _ eq_refl), Hpr. unfold handle_icmp. cbv zeta.
  rewrite Hty, (M_bind_lift _ _ _ _ eq_refl). change (Icmp.ipv4_packet (Icmp.packet_new p)) with p.
  rewrite Hh, (M_bind_lift _ _ _ _ eq_refl), Hb. reflexivity.
Qed.

(** ** DHCP *)

Definition dhcp_received (buf : Buffer) (data : Dhcp.Data) : Prop :=
  let p := Ipv4.packet_new (Ethernet.packet_new buf) in
  ether_type (Ethernet.packet_new buf) = Done Ethernet.Ipv4
  ∧ (∃ hdr, Ipv4.header p = Done hdr ∧ Ipv4.protocol hdr = Ipv4.Udp)
  ∧ (∃ uh, Udp.header (Udp.packet_new p) = Done uh
       ∧ Udp.source_port uh = 67 ∧ Udp.destination_port uh = 68)
  ∧ Dhcp.get (Dhcp.packet_new (Udp.packet_new p)) = Done data.

(** A second device lookup, after the device was updated. *)
Lemma found_update raw raw' h i d d' b :
  found raw h i d → raw_id raw' = raw_id raw → id d' = id d → found raw' (with_device h i d' b) i d'.
Proof.
  intros (Hi & Hid & Hb)%list_find_Some Hr Hd. apply list_find_Some. cbn [devices with_device].
  rewrite Hr. split_and!; [apply list_lookup_insert_eq; by eapply lookup_lt_Some | congruence |].
  intros j y Hj Hlt. rewrite list_lookup_insert_ne in Hj by lia. by eapply Hb.
Qed.

Lemma dhcp_run raw h i d w w' d' data :
  found raw h i d → addressed d (raw_buffer raw) → dhcp_received (raw_buffer raw) data →
  handle_dhcp Q d (Udp.packet_new (Ipv4.packet_new (Ethernet.packet_new (raw_buffer raw)))) w
    = Done (w', d') →
  handle_message Q (Packet raw) h w = Done (w', with_device h i d' (bindings h)).
Proof.
  intros Hf Ha (Ht & (hdr & Hh & Hpr) & (uh & Hu & Hsp & Hdp) & _) Hr. cbn [handle_message].
  eapply handle_packet_run; [done |].
  rewrite (handle_frame_addressed _ _ _ _ _ Ha Ht), Hh, (M_bind_lift _ _ _ _ eq_refl), Hpr.
  unfold handle_udp. cbv zeta. rewrite Hu, (M_bind_lift _ _ _ _ eq_refl), Hsp, Hdp.
  cbn [Z.eqb Pos.eqb andb]. by rewrite (M_bind_run _ _ _ _ _ Hr).
Qed.

(** The device after a matching OFFER whose REQUEST is [e], and after the ACK. *)
Definition offered d (e : Ethernet.Packet) c x own server : NetworkDevice D :=
  with_metadata (with_queue d (sender_enqueue (packet_queue d) e))
    (with_dhcp (metadata d) (Requested c x own server)).

Definition leased d own : NetworkDevice D :=
  with_metadata d (with_ip (with_dhcp (metadata d) Done_) (Some own)).

Lemma handle_offer d p w c x data e :
  Dhcp.get (Dhcp.packet_new p) = Done data → dhcp (metadata d) = Discover c x →
  Dhcp.operation data = Dhcp.Offer → Dhcp.xid data = x →
  Dhcp.request_message (mac (metadata d)) x (Dhcp.yiaddr data) (Dhcp.siaddr data) 0 = Done (Ok e) →
  handle_dhcp Q d p w
  = Done (add_event Q (Notified (notify (packet_queue d))) w,
          offered d e c x (Dhcp.yiaddr data) (Dhcp.siaddr data)).
Proof.
  intros Hg Hd Ho Hx Hm. unfold handle_dhcp.
  rewrite Hg, (M_bind_lift _ _ _ _ eq_refl), Hd, Ho, Hx, Z.eqb_refl. cbv zeta.
  cbn [mac metadata with_metadata with_dhcp]. rewrite Hm. reflexivity.
Qed.

Lemma handle_ack d p w c x own server data :
  Dhcp.get (Dhcp.packet_new p) = Done data → dhcp (metadata d) = Requested c x own server →
  Dhcp.operation data = Dhcp.Ack → Dhcp.xid data = x →
  handle_dhcp Q d p w = Done (set_cells Q <[c := true]> w, leased d own).
Proof.
  intros Hg Hd Ho Hx. unfold handle_dhcp.
  by rewrite Hg, (M_bind_lift _ _ _ _ eq_refl), Hd, Ho, Hx, Z.eqb_refl.
Qed.

(** C6: the DHCP exchange completes.  A device that has sent its DISCOVER and
    receives an OFFER and then an ACK of its transaction answers the OFFER
    with a REQUEST for the offered address to the offering server, and ends
    with that address, its exchange done and its indicator set.  The device
    and the world afterwards are given field by field: nothing else of the
    device (its identity, its MACs, its UDP bindings), of the other devices,
    of the bindings, of the ARP table, of the result queues and of the other
    cells changes, and the one event is the notification of the REQUEST. *)
Theorem dhcp_exchange_completes raw1 raw2 h i d w c x offer ack :
  found raw1 h i d → raw_id raw2 = raw_id raw1 →
  dhcp (metadata d) = Discover c x → uint 32 x → wf_mac (mac (metadata d)) →
  Buffer.wf (raw_buffer raw1) →
  addressed d (raw_buffer raw1) → dhcp_received (raw_buffer raw1) offer →
  Dhcp.operation offer = Dhcp.Offer → Dhcp.xid offer = x →
  addressed d (raw_buffer raw2) → dhcp_received (raw_buffer raw2) ack →
  Dhcp.operation ack = Dhcp.Ack → Dhcp.xid ack = x →
  ∃ w' h' d' e, handle_messages Q [Packet raw1; Packet raw2] h w = Done (w', h')
    ∧ h' = {| devices := <[i := d']> (devices h); bindings := bindings h |}
    ∧ d' = {| id := id d; dev_mac := dev_mac d; packet_queue := sender_enqueue (packet_queue d) e;
              metadata := {| mac := mac (metadata d); ip := Some (Dhcp.yiaddr offer); dhcp := Done_ |};
              udp_bindings := udp_bindings d |}
    ∧ w' = {| cells := <[c := true]> (cells Q w); next_cell := next_cell Q w;
              mac_queues := mac_queues Q w; udp_queues := udp_queues Q w; ips := ips Q w;
              trace := trace Q w ++ [Notified (notify (packet_queue d))] |}
    ∧ Dhcp.client_frame (mac (metadata d)) 0 257 e
    ∧ Dhcp.get (Dhcp.packet_new (Udp.packet_new (Ipv4.packet_new e)))
      = Done (Dhcp.client_data (mac (metadata d)) x (Dhcp.yiaddr offer) (Dhcp.siaddr offer)
                Dhcp.Request).
Proof.
  intros Hf Hid Hd Hx Hm Hw Ha1 Hr1 Ho Hox Ha2 Hr2 Hk Hkx.
  destruct (Dhcp.get_addresses (Dhcp.packet_new (Udp.packet_new (Ipv4.packet_new
    (Ethernet.packet_new (raw_buffer raw1))))) offer Hw (proj2 (proj2 (proj2 Hr1)))) as [Hy Hs].
  destruct (Dhcp.request_message_reads _ x _ _ 0 Hm Hx Hy Hs ltac:(by vm_compute)
    ltac:(by intros [|])) as (e & He & Hc & _ & Hg).
  pose proof (handle_offer d _ w c x offer e (proj2 (proj2 (proj2 Hr1))) Hd Ho Hox He) as H1.
  set (d1 := offered _ _ _ _ _ _) in H1.
  pose proof (found_update raw1 raw2 h i d d1 (bindings h) Hf Hid eq_refl) as Hf2.
  set (w1 := add_event _ _ _) in H1.
  pose proof (handle_ack d1 _ w1 c x _ _ ack (proj2 (proj2 (proj2 Hr2))) eq_refl Hk Hkx) as H2.
  eexists _, _, (leased d1 (Dhcp.yiaddr offer)), e. cbn [handle_messages].
  rewrite (M_bind_run _ _ _ _ _ (dhcp_run _ _ _ _ _ _ _ _ Hf Ha1 Hr1 H1)).
  rewrite (M_bind_run _ _ _ _ _ (dhcp_run _ _ _ _ _ _ _ _ Hf2 Ha2 Hr2 H2)).
  split; [done |]. split_and!; try done; try apply Hc.
  unfold with_device. cbn [devices bindings]. by rewrite list_insert_insert_eq.
Qed.

(** ** Start-up *)

(** A device after start-up, with its indicator and its DISCOVER. *)
Definition started d c (d' : NetworkDevice D) : Prop :=
  same_device d d' ∧ lease_of d' = (ip (metadata d), Discover c tx_id)
  ∧ ∃ e, packet_queue d' = sender_enqueue (packet_queue d) e
      ∧ Dhcp.client_frame (mac (metadata d)) 13 244 e
      ∧ Dhcp.get (Dhcp.packet_new (Udp.packet_new (Ipv4.packet_new e)))
        = Done (Dhcp.client_data (mac (metadata d)) tx_id [0; 0; 0; 0] [0; 0; 0; 0] Dhcp.Discover).

Lemma init_device_run d w :
  wf_mac (mac (metadata d)) →
  ∃ w' d', init_device Q d w = Done (w', d') ∧ started d (next_cell Q w) d'
    ∧ next_cell Q w' = next_cell Q w + 1
    ∧ cells Q w' = <[next_cell Q w := false]> (cells Q w).
Proof.
  intros Hm. destruct (Dhcp.discover_message_reads (mac (metadata d)) tx_id 13 Hm
    ltac:(by vm_compute) ltac:(by vm_compute) ltac:(by intros [|])) as (e & He & Hc & Hg).
  unfold init_device. rewrite (M_bind_run _ _ _ _ _ eq_refl).
  cbn [mac metadata with_metadata with_dhcp]. rewrite He. eexists _, _. split; [reflexivity |].
  split; [| done]. split; [done |]. split; [done |]. by exists e.
Qed.

Lemma for_init_run ds w :
  Forall (λ d, wf_mac (mac (metadata d))) ds →
  ∃ w' ds', for_mut (init_device Q) ds w = Done (w', ds') ∧ length ds' = length ds
    ∧ (∀ c, c < next_cell Q w → cells Q w' !! c = cells Q w !! c)
    ∧ (∀ i d, ds !! i = Some d → ∃ d', ds' !! i = Some d'
        ∧ started d (next_cell Q w + Z.of_nat i) d'
        ∧ cells Q w' !! (next_cell Q w + Z.of_nat i) = Some false).
Proof.
  revert w. induction ds as [| d ds IH]; intros w Hds; cbn [for_mut]; [by eexists _, _ |].
  apply Forall_cons_1 in Hds as [Hd Hds].
  destruct (init_device_run d w Hd) as (w1 & d1 & Hr & Hs & Hn & Hc).
  destruct (IH w1 Hds) as (w2 & ds2 & Hr2 & Hl & Hold & Hnew).
  rewrite (M_bind_run _ _ _ _ _ Hr), (M_bind_run _ _ _ _ _ Hr2).
  eexists _, _. split; [reflexivity |]. split; [simpl; lia |]. split.
  - intros c Hlt. rewrite Hold, Hc by lia. apply lookup_insert_ne. lia.
  - intros [| i] d0 Hi; simpl in Hi; simplify_eq.
    + exists d1. rewrite Z.add_0_r, Hold, Hc, lookup_insert_eq by lia. done.
    + destruct (Hnew i d0 Hi) as (d2 & H1 & H2 & H3). exists d2. rewrite Hn in H2, H3.
      replace (next_cell Q w + Z.of_nat (S i)) with (next_cell Q w + 1 + Z.of_nat i) by lia. done.
Qed.

(** Start-up.  The task begins by queueing a DISCOVER with the fixed
    transaction id on every device; it never panics, keeps every device's
    identity and address, and gives each device an indicator of its own,
    initially false. *)
Theorem init_handler_discovers (ds : list (NetworkDevice D)) w :
  Forall (λ d, wf_mac (mac (metadata d))) ds →
  ∃ w' h', init_handler Q ds w = Done (w', h')
    ∧ bindings h' = no_bindings ∧ length (devices h') = length ds
    ∧ ∀ i d, ds !! i = Some d → ∃ d', devices h' !! i = Some d'
        ∧ started d (next_cell Q w + Z.of_nat i) d'
        ∧ cells Q w' !! (next_cell Q w + Z.of_nat i) = Some false.
Proof.
  intros Hds. destruct (for_init_run ds w Hds) as (w' & ds' & Hr & Hl & _ & Hi).
  unfold init_handler. rewrite (M_bind_run _ _ _ _ _ Hr). by eexists _, _.
Qed.

End spec.

(** ** A concrete handler *)

Module Sample.

Definition packet_of (o : outcome (result Ethernet.Packet unit)) : Buffer :=
  match o with Done (Ok e) => buffer e | _ => new [] end.

Definition own_mac : list Z := [2; 0; 0; 0; 0; 1].
Definition peer_mac : list Z := [2; 0; 0; 0; 0; 2].
Definition own_addr : list Z := [10; 0; 2; 15].
Definition peer_addr : list Z := [10; 0; 2; 2].

Definition device (a : option (list Z)) (x : DHCPExchange) : NetworkDevice jiffy_queue := {|
  id := 3; dev_mac := own_mac; packet_queue := {| sender_queue := mk_jiffy [] false; notify := 1 |};
  metadata := {| mac := own_mac; ip := a; dhcp := x |}; udp_bindings := ∅ |}.

Definition world : World list_queue := {|
  cells := {[5 := false]}; next_cell := 6; mac_queues := {[9 := mk_queue [] (Some 2%nat) false]};
  udp_queues := ∅; ips := Some ∅; trace := [] |}.

Definition handler (d : NetworkDevice jiffy_queue) : Handler jiffy_queue :=
  {| devices := [d]; bindings := no_bindings |}.

Definition leased_handler : Handler jiffy_queue := handler (device (Some own_addr) Done_).

Definition raw (buf : Buffer) : RawPacket := {| raw_id := 3; raw_buffer := buf |}.

Definition arp (op : Arp.Operation) (dst : list Z) : Buffer :=
  packet_of (@Arp.finish debug_build
    (Arp.set_operation (Arp.destination (Arp.sender peer_mac peer_addr) dst own_addr) op)).

Definition arp_packet (op : Arp.Operation) (dst : list Z) : Arp.Packet := {|
  Arp.hardware_ty := 1; Arp.protocol_ty := 0x0800; Arp.hardware_size := 6; Arp.protocol_size := 4;
  Arp.operation := Arp.operation_into op; Arp.src_mac := peer_mac; Arp.src_ip := peer_addr;
  Arp.dest_mac := dst; Arp.dest_ip := own_addr; Arp.eth_packet := Ethernet.packet_new (arp op dst) |}.

Definition peer_ip (p : Ipv4.Protocol) : Ipv4.DestinationState :=
  set_destination
    (set_source (set_protocol (set_ttl (set_identification (set_dscp 0) 7) 64) p) peer_addr peer_mac)
    own_addr own_mac.

Definition icmp (ty : Icmp.Type_) : Buffer :=
  packet_of (@Icmp.finish debug_build (Icmp.set_type ty) (peer_ip Ipv4.Icmp) no_payload 0).

(** A server message: the client's fixed part with [op], [yiaddr] and the
    message type changed. *)
Definition dhcp_payload (ty : Z) : payload_fn := fun payload =>
  payload ← Dhcp.write_bootp own_mac tx_id [0; 0; 0; 0] peer_addr payload;
  payload ← write_at payload 0 2;
  payload ← copy_into payload 16 20 own_addr;
  payload ← copy_into payload 240 244 [53; 1; ty; 0xff];
  Done (payload, Ok 244).

Definition dhcp (ty : Z) : Buffer :=
  packet_of (@Udp.finish debug_build (set_destination_port (set_source_port 67) 68)
    (peer_ip Ipv4.Udp) (dhcp_payload ty) 244).

Definition dhcp_data (op : Dhcp.Operation) : Dhcp.Data := {|
  Dhcp.op := 2; Dhcp.htype := 1; Dhcp.hlen := 6; Dhcp.hops := 0; Dhcp.xid := tx_id; Dhcp.secs := 0;
  Dhcp.flags := 0x8000; Dhcp.ciaddr := [0; 0; 0; 0]; Dhcp.yiaddr := own_addr;
  Dhcp.siaddr := peer_addr; Dhcp.giaddr := [0; 0; 0; 0];
  Dhcp.chaddr := own_mac ++ replicate 10 0; Dhcp.operation := op |}.

Lemma wf_own_mac : wf_mac own_mac.
Proof. split; [done |]. repeat constructor; by vm_compute. Qed.

Lemma arp_is_received op dst :
  wf_mac dst → uint 16 (Arp.operation_into op) →
  arp_received (arp op dst) (arp_packet op dst)
  ∧ destination_mac (Ethernet.packet_new (arp op dst)) = Done dst.
Proof.
  intros Hd Hop.
  destruct (@arp_finish_reads debug_build
    (Arp.set_operation (Arp.destination (Arp.sender peer_mac peer_addr) dst own_addr) op))
    as (e & He & _ & H1 & _ & H2 & H3).
  { split_and!; try done; try apply Hd; try (repeat constructor; by vm_compute). }
  unfold arp_received, arp_packet, arp. rewrite He. destruct e as [buf]. cbn [packet_of buffer].
  split; [| exact H1]. split; [exact H2 |]. split; [exact H3 |].
  split; (split; [done |]); repeat constructor; by vm_compute.
Qed.

End Sample.

Lemma foreign_frame_ignored_witness :
  handle_message list_queue (B := debug_build) (Packet (Sample.raw (Sample.arp Arp.Request Sample.peer_mac)))
    Sample.leased_handler Sample.world = Done (Sample.world, Sample.leased_handler).
Proof.
  apply (@foreign_frame_ignored list_queue jiffy_queue _ _ debug_build _ _ 0%nat (Sample.device (Some Sample.own_addr) Done_)
    _ Sample.peer_mac); [reflexivity | by vm_compute | done | done].
Defined.

Lemma arp_request_answered_witness :
  ∃ w' h', handle_message list_queue (B := debug_build)
      (Packet (Sample.raw (Sample.arp Arp.Request broadcast))) Sample.leased_handler Sample.world
    = Done (w', h') ∧ trace _ w' = [Notified 1].
Proof.
  destruct (@arp_request_answered list_queue jiffy_queue _ _ debug_build
    (Sample.raw (Sample.arp Arp.Request broadcast)) Sample.leased_handler 0%nat
    (Sample.device (Some Sample.own_addr) Done_) Sample.world
    (Sample.arp_packet Arp.Request broadcast) eq_refl
    ltac:(left; by vm_compute)
    ltac:(apply Sample.arp_is_received; [split; [done | repeat constructor; by vm_compute] | by vm_compute])
    eq_refl Sample.wf_own_mac
    ltac:(intros a [= <-]; split; [done | repeat constructor; by vm_compute]))
    as (e & He & _).
  eexists _, _. split; [exact He | reflexivity].
Defined.

Lemma echo_request_panics_witness :
  handle_message list_queue (B := debug_build)
    (Packet (Sample.raw (Sample.icmp (Icmp.EchoRequest 1 2)))) Sample.leased_handler Sample.world
  = Panicked Todo.
Proof.
  refine (@echo_request_panics list_queue jiffy_queue _ _ debug_build
    (Sample.raw (Sample.icmp (Icmp.EchoRequest 1 2))) Sample.leased_handler 0%nat
    (Sample.device (Some Sample.own_addr) Done_) Sample.world _ 1 2 _ eq_refl _ _ _ _ _ _).
  - right. by vm_compute.
  - by vm_compute.
  - vm_compute. reflexivity.
  - by vm_compute.
  - by vm_compute.
  - vm_compute. reflexivity.
Defined.

Module SampleRuns.

Definition result_of (o : outcome (World list_queue * Handler jiffy_queue)) :
    World list_queue * Handler jiffy_queue :=
  match o with Done r => r | _ => (Sample.world, Sample.leased_handler) end.

Definition messages : list HandlerMessage :=
  [Packet (Sample.raw (Sample.dhcp 2)); Packet (Sample.raw (Sample.dhcp 5))].

Definition dhcp_run : World list_queue * Handler jiffy_queue :=
  result_of (network_handler list_queue (B := debug_build) [Sample.device None Initial] messages Sample.world).

Definition ping_sent : World list_queue * Handler jiffy_queue :=
  result_of (handle_message list_queue (B := debug_build)
    (Action (PingRequest 4 Sample.peer_addr Sample.peer_mac 5)) Sample.leased_handler Sample.world).

Definition arp_sent : World list_queue * Handler jiffy_queue :=
  result_of (handle_message list_queue (B := debug_build)
    (Action (SendArpRequest Sample.peer_addr 9)) Sample.leased_handler Sample.world).

(** The device of a handler that has one. *)
Definition device_of (h : Handler jiffy_queue) : NetworkDevice jiffy_queue :=
  match devices h with [d] => d | _ => Sample.device None Initial end.

End SampleRuns.

Lemma network_handler_refines_lease_witness :
  Forall (λ d, is_Some (ip (metadata d)) ↔ dhcp (metadata d) = Done_)
    (devices SampleRuns.dhcp_run.2)
  ∧ ip (metadata (SampleRuns.device_of SampleRuns.dhcp_run.2)) = Some Sample.own_addr.
Proof.
  split; [| by vm_compute].
  assert (network_handler list_queue (B := debug_build) [Sample.device None Initial]
    SampleRuns.messages Sample.world = Done (SampleRuns.dhcp_run.1, SampleRuns.dhcp_run.2)) as Hr.
  { vm_compute. reflexivity. }
  pose proof (@network_handler_refines_lease list_queue jiffy_queue _ _ debug_build [Sample.device None Initial]
    SampleRuns.messages Sample.world _ _ ltac:(by apply NoDup_singleton) ltac:(by repeat constructor) Hr) as HF.
  eapply Forall2_Forall_r; [exact HF |]. apply Forall_cons_2; [| apply Forall_nil_2].
  by intros ? (_ & _ & ?).
Defined.

Lemma network_handler_lease_final_witness :
  ∃ d', devices SampleRuns.arp_sent.2 !! 0%nat = Some d'
    ∧ lease_of d' = (Some Sample.own_addr, Done_).
Proof.
  assert (handle_messages list_queue (B := debug_build) [Action (SendArpRequest Sample.peer_addr 9)]
    Sample.leased_handler Sample.world = Done (SampleRuns.arp_sent.1, SampleRuns.arp_sent.2)) as Hr.
  { vm_compute. reflexivity. }
  destruct (@network_handler_lease_final list_queue jiffy_queue _ _ debug_build
    [Action (SendArpRequest Sample.peer_addr 9)] Sample.leased_handler _ Sample.world _ 0%nat
    (Sample.device (Some Sample.own_addr) Done_) ltac:(by apply NoDup_singleton) eq_refl eq_refl Hr) as (d' & H1 & H2 & _).
  exists d'. split; [exact H1 | exact H2].
Defined.

Lemma arp_resolution_witness :
  ∃ w2 h2, handle_message list_queue (B := debug_build)
      (Packet (Sample.raw (Sample.arp Arp.Response Sample.own_mac)))
      SampleRuns.arp_sent.2 SampleRuns.arp_sent.1 = Done (w2, h2)
    ∧ ips _ w2 = Some {[Sample.peer_addr := Sample.peer_mac]}.
Proof.
  assert (handle_message list_queue (B := debug_build) (Action (SendArpRequest Sample.peer_addr 9))
    Sample.leased_handler Sample.world = Done (SampleRuns.arp_sent.1, SampleRuns.arp_sent.2)) as Hr.
  { vm_compute. reflexivity. }
  destruct (@arp_resolution list_queue jiffy_queue _ _ debug_build _
    (Sample.raw (Sample.arp Arp.Response Sample.own_mac)) Sample.leased_handler SampleRuns.arp_sent.2
    0%nat (SampleRuns.device_of SampleRuns.arp_sent.2) Sample.world SampleRuns.arp_sent.1
    (Sample.arp_packet Arp.Response Sample.own_mac) ∅ 9 (mk_queue [] (Some 2%nat) false)
    Hr ltac:(by vm_compute) ltac:(right; by vm_compute)
    ltac:(apply Sample.arp_is_received; [exact Sample.wf_own_mac | by vm_compute])
    eq_refl ltac:(by vm_compute) ltac:(by vm_compute) eq_refl eq_refl)
    as (w2 & h2 & s' & H1 & H2 & _).
  exists w2, h2. split; [exact H1 | exact H2].
Defined.

Lemma ping_completes_witness :
  ∃ w2 h2, handle_message list_queue (B := debug_build)
      (Packet (Sample.raw (Sample.icmp (Icmp.EchoReply 0x1234 0x2345))))
      SampleRuns.ping_sent.2 SampleRuns.ping_sent.1 = Done (w2, h2)
    ∧ cells _ w2 !! 5 = Some true.
Proof.
  assert (handle_message list_queue (B := debug_build)
    (Action (PingRequest 4 Sample.peer_addr Sample.peer_mac 5)) Sample.leased_handler Sample.world
    = Done (SampleRuns.ping_sent.1, SampleRuns.ping_sent.2)) as Hr.
  { vm_compute. reflexivity. }
  destruct (@ping_completes list_queue jiffy_queue _ _ debug_build
    (Sample.raw (Sample.icmp (Icmp.EchoReply 0x1234 0x2345))) Sample.leased_handler
    SampleRuns.ping_sent.2 0%nat (SampleRuns.device_of SampleRuns.ping_sent.2) Sample.world
    SampleRuns.ping_sent.1
    (parsed_header (Sample.peer_ip Ipv4.Icmp) 8
       (match Ipv4.header (Ipv4.packet_new (Ethernet.packet_new
                (Sample.icmp (Icmp.EchoReply 0x1234 0x2345)))) with
        | Done h => header_checksum h | _ => 0 end))
    4 Sample.peer_mac 5 Hr ltac:(by vm_compute) ltac:(right; by vm_compute)
    ltac:(split_and!; [by vm_compute | by vm_compute | by vm_compute |];
          exists 0x1234, 0x2345; by vm_compute))
    as (w2 & h2 & H1 & H2 & _).
  exists w2, h2. split; [exact H1 |]. rewrite H2. apply lookup_insert_eq.
Defined.

Lemma init_handler_discovers_witness :
  ∃ w' h', init_handler list_queue (B := debug_build) [Sample.device None Initial] Sample.world
    = Done (w', h') ∧ length (devices h') = 1%nat.
Proof.
  destruct (@init_handler_discovers list_queue jiffy_queue _ debug_build [Sample.device None Initial] Sample.world
    ltac:(apply Forall_cons_2; [exact Sample.wf_own_mac | apply Forall_nil_2])) as (w' & h' & H1 & _ & H2 & _).
  exists w', h'. split; [exact H1 | exact H2].
Defined.

Lemma dhcp_exchange_completes_witness :
  ∃ w' h' d', handle_messages list_queue (B := debug_build) SampleRuns.messages
      (Sample.handler (Sample.device None (Discover 5 tx_id))) Sample.world = Done (w', h')
    ∧ h' = with_device (Sample.handler (Sample.device None (Discover 5 tx_id))) 0 d' no_bindings
    ∧ lease_of d' = (Some Sample.own_addr, Done_) ∧ cells _ w' !! 5 = Some true.
Proof.
  assert (∀ ty op, (ty, op) = (2, Dhcp.Offer) ∨ (ty, op) = (5, Dhcp.Ack) →
    dhcp_received (B := debug_build) (Sample.dhcp ty) (Sample.dhcp_data op)) as Hrec.
  { intros ty op [[= -> ->] | [= -> ->]].
    all: split; [by vm_compute |]; split; [eexists; split; [vm_compute; reflexivity | reflexivity] |].
    all: split; [eexists; split; [vm_compute; reflexivity | done] | by vm_compute]. }
  destruct (@dhcp_exchange_completes list_queue jiffy_queue _ _ debug_build (Sample.raw (Sample.dhcp 2))
    (Sample.raw (Sample.dhcp 5)) (Sample.handler (Sample.device None (Discover 5 tx_id))) 0%nat
    (Sample.device None (Discover 5 tx_id)) Sample.world 5 tx_id
    (Sample.dhcp_data Dhcp.Offer) (Sample.dhcp_data Dhcp.Ack)
    eq_refl eq_refl eq_refl ltac:(by vm_compute) Sample.wf_own_mac
    ltac:(split_and!; [by vm_compute | apply (bool_decide_unpack _); by vm_compute | by vm_compute])
    ltac:(right; by vm_compute) ltac:(apply Hrec; by left) eq_refl eq_refl
    ltac:(right; by vm_compute) ltac:(apply Hrec; by right) eq_refl eq_refl)
    as (w' & h' & d' & e & H1 & H2 & H3 & H4 & _).
  exists w', h', d'. split; [exact H1 |]. split; [exact H2 |]. split; [by rewrite H3 | by rewrite H4].
Defined.
