(* ===== verification/HandlerTrace.v ===== *)
(** * The handler does not depend on its trace

    [Handler] records in its world what it asks of the rest of the system.
    Worlds that differ only there are equivalent, and every operation of the
    handler respects the equivalence: whoever carries out what was asked may
    clear the record. *)

From stdpp Require Import base tactics list gmap numbers.
From Stdlib Require Import ZArith Lia.
From S2P Require Import Prelude Queue Buffer Ethernet Arp Ipv4 Udp Icmp Dhcp Device Handler.

Local Open Scope Z_scope.

Create HintDb blind.

Section trace.
Context {Q D : Type → Type} `{QueueOps Q} `{QueueOps D} {B : Build}.

Implicit Types (w : World Q) (h : Handler D).

(** The world without its trace. *)
Definition erase w : World Q :=
  {| cells := cells Q w; next_cell := next_cell Q w; mac_queues := mac_queues Q w; udp_queues := udp_queues Q w;
     ips := ips Q w; trace := [] |}.

#[export] Instance world_equiv : Equiv (World Q) := λ w1 w2, erase w1 = erase w2.

#[export] Instance world_equivalence : Equivalence (≡@{World Q}).
Proof.
  unfold equiv, world_equiv. split; [done | by intros ? ? -> | by intros ? ? ? -> ->].
Qed.

Lemma erase_equiv w : erase w ≡ w.
Proof. done. Qed.

(** From equivalent worlds, the same result and equivalent worlds. *)
Definition blind {A} (k : M (World Q) A) : Prop := ∀ w1 w2 w1' a,
  w1 ≡ w2 → k w1 = Done (w1', a) → ∃ w2', k w2 = Done (w2', a) ∧ w1' ≡ w2'.

Lemma blind_bind {A C} (k : M (World Q) A) (f : A → M (World Q) C) :
  blind k → (∀ a, blind (f a)) → blind (x ← k; f x).
Proof.
  intros Hk Hf w1 w2 w1' c Hw (w & a & H1 & H2)%M_bind_done.
  destruct (Hk _ _ _ _ Hw H1) as (w' & Hr & Hw'). destruct (Hf a _ _ _ _ Hw' H2) as (w2' & Hr' & Hw2).
  exists w2'. split; [| done]. by rewrite (M_bind_run _ _ _ _ _ Hr).
Qed.

Lemma blind_mret {A} (a : A) : blind (mret a).
Proof. intros w1 w2 w1' a' Hw [= <- <-]. by exists w2. Qed.

Lemma blind_lift {A} (o : outcome A) : blind (lift o).
Proof. intros w1 w2 w1' a Hw [-> ->]%lift_done. by exists w2. Qed.

(** What is read and written is not the trace. *)
Lemma blind_gets {A} (f : World Q → A) : (∀ w, f (erase w) = f w) → blind (gets f).
Proof.
  intros Hf w1 w2 w1' a Hw [= <- <-]. exists w2. split; [| done]. unfold gets. do 2 f_equal.
  rewrite <- (Hf w1), <- (Hf w2). by rewrite Hw.
Qed.

Lemma blind_modify (f : World Q → World Q) : (∀ w, f (erase w) ≡ f w) → blind (modify f).
Proof.
  intros Hf w1 w2 w1' a Hw [= <- <-]. exists (f w2). split; [done |]. rewrite <- (Hf w1), <- (Hf w2). by rewrite Hw.
Qed.

Lemma blind_emit e : blind (emit Q e).
Proof. by apply blind_modify. Qed.

Lemma blind_new_cell b : blind (new_cell Q b).
Proof.
  intros w1 w2 w1' a Hw [= <- <-]. eexists. unfold new_cell. injection Hw as E1 E2 E3 E4 E5. rewrite E2.
  split; [done |]. unfold equiv, world_equiv, erase. cbn. congruence.
Qed.

Lemma blind_store c b : blind (store Q c b).
Proof. by apply blind_modify. Qed.

Lemma blind_drop q : blind (drop_mac_sender Q q).
Proof. by apply blind_modify. Qed.

Lemma blind_mac q v : blind (mac_try_enqueue Q q v).
Proof.
  intros w1 w2 w1' a Hw. unfold mac_try_enqueue. pose proof Hw as [= E1 E2 E3 E4 E5]. rewrite E3.
  destruct (mac_queues Q w2 !! q) as [s |]; [| intros [= <- <-]; by exists w2].
  destruct (q_try_enqueue s v) as [s' r]. intros [= <- <-]. eexists. split; [done |].
  unfold equiv, world_equiv, erase. cbn. congruence.
Qed.

Lemma blind_udp q v : blind (udp_try_enqueue Q q v).
Proof.
  intros w1 w2 w1' a Hw. unfold udp_try_enqueue. pose proof Hw as [= E1 E2 E3 E4 E5]. rewrite E4.
  destruct (udp_queues Q w2 !! q) as [s |]; [| intros [= <- <-]; by exists w2].
  destruct (q_try_enqueue s v) as [s' r]. intros [= <- <-]. eexists. split; [done |].
  unfold equiv, world_equiv, erase. cbn. congruence.
Qed.

Lemma blind_ips : blind (gets (ips Q)).
Proof. by apply blind_gets. Qed.

Lemma blind_set_ips m : blind (modify (set_ips Q m)).
Proof. by apply blind_modify. Qed.

Hint Resolve blind_mret blind_lift blind_emit blind_new_cell blind_store blind_drop blind_mac blind_udp blind_ips
  blind_set_ips : blind.

Ltac blind := repeat (intros; cbv zeta; first [ solve [eauto 3 with blind] | case_match | apply blind_bind ]).

Lemma blind_enqueue (d : NetworkDevice D) p : blind (device_enqueue Q d p).
Proof. unfold device_enqueue. blind. Qed.

Hint Resolve blind_enqueue : blind.

Lemma blind_for_mut {A} (f : A → M (World Q) A) l : (∀ a, blind (f a)) → blind (for_mut f l).
Proof. intros Hf. induction l as [| a l IH]; cbn [for_mut]; blind. Qed.

Lemma blind_arp (d : NetworkDevice D) b e : blind (handle_arp Q d b e).
Proof. unfold handle_arp. blind. Qed.

Lemma blind_icmp (d : NetworkDevice D) b p : blind (handle_icmp Q d b p).
Proof. unfold handle_icmp. blind. Qed.

Lemma blind_dhcp (d : NetworkDevice D) p : blind (handle_dhcp Q d p).
Proof. unfold handle_dhcp. blind. Qed.

Hint Resolve blind_arp blind_icmp blind_dhcp : blind.

Lemma blind_handle_udp (d : NetworkDevice D) b p : blind (handle_udp Q d b p).
Proof. unfold handle_udp. blind. Qed.

Hint Resolve blind_handle_udp : blind.

Lemma blind_frame (d : NetworkDevice D) b buf : blind (handle_frame Q d b buf).
Proof. unfold handle_frame. blind. Qed.

Hint Resolve blind_frame : blind.

Lemma blind_packet raw h : blind (handle_packet_ Q raw h).
Proof. unfold handle_packet_. blind. Qed.

Lemma blind_send_arp a (d : NetworkDevice D) : blind (send_arp_request Q a d).
Proof. unfold send_arp_request. blind. Qed.

Lemma blind_send_ping a m (d : NetworkDevice D) : blind (send_ping Q a m d).
Proof. unfold send_ping. blind. Qed.

Lemma blind_init (d : NetworkDevice D) : blind (init_device Q d).
Proof. unfold init_device. blind. Qed.

Hint Resolve blind_packet blind_send_arp blind_send_ping blind_init blind_for_mut : blind.

Lemma blind_message m h : blind (handle_message Q m h).
Proof. unfold handle_message, handle_action, insert_arp. blind. Qed.

Hint Resolve blind_message : blind.

Lemma blind_messages ms h : blind (handle_messages Q ms h).
Proof. revert h. induction ms as [| m ms IH]; intros h; cbn [handle_messages]; blind. Qed.

Lemma blind_init_handler (ds : list (NetworkDevice D)) : blind (init_handler Q ds).
Proof. unfold init_handler. blind. Qed.

End trace.
