(* ===== verification/HandlerTypes.v ===== *)
(** * The types of the handler's data

    Addresses, ports and frames are lists and integers in the model; Rust gives
    them types ([[u8; 6]], [[u8; 4]], [u32], a buffer of 2048 bytes).  Here the
    types are predicates, and the whole handler keeps them: what is parsed from
    a buffer, what is kept per device, what goes into the ARP table and the
    queues, and every frame that is built for the driver. *)

From stdpp Require Import base tactics list gmap numbers.
From Stdlib Require Import ZArith Lia.
From S2P Require Import Prelude Queue Buffer Ethernet Arp Ipv4 Udp Icmp Dhcp Device Handler HandlerSpec.

Local Open Scope Z_scope.

Abbreviation ip4 := Arp.wf_ip (only parsing).
Abbreviation eth6 := wf_mac (only parsing).

(** A frame for the driver: bytes, and short enough for a descriptor. *)
Definition sendable (p : Ethernet.Packet) : Prop := wf_packet p ∧ blen (buffer p) ≤ 1500.

(** ** What the builders build *)

Section builders.
Context {B : Build}.

Lemma eth_finish_sendable st f p :
  wf_eth_state st → PayloadFn f → Ethernet.finish st f = Done (Ok p) → sendable p.
Proof.
  intros Hst Hf Hr. rewrite (eth_finish_run st f Hst) in Hr. apply bind_done in Hr as ([body r] & Hb & Hr). cbn in Hr.
  pose proof (payload_keeps _ _ _ Hb) as [Hl Hk]. destruct r as [n | e]; [| done].
  apply bind_done in Hr as (total & _ & Hr). apply bind_done in Hr as (bs & Hs & [= <-]).
  apply slice_done in Hs as [Hs ->]. destruct Hst as ([Hsl Hsb] & [Hdl Hdb] & Htl & Htb).
  split; [apply new_wf, sub_bytes; unfold frame_bytes; rewrite !Forall_app; auto using zeros_bytes |].
  rewrite length_replicate in Hl.
  assert (len (frame_bytes st body) = 1500) as E by (unfold frame_bytes, len; rewrite !length_app; lia).
  unfold blen. cbn. unfold len in *. rewrite length_sub; unfold len; lia.
Qed.

Lemma arp_finish_sendable st p : wf_state st → Arp.finish st = Done (Ok p) → sendable p.
Proof.
  intros Hst. pose proof Hst as (? & ? & ? & ? & ?). apply eth_finish_sendable; [| by apply arp_payload_fn].
  split_and!; cbn; auto. repeat constructor; by vm_compute.
Qed.

Lemma ipv4_finish_sendable st f size p :
  wf_dst st → PayloadFn f → Ipv4.finish st f size = Done (Ok p) → sendable p.
Proof. intros Hst Hf. apply eth_finish_sendable; [by apply wf_eth_state_dst | by apply ipv4_payload_fn]. Qed.

Lemma udp_finish_sendable st ip f size p :
  wf_dst ip → PayloadFn f → Udp.finish st ip f size = Done (Ok p) → sendable p.
Proof. intros Hip Hf (n & _ & Hr)%bind_done. eapply ipv4_finish_sendable; [done | by apply udp_payload_fn | done]. Qed.

Lemma icmp_finish_sendable st ip f size p :
  wf_type (ts_ty st) → wf_dst ip → PayloadFn f → Icmp.finish st ip f size = Done (Ok p) → sendable p.
Proof.
  intros Hty Hip Hf (n & _ & Hr)%bind_done. eapply ipv4_finish_sendable; [done | by apply icmp_payload_fn | done].
Qed.

Lemma discover_sendable mac xid ident p :
  eth6 mac → uint 16 ident → Dhcp.discover_message mac xid ident = Done (Ok p) → sendable p.
Proof.
  intros Hm Hi. apply udp_finish_sendable; [by apply wf_client | apply discover_payload_fn, Hm].
Qed.

Lemma request_sendable mac xid ip server ident p :
  eth6 mac → uint 16 ident → ip4 ip → ip4 server →
  Dhcp.request_message mac xid ip server ident = Done (Ok p) → sendable p.
Proof.
  intros Hm Hi [_ Hip] [_ Hs]. apply udp_finish_sendable; [by apply wf_client | apply request_payload_fn; [apply Hm | done..]].
Qed.

(** ** What the parsers read *)

Ltac reads :=
  repeat match goal with
  | Ha : to_array _ _ = Done _ |- _ => apply to_array_done in Ha as [-> ?]
  | Hs : slice _ _ _ = Done _ |- _ => apply slice_done in Hs as [? ->]
  end.

Lemma arp_packet_addresses eth p :
  wf_packet eth → Arp.packet_new eth = Done (Ok p) →
  eth6 (Arp.src_mac p) ∧ ip4 (Arp.src_ip p) ∧ eth6 (Arp.dest_mac p) ∧ ip4 (Arp.get_dest_ip p).
Proof.
  intros Hw (c & Hc & Hr)%bind_done. apply content_bytes in Hc; [| done]. case_match; [done |].
  repeat (apply bind_done in Hr as (? & ? & Hr)). injection Hr as <-. cbn. reads.
  split_and!; (split; [done | by apply sub_bytes]).
Qed.

Lemma ipv4_header_addresses p h :
  wf_packet (Ipv4.eth_packet p) → Ipv4.header p = Done h → ip4 (source_ip h) ∧ ip4 (destination_ip h).
Proof.
  intros Hw (c & Hc & Hr)%bind_done. apply content_bytes in Hc; [| done].
  repeat (apply bind_done in Hr as (? & ? & Hr)). injection Hr as <-. cbn. reads.
  split; (split; [done | by apply sub_bytes, sub_bytes]).
Qed.

End builders.

(** ** The types *)

Definition typed_exchange (x : DHCPExchange) : Prop :=
  match x with
  | Initial | Done_ => True
  | Discover _ transaction_id => uint 32 transaction_id
  | Requested _ transaction_id own_ip server_ip => uint 32 transaction_id ∧ ip4 own_ip ∧ ip4 server_ip
  end.

Definition typed_message (m : HandlerMessage) : Prop :=
  match m with
  | Packet raw => Buffer.wf (raw_buffer raw)
  | Action (SendArpRequest ip _) => ip4 ip
  | Action (PingRequest _ ip mac _) => ip4 ip ∧ eth6 mac
  end.

Record typed_bindings (b : Bindings) : Prop := {
  tb_udp : map_Forall (λ port _, uint 16 port) (udp b);
  tb_arp : map_Forall (λ a _, ip4 a) (arp b);
  tb_ping : map_Forall (λ a _, ip4 a) (ping b) }.

Section types.
Context {Q D : Type → Type} `{HQ : QueueOps Q, !QueueLaws Q} `{HD : QueueOps D, !QueueLaws D} {B : Build}.

Record typed_device (d : NetworkDevice D) : Prop := {
  td_mac : eth6 (mac (metadata d));
  td_ip : ∀ a, ip (metadata d) = Some a → ip4 a;
  td_exchange : typed_exchange (dhcp (metadata d));
  td_queued : Forall sendable (queued d) }.

Record typed_handler (h : Handler D) : Prop := {
  th_devices : Forall typed_device (devices h);
  th_bindings : typed_bindings (bindings h) }.

Definition typed_ips (m : IpMap) : Prop := map_Forall (λ a mac, ip4 a ∧ eth6 mac) m.

Record typed_world (w : World Q) : Prop := {
  tw_ips : ∀ m, ips Q w = Some m → typed_ips m;
  tw_macs : map_Forall (λ _ q, Forall eth6 (q_items q)) (mac_queues Q w);
  tw_datagrams : map_Forall (λ _ q, Forall (λ u, wf_packet (Ipv4.eth_packet (Udp.ip_packet u))) (q_items q)) (udp_queues Q w) }.

Abbreviation keeps_types := (ensures typed_world).

(** ** The operations on the world *)

Lemma enqueue_Forall {R : Type → Type} `{QueueLaws R} {A} (P : A → Prop) (q : R A) a :
  Forall P (q_items q) → P a → Forall P (q_items (q_try_enqueue q a).1).
Proof.
  intros Hq Ha. destruct (q_is_closed q) eqn:Hc; [by rewrite enqueue_err by auto |].
  destruct (q_has_room q) eqn:Hr; [| by rewrite enqueue_err by auto].
  destruct (enqueue_ok _ q a Hc Hr) as (_ & -> & _). apply Forall_app. auto.
Qed.

Lemma typed_emit e : keeps_types (emit Q e) (λ _, True).
Proof. apply ensures_modify. by intros w []. Qed.

Lemma typed_store c b : keeps_types (store Q c b) (λ _, True).
Proof. apply ensures_modify. by intros w []. Qed.

Lemma typed_new_cell b : keeps_types (new_cell Q b) (λ _, True).
Proof. intros w w' c [Hi Hm Hu] [= <- _]. done. Qed.

Lemma typed_mac_enqueue q m : eth6 m → keeps_types (mac_try_enqueue Q q m) (λ _, True).
Proof.
  intros Hm w w' r [Hi Hq Hu]. unfold mac_try_enqueue. destruct (mac_queues Q w !! q) as [s |] eqn:E; [| by intros [= <- _]].
  pose proof (enqueue_Forall _ s m (Hq _ _ E) Hm) as Hs. destruct (q_try_enqueue s m) as [s' r']. intros [= <- _].
  split; [| done]. split; cbn; [done | | done]. by apply map_Forall_insert_2.
Qed.

Lemma typed_udp_enqueue q u :
  wf_packet (Ipv4.eth_packet (Udp.ip_packet u)) → keeps_types (udp_try_enqueue Q q u) (λ _, True).
Proof.
  intros Hp w w' r [Hi Hm Hq]. unfold udp_try_enqueue. destruct (udp_queues Q w !! q) as [s |] eqn:E; [| by intros [= <- _]].
  pose proof (enqueue_Forall _ s u (Hq _ _ E) Hp) as Hs. destruct (q_try_enqueue s u) as [s' r']. intros [= <- _].
  split; [| done]. split; cbn; [done | done |]. by apply map_Forall_insert_2.
Qed.

Lemma typed_drop_sender q : keeps_types (drop_mac_sender Q q) (λ _, True).
Proof.
  apply ensures_modify. intros w [Hi Hm Hu]. split; cbn; [done | | done]. intros k s.
  rewrite lookup_alter_Some. intros [(-> & s' & Hs & ->) | [_ Hs]]; [| by eapply Hm].
  destruct (close_spec _ s') as [-> _]. by eapply Hm.
Qed.

Lemma typed_set_ips m : typed_ips m → keeps_types (modify (set_ips Q m)) (λ _, True).
Proof. intros Hm. apply ensures_modify. intros w [_ Hq Hu]. split; cbn; [by intros ? [= <-] | done..]. Qed.

Lemma typed_device_enqueue d p : typed_device d → sendable p → keeps_types (device_enqueue Q d p) typed_device.
Proof.
  intros [Hm Hi Hx Hq] Hp. eapply ensures_bind; [apply typed_emit |]. intros _ _. apply ensures_mret.
  split; cbn; try done. by apply enqueue_Forall.
Qed.

(** ** The handlers *)

#[local] Hint Resolve typed_emit typed_store typed_new_cell typed_mac_enqueue typed_udp_enqueue typed_drop_sender
  typed_set_ips typed_device_enqueue ensures_lift ensures_mret : types.

(** Through the next bind, with what its first part ensures. *)
Ltac next := eapply ensures_bind; [eauto with types | cbv beta].

(** A builder's result that is unwrapped. *)
Lemma unwrap_Ok {A E} (r : result A E) a : unwrap_result r = Done a → r = Ok a.
Proof. destruct r; [by intros [= ->] | done]. Qed.

Definition typed_pair (r : NetworkDevice D * Bindings) : Prop := typed_device r.1 ∧ typed_bindings r.2.

Lemma typed_arp d b eth :
  typed_device d → typed_bindings b → wf_packet eth → keeps_types (handle_arp Q d b eth) typed_pair.
Proof.
  intros Hd Hb Hw. unfold handle_arp. next. intros r Hr. next. intros p ->%unwrap_Ok.
  apply arp_packet_addresses in Hr as (Hsm & Hsi & _ & _); [| done].
  destruct (Arp.get_operation p).
  - destruct (ip (metadata d)) as [own |] eqn:E; [| by apply ensures_mret].
    case_match; [by apply ensures_mret |]. next. intros r Hr. next. intros e ->%unwrap_Ok.
    eapply ensures_bind; [apply (typed_device_enqueue d e Hd) |].
    { eapply arp_finish_sendable; [| exact Hr]. pose proof (td_mac _ Hd). pose proof (td_ip _ Hd _ E).
      split_and!; cbn; auto. by vm_compute. }
    intros d' Hd'. by apply ensures_mret.
  - eapply ensures_bind; [apply (ensures_gets _ _ (λ m, ∀ m', m = Some m' → typed_ips m')), tw_ips |]. intros known Hk.
    next. intros m Hm. eapply ensures_bind; [apply typed_set_ips |].
    { destruct known as [m' |]; [| done]. injection Hm as ->. apply map_Forall_insert_2; [done | by apply Hk]. }
    intros _ _. next. intros _ _. case_match; [| by apply ensures_mret].
    next. intros r _. next. intros _ _. next. intros _ _. apply ensures_mret. split; [done |].
    destruct Hb. split; cbn; [done | by apply map_Forall_delete | done].
  - next. intros _ _. by apply ensures_mret.
Qed.

Lemma typed_icmp d b p :
  typed_device d → typed_bindings b → keeps_types (handle_icmp Q d b p) typed_pair.
Proof.
  intros Hd Hb. unfold handle_icmp. next. intros ty _. destruct ty.
  - next. intros _ _. next. intros _ _ s s' a _ [=].
  - next. intros h _. destruct (ping b !! _) as [[wk c] |]; [| by apply ensures_mret].
    next. intros _ _. next. intros _ _. apply ensures_mret. split; [done |].
    destruct Hb. split; cbn; [done | done | by apply map_Forall_delete].
  - next. intros _ _. by apply ensures_mret.
Qed.

Lemma typed_dhcp d u :
  typed_device d → wf_packet (Ipv4.eth_packet (Udp.ip_packet u)) → keeps_types (handle_dhcp Q d u) typed_device.
Proof.
  intros Hd Hw. pose proof Hd as [Hm Hi Hx Hq]. unfold handle_dhcp. next. intros data Hg.
  apply get_addresses in Hg as [Hy Hs]; [| done].
  assert (keeps_types (_ ← emit Q (Println (UnexpectedDhcp data));
    mret (with_metadata d (with_dhcp (metadata d) (dhcp (metadata d))))) typed_device) as Hun
    by (next; intros _ _; by apply ensures_mret; split).
  destruct (dhcp (metadata d)) as [| c x | c x own server |] eqn:Ex; cbn in Hx; try exact Hun;
    destruct (Dhcp.operation data); try exact Hun; (case_match; [| exact Hun]).
  - next. intros r Hr. next. intros e ->%unwrap_Ok. eapply ensures_bind; [apply typed_device_enqueue; [by split |] |].
    { by eapply request_sendable, Hr. }
    intros d' [Hm' Hi' Hx' Hq']. apply ensures_mret. by split.
  - destruct Hx as (? & Ho & ?). next. intros _ _. apply ensures_mret. split; cbn; try done. by intros a [= <-].
Qed.

Lemma typed_udp d b p :
  typed_device d → typed_bindings b → wf_packet (Ipv4.eth_packet p) → keeps_types (handle_udp Q d b p) typed_pair.
Proof.
  intros Hd Hb Hw. unfold handle_udp. next. intros h _. case_match.
  { eapply ensures_bind; [by apply typed_dhcp |]. intros d' Hd'. by apply ensures_mret. }
  case_match; [next; intros _ _; by apply ensures_mret |]. next. intros _ _. next. intros pl _. next. intros _ _.
  by apply ensures_mret.
Qed.

Lemma typed_frame d b buf :
  typed_device d → typed_bindings b → Buffer.wf buf → keeps_types (handle_frame Q d b buf) typed_pair.
Proof.
  intros Hd Hb Hw. unfold handle_frame. next. intros dst _. case_match; [by apply ensures_mret |]. next. intros ty _.
  destruct ty; try by apply ensures_mret.
  - next. intros h _. destruct (Ipv4.protocol h); [by apply typed_icmp | by apply typed_udp |..]; next; intros _ _; by apply ensures_mret.
  - by apply typed_arp.
  - next. intros c _. next. intros _ _. by apply ensures_mret.
Qed.

Lemma typed_init_device d : typed_device d → keeps_types (init_device Q d) typed_device.
Proof.
  intros [Hm Hi Hx Hq]. unfold init_device. next. intros c _. next. intros r Hr. next. intros e ->%unwrap_Ok.
  apply typed_device_enqueue; [by split; cbn; try done; vm_compute |]. by eapply discover_sendable, Hr.
Qed.

Lemma typed_own_ip d : typed_device d → ip4 (own_ip_or_zero d).
Proof.
  intros Hd. unfold own_ip_or_zero. case_match eqn:E; [by eapply td_ip |]. split; [done |]. repeat constructor; by vm_compute.
Qed.

Lemma typed_send_arp a d : ip4 a → typed_device d → keeps_types (send_arp_request Q a d) typed_device.
Proof.
  intros Ha Hd. unfold send_arp_request. next. intros r Hr. next. intros e ->%unwrap_Ok.
  apply typed_device_enqueue; [done |]. eapply arp_finish_sendable; [| exact Hr].
  assert (eth6 broadcast) as Hbc by (split; [done |]; repeat constructor; by vm_compute).
  pose proof (typed_own_ip d Hd). pose proof (td_mac _ Hd). split_and!; cbn; auto. by vm_compute.
Qed.

Lemma typed_send_ping a m d : ip4 a → eth6 m → typed_device d → keeps_types (send_ping Q a m d) typed_device.
Proof.
  intros Ha Hm Hd. unfold send_ping. next. intros r Hr. next. intros e ->%unwrap_Ok.
  apply typed_device_enqueue; [done |]. eapply (icmp_finish_sendable _ _ _ _ e); [| | apply no_payload_fn | exact Hr].
  - by split; vm_compute.
  - destruct Ha, Hm.
    split_and!; cbn; try done; try (by apply typed_own_ip, Hd); apply Hd.
Qed.

Lemma typed_handle_message m h : typed_message m → typed_handler h → keeps_types (handle_message Q m h) typed_handler.
Proof.
  intros Hm [Hd Hb]. destruct m as [raw | [a q | wk a m c]]; cbn [handle_message handle_action typed_message] in *.
  - unfold handle_packet_. next. intros [i d] Hf. destruct (list_find _ _) as [[i' d'] |] eqn:E; [| done].
    injection Hf as -> ->. apply list_find_Some in E as (E & _).
    assert (typed_device d) as Hdd by (eapply Forall_lookup_1; eauto).
    eapply ensures_bind; [by apply typed_frame |]. intros [d' b'] [Hd' Hb']. apply ensures_mret.
    split; cbn; [by apply Forall_insert | done].
  - unfold insert_arp. eapply (ensures_bind _ _ _ typed_bindings).
    { eapply (ensures_bind _ _ _ (λ _, True)); [case_match; eauto with types |]. intros _ _. apply ensures_mret.
      destruct Hb. split; cbn; [done | by apply map_Forall_insert_2 | done]. }
    intros b' Hb'. eapply ensures_bind; [apply ensures_for_mut; [intros; by apply typed_send_arp | done] |].
    intros ds Hds. by apply ensures_mret.
  - destruct Hm as [Ha Hm]. eapply ensures_bind; [apply ensures_for_mut; [intros; by apply typed_send_ping | done] |].
    intros ds Hds. apply ensures_mret. split; cbn; [done |]. destruct Hb. split; cbn; [done | done | by apply map_Forall_insert_2].
Qed.

Lemma typed_handle_messages ms h :
  Forall typed_message ms → typed_handler h → keeps_types (handle_messages Q ms h) typed_handler.
Proof.
  intros Hms. revert h. induction Hms as [| m ms Hm _ IH]; intros h Hh; cbn [handle_messages]; [by apply ensures_mret |].
  eapply ensures_bind; [by apply typed_handle_message | exact IH].
Qed.

(** The network handler keeps the types of its data.  From devices with
    six-byte MAC addresses and messages made of bytes, whatever it receives,
    every address it stores has four bytes and every MAC address six, in the
    devices, the bindings, the ARP table and the queues of results; the
    transaction ids are 32-bit; and every frame it queues for a driver is a
    buffer of bytes of at most 1500 bytes, so that its length fits the 16-bit
    field of a transmit descriptor. *)
Theorem network_handler_typed (ds : list (NetworkDevice D)) ms (w w' : World Q) h' :
  Forall typed_device ds → Forall typed_message ms → typed_world w →
  network_handler Q ds ms w = Done (w', h') →
  typed_world w' ∧ typed_handler h'
  ∧ Forall (λ d, Forall (λ p, cast 16 (buf_len (buffer p)) = buf_len (buffer p)) (queued d)) (devices h').
Proof.
  intros Hds Hms Hw Hr.
  assert (keeps_types (network_handler Q ds ms) typed_handler) as Hk.
  { unfold network_handler, init_handler. eapply ensures_bind; [| intros h Hh; by apply typed_handle_messages].
    eapply ensures_bind; [apply ensures_for_mut; [apply typed_init_device | done] |]. intros ds' Hds'.
    apply ensures_mret. by split; [| split; apply map_Forall_empty]. }
  destruct (Hk _ _ _ Hw Hr) as [Hw' Hh']. do 2 (split; [done |]).
  eapply list.Forall_impl; [exact (th_devices _ Hh') |]. intros d Hd. 
  eapply list.Forall_impl; [exact (td_queued _ Hd) |]. intros p [Hp Hl].
  apply cast_small. destruct Hp as (_ & _ & Hp). unfold blen in Hl. unfold uint. change (2 ^ 16) with 65536. lia.
Qed.

End types.

(** A handler that asks for an address and then receives an ARP request. *)
Module Typed.

Import HandlerSpec.Sample.

Definition messages : list HandlerMessage :=
  [Action (SendArpRequest peer_addr 5); Packet (raw (arp Arp.Request own_mac))].

Definition final : World list_queue * Handler jiffy_queue :=
  match network_handler (B := debug_build) list_queue [device (Some own_addr) Done_] messages world with
  | Done r => r
  | _ => (world, leased_handler)
  end.

Lemma final_run :
  network_handler (B := debug_build) list_queue [device (Some own_addr) Done_] messages world = Done (final.1, final.2).
Proof. vm_compute. reflexivity. Qed.

Lemma typed_addr a : length a = 4%nat → forallb (λ b, (0 <=? b) && (b <? 256)) a = true → ip4 a.
Proof.
  intros Hl Hb. split; [done |]. apply list.Forall_forall. intros b Hin. rewrite forallb_forall in Hb.
  specialize (Hb b (proj1 (list_elem_of_In _ _) Hin)). unfold uint. change (2 ^ 8) with 256. lia.
Qed.

Lemma typed_start : Forall typed_device [device (Some own_addr) Done_].
Proof.
  apply Forall_singleton. split; [exact wf_own_mac | | exact I | constructor].
  intros a [= <-]. by apply typed_addr.
Qed.

Lemma typed_messages : Forall typed_message messages.
Proof.
  apply Forall_cons_2; [by apply typed_addr |]. apply Forall_singleton. cbn [typed_message raw raw_buffer].
  unfold arp. set (st := Arp.set_operation _ _).
  assert (wf_state st) as Hst.
  { split; [split; [done |]; repeat constructor; by vm_compute |]. split; [by apply typed_addr |].
    split; [exact wf_own_mac |]. split; [by apply typed_addr | by vm_compute]. }
  destruct (arp_finish_reads (B := debug_build) st Hst) as (e & He & _).
  pose proof (arp_finish_sendable (B := debug_build) st e Hst He) as [Hw _]. rewrite He. exact Hw.
Qed.

Lemma typed_world_start : typed_world world.
Proof.
  split; [| apply map_Forall_singleton; constructor | apply map_Forall_empty].
  intros m [= <-]. apply map_Forall_empty.
Qed.

End Typed.

Lemma network_handler_typed_witness :
  typed_world Typed.final.1 ∧ typed_handler Typed.final.2
  ∧ Forall (λ d, Forall (λ p, cast 16 (buf_len (buffer p)) = buf_len (buffer p)) (queued d)) (devices Typed.final.2).
Proof.
  exact (network_handler_typed (B := debug_build) [Sample.device (Some Sample.own_addr) Done_] Typed.messages
    Sample.world Typed.final.1 Typed.final.2 Typed.typed_start Typed.typed_messages Typed.typed_world_start Typed.final_run).
Defined.
