(* ===== verification/HandlerFrames.v ===== *)
(** * The frames the handler sends

    What the network handler puts into the transmit queue of each device, for
    any sequence of messages: a reference function prescribes the frames from
    the messages and the lease of the device alone, and the handler queues
    exactly these, in this order. *)

From stdpp Require Import base tactics list gmap numbers.
From Stdlib Require Import ZArith Lia.
From S2P Require Import Prelude Queue Checksum Buffer Ethernet Arp Ipv4 Udp Icmp Dhcp Device Handler HandlerSpec HandlerTypes.

Local Open Scope Z_scope.

(** ** Frames, abstractly *)

Inductive Frame :=
  (** DHCP: ask any server for an address, ask [server] for [ip] *)
  | AskLease (xid : Z)
  | TakeLease (xid : Z) (ip server : list Z)
  (** ARP: tell [to_ip] at [to_mac] that [own_ip] is here, ask where [target] is *)
  | TellAddress (own_ip to_mac to_ip : list Z)
  | AskAddress (own_ip target : list Z)
  (** ICMP: an echo request *)
  | AskEcho (own_ip target target_mac : list Z).

Section frames.
Context {B : Build}.

Definition arp_says (e : Ethernet.Packet) (op : Arp.Operation) (from_mac from_ip to_mac to_ip : list Z) : Prop :=
  Ethernet.ether_type e = Done Ethernet.Arp
  ∧ ∃ p, Arp.packet_new e = Done (Ok p) ∧ Arp.get_operation p = op
      ∧ Arp.src_mac p = from_mac ∧ Arp.src_ip p = from_ip
      ∧ Arp.dest_mac p = to_mac ∧ Arp.get_dest_ip p = to_ip.

(** What a receiver reads from the bytes of a frame sent by the device with
    the address [own]. *)
Definition reads_as (own : list Z) (f : Frame) (e : Ethernet.Packet) : Prop :=
  source_mac e = Done own
  ∧ match f with
    | AskLease xid =>
        Dhcp.client_frame own 13 244 e
        ∧ Dhcp.get (Dhcp.packet_new (Udp.packet_new (Ipv4.packet_new e)))
          = Done (Dhcp.client_data own xid [0; 0; 0; 0] [0; 0; 0; 0] Dhcp.Discover)
    | TakeLease xid ip server =>
        Dhcp.client_frame own 0 257 e
        ∧ Dhcp.get (Dhcp.packet_new (Udp.packet_new (Ipv4.packet_new e)))
          = Done (Dhcp.client_data own xid ip server Dhcp.Request)
    | TellAddress own_ip to_mac to_ip =>
        destination_mac e = Done to_mac ∧ arp_says e Arp.Response own own_ip to_mac to_ip
    | AskAddress own_ip target =>
        destination_mac e = Done broadcast ∧ arp_says e Arp.Request own own_ip broadcast target
    | AskEcho own_ip target target_mac =>
        destination_mac e = Done target_mac ∧ Ethernet.ether_type e = Done Ethernet.Ipv4
        ∧ (∃ hdr, Ipv4.header (Ipv4.packet_new e) = Done hdr ∧ Ipv4.protocol hdr = Ipv4.Icmp
             ∧ Ipv4.source_ip hdr = own_ip ∧ Ipv4.destination_ip hdr = target)
        ∧ Icmp.get_type (Icmp.packet_new (Ipv4.packet_new e)) = Done (Icmp.EchoRequest 0x1234 0x2345)
    end.

(** Such a frame, short enough for a transmit descriptor. *)
Definition carries (own : list Z) (f : Frame) (e : Ethernet.Packet) : Prop :=
  reads_as own f e ∧ sendable e.

(** ** The frames a device has to send *)

(** The ARP request in a frame for the address [own], if it is one. *)
Definition question_of (own : list Z) (buf : Buffer) : option Arp.Packet :=
  let e := Ethernet.packet_new buf in
  match destination_mac e with
  | Done dst =>
      if bool_decide (dst = broadcast) || bool_decide (dst = own) then
        match Ethernet.ether_type e, Arp.packet_new e with
        | Done Ethernet.Arp, Done (Ok p) => if bool_decide (Arp.get_operation p = Arp.Request) then Some p else None
        | _, _ => None
        end
      else None
  | _ => None
  end.

(** The REQUEST that a DHCP message calls for: the one for an OFFER of the own
    transaction. *)
Definition request_for (l : lease) (data : Dhcp.Data) : list Frame :=
  match l.2, Dhcp.operation data with
  | Device.Discover _ x, Dhcp.Offer =>
      if x =? Dhcp.xid data then [TakeLease x (Dhcp.yiaddr data) (Dhcp.siaddr data)] else []
  | _, _ => []
  end.

(** The answer to an ARP request: only for the own address. *)
Definition answer_for (l : lease) (p : Arp.Packet) : list Frame :=
  if bool_decide (l.1 = Some (Arp.get_dest_ip p)) then
    [TellAddress (Arp.get_dest_ip p) (Arp.src_mac p) (Arp.src_ip p)]
  else [].

(** What a received frame calls for, and what a message does. *)
Definition reply_to (own : list Z) (l : lease) (buf : Buffer) : list Frame :=
  match dhcp_of own buf, question_of own buf with
  | Some data, _ => request_for l data
  | None, Some p => answer_for l p
  | None, None => []
  end.

Definition own_address (l : lease) : list Z := match l.1 with Some a => a | None => [0; 0; 0; 0] end.

Section device.
Context {D : Type → Type}.
Implicit Types d : NetworkDevice D.

Definition frames_for d (l : lease) (m : HandlerMessage) : list Frame :=
  match m with
  | Packet raw =>
      if bool_decide (raw_id raw = id d) then reply_to (mac (metadata d)) l (raw_buffer raw) else []
  | Action (SendArpRequest target _) => [AskAddress (own_address l) target]
  | Action (PingRequest _ target target_mac _) => [AskEcho (own_address l) target target_mac]
  end.

Definition lease_after d (l : lease) (m : HandlerMessage) : lease :=
  match delivered d m with Some data => client l data | None => l end.

(** All of them, message by message, from the lease [l] on. *)
Fixpoint frames d (l : lease) (ms : list HandlerMessage) : list Frame :=
  match ms with
  | [] => []
  | m :: ms => frames_for d l m ++ frames d (lease_after d l m) ms
  end.

Lemma frames_same d d' l ms : same_device d d' → frames d' l ms = frames d l ms.
Proof.
  intros Hs. pose proof Hs as (E1 & _ & E2 & _). revert l.
  induction ms as [| m ms IH]; intros l; cbn [frames]; [done |]. rewrite IH. unfold lease_after.
  rewrite (delivered_same d d') by done. f_equal. destruct m as [raw | []]; cbn; by rewrite ?E1, ?E2.
Qed.

End device.

(** ** The builders *)

Lemma arp_carries own own_ip to_mac to_ip op e :
  wf_state (Arp.set_operation (Arp.destination (Arp.sender own own_ip) to_mac to_ip) op) →
  Arp.finish (Arp.set_operation (Arp.destination (Arp.sender own own_ip) to_mac to_ip) op) = Done (Ok e) →
  (op = Arp.Request ∨ op = Arp.Response) →
  sendable e ∧ source_mac e = Done own ∧ destination_mac e = Done to_mac ∧ arp_says e op own own_ip to_mac to_ip.
Proof.
  intros Hst He Hop. split; [exact (arp_finish_sendable _ _ Hst He) |].
  destruct (arp_finish_reads _ Hst) as (e' & He' & _ & Hd & Hs & Ht & Hp). rewrite He in He'. injection He' as <-.
  split; [exact Hs |]. split; [exact Hd |]. split; [exact Ht |]. eexists. split; [exact Hp |].
  split_and!; try done. by destruct Hop as [-> | ->].
Qed.

Lemma discover_carries own x e :
  wf_mac own → uint 32 x → Dhcp.discover_message own x 13 = Done (Ok e) → carries own (AskLease x) e.
Proof.
  intros Hm Hx He. split; [| apply (discover_sendable own x 13); [exact Hm | by vm_compute | exact He]].
  destruct (Dhcp.discover_message_reads own x 13 Hm Hx ltac:(by vm_compute) ltac:(by intros [|]))
    as (e' & He' & Hc & Hg). rewrite He in He'. injection He' as <-. split; [apply Hc |]. by split.
Qed.

Lemma request_carries own x ip server e :
  wf_mac own → uint 32 x → Arp.wf_ip ip → Arp.wf_ip server →
  Dhcp.request_message own x ip server 0 = Done (Ok e) → carries own (TakeLease x ip server) e.
Proof.
  intros Hm Hx Hip Hsv He.
  split; [| apply (request_sendable own x ip server 0); [exact Hm | by vm_compute | exact Hip | exact Hsv | exact He]].
  destruct (Dhcp.request_message_reads own x ip server 0 Hm Hx Hip Hsv ltac:(by vm_compute) ltac:(by intros [|]))
    as (e' & He' & Hc & _ & Hg). rewrite He in He'. injection He' as <-. split; [apply Hc |]. by split.
Qed.

End frames.

(** ** The handlers *)

Section sends.
Context {Q D : Type → Type} `{HQ : QueueOps Q, !QueueLaws Q} `{HD : QueueOps D, !QueueLaws D} {B : Build}.

Implicit Types (d : NetworkDevice D) (h : Handler D) (w : World Q).

Lemma echo_carries d target target_mac e :
  typed_device d → Arp.wf_ip target → wf_mac target_mac →
  Icmp.finish (Icmp.set_type (Icmp.EchoRequest 0x1234 0x2345)) (ping_ip d target target_mac) no_payload 0 = Done (Ok e) →
  carries (mac (metadata d)) (AskEcho (own_ip_or_zero d) target target_mac) e.
Proof.
  intros Hd [? ?] [? ?] He.
  assert (wf_dst (ping_ip d target target_mac)) as Hw
    by (split_and!; cbn; try done; try (by apply typed_own_ip, Hd); apply Hd).
  assert (Icmp.wf_type (Icmp.EchoRequest 0x1234 0x2345)) as Hty by (by split; vm_compute).
  split; [| exact (icmp_finish_sendable (Icmp.set_type _) _ _ _ e Hty Hw no_payload_fn He)].
  destruct (icmp_finish_checksum _ _ _ 0 e Hw Hty no_payload_fn ltac:(lia) He) as (c & Hc & Hset).
  destruct (icmp_finish_checked (Icmp.EchoRequest 0x1234 0x2345) (ping_ip d target target_mac) no_payload 0
    (replicate 1458 0) (Ok 0) c Hw Hty eq_refl no_payload_fn ltac:(lia) Hc Hset eq_refl ltac:(by vm_compute))
    as (e' & He' & Hdst & Hsrc & Het & Hh & Hg & _).
  rewrite He in He'. injection He' as <-. split; [exact Hsrc |]. split; [exact Hdst |]. split; [exact Het |].
  split; [| exact Hg]. eexists. split; [exact Hh | done].
Qed.

(** The device has queued the frames [fs], in this order. *)
Definition sent (fs : list Frame) d d' : Prop :=
  ∃ es, packet_queue d' = foldl sender_enqueue (packet_queue d) es ∧ Forall2 (carries (mac (metadata d))) fs es.

Lemma sent_nothing d d' : packet_queue d' = packet_queue d → sent [] d d'.
Proof. intros E. by exists []. Qed.

Lemma sent_one f d e d' :
  packet_queue d' = sender_enqueue (packet_queue d) e → carries (mac (metadata d)) f e → sent [f] d d'.
Proof. intros E Hc. exists [e]. split; [done |]. by constructor. Qed.

Lemma sent_app fs fs' d d1 d' :
  mac (metadata d1) = mac (metadata d) → sent fs d d1 → sent fs' d1 d' → sent (fs ++ fs') d d'.
Proof.
  intros Em (es & E & Hes) (es' & E' & Hes'). rewrite Em in Hes'. exists (es ++ es').
  split; [by rewrite foldl_app, <- E | by apply Forall2_app].
Qed.

(** The frame of a successful builder is the one that was queued. *)
Ltac queued_frame :=
  match goal with
  | Hu : unwrap_result ?r = Done _, Hd : device_enqueue _ _ _ _ = Done _ |- _ =>
      apply unwrap_Ok in Hu; subst r; apply device_enqueue_inv in Hd as [-> ->]
  end.

(** Every device sends. *)
Lemma for_mut_sent (k : NetworkDevice D → M (World Q) (NetworkDevice D)) (fs : NetworkDevice D → list Frame) ds w w' ds' :
  (∀ d w w' d', typed_device d → k d w = Done (w', d') → sent (fs d) d d') →
  Forall typed_device ds → for_mut k ds w = Done (w', ds') → Forall2 (λ d d', sent (fs d) d d') ds ds'.
Proof.
  intros Hk Ht Hr. pose proof (for_mut_Forall2 k (λ d d', typed_device d → sent (fs d) d d') ds w w' ds') as HF.
  apply HF in Hr; [| by eauto]. eapply list.Forall2_impl; [exact (Forall2_and_l _ _ _ _ Ht Hr) |]. naive_solver.
Qed.

Lemma handle_arp_sent d b eth w w' d' b' :
  typed_device d → wf_packet eth → handle_arp Q d b eth w = Done (w', (d', b')) →
  ∃ p, Arp.packet_new eth = Done (Ok p)
    ∧ sent (if bool_decide (Arp.get_operation p = Arp.Request) then answer_for (lease_of d) p else []) d d'.
Proof.
  intros Hd Hw Hr. unfold handle_arp in Hr. apply M_bind_done in Hr as (w1 & r & [Hp ->]%lift_done & Hr).
  apply M_bind_done in Hr as (w2 & p & [->%unwrap_Ok ->]%lift_done & Hr). exists p. split; [done |].
  destruct (arp_packet_addresses eth p Hw Hp) as (Hsm & Hsi & _ & Hdi).
  destruct (Arp.get_operation p) eqn:Eo.
  - rewrite bool_decide_eq_true_2 by done. unfold answer_for, lease_of. cbn [fst].
    destruct (ip (metadata d)) as [own |] eqn:Ei; [| m_inv; by apply sent_nothing].
    destruct (decide (own = Arp.get_dest_ip p)) as [-> | Hne].
    + rewrite bool_decide_eq_false_2 in Hr by naive_solver. rewrite bool_decide_eq_true_2 by done. m_inv. queued_frame.
      match goal with Hf : Arp.finish _ = _ |- _ => apply arp_carries in Hf as (Hse & Hs & Hdm & Ha); [| | by right] end.
      2: { split_and!; cbn; try done; try apply Hd; by vm_compute. }
      eapply sent_one; [reflexivity |]. by split.
    + rewrite bool_decide_eq_true_2 in Hr by naive_solver. rewrite bool_decide_eq_false_2 by naive_solver. m_inv.
      by apply sent_nothing.
  - rewrite bool_decide_eq_false_2 by done. m_cases; by apply sent_nothing.
  - rewrite bool_decide_eq_false_2 by done. m_inv. by apply sent_nothing.
Qed.

Lemma handle_dhcp_sent d u w w' d' data :
  typed_device d → wf_packet (Ipv4.eth_packet (Udp.ip_packet u)) →
  Dhcp.get (Dhcp.packet_new u) = Done data → handle_dhcp Q d u w = Done (w', d') →
  sent (request_for (lease_of d) data) d d'.
Proof.
  intros Hd Hw Hg Hr. unfold handle_dhcp in Hr. rewrite Hg in Hr.
  apply M_bind_done in Hr as (w1 & data' & [[= <-] ->]%lift_done & Hr).
  destruct (get_addresses (Dhcp.packet_new u) _ Hw Hg) as [Hy Hs]. unfold request_for, lease_of. cbn [snd].
  destruct Hd as [Hm Hi Hx Hq].
  destruct (dhcp (metadata d)) as [| c x | c x own server |] eqn:Ed; m_cases; try by apply sent_nothing.
  queued_frame.
  match goal with Hf : Dhcp.request_message _ _ _ _ _ = _ |- _ => apply request_carries in Hf as Hc; [| done ..] end.
  by eapply sent_one.
Qed.

Lemma handle_frame_sent d b buf w w' d' b' :
  typed_device d → Buffer.wf buf → handle_frame Q d b buf w = Done (w', (d', b')) →
  sent (reply_to (mac (metadata d)) (lease_of d) buf) d d'.
Proof.
  unfold handle_frame, reply_to, dhcp_of, question_of. intros Hd Hw Hr. m_inv.
  match goal with H1' : destination_mac _ = Done ?dst |- _ => rewrite H1'; rename dst into to end.
  assert (bool_decide (to = broadcast) || bool_decide (to = mac (metadata d))
    = negb (bool_decide (to ≠ broadcast) && bool_decide (to ≠ mac (metadata d)))) as ->
    by (repeat case_bool_decide; naive_solver).
  case_match; m_inv; cbn [negb]; [by apply sent_nothing |].
  match goal with H1' : ether_type _ = Done ?t |- _ => rewrite H1'; destruct t end;
    m_inv; try by apply sent_nothing.
  - match goal with H1' : Ipv4.header _ = Done _ |- _ => rewrite H1' end. case_match; m_inv; try by apply sent_nothing.
    + apply handle_icmp_device in Hr as ->. by apply sent_nothing.
    + unfold handle_udp in Hr. m_inv. match goal with H1' : Udp.header _ = Done _ |- _ => rewrite H1' end.
      case_match; m_inv.
      * match goal with Hu : handle_dhcp _ _ _ _ = Done _ |- _ => rename Hu into Hdh end.
        destruct (handle_dhcp_device _ _ _ _ _ Hdh) as (data & Hg & _). rewrite Hg. by eapply handle_dhcp_sent, Hdh.
      * destruct (Dhcp.get _); (repeat case_match; m_inv; by apply sent_nothing).
  - destruct (handle_arp_sent _ _ (Ethernet.packet_new buf) _ _ _ _ Hd Hw Hr) as (p & -> & Hs). by case_bool_decide.
Qed.

Lemma handle_packet_sent raw h w w' h' :
  distinct (devices h) → Forall typed_device (devices h) → Buffer.wf (raw_buffer raw) →
  handle_packet_ Q raw h w = Done (w', h') →
  Forall2 (λ d d', sent (frames_for d (lease_of d) (Packet raw)) d d') (devices h) (devices h').
Proof.
  unfold handle_packet_. intros Hn Ht Hw Hr. m_inv. destruct x0 as [i d]. m_inv.
  destruct (list_find _ _) as [[i' ?]|] eqn:Ef; simplify_eq/=. apply list_find_Some in Ef as (Hi & Hid & _).
  pose proof (Forall_lookup_1 _ _ _ _ Ht Hi) as Hd.
  match goal with Hf : handle_frame _ _ _ _ _ = Done (_, ?r) |- _ =>
    destruct r as [d' b']; apply handle_frame_sent in Hf as Hs; [| done ..] end.
  cbn [devices fst]. apply Forall2_same_length_lookup_2; [by rewrite length_insert |].
  intros j e e' Hj Hj'. cbn [frames_for]. destruct (decide (j = i)) as [-> | Hne].
  - rewrite list_lookup_insert_eq in Hj' by (by eapply lookup_lt_Some). simplify_eq.
    by rewrite bool_decide_eq_true_2.
  - rewrite list_lookup_insert_ne in Hj' by done. simplify_eq.
    rewrite bool_decide_eq_false_2; [by apply sent_nothing |].
    intros E. apply Hne. eapply NoDup_lookup; [exact Hn | ..]; rewrite list_lookup_fmap.
    + rewrite Hj. simpl. by rewrite <- E.
    + by rewrite Hi, <- Hid.
Qed.

Lemma send_arp_request_sent a d w w' d' :
  Arp.wf_ip a → typed_device d → send_arp_request Q a d w = Done (w', d') →
  sent [AskAddress (own_address (lease_of d)) a] d d'.
Proof.
  intros Ha Hd Hr. unfold send_arp_request in Hr. m_inv. pose proof (typed_own_ip d Hd) as Ho.
  queued_frame.
  match goal with Hf : Arp.finish _ = _ |- _ => apply arp_carries in Hf as (Hse & Hs & Hdm & Hp); [| | by left] end.
  2: { split_and!; cbn; try done; try apply Hd; try apply Ho; try (by vm_compute); repeat constructor; by vm_compute. }
  eapply sent_one; [reflexivity |]. by split.
Qed.

Lemma send_ping_sent a m d w w' d' :
  Arp.wf_ip a → wf_mac m → typed_device d → send_ping Q a m d w = Done (w', d') →
  sent [AskEcho (own_address (lease_of d)) a m] d d'.
Proof.
  intros Ha Hm Hd Hr. unfold send_ping in Hr. m_inv.
  queued_frame.
  match goal with Hf : Icmp.finish _ _ _ _ = _ |- _ => apply echo_carries in Hf; [| done ..] end.
  by eapply sent_one.
Qed.

Lemma handle_message_sent m h w w' h' :
  distinct (devices h) → Forall typed_device (devices h) → typed_message m →
  handle_message Q m h w = Done (w', h') →
  Forall2 (λ d d', sent (frames_for d (lease_of d) m) d d') (devices h) (devices h').
Proof.
  intros Hn Ht Hm Hr. destruct m as [raw | [a q | wk a mc c]]; cbn [handle_message handle_action] in Hr;
    [by eapply handle_packet_sent | |]; m_inv; cbn [devices frames_for].
  - eapply for_mut_sent; [| exact Ht | eassumption]. intros. by eapply send_arp_request_sent.
  - destruct Hm. eapply for_mut_sent; [| exact Ht | eassumption]. intros. by eapply send_ping_sent.
Qed.

(** ** Any sequence of messages *)

Lemma handle_messages_sent ms h w w' h' :
  distinct (devices h) → typed_handler h → typed_world w → Forall typed_message ms →
  handle_messages Q ms h w = Done (w', h') →
  Forall2 (λ d d', sent (frames d (lease_of d) ms) d d') (devices h) (devices h').
Proof.
  revert h w. induction ms as [| m ms IH]; intros h w Hn Ht Hw Hms Hr; cbn [handle_messages] in Hr.
  { m_inv. apply Forall_Forall2_diag, Forall_true. intros d. by apply sent_nothing. }
  apply Forall_cons_1 in Hms as [Hm Hms]. apply M_bind_done in Hr as (w1 & h1 & Hr1 & Hr).
  destruct (typed_handle_message m h Hm Ht _ _ _ Hw Hr1) as [Hw1 Ht1].
  pose proof (handle_message_devices _ _ _ _ _ Hn Hr1) as Hsteps.
  pose proof (handle_message_sent _ _ _ _ _ Hn (th_devices _ Ht) Hm Hr1) as Hsent.
  assert (distinct (devices h1)) as Hn1
    by (eapply Forall2_same_distinct; [| exact Hsteps | done]; by intros ? ? []).
  eapply Forall2_trans; [| exact (Forall2_both _ _ _ _ Hsteps Hsent) | exact (IH _ _ Hn1 Ht1 Hw1 Hms Hr)].
  intros d d1 d' [[Hs Hl] Hd1] Hd'. cbn [frames]. eapply sent_app; [apply Hs | exact Hd1 |].
  rewrite (frames_same d d1) in Hd' by done. by rewrite Hl in Hd'.
Qed.

Lemma init_device_sent d w w' d' :
  typed_device d → init_device Q d w = Done (w', d') → sent [AskLease tx_id] d d'.
Proof.
  intros Hd Hr. unfold init_device in Hr. apply M_bind_done in Hr as (w1 & c & [= <- <-] & Hr). m_inv. queued_frame.
  match goal with Hf : Dhcp.discover_message _ _ _ = _ |- _ =>
    apply discover_carries in Hf; [| apply Hd | by vm_compute] end.
  by eapply sent_one.
Qed.

(** ** The queues *)

Definition open_queue d : Prop := q_is_closed (sender_queue (packet_queue d)) = false.

Context `{!UnboundedQueue D}.

Lemma enqueue_all (q : PacketQueueSender D) es :
  q_is_closed (sender_queue q) = false →
  q_items (sender_queue (foldl sender_enqueue q es)) = q_items (sender_queue q) ++ es.
Proof.
  revert q. induction es as [| e es IH]; intros q Ho; cbn [foldl]; [by rewrite app_nil_r |].
  destruct (enqueue_open (sender_queue q) e Ho) as [Hi Hc]. rewrite IH by exact Hc. cbn. by rewrite Hi, <- app_assoc.
Qed.

(** C20: the frames the handler sends.  For any devices with distinct ids and
    any messages, as long as the task does not panic, each device's transmit
    queue grows by exactly the frames that the reference function [frames]
    prescribes, in this order: a DISCOVER at the start; for a received frame
    addressed to it, a REQUEST if it is an OFFER of the device's transaction
    while it waits for one, an ARP reply if it is an ARP request for the
    address the device has, and nothing otherwise; and an ARP request or an
    echo request, on every device, for each action of the API.  Each frame
    reads back as prescribed, and is short enough for the 16-bit length of a
    transmit descriptor. *)
Theorem network_handler_frames (ds : list (NetworkDevice D)) ms (w w' : World Q) h' :
  distinct ds → Forall typed_device ds → Forall open_queue ds → Forall typed_message ms → typed_world w →
  network_handler Q ds ms w = Done (w', h') →
  Forall2 (λ d d', ∃ c es,
      queued d' = queued d ++ es
      ∧ Forall2 (reads_as (mac (metadata d)))
          (AskLease tx_id :: frames d (ip (metadata d), Device.Discover c tx_id) ms) es
      ∧ Forall (λ e, cast 16 (buf_len (buffer e)) = buf_len (buffer e)) es)
    ds (devices h').
Proof.
  intros Hn Ht Ho Hms Hw Hr. unfold network_handler, init_handler in Hr.
  apply M_bind_done in Hr as (w1 & h1 & Hi & Hr). apply M_bind_done in Hi as (w2 & ds1 & Hi & Hh).
  injection Hh as -> <-. pose proof (init_devices_inv _ _ _ _ Hi) as Hinit.
  destruct (ensures_for_mut _ _ _ _ typed_init_device Ht _ _ _ Hw Hi) as [Hw1 Ht1].
  apply handle_messages_sent in Hr; cbn [devices] in *; [| | | exact Hw1 | done].
  2: { eapply Forall2_same_distinct; [| exact Hinit | done]. by intros ? ? []. }
  2: { split; [done |]. split; apply map_Forall_empty. }
  pose proof (for_mut_sent _ (λ _, [AskLease tx_id]) _ _ _ _ init_device_sent Ht Hi) as Hs1.
  pose proof (Forall2_and_l _ _ _ _ Ho (Forall2_both _ _ _ _ Hinit Hs1)) as Hall.
  eapply Forall2_trans; [| exact Hall | exact Hr].
  intros d d1 d' (Hop & (Hs & c & Hl) & Hd1) Hd'.
  rewrite (frames_same d d1), Hl in Hd' by done.
  destruct (sent_app _ _ _ _ _ (proj1 (proj2 (proj2 Hs))) Hd1 Hd') as (es & Hq & Hes). exists c, es. split_and!.
  - unfold queued. by rewrite Hq, enqueue_all.
  - eapply list.Forall2_impl; [exact Hes |]. by intros ? ? [].
  - eapply Forall2_Forall_r; [exact Hes |]. apply Forall_true. intros f e [_ [Hp Hb]].
    apply cast_small. destruct Hp as (_ & _ & Hp). unfold blen in Hb. unfold uint. change (2 ^ 16) with 65536. lia.
Qed.

End sends.

(** The handler of [Typed], which is asked for an address and then receives an
    ARP request for its own: it sends a DISCOVER, a question and an answer. *)
Module Sends.

Import HandlerSpec.Sample.

Definition start : NetworkDevice jiffy_queue := device (Some own_addr) Done_.

Example prescribed c :
  frames (B := debug_build) start (Some own_addr, Device.Discover c tx_id) Typed.messages
  = [AskAddress own_addr peer_addr; TellAddress own_addr peer_mac peer_addr].
Proof. vm_compute. reflexivity. Qed.

End Sends.

Lemma network_handler_frames_witness :
  ∃ d' es, devices Typed.final.2 = [d'] ∧ queued d' = es
    ∧ Forall2 (reads_as (B := debug_build) Sample.own_mac)
        [AskLease tx_id; AskAddress Sample.own_addr Sample.peer_addr;
         TellAddress Sample.own_addr Sample.peer_mac Sample.peer_addr] es.
Proof.
  pose proof (network_handler_frames (B := debug_build) [Sends.start] Typed.messages
    Sample.world Typed.final.1 Typed.final.2 ltac:(apply NoDup_singleton) Typed.typed_start
    ltac:(by apply Forall_singleton) Typed.typed_messages Typed.typed_world_start Typed.final_run) as Hf.
  apply Forall2_cons_inv_l in Hf as (d' & ds' & (c & es & Hq & Hr & _) & Hnil & Hds).
  apply Forall2_nil_inv_l in Hnil. rewrite Hnil in Hds. exists d', es. split; [exact Hds |]. split; [exact Hq |].
  change (ip (metadata Sends.start)) with (Some Sample.own_addr) in Hr. rewrite Sends.prescribed in Hr. exact Hr.
Defined.
