(* ===== verification/Regs.v ===== *)
(** * The registers of the E1000

    [src/src/hardware/device/e1000/regs.rs]: the control, status, interrupt
    mask and interrupt cause registers, as records of their fields and as the
    32-bit words the card exchanges. *)

From stdpp Require Import base tactics list numbers.
From Stdlib Require Import ZArith Lia Btauto.
From S2P Require Import Prelude.

Local Open Scope Z_scope.

(** [((raw >> n) & 0b01) != 0] *)
Definition bit (raw n : Z) : bool := negb (Z.land (Z.shiftr raw n) 1 =? 0).

(** [if b { result |= 1 << n; }] *)
Definition set_if (b : bool) (n result : Z) : Z := if b then Z.lor result (Z.shiftl 1 n) else result.

Module Ctrl.

Record CtrlRegister := {
  full_duplex : bool;
  master_disable : bool;
  speed_selection : Z;
  force_speed : bool;
  force_duplex : bool;
  lanphypc_override : bool;
  lanphypc_value : bool;
  lcd_power_down : bool;
  host_to_me_interrupt : bool;
  host_software_reset : bool;
  receive_flow_control_enable : bool;
  transmit_flow_control_enable : bool;
  vlan_mode_enable : bool;
  lan_connected_device_reset : bool }.

Definition ctrl_from (raw : Z) : CtrlRegister := {|
  full_duplex := bit raw 0;
  master_disable := bit raw 2;
  speed_selection := Z.land (Z.shiftr raw 8) 3;
  force_speed := bit raw 11;
  force_duplex := bit raw 12;
  lanphypc_override := bit raw 16;
  lanphypc_value := bit raw 17;
  lcd_power_down := bit raw 24;
  host_to_me_interrupt := bit raw 25;
  host_software_reset := bit raw 26;
  receive_flow_control_enable := bit raw 27;
  transmit_flow_control_enable := bit raw 28;
  vlan_mode_enable := bit raw 30;
  lan_connected_device_reset := bit raw 31 |}.

Definition ctrl_into (r : CtrlRegister) : Z :=
  let result := 0 in
  let result := set_if (full_duplex r) 0 result in
  let result := set_if (master_disable r) 2 result in
  let result := Z.lor result (shl_w 32 (speed_selection r) 8) in
  let result := set_if (force_speed r) 11 result in
  let result := set_if (force_duplex r) 12 result in
  let result := set_if (lanphypc_override r) 16 result in
  let result := set_if (lanphypc_value r) 17 result in
  let result := set_if (lcd_power_down r) 24 result in
  let result := set_if (host_to_me_interrupt r) 25 result in
  let result := set_if (host_software_reset r) 26 result in
  let result := set_if (receive_flow_control_enable r) 27 result in
  let result := set_if (transmit_flow_control_enable r) 28 result in
  let result := set_if (vlan_mode_enable r) 30 result in
  set_if (lan_connected_device_reset r) 31 result.

Definition ctrl_default : CtrlRegister := {|
  full_duplex := true; master_disable := false; speed_selection := 2; force_speed := false;
  force_duplex := false; lanphypc_override := false; lanphypc_value := false;
  lcd_power_down := false; host_to_me_interrupt := false; host_software_reset := false;
  receive_flow_control_enable := false; transmit_flow_control_enable := false;
  vlan_mode_enable := false; lan_connected_device_reset := false |}.

End Ctrl.

Module Status.

Record StatusRegister := {
  full_duplex : bool;
  link_up : bool;
  phy_type_indication : Z;
  transmition_paused : bool;
  phy_power_up : bool;
  link_speed : Z;
  master_read_completions_blocked : bool;
  lan_init_done : bool;
  phy_reset_asserted : bool;
  master_enable_status : bool;
  pcim_function_state : bool;
  clock_control_quarter : bool }.

Definition status_from (raw : Z) : StatusRegister := {|
  full_duplex := bit raw 0;
  link_up := bit raw 1;
  phy_type_indication := Z.land (Z.shiftr raw 2) 3;
  transmition_paused := bit raw 4;
  phy_power_up := negb (bit raw 5);
  link_speed := Z.land (Z.shiftr raw 6) 3;
  master_read_completions_blocked := bit raw 8;
  lan_init_done := bit raw 9;
  phy_reset_asserted := bit raw 10;
  master_enable_status := bit raw 19;
  pcim_function_state := bit raw 30;
  clock_control_quarter := bit raw 31 |}.

End Status.

Module IMask.

Record IMaskRegister := {
  txdw : bool;
  txqe : bool;
  lsc : bool;
  rxdmto : bool;
  dsw : bool;
  rxo : bool;
  rxto : bool;
  mdac : bool;
  phyint : bool;
  lsecpn : bool;
  txd_low : bool }.

Definition imask_from (raw : Z) : IMaskRegister := {|
  txdw := bit raw 0;
  txqe := bit raw 1;
  lsc := bit raw 2;
  rxdmto := bit raw 4;
  dsw := bit raw 5;
  rxo := bit raw 6;
  rxto := bit raw 7;
  mdac := bit raw 9;
  phyint := bit raw 12;
  lsecpn := bit raw 14;
  txd_low := bit raw 15 |}.

Definition imask_into (r : IMaskRegister) : Z :=
  let result := 0 in
  let result := set_if (txdw r) 0 result in
  let result := set_if (txqe r) 1 result in
  let result := set_if (lsc r) 2 result in
  let result := set_if (rxdmto r) 4 result in
  let result := set_if (dsw r) 5 result in
  let result := set_if (rxo r) 6 result in
  let result := set_if (rxto r) 7 result in
  let result := set_if (mdac r) 9 result in
  let result := set_if (phyint r) 12 result in
  let result := set_if (lsecpn r) 14 result in
  set_if (txd_low r) 15 result.

Definition imask_default : IMaskRegister := {|
  txdw := false; txqe := false; lsc := false; rxdmto := false; dsw := false; rxo := false;
  rxto := false; mdac := false; phyint := false; lsecpn := false; txd_low := false |}.

Definition set_txdw (r : IMaskRegister) (v : bool) : IMaskRegister := {|
  txdw := v; txqe := txqe r; lsc := lsc r; rxdmto := rxdmto r; dsw := dsw r; rxo := rxo r;
  rxto := rxto r; mdac := mdac r; phyint := phyint r; lsecpn := lsecpn r; txd_low := txd_low r |}.
Definition set_txqe (r : IMaskRegister) (v : bool) : IMaskRegister := {|
  txdw := txdw r; txqe := v; lsc := lsc r; rxdmto := rxdmto r; dsw := dsw r; rxo := rxo r;
  rxto := rxto r; mdac := mdac r; phyint := phyint r; lsecpn := lsecpn r; txd_low := txd_low r |}.
Definition set_lsc (r : IMaskRegister) (v : bool) : IMaskRegister := {|
  txdw := txdw r; txqe := txqe r; lsc := v; rxdmto := rxdmto r; dsw := dsw r; rxo := rxo r;
  rxto := rxto r; mdac := mdac r; phyint := phyint r; lsecpn := lsecpn r; txd_low := txd_low r |}.
Definition set_rxdmto (r : IMaskRegister) (v : bool) : IMaskRegister := {|
  txdw := txdw r; txqe := txqe r; lsc := lsc r; rxdmto := v; dsw := dsw r; rxo := rxo r;
  rxto := rxto r; mdac := mdac r; phyint := phyint r; lsecpn := lsecpn r; txd_low := txd_low r |}.
Definition set_dsw (r : IMaskRegister) (v : bool) : IMaskRegister := {|
  txdw := txdw r; txqe := txqe r; lsc := lsc r; rxdmto := rxdmto r; dsw := v; rxo := rxo r;
  rxto := rxto r; mdac := mdac r; phyint := phyint r; lsecpn := lsecpn r; txd_low := txd_low r |}.
Definition set_rxo (r : IMaskRegister) (v : bool) : IMaskRegister := {|
  txdw := txdw r; txqe := txqe r; lsc := lsc r; rxdmto := rxdmto r; dsw := dsw r; rxo := v;
  rxto := rxto r; mdac := mdac r; phyint := phyint r; lsecpn := lsecpn r; txd_low := txd_low r |}.
Definition set_rxto (r : IMaskRegister) (v : bool) : IMaskRegister := {|
  txdw := txdw r; txqe := txqe r; lsc := lsc r; rxdmto := rxdmto r; dsw := dsw r; rxo := rxo r;
  rxto := v; mdac := mdac r; phyint := phyint r; lsecpn := lsecpn r; txd_low := txd_low r |}.
Definition set_mdac (r : IMaskRegister) (v : bool) : IMaskRegister := {|
  txdw := txdw r; txqe := txqe r; lsc := lsc r; rxdmto := rxdmto r; dsw := dsw r; rxo := rxo r;
  rxto := rxto r; mdac := v; phyint := phyint r; lsecpn := lsecpn r; txd_low := txd_low r |}.
Definition set_phyint (r : IMaskRegister) (v : bool) : IMaskRegister := {|
  txdw := txdw r; txqe := txqe r; lsc := lsc r; rxdmto := rxdmto r; dsw := dsw r; rxo := rxo r;
  rxto := rxto r; mdac := mdac r; phyint := v; lsecpn := lsecpn r; txd_low := txd_low r |}.
Definition set_lsecpn (r : IMaskRegister) (v : bool) : IMaskRegister := {|
  txdw := txdw r; txqe := txqe r; lsc := lsc r; rxdmto := rxdmto r; dsw := dsw r; rxo := rxo r;
  rxto := rxto r; mdac := mdac r; phyint := phyint r; lsecpn := v; txd_low := txd_low r |}.
Definition set_txd_low (r : IMaskRegister) (v : bool) : IMaskRegister := {|
  txdw := txdw r; txqe := txqe r; lsc := lsc r; rxdmto := rxdmto r; dsw := dsw r; rxo := rxo r;
  rxto := rxto r; mdac := mdac r; phyint := phyint r; lsecpn := lsecpn r; txd_low := v |}.

End IMask.

Module Cause.

Record InterruptCauseRegister := {
  txdw : bool;
  txqe : bool;
  lsc : bool;
  rxdmt : bool;
  dsw : bool;
  rxo : bool;
  rxt : bool;
  txd_low : bool;
  int_asserted : bool }.

Definition cause_from (raw : Z) : InterruptCauseRegister := {|
  txdw := bit raw 0;
  txqe := bit raw 1;
  lsc := bit raw 2;
  rxdmt := bit raw 4;
  dsw := bit raw 5;
  rxo := bit raw 6;
  rxt := bit raw 7;
  txd_low := bit raw 15;
  int_asserted := bit raw 31 |}.

Definition cause_into (r : InterruptCauseRegister) : Z :=
  let result := 0 in
  let result := set_if (txdw r) 0 result in
  let result := set_if (txqe r) 1 result in
  let result := set_if (lsc r) 2 result in
  let result := set_if (rxdmt r) 4 result in
  let result := set_if (dsw r) 5 result in
  let result := set_if (rxo r) 6 result in
  let result := set_if (rxt r) 7 result in
  let result := set_if (txd_low r) 15 result in
  set_if (int_asserted r) 31 result.

Definition cause_default : InterruptCauseRegister := {|
  txdw := false; txqe := false; lsc := false; rxdmt := false; dsw := false; rxo := false;
  rxt := false; txd_low := false; int_asserted := false |}.

Definition cause_set_txdw (r : InterruptCauseRegister) (v : bool) : InterruptCauseRegister := {|
  txdw := v; txqe := txqe r; lsc := lsc r; rxdmt := rxdmt r; dsw := dsw r; rxo := rxo r;
  rxt := rxt r; txd_low := txd_low r; int_asserted := int_asserted r |}.
Definition cause_set_txqe (r : InterruptCauseRegister) (v : bool) : InterruptCauseRegister := {|
  txdw := txdw r; txqe := v; lsc := lsc r; rxdmt := rxdmt r; dsw := dsw r; rxo := rxo r;
  rxt := rxt r; txd_low := txd_low r; int_asserted := int_asserted r |}.
Definition cause_set_txd_low (r : InterruptCauseRegister) (v : bool) : InterruptCauseRegister := {|
  txdw := txdw r; txqe := txqe r; lsc := lsc r; rxdmt := rxdmt r; dsw := dsw r; rxo := rxo r;
  rxt := rxt r; txd_low := v; int_asserted := int_asserted r |}.
Definition cause_set_asserted (r : InterruptCauseRegister) (v : bool) : InterruptCauseRegister := {|
  txdw := txdw r; txqe := txqe r; lsc := lsc r; rxdmt := rxdmt r; dsw := dsw r; rxo := rxo r;
  rxt := rxt r; txd_low := txd_low r; int_asserted := v |}.

End Cause.

Import Ctrl Status IMask Cause.

(** ** Proofs *)

Lemma bit_testbit raw n : 0 ≤ n → bit raw n = Z.testbit raw n.
Proof.
  intros Hn. unfold bit. change 1 with (Z.ones 1). rewrite Z.land_ones, Z.pow_1_r by lia.
  rewrite <- Z.bit0_mod, Z.shiftr_spec, Z.add_0_l by lia. by destruct (Z.testbit raw n).
Qed.

Lemma testbit_set_if b n result k :
  0 ≤ n → 0 ≤ k → Z.testbit (set_if b n result) k = (Z.testbit result k || (b && (k =? n)))%bool.
Proof.
  intros Hn Hk. unfold set_if. destruct b; simpl; [| by rewrite orb_false_r].
  rewrite Z.lor_spec, Z.shiftl_1_l, Z.pow2_bits_eqb by lia. by rewrite (Z.eqb_sym n k).
Qed.

(** The bits a register has. *)
Definition mask_of (ns : list Z) : Z := foldr (λ n m, Z.lor (Z.shiftl 1 n) m) 0 ns.

Lemma testbit_mask_of ns k :
  0 ≤ k → Forall (λ n, 0 ≤ n) ns → Z.testbit (mask_of ns) k = existsb (Z.eqb k) ns.
Proof.
  intros Hk Hns. induction Hns as [| n ns Hn Hns IH]; simpl; [apply Z.testbit_0_l |].
  rewrite Z.lor_spec, Z.shiftl_1_l, Z.pow2_bits_eqb, IH by lia. by rewrite (Z.eqb_sym n k).
Qed.

Definition ctrl_bits : list Z := [0; 2; 8; 9; 11; 12; 16; 17; 24; 25; 26; 27; 28; 30; 31].
Definition imask_bits : list Z := [0; 1; 2; 4; 5; 6; 7; 9; 12; 14; 15].
Definition cause_bits : list Z := [0; 1; 2; 4; 5; 6; 7; 15; 31].

(** Read the bits of a register built with [set_if]. *)
Ltac reg_bits :=
  rewrite ?bit_testbit by lia;
  rewrite ?testbit_set_if by lia;
  rewrite ?Z.testbit_0_l.

Lemma bit_at raw n k : 0 ≤ n → (bit raw n && (k =? n))%bool = (Z.testbit raw k && (k =? n))%bool.
Proof. intros Hn. destruct (Z.eqb_spec k n) as [-> |]; [by rewrite bit_testbit | by rewrite !andb_false_r]. Qed.

Lemma testbit_speed s k :
  uint 2 s → 0 ≤ k →
  Z.testbit (shl_w 32 s 8) k
  = ((Z.testbit s 0 && (k =? 8)) || (Z.testbit s 1 && (k =? 9)))%bool.
Proof.
  intros Hs Hk. unfold shl_w. rewrite cast_small.
  2: { unfold uint in *. rewrite Z.shiftl_mul_pow2 by lia. lia. }
  rewrite Z.shiftl_spec by lia.
  destruct (Z.eqb_spec k 8) as [-> |]; [by rewrite andb_true_r, andb_false_r, orb_false_r |].
  destruct (Z.eqb_spec k 9) as [-> |]; [by rewrite andb_true_r, andb_false_r |].
  rewrite !andb_false_r.
  destruct (Z.ltb_spec k 8); [apply Z.testbit_neg_r; lia |].
  apply (uint_testbit 2); [done | lia].
Qed.

(** The interrupt mask register.  Every register value survives the trip
    to the word the card gets and back, and a word read from the card loses
    exactly the bits the record does not have. *)
Lemma imask_roundtrip (r : IMaskRegister) (raw : Z) :
  imask_from (imask_into r) = r
  ∧ imask_into (imask_from raw) = Z.land raw (mask_of imask_bits).
Proof.
  split.
  - unfold imask_from, imask_into. reg_bits. cbn [Z.eqb Pos.eqb]. destruct r; simpl.
    by rewrite ?andb_false_r, ?andb_true_r, ?orb_false_r.
  - apply Z.bits_inj'. intros k Hk. unfold imask_into, imask_from. cbn [txdw txqe lsc rxdmto dsw rxo
      rxto mdac phyint lsecpn txd_low IMask.txdw IMask.txqe IMask.lsc IMask.rxdmto IMask.dsw
      IMask.rxo IMask.rxto IMask.mdac IMask.phyint IMask.lsecpn IMask.txd_low].
    rewrite Z.land_spec, testbit_mask_of by (done || by repeat constructor).
    rewrite !testbit_set_if, !bit_at, Z.testbit_0_l by lia. unfold imask_bits. cbn [existsb].
    btauto.
Qed.

(** The interrupt cause register, in the same sense.  The word that requests
    a transmit interrupt ([E1000Card::init]) reads back as that cause alone. *)
Lemma cause_roundtrip (r : InterruptCauseRegister) (raw : Z) :
  cause_from (cause_into r) = r
  ∧ cause_into (cause_from raw) = Z.land raw (mask_of cause_bits)
  ∧ cause_into (cause_set_asserted (cause_set_txd_low cause_default true) false) = 2 ^ 15.
Proof.
  split_and!; [| | done].
  - unfold cause_from, cause_into. reg_bits. cbn [Z.eqb Pos.eqb]. destruct r; simpl.
    by rewrite ?andb_false_r, ?andb_true_r, ?orb_false_r.
  - apply Z.bits_inj'. intros k Hk. unfold cause_into, cause_from. cbn [Cause.txdw Cause.txqe
      Cause.lsc Cause.rxdmt Cause.dsw Cause.rxo Cause.rxt Cause.txd_low Cause.int_asserted].
    rewrite Z.land_spec, testbit_mask_of by (done || by repeat constructor).
    rewrite !testbit_set_if, !bit_at, Z.testbit_0_l by lia. unfold cause_bits. cbn [existsb].
    btauto.
Qed.

Lemma speed_of_raw raw : uint 2 (Z.land (Z.shiftr raw 8) 3).
Proof. apply uint_land; [lia | by vm_compute]. Qed.

(** The control register.  A register whose speed selection fits its two
    bits survives the round trip, and a word read from the card loses exactly
    the bits the record does not have. *)
Lemma ctrl_roundtrip (r : CtrlRegister) (raw : Z) :
  (uint 2 (speed_selection r) → ctrl_from (ctrl_into r) = r)
  ∧ ctrl_into (ctrl_from raw) = Z.land raw (mask_of ctrl_bits).
Proof.
  split.
  - intros Hs. assert (∀ k, 0 ≤ k → Z.testbit (shl_w 32 (speed_selection r) 8) k
      = ((Z.testbit (speed_selection r) 0 && (k =? 8))
         || (Z.testbit (speed_selection r) 1 && (k =? 9)))%bool) as Hsp
      by (intros; by apply testbit_speed).
    assert (Z.land (Z.shiftr (ctrl_into r) 8) 3 = speed_selection r) as E.
    { apply Z.bits_inj'. intros k Hk. rewrite Z.land_spec, Z.shiftr_spec by lia.
      destruct (decide (k = 0)) as [-> |]; [| destruct (decide (k = 1)) as [-> |]].
      1-2: unfold ctrl_into; reg_bits; rewrite Z.lor_spec, Hsp by lia; reg_bits;
        first [change (Z.testbit 3 0) with true | change (Z.testbit 3 1) with true];
        cbn [Z.add Z.eqb Pos.eqb Pos.add Pos.succ].
      1-2: by rewrite ?andb_false_r, ?andb_true_r, ?orb_false_r.
      rewrite (uint_testbit 2 3 k) by (solve [by vm_compute] || lia).
      rewrite (uint_testbit 2 (speed_selection r) k) by (done || lia). apply andb_false_r. }
    unfold ctrl_from. rewrite E. unfold ctrl_into. reg_bits. rewrite !Z.lor_spec, !Hsp by lia.
    reg_bits. cbn [Z.eqb Pos.eqb]. clear. destruct r; simpl.
    by rewrite ?andb_false_r, ?andb_true_r, ?orb_false_r.
  - apply Z.bits_inj'. intros k Hk. unfold ctrl_into, ctrl_from. cbn [Ctrl.full_duplex
      master_disable speed_selection force_speed force_duplex lanphypc_override lanphypc_value
      lcd_power_down host_to_me_interrupt host_software_reset receive_flow_control_enable
      transmit_flow_control_enable vlan_mode_enable lan_connected_device_reset].
    rewrite Z.land_spec, testbit_mask_of by (done || by repeat constructor).
    rewrite !testbit_set_if, Z.lor_spec, testbit_speed, !testbit_set_if by (lia || apply speed_of_raw).
    rewrite !bit_at, !Z.land_spec, !Z.shiftr_spec, Z.testbit_0_l by lia. unfold ctrl_bits.
    cbn [existsb Z.add]. rewrite !andb_true_r.
    assert (∀ n, (Z.testbit raw n && (k =? n))%bool = (Z.testbit raw k && (k =? n))%bool) as En.
    { intros n. by destruct (Z.eqb_spec k n) as [-> |]; rewrite ?andb_true_r, ?andb_false_r. }
    change (0 + 8) with 8. change (1 + 8) with 9. rewrite !En. clear. btauto.
Qed.

(** C40: the card's registers.  Writing a control, interrupt mask or interrupt
    cause register and reading it back gives the same fields (a speed
    selection that fits its two bits, for the control register), and reading a
    word from the card and writing it back keeps exactly the bits the record
    has; the word with which [E1000Card::init] requests a transmit interrupt
    is that cause alone. *)
Theorem registers_roundtrip (ctrl : CtrlRegister) (imask : IMaskRegister) (cause : InterruptCauseRegister) (raw : Z) :
  ((uint 2 (speed_selection ctrl) → ctrl_from (ctrl_into ctrl) = ctrl)
    ∧ imask_from (imask_into imask) = imask ∧ cause_from (cause_into cause) = cause)
  ∧ (ctrl_into (ctrl_from raw) = Z.land raw (mask_of ctrl_bits)
    ∧ imask_into (imask_from raw) = Z.land raw (mask_of imask_bits)
    ∧ cause_into (cause_from raw) = Z.land raw (mask_of cause_bits))
  ∧ cause_into (cause_set_asserted (cause_set_txd_low cause_default true) false) = 2 ^ 15.
Proof.
  destruct (ctrl_roundtrip ctrl raw), (imask_roundtrip imask raw), (cause_roundtrip cause raw) as (? & ? & ?).
  by split_and!.
Qed.
