(* ===== verification/Pci.v ===== *)
(** * PCI configuration

    [src/src/hardware/pci.rs]: configuration addresses, reads of the
    configuration space through the two I/O ports, base address registers,
    loading a device header and the scan over all buses.

    The ports are the [x86_64] crate's and the hardware's: an interface with
    the documented behaviour of configuration mechanism 1 (a dword written to
    [CONFIG_ADDRESS] selects the register that [CONFIG_DATA] then accesses). *)

From stdpp Require Import base tactics list gmap numbers.
From Stdlib Require Import ZArith Lia.
From S2P Require Import Prelude Queue.

Local Open Scope Z_scope.

Class PortOps (H : Type) := {
  port_write : H → Z → Z → H;
  port_read : H → Z → H * Z }.

Definition PCI_COMMAND : Z := 0x4.
Definition CONFIG_ADDRESS : Z := 0xCF8.
Definition CONFIG_DATA : Z := 0xCFC.

(** The configuration space behind the ports. *)
Class PciHost (H : Type) `{PortOps H} := {
  config : H → Z → Z;
  selected : H → Z;
  select_spec : ∀ h a,
    config (port_write h CONFIG_ADDRESS a) = config h
    ∧ selected (port_write h CONFIG_ADDRESS a) = a;
  read_spec : ∀ h,
    (port_read h CONFIG_DATA).2 = config h (selected h)
    ∧ config (port_read h CONFIG_DATA).1 = config h
    ∧ selected (port_read h CONFIG_DATA).1 = selected h;
  write_spec : ∀ h v a, uint 32 v →
    config (port_write h CONFIG_DATA v) a = if a =? selected h then v else config h a;
  config_uint : ∀ h a, uint 32 (config h a) }.

(** ** Headers *)

Definition address (bus slot func offset : Z) : Z :=
  Z.lor (Z.lor (Z.lor (Z.lor (shl_w 32 bus 16) (shl_w 32 slot 11)) (shl_w 32 func 8))
    (Z.land offset 0xFC)) 0x80000000.

Inductive BaseAddressRegister :=
  | MemorySpace (address : Z) (prefetchable : bool) (ty : Z)
  | IOSpace (address : Z).

(** [impl From<u32> for BaseAddressRegister] *)
Definition bar_from (raw : Z) : outcome BaseAddressRegister :=
  if Z.land raw 0x1 =? 0 then
    let address := Z.land raw 0xfffffff0 in
    let raw_ty := Z.land raw 6 in
    let prefetchable := Z.land raw 8 =? 1 in
    Done (MemorySpace address prefetchable (cast 8 raw_ty))
  else if Z.land raw 0x1 =? 1 then Done (IOSpace (Z.land raw 0xfffffffc))
  else Panicked Unreachable.

Inductive HeaderType :=
  | Generic (base_addresses : list BaseAddressRegister) (cardbus_cis_pointer interrupt_line : Z)
  | UnknownHeader (ty : Z).

Inductive NetworkContollerClass := NetEthernet | NetUnknown (subclass : Z).
Inductive DisplayControllerClass := VGACompatible | DisplayUnknown (subclass : Z).
Inductive DeviceClass :=
  | NetworkController (c : NetworkContollerClass)
  | DisplayController (c : DisplayControllerClass)
  | UnknownClass (class subclass : Z).

Record GenericHeader := {
  hdr_id : Z;
  vendor_id : Z;
  status : Z;
  command : Z;
  class : DeviceClass;
  revision_id : Z;
  bist : Z;
  latency_timer : Z;
  cache_line_size : Z }.

Record Device := {
  bus : Z;
  slot : Z;
  func : Z;
  generic : GenericHeader;
  header_type : HeaderType }.

Definition device_class (baseclass subclass : Z) : DeviceClass :=
  if baseclass =? 2 then
    NetworkController (if subclass =? 0 then NetEthernet else NetUnknown subclass)
  else if baseclass =? 3 then
    DisplayController (if subclass =? 0 then VGACompatible else DisplayUnknown subclass)
  else UnknownClass baseclass subclass.

(** ** Access to the configuration space *)

Section access.
Context {H : Type} `{PortOps H}.

Definition outport (port v : Z) : M H unit := modify (fun h => port_write h port v).
Definition inport (port : Z) : M H Z := fun h => let '(h, v) := port_read h port in Done (h, v).

Definition read_32bit (bus slot func offset : Z) : M H Z :=
  _ ← outport CONFIG_ADDRESS (address bus slot func offset);
  inport CONFIG_DATA.

Definition read_word (bus slot func offset : Z) : M H Z :=
  _ ← outport CONFIG_ADDRESS (address bus slot func offset);
  raw_result ← inport CONFIG_DATA;
  mret (cast 16 (Z.land (Z.shiftr raw_result (Z.land offset 2 * 8)) 0xffff)).

Definition enable_bus_mastering (d : Device) : M H unit :=
  _ ← outport CONFIG_ADDRESS (address (bus d) (slot d) (func d) PCI_COMMAND);
  previous ← inport CONFIG_DATA;
  outport CONFIG_DATA (Z.lor previous (Z.shiftl 1 2)).

Definition read_bar (bus device function offset : Z) : M H BaseAddressRegister :=
  raw ← read_32bit bus device function offset;
  lift (bar_from raw).

Definition load_header_type (bus device function raw_header_type : Z) : M H HeaderType :=
  if raw_header_type =? 0 then
    b0 ← read_bar bus device function 0x10;
    b1 ← read_bar bus device function 0x14;
    b2 ← read_bar bus device function 0x18;
    b3 ← read_bar bus device function 0x1C;
    b4 ← read_bar bus device function 0x20;
    b5 ← read_bar bus device function 0x24;
    cis_pointer ← read_32bit bus device function 0x28;
    last_line ← read_32bit bus device function 0x3c;
    mret (Generic [b0; b1; b2; b3; b4; b5] cis_pointer (cast 8 (Z.land last_line 0xff)))
  else mret (UnknownHeader raw_header_type).

Definition load_device (bus device : Z) : M H (option Device) :=
  let function := 0 in
  vendorid ← read_word bus device function 0x0;
  if vendorid =? 0xffff then mret None else
  device_id ← read_word bus device function 0x2;
  second_row ← read_32bit bus device function 0x4;
  third_line ← read_32bit bus device function 0x8;
  fourth_line ← read_32bit bus device function 0xc;
  let baseclass := cast 8 (Z.shiftr third_line 24) in
  let subclass := cast 8 (Z.land (Z.shiftr third_line 16) 0xff) in
  let raw_header_type := cast 8 (Z.land (Z.shiftr fourth_line 16) 0xff) in
  header_type ← load_header_type bus device function raw_header_type;
  mret (Some {|
    bus := bus;
    slot := device;
    func := function;
    generic := {|
      hdr_id := device_id;
      vendor_id := vendorid;
      status := cast 16 (Z.shiftr second_row 16);
      command := cast 16 (Z.land second_row 0xffff);
      class := device_class baseclass subclass;
      revision_id := cast 8 (Z.land third_line 0xff);
      bist := cast 8 (Z.shiftr fourth_line 24);
      latency_timer := cast 8 (Z.land (Z.shiftr fourth_line 8) 0xff);
      cache_line_size := cast 8 (Z.land fourth_line 0xff) |};
    header_type := header_type |}).

(** [(0..255).flat_map(|bus| (0..32).map(move |device| (bus, device)))] *)
Definition slots : list (Z * Z) :=
  b ← seqZ 0 255; d ← seqZ 0 32; [(b, d)].

Fixpoint load_all (l : list (Z * Z)) : M H (list Device) :=
  match l with
  | [] => mret []
  | (b, s) :: l =>
      d ← load_device b s;
      ds ← load_all l;
      mret (match d with Some d => d :: ds | None => ds end)
  end.

(** The iterator of [bruteforce], run to its end. *)
Definition bruteforce : M H (list Device) := load_all slots.

End access.

(** ** The configuration space as PCI lays it out *)

Section layout.
Context (cfg : Z → Z) (b s : Z).

Definition cfg_dword (off : Z) : Z := cfg (address b s 0 off).
Definition cfg_byte (off : Z) : Z := cfg_dword off / 256 ^ (off mod 4) mod 256.
Definition cfg_word (off : Z) : Z := cfg_dword off / 256 ^ (off mod 4) mod 65536.

(** Bit 0 of a base address register tells I/O from memory space; the type is
    in bits 1 and 2 (the source keeps it in place). *)
Definition cfg_bar (off : Z) : BaseAddressRegister :=
  let raw := cfg_dword off in
  if Z.odd raw then IOSpace (raw / 4 * 4)
  else MemorySpace (raw / 16 * 16) false (raw / 2 mod 4 * 2).

Definition device_at : option Device :=
  if cfg_word 0 =? 0xffff then None else Some {|
    bus := b; slot := s; func := 0;
    generic := {|
      hdr_id := cfg_word 2; vendor_id := cfg_word 0;
      status := cfg_word 6; command := cfg_word 4;
      class := device_class (cfg_byte 0xb) (cfg_byte 0xa);
      revision_id := cfg_byte 8; bist := cfg_byte 0xf;
      latency_timer := cfg_byte 0xd; cache_line_size := cfg_byte 0xc |};
    header_type :=
      if cfg_byte 0xe =? 0 then
        Generic (map cfg_bar [0x10; 0x14; 0x18; 0x1c; 0x20; 0x24]) (cfg_dword 0x28) (cfg_byte 0x3c)
      else UnknownHeader (cfg_byte 0xe) |}.

End layout.

(** ** Proofs *)

Lemma land_low a n : 0 ≤ n → Z.land a (2 ^ n - 1) = a mod 2 ^ n.
Proof. intros. rewrite <- Z.land_ones by lia. by rewrite Z.ones_equiv, Z.sub_1_r. Qed.

Lemma land_high a n w :
  0 ≤ n ≤ w → uint w a → Z.land a (2 ^ w - 2 ^ n) = a / 2 ^ n * 2 ^ n.
Proof.
  intros Hn Ha. replace (2 ^ w - 2 ^ n) with (Z.shiftl (Z.ones (w - n)) n).
  2: { rewrite Z.shiftl_mul_pow2, Z.ones_equiv by lia.
       replace (2 ^ w) with (2 ^ (w - n) * 2 ^ n); [lia |].
       rewrite <- Z.pow_add_r by lia. f_equal. lia. }
  rewrite <- Z.shiftr_div_pow2, <- Z.shiftl_mul_pow2 by lia. apply Z.bits_inj'. intros k Hk.
  rewrite Z.land_spec, !Z.shiftl_spec by lia.
  destruct (Z.ltb_spec k n); [rewrite !(Z.testbit_neg_r _ (k - n)) by lia; apply andb_false_r |].
  rewrite Z.shiftr_spec by lia. replace (k - n + n) with k by lia.
  destruct (Z.ltb_spec k w).
  - rewrite Z.ones_spec_low by lia. apply andb_true_r.
  - by rewrite (uint_testbit w a k) by (done || lia).
Qed.

Lemma land_bit_eqb a : (Z.land a 1 =? 0) = negb (Z.odd a).
Proof.
  change 1 with (2 ^ 1 - 1) at 1. rewrite land_low, Z.pow_1_r, Zmod_odd by lia. by destruct (Z.odd a).
Qed.

Lemma bar_from_spec raw :
  uint 32 raw →
  bar_from raw = Done (if Z.odd raw then IOSpace (raw / 4 * 4)
                       else MemorySpace (raw / 16 * 16) false (raw / 2 mod 4 * 2)).
Proof.
  intros Hr. unfold bar_from. rewrite land_bit_eqb. destruct (Z.odd raw) eqn:Ho; cbn [negb].
  - replace (Z.land raw 1) with 1; [cbn [Z.eqb Pos.eqb] |].
    + do 2 f_equal. apply (land_high raw 2 32); [lia | done].
    + change 1 with (2 ^ 1 - 1) at 2. rewrite land_low, Z.pow_1_r, Zmod_odd, Ho by lia. done.
  - change 0xfffffff0 with (2 ^ 32 - 2 ^ 4). rewrite land_high by (lia || done).
    assert (Z.land raw 8 =? 1 = false) as ->.
    { apply Z.eqb_neq. intros E. apply (f_equal (fun z => Z.testbit z 0)) in E.
      rewrite Z.land_spec in E. simpl in E. by rewrite andb_false_r in E. }
    assert (Z.land raw 6 = raw / 2 mod 4 * 2) as ->.
    { replace (raw / 2 mod 4 * 2) with (Z.shiftl (Z.land (Z.shiftr raw 1) (2 ^ 2 - 1)) 1)
        by (rewrite land_low, Z.shiftl_mul_pow2, Z.shiftr_div_pow2 by lia; done).
      change 6 with (Z.shiftl (2 ^ 2 - 1) 1).
      apply Z.bits_inj'. intros k Hk. rewrite Z.land_spec, !Z.shiftl_spec by lia.
      destruct (Z.ltb_spec k 1); [rewrite !(Z.testbit_neg_r _ (k - 1)) by lia; apply andb_false_r |].
      rewrite Z.land_spec, Z.shiftr_spec by lia. by replace (k - 1 + 1) with k by lia. }
    rewrite cast_small; [done |]. unfold uint. pose proof (Z.mod_pos_bound (raw / 2) 4). lia.
Qed.

(** The bytes and words of a dword, as the code takes them out. *)
Lemma byte_field x k : 0 ≤ k → cast 8 (Z.land (Z.shiftr x k) 0xff) = x / 2 ^ k mod 256.
Proof.
  intros. change 0xff with (2 ^ 8 - 1). rewrite land_low, Z.shiftr_div_pow2 by lia.
  unfold cast. by rewrite Z.mod_mod.
Qed.

Lemma byte0_field x : cast 8 (Z.land x 0xff) = x / 1 mod 256.
Proof. change 0xff with (2 ^ 8 - 1). rewrite land_low, Z.div_1_r by lia. unfold cast. by rewrite Z.mod_mod. Qed.

Lemma top_byte_field x : cast 8 (Z.shiftr x 24) = x / 2 ^ 24 mod 256.
Proof. by rewrite Z.shiftr_div_pow2. Qed.

Lemma word0_field x : cast 16 (Z.land x 0xffff) = x / 1 mod 65536.
Proof. change 0xffff with (2 ^ 16 - 1). rewrite land_low, Z.div_1_r by lia. unfold cast. by rewrite Z.mod_mod. Qed.

Lemma top_word_field x : cast 16 (Z.shiftr x 16) = x / 2 ^ 16 mod 65536.
Proof. by rewrite Z.shiftr_div_pow2. Qed.

(** Fields that do not overlap add up. *)
Lemma lor_add a b n : 0 ≤ n → 0 ≤ b < 2 ^ n → Z.lor (a * 2 ^ n) b = a * 2 ^ n + b.
Proof.
  intros Hn Hb. rewrite <- Z.add_lor_land.
  assert (Z.land (a * 2 ^ n) b = 0) as ->; [| lia].
  apply Z.bits_inj'. intros k Hk. rewrite Z.land_spec, Z.testbit_0_l.
  destruct (Z.ltb_spec k n); [by rewrite Z.mul_pow2_bits_low by lia |].
  rewrite (uint_testbit n b k) by (done || lia). apply andb_false_r.
Qed.

Lemma address_sum b s f off :
  uint 8 b → uint 5 s → uint 3 f → uint 8 off →
  address b s f off = 2 ^ 31 + b * 2 ^ 16 + s * 2 ^ 11 + f * 2 ^ 8 + off / 4 * 4.
Proof.
  intros Hb Hs Hf Ho. unfold address, shl_w. rewrite !Z.shiftl_mul_pow2 by lia.
  rewrite (land_high off 2 8 ltac:(lia) Ho : Z.land off 0xFC = _).
  unfold uint in *. assert (0 ≤ off / 2 ^ 2 * 2 ^ 2 < 2 ^ 8) as Hq.
  { pose proof (Z.div_mod off (2 ^ 2) ltac:(lia)). pose proof (Z.mod_pos_bound off (2 ^ 2)). lia. }
  rewrite !cast_small by (unfold uint; simpl Z.pow in *; lia).
  change (off / 2 ^ 2 * 2 ^ 2) with (off / 4 * 4) in *.
  rewrite (lor_add b (s * 2 ^ 11) 16) by lia.
  replace (b * 2 ^ 16 + s * 2 ^ 11) with ((b * 2 ^ 5 + s) * 2 ^ 11) by lia.
  rewrite (lor_add _ (f * 2 ^ 8) 11) by lia.
  replace ((b * 2 ^ 5 + s) * 2 ^ 11 + f * 2 ^ 8) with (((b * 2 ^ 5 + s) * 2 ^ 3 + f) * 2 ^ 8) by lia.
  rewrite (lor_add _ (off / 4 * 4) 8) by lia.
  rewrite Z.lor_comm. change 0x80000000 with (1 * 2 ^ 31). rewrite lor_add by lia. lia.
Qed.

Section host.
Context {H : Type} `{PciHost H}.

Lemma read_32bit_run b s off h :
  ∃ h', read_32bit b s 0 off h = Done (h', cfg_dword (config h) b s off) ∧ config h' = config h.
Proof.
  unfold read_32bit. rewrite (M_bind_run _ _ _ _ _ eq_refl). unfold inport.
  set (h1 := port_write _ _ _).
  destruct (select_spec h (address b s 0 off)) as [Hc Hs].
  fold h1 in Hc, Hs. destruct (read_spec h1) as (Hv & Hc1 & _).
  destruct (port_read h1 CONFIG_DATA) as [h2 v]. simpl in *. exists h2. subst v.
  unfold cfg_dword. by rewrite Hs, Hc1, Hc.
Qed.

Lemma read_word_run b s off h :
  off mod 4 = 0 ∨ off mod 4 = 2 → Z.land off 2 = off mod 4 →
  ∃ h', read_word b s 0 off h = Done (h', cfg_word (config h) b s off) ∧ config h' = config h.
Proof.
  intros Hoff El. destruct (read_32bit_run b s off h) as (h' & Hr & Hc). exists h'. split; [| done].
  unfold read_32bit in Hr. unfold read_word.
  apply M_bind_done in Hr as (h1 & ? & Hsel & Hr). erewrite M_bind_run by exact Hsel.
  rewrite (M_bind_run _ _ _ _ _ Hr). unfold mret, M_ret. do 2 f_equal.
  rewrite El. change 0xffff with (2 ^ 16 - 1). rewrite land_low by lia.
  unfold cast. rewrite Z.mod_mod by lia. unfold cfg_word.
  rewrite Z.shiftr_div_pow2 by (destruct Hoff as [-> | ->]; lia).
  by destruct Hoff as [-> | ->].
Qed.

Lemma read_bar_run b s off h :
  ∃ h', read_bar b s 0 off h = Done (h', cfg_bar (config h) b s off) ∧ config h' = config h.
Proof.
  destruct (read_32bit_run b s off h) as (h' & Hr & Hc). exists h'. split; [| done].
  unfold read_bar. rewrite (M_bind_run _ _ _ _ _ Hr), bar_from_spec by apply config_uint. done.
Qed.

(** Run the next configuration read; the space does not change. *)
Ltac cfg_step lem :=
  match goal with
  | |- ∃ h', mbind _ ?m ?h = _ ∧ _ =>
      let h1 := fresh "h" in let Hr := fresh "Hr" in let Hc := fresh "Hc" in
      destruct (lem h) as (h1 & Hr & Hc);
      try match goal with E : config h = config _ |- _ => rewrite E in Hr, Hc; clear E end;
      rewrite (M_bind_run _ _ _ _ _ Hr); clear Hr
  end.

Ltac cfg_done :=
  match goal with
  | |- ∃ h', mret ?v ?h1 = _ ∧ _ =>
      exists h1; split; [unfold mret, M_ret; do 2 f_equal | assumption]
  end.

Lemma load_header_type_run b s ty h :
  ∃ h', load_header_type b s 0 ty h
        = Done (h', if ty =? 0 then
            Generic (map (cfg_bar (config h) b s) [0x10; 0x14; 0x18; 0x1c; 0x20; 0x24])
              (cfg_dword (config h) b s 0x28) (cfg_byte (config h) b s 0x3c)
          else UnknownHeader ty)
    ∧ config h' = config h.
Proof.
  unfold load_header_type. destruct (ty =? 0); [| by exists h].
  cfg_step (read_bar_run b s 0x10). cfg_step (read_bar_run b s 0x14).
  cfg_step (read_bar_run b s 0x18). cfg_step (read_bar_run b s 0x1c).
  cfg_step (read_bar_run b s 0x20). cfg_step (read_bar_run b s 0x24).
  cfg_step (read_32bit_run b s 0x28). cfg_step (read_32bit_run b s 0x3c).
  cfg_done. f_equal. apply byte0_field.
Qed.

Lemma load_device_run b s (h : H) :
  ∃ h', load_device b s h = Done (h', device_at (config h) b s) ∧ config h' = config h.
Proof.
  unfold load_device, device_at. cfg_step (λ h, read_word_run b s 0 h ltac:(by left) eq_refl).
  destruct (cfg_word _ _ _ 0 =? 0xffff); [by eexists |].
  cfg_step (λ h, read_word_run b s 2 h ltac:(by right) eq_refl).
  cfg_step (read_32bit_run b s 4). cfg_step (read_32bit_run b s 8). cfg_step (read_32bit_run b s 0xc).
  cfg_step (load_header_type_run b s
    (cast 8 (Z.land (Z.shiftr (cfg_dword (config h) b s 0xc) 16) 0xff))).
  cfg_done.
  rewrite !byte_field, !byte0_field, !top_byte_field, word0_field, top_word_field
    by (lia || apply config_uint).
  reflexivity.
Qed.

Lemma load_all_run l (h : H) :
  ∃ h', load_all l h = Done (h', omap (λ '(b, s), device_at (config h) b s) l)
    ∧ config h' = config h.
Proof.
  revert h. induction l as [| [b s] l IH]; intros h; cbn [load_all]; [by exists h |].
  cfg_step (load_device_run b s). cfg_step IH. cfg_done.
Qed.

Lemma elem_of_slots b s : (b, s) ∈ slots ↔ 0 ≤ b < 255 ∧ 0 ≤ s < 32.
Proof.
  unfold slots. rewrite list_elem_of_bind. setoid_rewrite list_elem_of_bind.
  setoid_rewrite list_elem_of_singleton. setoid_rewrite elem_of_seqZ. naive_solver.
Qed.

(** Loading a device header.  On any configuration space, [load_device]
    returns, leaves the space as it was, and gives the header that the PCI
    layout puts at that bus and slot ([device_at]), or nothing where no vendor
    answers. *)
Theorem load_device_spec b s (h : H) :
  ∃ h', load_device b s h = Done (h', device_at (config h) b s) ∧ config h' = config h.
Proof. apply load_device_run. Qed.

(** C27: the bus scan.  It returns, in bus and slot order, exactly the devices of
    buses 0 to 254: a device on bus 255 is not found. *)
Theorem bruteforce_spec (h : H) :
  ∃ h' ds, bruteforce h = Done (h', ds) ∧ config h' = config h
    ∧ ds = omap (λ '(b, s), device_at (config h) b s) slots
    ∧ ∀ d, d ∈ ds ↔ ∃ b s, 0 ≤ b < 255 ∧ 0 ≤ s < 32 ∧ device_at (config h) b s = Some d.
Proof.
  destruct (load_all_run slots h) as (h' & Hr & Hc). exists h'. eexists. split; [exact Hr |].
  split; [done |]. split; [done |]. intros d. rewrite list_elem_of_omap. split.
  - intros ([b s] & Hin & Hd). exists b, s. by apply elem_of_slots in Hin as [? ?].
  - intros (b & s & Hb & Hs & Hd). exists (b, s). split; [by apply elem_of_slots | done].
Qed.

(** Bus mastering.  [enable_bus_mastering] sets bit 2 of the dword that holds
    the device's command and status registers and changes no other dword. *)
Theorem enable_bus_mastering_spec (d : Device) (h : H) :
  let a := address (bus d) (slot d) (func d) PCI_COMMAND in
  ∃ h', enable_bus_mastering d h = Done (h', tt)
    ∧ config h' a = Z.lor (config h a) 4
    ∧ ∀ a', a' ≠ a → config h' a' = config h a'.
Proof.
  intros a. unfold enable_bus_mastering. rewrite (M_bind_run _ _ _ _ _ eq_refl). fold a.
  set (h1 := port_write _ _ _). destruct (select_spec h a) as [Hc Hs]. fold h1 in Hc, Hs.
  destruct (read_spec h1) as (Hv & Hc1 & Hs1). unfold inport.
  erewrite M_bind_run by (rewrite (surjective_pairing (port_read h1 CONFIG_DATA)); reflexivity).
  eexists. split; [reflexivity |]. rewrite Hv, Hs, Hc. change (Z.shiftl 1 2) with 4.
  assert (uint 32 (Z.lor (config h a) 4)) as Hu
    by (apply uint_lor; [lia | apply config_uint | by vm_compute]).
  split.
  - rewrite write_spec by done. by rewrite Hs1, Hs, Z.eqb_refl.
  - intros a' Ha. rewrite write_spec by done.
    rewrite Hs1, Hs, Hc1, Hc. by rewrite (proj2 (Z.eqb_neq a' a)).
Qed.

End host.

(** Configuration addresses.  The address of a register of an existing
    function (5-bit slot, 3-bit function) has the enable bit set and decodes
    to the bus, slot, function and dword offset it was made of, so different
    registers have different addresses. *)
Theorem address_decodes (b s f off : Z) :
  uint 8 b → uint 5 s → uint 3 f → uint 8 off →
  let a := address b s f off in
  uint 32 a ∧ a / 2 ^ 31 = 1 ∧ a / 2 ^ 16 mod 2 ^ 8 = b ∧ a / 2 ^ 11 mod 2 ^ 5 = s
  ∧ a / 2 ^ 8 mod 2 ^ 3 = f ∧ a mod 2 ^ 8 = off / 4 * 4.
Proof.
  intros Hb Hs Hf Ho a. unfold a. rewrite address_sum by done.
  unfold uint in *. simpl Z.pow in *. split_and!; Z.to_euclidean_division_equations; lia.
Qed.

Lemma address_decodes_witness : let a := address 3 5 0 0x10 in a / 2 ^ 16 mod 2 ^ 8 = 3.
Proof. by apply (address_decodes 3 5 0 0x10). Defined.

(** ** A configuration space *)

(** The selected address and the dwords, for the absent ones all ones. *)
Definition sample_host : Type := Z * gmap Z Z.

#[export] Instance sample_ports : PortOps sample_host := {|
  port_write h p v :=
    if p =? CONFIG_ADDRESS then (v, h.2) else if p =? CONFIG_DATA then (h.1, <[h.1 := v]> h.2) else h;
  port_read h p := (h, default 0xffffffff (h.2 !! h.1) mod 2 ^ 32) |}.

#[export] Instance sample_pci : PciHost sample_host.
Proof.
  refine {| config := λ h a, default 0xffffffff (h.2 !! a) mod 2 ^ 32; selected := λ h, h.1 |}.
  - done.
  - done.
  - intros [sel m] v a Hv. simpl. rewrite lookup_insert. destruct (Z.eqb_spec a sel) as [-> |].
    + rewrite decide_True by done. simpl. by apply cast_small.
    + by rewrite decide_False by done.
  - intros h a. apply cast_uint. lia.
Defined.

(** An E1000 on bus 0, slot 3, and nothing else. *)
Definition sample_space : sample_host := (0, list_to_map [
  (address 0 3 0 0x00, 0x100E8086); (address 0 3 0 0x04, 0x00000003);
  (address 0 3 0 0x08, 0x02000003); (address 0 3 0 0x0c, 0x00000000);
  (address 0 3 0 0x10, 0xfebc0000); (address 0 3 0 0x14, 0x0000c001);
  (address 0 3 0 0x18, 0); (address 0 3 0 0x1c, 0); (address 0 3 0 0x20, 0);
  (address 0 3 0 0x24, 0); (address 0 3 0 0x28, 0); (address 0 3 0 0x3c, 0x0000010b)]).

Definition sample_device : Device := {|
  bus := 0; slot := 3; func := 0;
  generic := {| hdr_id := 0x100E; vendor_id := 0x8086; status := 0; command := 3;
    class := NetworkController NetEthernet; revision_id := 3; bist := 0; latency_timer := 0;
    cache_line_size := 0 |};
  header_type := Generic [MemorySpace 0xfebc0000 false 0; IOSpace 0xc000; MemorySpace 0 false 0;
    MemorySpace 0 false 0; MemorySpace 0 false 0; MemorySpace 0 false 0] 0 0xb |}.

Lemma load_device_spec_witness :
  ∃ h', load_device 0 3 sample_space = Done (h', Some sample_device).
Proof. destruct (load_device_spec 0 3 sample_space) as (h' & Hr & _). by exists h'. Defined.

Lemma bruteforce_spec_witness :
  ∃ h' ds, bruteforce sample_space = Done (h', ds) ∧ sample_device ∈ ds.
Proof.
  destruct (bruteforce_spec sample_space) as (h' & ds & Hr & _ & _ & Hin). exists h', ds.
  split; [exact Hr |]. apply Hin. exists 0, 3. split; [lia |]. split; [lia |]. by vm_compute.
Defined.

Lemma enable_bus_mastering_spec_witness :
  ∃ h', enable_bus_mastering sample_device sample_space = Done (h', tt)
    ∧ config h' (address 0 3 0 4) = 7.
Proof.
  destruct (enable_bus_mastering_spec sample_device sample_space) as (h' & Hr & Hc & _).
  exists h'. split; [exact Hr | exact Hc].
Defined.
