(* ===== verification/E1000.v ===== *)
(** * The E1000 network card

    [src/src/hardware/device/e1000.rs] with [e1000/coms.rs] and
    [e1000/descriptors.rs]: the driver's registers, its receive and transmit
    rings and its interrupt handler.

    The card itself and the page table are not code of the repository: the
    memory-mapped registers are an interface ([Mmio]) and the translation of
    addresses a parameter.  What the card writes into the descriptor rings
    and the receive buffers between two interrupts is part of the machine's
    state; during an interrupt the driver runs alone.  Freeing a pointer that
    is not a live box, or reading past a buffer, is [Undefined]. *)

From stdpp Require Import base tactics list gmap numbers.
From Stdlib Require Import ZArith Lia.
From S2P Require Import Prelude Queue Buffer Ethernet Device Handler Regs Pci.

Local Open Scope Z_scope.

Class Mmio (H : Type) := {
  mmio_write : H → Z → Z → H;
  mmio_read : H → Z → H * Z }.

(** ** [Coms] *)

Record Coms := { com_bar : BaseAddressRegister; com_offset : Z }.

Section coms.
Context {H : Type} `{Mmio H} {B : Build}.

(** The address both operations compute. *)
Definition target_address (c : Coms) (p_address : Z) : outcome Z :=
  match com_bar c with
  | MemorySpace address _ _ =>
      a ← add_w 64 address p_address;
      add_w 64 a (com_offset c)
  | IOSpace _ => Panicked Todo
  end.

Definition write_command (c : Coms) (p_address value : Z) : M H unit :=
  a ← lift (target_address c p_address);
  modify (fun h => mmio_write h a value).

Definition read_volatile (a : Z) : M H Z := fun h => let '(h, v) := mmio_read h a in Done (h, v).

Definition read_command (c : Coms) (p_address : Z) : M H Z :=
  a ← lift (target_address c p_address);
  read_volatile a.

End coms.

(** ** Constants *)

Definition REG_TCTRL : Z := 0x400.
Definition REG_TXDESCLO : Z := 0x3800.
Definition REG_TXDESCHI : Z := 0x3804.
Definition REG_TXDESCLEN : Z := 0x3808.
Definition REG_TXDESCHEAD : Z := 0x3810.
Definition REG_TXDESCTAIL : Z := 0x3818.
Definition REG_TXDESCCTRL : Z := 0x3828.
Definition REG_RCTRL : Z := 0x0100.
Definition REG_RXDESCLO : Z := 0x2800.
Definition REG_RXDESCHI : Z := 0x2804.
Definition REG_RXDESCLEN : Z := 0x2808.
Definition REG_RXDESCHEAD : Z := 0x2810.
Definition REG_RXDESCTAIL : Z := 0x2818.
Definition REG_TIPG : Z := 0x0410.
Definition REG_EEPROM : Z := 0x0014.
Definition REG_ICAUSE : Z := 0x00c0.
Definition REG_ICSET : Z := 0x00c8.
Definition REG_IMASK : Z := 0x00D0.
Definition REG_STATUS : Z := 0x0008.

(** [RCTL_EN | RCTL_SBP | RCTL_UPE | RCTL_MPE | RCTL_LBM_NONE | RTCL_RDMTS_HALF
    | RCTL_BAM | RCTL_SECRC | RCTL_BSIZE_2048] *)
Definition rctl_value : Z :=
  foldr Z.lor 0 [Z.shiftl 1 1; Z.shiftl 1 2; Z.shiftl 1 3; Z.shiftl 1 4; Z.shiftl 0 7;
    Z.shiftl 0 8; Z.shiftl 1 15; Z.shiftl 1 26; Z.shiftl 0 16].

(** [TCTL_EN | TCTL_PSP | (15 << TCTL_CT_SHIFT) | (64 << TCTL_COLD_SHIFT) | TCTL_RTLC] *)
Definition tctl_value : Z :=
  foldr Z.lor 0 [Z.shiftl 1 1; Z.shiftl 1 3; Z.shiftl 15 4; Z.shiftl 64 12; Z.shiftl 1 24].

Definition TSTA_DD : Z := 1.
Definition CMD_EOP : Z := 1.
Definition CMD_IFCS : Z := 2.
Definition CMD_RS : Z := 8.

Definition RX_DESC : nat := 32.
Definition TX_DESC : nat := 8.

(** ** Descriptors *)

Record RxDesc := {
  rx_addr : Z; rx_length : Z; rx_checksum : Z; rx_status : Z; rx_errors : Z; rx_special : Z }.

Record TxDesc := {
  tx_addr : Z; tx_length : Z; tx_cso : Z; tx_cmd : Z; tx_status : Z; tx_css : Z; tx_special : Z }.

Definition rx_default : RxDesc := {|
  rx_addr := 0; rx_length := 0; rx_checksum := 0; rx_status := 0; rx_errors := 0; rx_special := 0 |}.

Definition tx_default : TxDesc := {|
  tx_addr := 0; tx_length := 0; tx_cso := 0; tx_cmd := 0; tx_status := 0; tx_css := 0;
  tx_special := 0 |}.

Definition clear_rx_status (d : RxDesc) : RxDesc := {|
  rx_addr := rx_addr d; rx_length := rx_length d; rx_checksum := rx_checksum d; rx_status := 0;
  rx_errors := rx_errors d; rx_special := rx_special d |}.

Section card.
Context (Q : Type → Type) {H : Type} `{QueueOps Q} `{Mmio H} {B : Build}.
(** [OffsetPageTable::translate_addr] *)
Context (translate_addr : Z → option Z).

(** [rx_ptr] and [tx_ptr] point to the rings of the machine below. *)
Record E1000Card := {
  card_id : Z;
  com : Coms;
  has_eeprom : bool;
  cur_tx : Z;
  cur_rx : Z;
  last_reclaimed_tx : Z;
  rx_buffers : list Z;
  tx_buffers : list Z;
  card_queue : Q Ethernet.Packet }.

(** Memory and registers: the two rings, the receive buffers and the boxes
    turned into raw pointers, by address. *)
Record Machine := {
  hw : H;
  rx_ring : list RxDesc;
  tx_ring : list TxDesc;
  rx_memory : gmap Z (list Z);
  boxes : gmap Z (list Z);
  next_box : Z;
  handler_queue : Q HandlerMessage }.

Definition set_hw (m : Machine) (h : H) : Machine :=
  {| hw := h; rx_ring := rx_ring m; tx_ring := tx_ring m; rx_memory := rx_memory m;
     boxes := boxes m; next_box := next_box m; handler_queue := handler_queue m |}.
Definition set_rx_ring (m : Machine) (r : list RxDesc) : Machine :=
  {| hw := hw m; rx_ring := r; tx_ring := tx_ring m; rx_memory := rx_memory m;
     boxes := boxes m; next_box := next_box m; handler_queue := handler_queue m |}.
Definition set_tx_ring (m : Machine) (r : list TxDesc) : Machine :=
  {| hw := hw m; rx_ring := rx_ring m; tx_ring := r; rx_memory := rx_memory m;
     boxes := boxes m; next_box := next_box m; handler_queue := handler_queue m |}.
Definition set_boxes (m : Machine) (b : gmap Z (list Z)) : Machine :=
  {| hw := hw m; rx_ring := rx_ring m; tx_ring := tx_ring m; rx_memory := rx_memory m;
     boxes := b; next_box := next_box m; handler_queue := handler_queue m |}.
Definition set_handler_queue (m : Machine) (q : Q HandlerMessage) : Machine :=
  {| hw := hw m; rx_ring := rx_ring m; tx_ring := tx_ring m; rx_memory := rx_memory m;
     boxes := boxes m; next_box := next_box m; handler_queue := q |}.

Definition on_hw {A} (c : M H A) : M Machine A := fun m =>
  match c (hw m) with
  | Done (h, a) => Done (set_hw m h, a)
  | Panicked why => Panicked why
  | OutOfFuel => OutOfFuel
  end.

(** A read or write through a raw pointer into a ring. *)
Definition deref {A} (ring : list A) (i : Z) : outcome A :=
  match ring !! Z.to_nat i with Some d => Done d | None => Panicked Undefined end.

(** [Buffer::into_raw]: the box of the buffer becomes a raw pointer. *)
Definition into_raw (b : Buffer) : M Machine (Z * Z) := fun m =>
  Done ({| hw := hw m; rx_ring := rx_ring m; tx_ring := tx_ring m; rx_memory := rx_memory m;
           boxes := <[next_box m := buf_data b]> (boxes m); next_box := next_box m + 1;
           handler_queue := handler_queue m |}, (next_box m, buf_len b)).

(** [Buffer::from_raw], which is undefined unless the pointer is a live box. *)
Definition from_raw (ptr len : Z) : M Machine Buffer := fun m =>
  match boxes m !! ptr with
  | Some data => Done (set_boxes m (delete ptr (boxes m)), {| buf_data := data; buf_len := len |})
  | None => Panicked Undefined
  end.

(** [core::slice::from_raw_parts(addr, len)] *)
Definition from_raw_parts (addr len : Z) : M Machine (list Z) := fun m =>
  match rx_memory m !! addr with
  | Some data =>
      if len <=? Z.of_nat (length data) then Done (m, take (Z.to_nat len) data)
      else Panicked Undefined
  | None => Panicked Undefined
  end.

Definition handler_enqueue (msg : HandlerMessage) : M Machine unit :=
  modify (fun m => set_handler_queue m (q_try_enqueue (handler_queue m) msg).1).

(** ** Transmitting *)

Definition with_tx (c : E1000Card) (cur : Z) (bufs : list Z) : E1000Card :=
  {| card_id := card_id c; com := com c; has_eeprom := has_eeprom c; cur_tx := cur;
     cur_rx := cur_rx c; last_reclaimed_tx := last_reclaimed_tx c; rx_buffers := rx_buffers c;
     tx_buffers := bufs; card_queue := card_queue c |}.
Definition with_reclaimed (c : E1000Card) (last : Z) (bufs : list Z) : E1000Card :=
  {| card_id := card_id c; com := com c; has_eeprom := has_eeprom c; cur_tx := cur_tx c;
     cur_rx := cur_rx c; last_reclaimed_tx := last; rx_buffers := rx_buffers c;
     tx_buffers := bufs; card_queue := card_queue c |}.
Definition with_cur_rx (c : E1000Card) (cur : Z) : E1000Card :=
  {| card_id := card_id c; com := com c; has_eeprom := has_eeprom c; cur_tx := cur_tx c;
     cur_rx := cur; last_reclaimed_tx := last_reclaimed_tx c; rx_buffers := rx_buffers c;
     tx_buffers := tx_buffers c; card_queue := card_queue c |}.
Definition with_card_queue (c : E1000Card) (q : Q Ethernet.Packet) : E1000Card :=
  {| card_id := card_id c; com := com c; has_eeprom := has_eeprom c; cur_tx := cur_tx c;
     cur_rx := cur_rx c; last_reclaimed_tx := last_reclaimed_tx c; rx_buffers := rx_buffers c;
     tx_buffers := tx_buffers c; card_queue := q |}.

Definition enqueue_packet (c : E1000Card) (data_ptr len : Z) : M Machine E1000Card :=
  ring ← gets tx_ring;
  base ← lift (deref ring (cur_tx c));
  phys ← lift (unwrap (translate_addr data_ptr));
  let desc := {|
    tx_addr := phys;
    tx_length := cast 16 len;
    tx_cso := tx_cso base;
    tx_cmd := Z.lor (Z.lor CMD_EOP CMD_IFCS) CMD_RS;
    tx_status := 0;
    tx_css := tx_css base;
    tx_special := tx_special base |} in
  _ ← modify (fun m => set_tx_ring m (<[Z.to_nat (cur_tx c) := desc]> (tx_ring m)));
  bufs ← lift (write_at (tx_buffers c) (cur_tx c) data_ptr);
  next ← lift (add_w 32 (cur_tx c) 1);
  let next_tail := next mod 8 in
  _ ← on_hw (write_command (com c) REG_TXDESCTAIL next_tail);
  mret (with_tx c next_tail bufs).

(** [for _ in 0..TX_DESC] over the packet queue, until it is empty. *)
Fixpoint transmit_loop (n : nat) (c : E1000Card) : M Machine E1000Card :=
  match n with
  | O => mret c
  | S n =>
      let '(q, r) := q_try_dequeue (card_queue c) in
      match r with
      | Ok packet =>
          raw ← into_raw (into_buffer packet);
          c ← enqueue_packet (with_card_queue c q) raw.1 raw.2;
          transmit_loop n c
      | Err _ => mret (with_card_queue c q)
      end
  end.

(** [(0..8u32).cycle().skip(last).take_while(|i| *i != cur_tx_head)]: from
    [tx_index] around the ring until the head. *)
Fixpoint reclaim_loop (fuel : nat) (tx_index head : Z) (c : E1000Card) : M Machine E1000Card :=
  match fuel with
  | O => fun _ => OutOfFuel
  | S fuel =>
      if tx_index =? head then mret c else
      ring ← gets tx_ring;
      desc ← lift (deref ring tx_index);
      let next := (tx_index + 1) mod 8 in
      if negb (tx_status desc =? 1) then reclaim_loop fuel next head c else
      ptr ← lift (index (tx_buffers c) tx_index);
      _ ← from_raw ptr 0;
      bufs ← lift (write_at (tx_buffers c) tx_index 0);
      reclaim_loop fuel next head (with_reclaimed c ((tx_index + 1) mod 8) bufs)
  end.

(** ** Receiving *)

Fixpoint receive_loop (fuel : nat) (c : E1000Card) : M Machine E1000Card :=
  match fuel with
  | O => fun _ => OutOfFuel
  | S fuel =>
      ring ← gets rx_ring;
      desc ← lift (deref ring (cur_rx c));
      if Z.land (rx_status desc) 1 =? 0 then mret c else
      addr ← lift (index (rx_buffers c) (cur_rx c));
      slice ← from_raw_parts addr (rx_length desc);
      _ ← handler_enqueue (Packet {| raw_id := card_id c; raw_buffer := Buffer.new slice |});
      _ ← modify (fun m =>
            set_rx_ring m (<[Z.to_nat (cur_rx c) := clear_rx_status desc]> (rx_ring m)));
      let old_rx := cur_rx c in
      next ← lift (add_w 32 (cur_rx c) 1);
      let c := with_cur_rx c (next mod Z.of_nat RX_DESC) in
      _ ← on_hw (write_command (com c) REG_RXDESCTAIL old_rx);
      receive_loop fuel c
  end.

(** ** The interrupt handler *)

Definition handles_interrupt (c : E1000Card) (irq_offset : Z) : bool := irq_offset =? 0xb.

Definition get_interrupt_cause (c : E1000Card) : M Machine Cause.InterruptCauseRegister :=
  raw ← on_hw (read_command (com c) REG_ICAUSE);
  mret (Cause.cause_from raw).

(** The rings bound the loops: each round of [receive_loop] clears a ready
    descriptor, and [reclaim_loop] goes around the ring once. *)
Definition handle_interrupt (c : E1000Card) : M Machine E1000Card :=
  cause ← get_interrupt_cause c;
  c ← (if Cause.rxt cause then receive_loop (S RX_DESC) c else mret c);
  cur_tx_head ← on_hw (read_command (com c) REG_TXDESCHEAD);
  cur_tx_tail ← on_hw (read_command (com c) REG_TXDESCTAIL);
  c ← (if (cur_tx_head =? cur_tx_tail) && (Cause.txd_low cause || Cause.txdw cause)
       then transmit_loop TX_DESC c else mret c);
  if Cause.txdw cause then reclaim_loop (S TX_DESC) (last_reclaimed_tx c) cur_tx_head c
  else mret c.

(** ** Set-up *)

(** The notification closure of the packet queue. *)
Definition notify_card (c : Coms) : M H unit :=
  write_command c REG_ICSET
    (Cause.cause_into (Cause.cause_set_asserted
       (Cause.cause_set_txd_low Cause.cause_default true) false)).

Definition enable_interrupts (c : E1000Card) : M Machine unit :=
  _ ← on_hw (write_command (com c) REG_TXDESCCTRL (Z.lor 0 (Z.shiftl 2 25)));
  let mask := IMask.set_txdw IMask.imask_default true in
  let mask := IMask.set_txqe mask false in
  let mask := IMask.set_lsc mask true in
  let mask := IMask.set_rxdmto mask false in
  let mask := IMask.set_rxo mask false in
  let mask := IMask.set_rxto mask true in
  let mask := IMask.set_txd_low mask true in
  _ ← on_hw (write_command (com c) REG_IMASK (IMask.imask_into mask));
  _ ← on_hw (read_command (com c) REG_ICAUSE);
  mret tt.

(** [loop { tmp = read; if tmp & (1 << 4) > 0 { break; } }] *)
Fixpoint wait_eeprom (fuel : nat) (c : Coms) : M H Z :=
  match fuel with
  | O => fun _ => OutOfFuel
  | S fuel =>
      tmp ← read_command c REG_EEPROM;
      if 0 <? Z.land tmp (Z.shiftl 1 4) then mret tmp else wait_eeprom fuel c
  end.

Definition read_eeprom (fuel : nat) (c : E1000Card) (addr : Z) : M H Z :=
  if has_eeprom c then
    _ ← write_command (com c) REG_EEPROM (Z.lor 1 (shl_w 32 addr 8));
    tmp ← wait_eeprom fuel (com c);
    mret (Z.land (Z.shiftr tmp 16) 0xFFFF)
  else lift (Panicked Todo).

Definition read_mac_address (fuel : nat) (c : E1000Card) : M H (list Z) :=
  if has_eeprom c then
    first2 ← read_eeprom fuel c 0;
    second2 ← read_eeprom fuel c 1;
    third2 ← read_eeprom fuel c 2;
    mret [Z.land first2 0xff; Z.shiftr first2 8; Z.land second2 0xff; Z.shiftr second2 8;
          Z.land third2 0xff; Z.shiftr third2 8]
  else lift (Panicked Todo).

(** [Box::new([0u8; 2048 + 16])] as a receive buffer: its address. *)
Definition new_rx_buffer : M Machine Z := fun m =>
  Done ({| hw := hw m; rx_ring := rx_ring m; tx_ring := tx_ring m;
           rx_memory := <[next_box m := replicate 2064 0]> (rx_memory m); boxes := boxes m;
           next_box := next_box m + 1; handler_queue := handler_queue m |}, next_box m).

(** The loop over the [RX_DESC + 1] receive descriptors: the descriptors and
    the pointers of their buffers, of which [rx_buffers] keeps [RX_DESC]. *)
Fixpoint init_rx_descriptors (n : nat) : M Machine (list RxDesc * list Z) :=
  match n with
  | O => mret ([], [])
  | S n =>
      raw_ptr ← new_rx_buffer;
      phys_addr ← lift (unwrap (translate_addr raw_ptr));
      rest ← init_rx_descriptors n;
      mret ({| rx_addr := phys_addr; rx_length := 0; rx_checksum := 0; rx_status := 0;
               rx_errors := 0; rx_special := 0 |} :: rest.1, raw_ptr :: rest.2)
  end.

Definition init_tx_descriptor (d : TxDesc) : TxDesc := {|
  tx_addr := 0; tx_length := tx_length d; tx_cso := tx_cso d; tx_cmd := 0; tx_status := TSTA_DD;
  tx_css := tx_css d; tx_special := tx_special d |}.

(** [descriptors::allocate_buffer]: the address of the new ring. *)
Definition allocate_ring : M Machine Z := fun m =>
  Done ({| hw := hw m; rx_ring := rx_ring m; tx_ring := tx_ring m; rx_memory := rx_memory m;
           boxes := boxes m; next_box := next_box m + 1; handler_queue := handler_queue m |},
        next_box m).

(** [(0..1000).any(|_| coms.read_command(0x0014) & 0x10 > 0)] *)
Fixpoint any_eeprom (n : nat) (c : Coms) : M H bool :=
  match n with
  | O => mret false
  | S n =>
      v ← read_command c REG_EEPROM;
      if 0 <? Z.land v 0x10 then mret true else any_eeprom n c
  end.

Definition init_rx (coms : Coms) : M Machine (list Z) :=
  r ← init_rx_descriptors (S RX_DESC);
  let '(descriptors, ptrs) := r in
  desc_virt_ptr ← allocate_ring;
  _ ← modify (fun m => set_rx_ring m descriptors);
  ptr ← lift (unwrap (translate_addr desc_virt_ptr));
  _ ← on_hw (write_command coms REG_TXDESCLO (cast 32 (Z.shiftr ptr 32)));
  _ ← on_hw (write_command coms REG_TXDESCHI (cast 32 ptr));
  _ ← on_hw (write_command coms REG_RXDESCLO (cast 32 ptr));
  _ ← on_hw (write_command coms REG_RXDESCHI 0);
  _ ← on_hw (write_command coms REG_RXDESCLEN (Z.of_nat RX_DESC * 16));
  _ ← on_hw (write_command coms REG_RXDESCHEAD 0);
  _ ← on_hw (write_command coms REG_RXDESCTAIL (Z.of_nat RX_DESC - 1));
  _ ← on_hw (write_command coms REG_RCTRL rctl_value);
  mret (take RX_DESC ptrs).

Definition init_tx (coms : Coms) : M Machine unit :=
  let descriptors := map init_tx_descriptor (replicate (S TX_DESC) tx_default) in
  desc_virt_ptr ← allocate_ring;
  _ ← modify (fun m => set_tx_ring m descriptors);
  ptr ← lift (unwrap (translate_addr desc_virt_ptr));
  _ ← on_hw (write_command coms REG_TXDESCHI (cast 32 (Z.shiftr ptr 32)));
  _ ← on_hw (write_command coms REG_TXDESCLO (cast 32 ptr));
  _ ← on_hw (write_command coms REG_TXDESCLEN (Z.of_nat TX_DESC * 16));
  _ ← on_hw (write_command coms REG_TXDESCHEAD 0);
  _ ← on_hw (write_command coms REG_TXDESCTAIL 0);
  _ ← on_hw (write_command coms REG_TCTRL tctl_value);
  on_hw (write_command coms REG_TIPG 0x0060200A).

(** [E1000Card::init]; the closure it also returns is [notify_card]. *)
Definition init (id : Z) (bar : BaseAddressRegister) (offset : Z) (packet_queue : Q Ethernet.Packet) :
    M Machine E1000Card :=
  let coms := {| com_bar := bar; com_offset := offset |} in
  _ ← on_hw (read_command coms REG_STATUS);
  _ ← on_hw (write_command coms REG_EEPROM 0x1);
  has_eeprom ← on_hw (any_eeprom 1000 coms);
  rx_buffers ← init_rx coms;
  _ ← init_tx coms;
  mret {| card_id := id; com := coms; has_eeprom := has_eeprom; cur_tx := 0; cur_rx := 0;
          last_reclaimed_tx := 0; rx_buffers := rx_buffers; tx_buffers := replicate TX_DESC 0;
          card_queue := packet_queue |}.

End card.
