(* ===== verification/E1000Rx.v ===== *)
(** * Receiving packets

    The receive half of the E1000's interrupt handler ([receive_loop] of
    [E1000]): it hands over every ready descriptor of the ring, in ring
    order, and always ends. *)

From stdpp Require Import base tactics list gmap numbers.
From Stdlib Require Import ZArith Lia.
From S2P Require Import Prelude Queue Buffer Ethernet Device Handler Regs Pci E1000.

Local Open Scope Z_scope.

(** ** Registers *)

(** The card's registers are memory mapped and their addresses fit 64 bits. *)
Definition com_ok (c : Coms) : Prop :=
  match com_bar c with
  | MemorySpace a _ _ => 0 ≤ a ∧ 0 ≤ com_offset c ∧ a + 0x10000 + com_offset c ≤ 2 ^ 64
  | IOSpace _ => False
  end.

Definition reg_address (c : Coms) (p : Z) : Z :=
  match com_bar c with MemorySpace a _ _ => a + p + com_offset c | IOSpace _ => 0 end.

Lemma target_address_ok {B : Build} c p :
  com_ok c → 0 ≤ p < 0x10000 → target_address c p = Done (reg_address c p).
Proof.
  unfold com_ok, target_address, reg_address. destruct (com_bar c); [| done]. intros (? & ? & ?) ?.
  unfold add_w. rewrite arith_in by (unfold uint; lia). rewrite bind_Done_l.
  by rewrite arith_in by (unfold uint; lia).
Qed.

Section regs.
Context {H : Type} `{Mmio H} {B : Build}.

Lemma write_command_run c p v (h : H) :
  com_ok c → 0 ≤ p < 0x10000 →
  write_command c p v h = Done (mmio_write h (reg_address c p) v, tt).
Proof.
  intros Hc Hp. unfold write_command. by rewrite (M_bind_lift _ _ _ _ (target_address_ok c p Hc Hp)).
Qed.

Lemma read_command_run c p (h : H) :
  com_ok c → 0 ≤ p < 0x10000 →
  read_command c p h
  = Done ((mmio_read h (reg_address c p)).1, (mmio_read h (reg_address c p)).2).
Proof.
  intros Hc Hp. unfold read_command. rewrite (M_bind_lift _ _ _ _ (target_address_ok c p Hc Hp)).
  unfold read_volatile. by destruct (mmio_read h _).
Qed.

End regs.

Section receive.
Context {Q : Type → Type} {H : Type} `{QueueLaws Q} `{!UnboundedQueue Q} `{Mmio H} {B : Build}.

Implicit Types (c : E1000Card Q) (m : Machine Q (H := H)).

(** ** The ring *)

Definition pos : nat → nat → nat := ring_pos RX_DESC.

Definition ready m (i : nat) : bool :=
  match rx_ring Q m !! i with Some d => negb (Z.land (rx_status d) 1 =? 0) | None => false end.

(** The bytes the card left for descriptor [i]. *)
Definition rx_frame c m (i : nat) : list Z :=
  match rx_ring Q m !! i, rx_buffers Q c !! i with
  | Some d, Some p => take (Z.to_nat (rx_length d)) (default [] (rx_memory Q m !! p))
  | _, _ => []
  end.

Definition rx_message c m (i : nat) : HandlerMessage :=
  Packet {| raw_id := card_id Q c; raw_buffer := Buffer.new (rx_frame c m i) |}.

(** What set-up establishes, and what the card is configured to respect: no
    packet is longer than the buffer it is stored in. *)
Record rx_ok c m : Prop := {
  rx_com : com_ok (com Q c);
  rx_cur : 0 ≤ cur_rx Q c < 32;
  rx_ring_length : length (rx_ring Q m) = 33%nat;
  rx_buffers_length : length (rx_buffers Q c) = 32%nat;
  rx_buffers_live : ∀ i p, rx_buffers Q c !! i = Some p →
    ∃ data, rx_memory Q m !! p = Some data ∧ length data = 2064%nat;
  rx_lengths : ∀ i d, rx_ring Q m !! i = Some d → 0 ≤ rx_length d ≤ 2064;
  rx_open : q_is_closed (handler_queue Q m) = false }.

(** The state after the current descriptor was handed over. *)
Definition received c m : Machine Q (H := H) :=
  let i := Z.to_nat (cur_rx Q c) in
  let m1 := set_handler_queue Q m (q_try_enqueue (handler_queue Q m) (rx_message c m i)).1 in
  let m2 := set_rx_ring Q m1 (alter clear_rx_status i (rx_ring Q m)) in
  set_hw Q m2 (mmio_write (hw Q m) (reg_address (com Q c) REG_RXDESCTAIL) (cur_rx Q c)).

Definition advanced c : E1000Card Q := with_cur_rx Q c ((cur_rx Q c + 1) mod 32).

Lemma receive_step fuel c m :
  rx_ok c m → ready m (Z.to_nat (cur_rx Q c)) = true →
  receive_loop Q (S fuel) c m = receive_loop Q fuel (advanced c) (received c m).
Proof.
  intros [Hcom Hcur Hlr Hlb Hlive Hlen Hopen] Hready. unfold ready in Hready.
  set (i := Z.to_nat (cur_rx Q c)) in *.
  destruct (rx_ring Q m !! i) as [d |] eqn:Hd; [| done].
  destruct (rx_buffers Q c !! i) as [p |] eqn:Hp; [| apply lookup_ge_None in Hp; lia].
  destruct (Hlive i p Hp) as (data & Hdata & Hld). pose proof (Hlen i d Hd) as Hl.
  cbn [receive_loop]. rewrite (M_bind_run _ _ _ _ _ eq_refl).
  assert (deref (rx_ring Q m) (cur_rx Q c) = Done d) as -> by (unfold deref; fold i; by rewrite Hd).
  rewrite (M_bind_lift _ _ _ _ eq_refl). apply negb_true_iff in Hready. rewrite Hready.
  rewrite (index_ok _ _ p) by (fold i; lia || done). rewrite (M_bind_lift _ _ _ _ eq_refl).
  assert (from_raw_parts Q p (rx_length d) m
          = Done (m, rx_frame c m i)) as Hraw.
  { unfold from_raw_parts, rx_frame. rewrite Hdata, Hd, Hp, Hdata. simpl.
    by rewrite (proj2 (Z.leb_le _ _)) by lia. }
  rewrite (M_bind_run _ _ _ _ _ Hraw). fold (rx_message c m i).
  rewrite (M_bind_run _ _ _ _ _ eq_refl), (M_bind_run _ _ _ _ _ eq_refl).
  unfold add_w. rewrite arith_in by (unfold uint; lia). rewrite (M_bind_lift _ _ _ _ eq_refl).
  assert (∀ m v, on_hw Q (write_command (com Q c) REG_RXDESCTAIL v) m
    = Done (set_hw Q m (mmio_write (hw Q m) (reg_address (com Q c) REG_RXDESCTAIL) v), tt)) as Hw.
  { intros m0 v. unfold on_hw. by rewrite write_command_run by (done || unfold REG_RXDESCTAIL; lia). }
  rewrite (M_bind_run _ _ _ _ _ (Hw _ _)). unfold received, advanced. cbn [rx_ring set_handler_queue hw].
  fold i. by rewrite (insert_alter clear_rx_status _ _ _ Hd).
Qed.

Lemma receive_stop fuel c m :
  rx_ok c m → ready m (Z.to_nat (cur_rx Q c)) = false → receive_loop Q (S fuel) c m = Done (m, c).
Proof.
  intros Hok Hr. unfold ready in Hr. cbn [receive_loop]. rewrite (M_bind_run _ _ _ _ _ eq_refl).
  unfold deref. destruct (rx_ring Q m !! Z.to_nat (cur_rx Q c)) as [d |] eqn:Hd.
  - rewrite (M_bind_lift _ _ _ _ eq_refl). apply negb_false_iff in Hr. by rewrite Hr.
  - apply lookup_ge_None in Hd. pose proof (rx_cur _ _ Hok). pose proof (rx_ring_length _ _ Hok). lia.
Qed.

Lemma ready_received c m i :
  ready (received c m) i = if decide (i = Z.to_nat (cur_rx Q c)) then false else ready m i.
Proof.
  unfold ready, received. cbn [rx_ring set_hw set_rx_ring].
  destruct (decide (i = _)) as [-> |]; [| by rewrite list_lookup_alter_ne].
  rewrite list_lookup_alter_eq. by destruct (rx_ring Q m !! _).
Qed.

Lemma rx_message_received c m i :
  i ≠ Z.to_nat (cur_rx Q c) → rx_message (advanced c) (received c m) i = rx_message c m i.
Proof.
  intros Hi. unfold rx_message, rx_frame, received, advanced.
  cbn [rx_ring set_hw set_rx_ring rx_memory set_handler_queue card_id with_cur_rx rx_buffers].
  by rewrite list_lookup_alter_ne by done.
Qed.

Lemma rx_ok_received c m : rx_ok c m → rx_ok (advanced c) (received c m).
Proof.
  intros [Hcom Hcur Hlr Hlb Hlive Hlen Hopen]. split; try done.
  - cbn. pose proof (Z.mod_pos_bound (cur_rx Q c + 1) 32). lia.
  - cbn. by rewrite length_alter.
  - intros i d Hi. cbn [rx_ring received set_hw set_rx_ring] in Hi.
    destruct (decide (i = Z.to_nat (cur_rx Q c))) as [-> | Hne].
    + rewrite list_lookup_alter_eq in Hi. destruct (rx_ring Q m !! _) eqn:Hd; simplify_eq/=.
      by eapply Hlen.
    + rewrite list_lookup_alter_ne in Hi by done. by eapply Hlen.
  - cbn [handler_queue received set_hw set_rx_ring set_handler_queue]. by apply enqueue_open.
Qed.

Lemma pos_advanced c j :
  0 ≤ cur_rx Q c < 32 →
  pos (Z.to_nat (cur_rx Q (advanced c))) j = pos (Z.to_nat (cur_rx Q c)) (S j).
Proof.
  intros Hc. unfold pos. rewrite <- ring_pos_S. unfold advanced. cbn [cur_rx with_cur_rx].
  rewrite Z2Nat.inj_mod by lia. do 2 f_equal. lia.
Qed.

Lemma pos_ne n j : (0 < j < 32)%nat → (n < 32)%nat → pos n j ≠ n.
Proof. apply ring_pos_ne. Qed.

(** The descriptors a run of [k] ready ones takes. *)
Definition handed (n k : nat) : list nat := map (pos n) (seq 0 k).

Lemma pos_0 n : (n < 32)%nat → pos n 0 = n.
Proof. apply ring_pos_0. Qed.

Lemma handed_S c k :
  0 ≤ cur_rx Q c < 32 →
  handed (Z.to_nat (cur_rx Q c)) (S k)
  = Z.to_nat (cur_rx Q c) :: handed (Z.to_nat (cur_rx Q (advanced c))) k.
Proof.
  intros Hc. unfold handed. cbn [seq map]. rewrite pos_0 by lia. f_equal.
  rewrite <- seq_shift, map_map. apply map_ext_in. intros j _. by rewrite pos_advanced.
Qed.

Lemma handed_elem n k i : i ∈ handed n k → ∃ j, (j < k)%nat ∧ i = pos n j.
Proof.
  unfold handed. intros (j & -> & Hj)%list_elem_of_fmap. apply elem_of_seq in Hj. exists j. lia.
Qed.

(** One descriptor, then the others. *)
Lemma ready_cons c m l i :
  (ready (received c m) i && bool_decide (i ∉ l))%bool
  = (ready m i && bool_decide (i ∉ Z.to_nat (cur_rx Q c) :: l))%bool.
Proof.
  rewrite ready_received. destruct (decide (i = Z.to_nat (cur_rx Q c))) as [-> | Hne].
  - rewrite (bool_decide_eq_false_2 (_ ∉ _ :: _)) by set_solver. by rewrite andb_false_r.
  - f_equal. apply bool_decide_ext. set_solver.
Qed.

Lemma items_cons c m k :
  rx_ok c m → (k < 32)%nat →
  let rest := handed (Z.to_nat (cur_rx Q (advanced c))) k in
  q_items (handler_queue Q (received c m)) ++ map (rx_message (advanced c) (received c m)) rest
  = q_items (handler_queue Q m) ++ map (rx_message c m) (Z.to_nat (cur_rx Q c) :: rest).
Proof.
  intros Hok Hk rest. cbn [handler_queue received set_hw set_rx_ring set_handler_queue].
  destruct (enqueue_open (handler_queue Q m) (rx_message c m (Z.to_nat (cur_rx Q c))) (rx_open _ _ Hok))
    as [-> _].
  pose proof (rx_cur _ _ Hok) as Hc.
  rewrite <- app_assoc. cbn [map app]. do 2 f_equal. apply map_ext_in.
  intros i (j & Hj & ->)%list_elem_of_In%handed_elem.
  rewrite pos_advanced by done. apply rx_message_received, pos_ne; lia.
Qed.

Lemma advanced_cur c k :
  with_cur_rx Q (advanced c) ((cur_rx Q (advanced c) + Z.of_nat k) mod 32)
  = with_cur_rx Q c ((cur_rx Q c + Z.of_nat (S k)) mod 32).
Proof. unfold advanced, with_cur_rx. cbn. f_equal. rewrite Zplus_mod_idemp_l. f_equal. lia. Qed.

(** Receiving touches neither the transmit side nor the buffers' memory, and
    no register but the receive tail. *)
Definition untouched c m m' : Prop :=
  tx_ring Q m' = tx_ring Q m ∧ boxes Q m' = boxes Q m ∧ next_box Q m' = next_box Q m
  ∧ rx_memory Q m' = rx_memory Q m
  ∧ ∃ vs, hw Q m' = foldl (λ h v, mmio_write h (reg_address (com Q c) REG_RXDESCTAIL) v) (hw Q m) vs.

Lemma untouched_step c m m' : untouched (advanced c) (received c m) m' → untouched c m m'.
Proof. intros (H1' & H2' & H3' & H4' & vs & H5'). split_and!; try done. by exists (cur_rx Q c :: vs). Qed.

(** The loop, from any number of ready descriptors below the whole ring. *)
Lemma receive_run k fuel c m :
  rx_ok c m → (k < 32)%nat → (k < fuel)%nat →
  (∀ j, (j < k)%nat → ready m (pos (Z.to_nat (cur_rx Q c)) j) = true) →
  ready m (pos (Z.to_nat (cur_rx Q c)) k) = false →
  let taken := handed (Z.to_nat (cur_rx Q c)) k in
  ∃ m', receive_loop Q fuel c m
        = Done (m', with_cur_rx Q c ((cur_rx Q c + Z.of_nat k) mod 32))
    ∧ q_items (handler_queue Q m')
      = q_items (handler_queue Q m) ++ map (rx_message c m) taken
    ∧ rx_ok (with_cur_rx Q c ((cur_rx Q c + Z.of_nat k) mod 32)) m'
    ∧ (∀ i, ready m' i = (ready m i && bool_decide (i ∉ taken))%bool)
    ∧ untouched c m m'.
Proof.
  revert fuel c m. induction k as [| k IH]; intros [| fuel] c m Hok Hk Hf Hready Hend taken; try lia.
  - pose proof (rx_cur _ _ Hok) as Hc. rewrite pos_0 in Hend by lia. rewrite receive_stop by done.
    rewrite Z.add_0_r, Z.mod_small by done. replace (with_cur_rx Q c (cur_rx Q c)) with c by by destruct c.
    exists m. split_and!; try done.
    + by rewrite app_nil_r.
    + intros i. by rewrite andb_true_r.
    + split_and!; try done. by exists [].
  - pose proof (rx_cur _ _ Hok) as Hc. pose proof (rx_ok_received _ _ Hok) as Hok1.
    pose proof (Hready 0%nat ltac:(lia)) as H0r. rewrite pos_0 in H0r by lia.
    rewrite receive_step by done. subst taken. rewrite handed_S by done.
    assert (∀ j, (0 < j < 32)%nat → pos (Z.to_nat (cur_rx Q c)) j ≠ Z.to_nat (cur_rx Q c)) as Hne
      by (intros; apply pos_ne; lia).
    destruct (IH fuel (advanced c) (received c m) Hok1 ltac:(lia) ltac:(lia))
      as (m' & Hr & Hi & Hok' & Hrd & Hu).
    { intros j Hj. rewrite pos_advanced, ready_received, decide_False by (done || apply Hne; lia).
      apply Hready. lia. }
    { by rewrite pos_advanced, ready_received, decide_False by (done || apply Hne; lia). }
    rewrite advanced_cur in Hr, Hok'. exists m'. split; [exact Hr |]. split_and!; try done.
    + rewrite Hi. apply items_cons; [done | lia].
    + intros i. rewrite Hrd. apply ready_cons.
    + by apply untouched_step.
Qed.

(** The whole ring included. *)
Lemma receive_loop_run (c : E1000Card Q) (m : Machine Q (H := H)) (k : nat) :
  rx_ok c m → (k ≤ 32)%nat →
  (∀ j, (j < k)%nat → ready m (pos (Z.to_nat (cur_rx Q c)) j) = true) →
  k = 32%nat ∨ ready m (pos (Z.to_nat (cur_rx Q c)) k) = false →
  let taken := handed (Z.to_nat (cur_rx Q c)) k in
  ∃ m', receive_loop Q (S RX_DESC) c m
        = Done (m', with_cur_rx Q c ((cur_rx Q c + Z.of_nat k) mod 32))
    ∧ q_items (handler_queue Q m')
      = q_items (handler_queue Q m) ++ map (rx_message c m) taken
    ∧ (∀ i, ready m' i = (ready m i && bool_decide (i ∉ taken))%bool)
    ∧ rx_ok (with_cur_rx Q c ((cur_rx Q c + Z.of_nat k) mod 32)) m' ∧ untouched c m m'.
Proof.
  intros Hok Hk Hready Hend taken. destruct (decide (k = 32%nat)) as [-> | Hne].
  - pose proof (rx_cur _ _ Hok) as Hc. pose proof (rx_ok_received _ _ Hok) as Hok1.
    pose proof (Hready 0%nat ltac:(lia)) as H0r. rewrite pos_0 in H0r by lia.
    rewrite receive_step by done.
    assert (∀ j, (0 < j < 32)%nat → pos (Z.to_nat (cur_rx Q c)) j ≠ Z.to_nat (cur_rx Q c)) as Hpos
      by (intros; apply pos_ne; lia).
    destruct (receive_run 31 RX_DESC (advanced c) (received c m) Hok1 ltac:(lia) ltac:(unfold RX_DESC; lia))
      as (m' & Hr & Hi & Hok' & Hrd & Hu).
    { intros j Hj. rewrite pos_advanced, ready_received, decide_False by (done || apply Hpos; lia).
      apply Hready. lia. }
    { rewrite pos_advanced, ready_received by done. rewrite decide_True; [done |]. unfold pos, ring_pos, RX_DESC.
      change (S 31) with (1 * 32)%nat. rewrite Nat.Div0.mod_add, Nat.mod_small by lia. done. }
    rewrite advanced_cur in Hr, Hok'. exists m'. split; [exact Hr |]. subst taken.
    change 32%nat with (S 31). rewrite (handed_S c 31 Hc). split_and!; [| | exact Hok' | by apply untouched_step].
    + rewrite Hi. apply items_cons; [done | lia].
    + intros i. rewrite Hrd. apply ready_cons.
  - destruct Hend as [? | Hend]; [lia |].
    destruct (receive_run k (S RX_DESC) c m Hok ltac:(lia) ltac:(unfold RX_DESC; lia) Hready Hend)
      as (m' & Hr & Hi & Hok' & Hrd & Hu).
    by exists m'.
Qed.

(** However many descriptors are ready, the loop ends. *)
Lemma receive_all c m :
  rx_ok c m →
  ∃ k m', receive_loop Q (S RX_DESC) c m = Done (m', with_cur_rx Q c ((cur_rx Q c + Z.of_nat k) mod 32))
    ∧ rx_ok (with_cur_rx Q c ((cur_rx Q c + Z.of_nat k) mod 32)) m' ∧ untouched c m m'.
Proof.
  intros Hok. set (n := Z.to_nat (cur_rx Q c)).
  assert (∀ b, ∃ k, (k ≤ b)%nat ∧ (∀ j, (j < k)%nat → ready m (pos n j) = true)
    ∧ (k = b ∨ ready m (pos n k) = false)) as Hfirst.
  { induction b as [| b (k & Hk & Hr & Hend)]; [exists 0%nat; split_and!; [lia | lia | by left] |].
    destruct Hend as [-> | Hend]; [| exists k; split_and!; [lia | done | by right]].
    destruct (ready m (pos n b)) eqn:E; [| exists b; split_and!; [lia | done | by right]].
    exists (S b). split_and!; [done | | by left]. intros j Hj. destruct (decide (j = b)) as [-> |]; [done |].
    apply Hr. lia. }
  destruct (Hfirst 32%nat) as (k & Hk & Hr & Hend).
  destruct (receive_loop_run c m k Hok Hk Hr Hend) as (m' & Hrun & _ & _ & Hok' & Hu). by exists k, m'.
Qed.

(** C13: the receive loop.  With [k] ready descriptors from the current one on
    (up to the whole ring of 32), the loop ends within 33 rounds; it hands the
    frames of exactly those descriptors to the handler, in ring order and
    tagged with the card's id, clears them and no other, and moves the current
    position past them. *)
Theorem receive_loop_spec (c : E1000Card Q) (m : Machine Q (H := H)) (k : nat) :
  rx_ok c m → (k ≤ 32)%nat →
  (∀ j, (j < k)%nat → ready m (pos (Z.to_nat (cur_rx Q c)) j) = true) →
  k = 32%nat ∨ ready m (pos (Z.to_nat (cur_rx Q c)) k) = false →
  let taken := handed (Z.to_nat (cur_rx Q c)) k in
  ∃ m', receive_loop Q (S RX_DESC) c m
        = Done (m', with_cur_rx Q c ((cur_rx Q c + Z.of_nat k) mod 32))
    ∧ q_items (handler_queue Q m')
      = q_items (handler_queue Q m) ++ map (rx_message c m) taken
    ∧ (∀ i, ready m' i = (ready m i && bool_decide (i ∉ taken))%bool)
    ∧ rx_ok (with_cur_rx Q c ((cur_rx Q c + Z.of_nat k) mod 32)) m'.
Proof.
  intros Hok Hk Hready Hend taken. destruct (receive_loop_run c m k Hok Hk Hready Hend) as (m' & ? & ? & ? & ? & _).
  by exists m'.
Qed.

End receive.
