(* ===== verification/E1000Tx.v ===== *)
(** * Transmitting packets

    The transmit half of the E1000's interrupt handler ([transmit_loop],
    [enqueue_packet] and [reclaim_loop] of [E1000]): what the descriptors
    and the tail register hold after packets were taken from the queue, and
    when buffers are given back. *)

From stdpp Require Import base tactics list gmap numbers.
From Stdlib Require Import ZArith Lia.
From S2P Require Import Prelude Queue Buffer Ethernet Device Handler Regs Pci E1000 E1000Rx.

Local Open Scope Z_scope.

Section transmit.
Context {Q : Type → Type} {H : Type} `{QueueLaws Q} `{Mmio H} {B : Build}.
(** Boxes live in mapped memory. *)
Context (translate : Z → option Z) (Hmapped : ∀ p, is_Some (translate p)).

Implicit Types (c : E1000Card Q) (m : Machine Q (H := H)).

Record tx_ok c m : Prop := {
  tx_com : com_ok (com Q c);
  tx_cur : 0 ≤ cur_tx Q c < 8;
  tx_ring_length : length (tx_ring Q m) = 9%nat;
  tx_buffers_length : length (tx_buffers Q c) = 8%nat }.

(** Slot [i] holds the packet [p], whose box is [ptr]. *)
Definition loaded c m (i : nat) (ptr : Z) (p : Ethernet.Packet) : Prop :=
  ∃ d, tx_ring Q m !! i = Some d ∧ translate ptr = Some (tx_addr d)
    ∧ tx_length d = cast 16 (buf_len (buffer p)) ∧ tx_cmd d = 0xb ∧ tx_status d = 0
    ∧ tx_buffers Q c !! i = Some ptr ∧ boxes Q m !! ptr = Some (buf_data (buffer p)).

(** The descriptor [enqueue_packet] writes over [d]. *)
Definition tx_descriptor (d : TxDesc) (addr len : Z) : TxDesc := {|
  tx_addr := addr; tx_length := cast 16 len; tx_cso := tx_cso d; tx_cmd := 0xb; tx_status := 0;
  tx_css := tx_css d; tx_special := tx_special d |}.

Lemma enqueue_packet_run c m ptr l d a :
  tx_ok c m → tx_ring Q m !! Z.to_nat (cur_tx Q c) = Some d → translate ptr = Some a →
  let next := (cur_tx Q c + 1) mod 8 in
  enqueue_packet Q translate c ptr l m
  = Done (set_hw Q
            (set_tx_ring Q m (<[Z.to_nat (cur_tx Q c) := tx_descriptor d a l]> (tx_ring Q m)))
            (mmio_write (hw Q m) (reg_address (com Q c) REG_TXDESCTAIL) next),
          with_tx Q c next (<[Z.to_nat (cur_tx Q c) := ptr]> (tx_buffers Q c))).
Proof.
  intros [Hcom Hcur Hlr Hlb] Hd Ha next. unfold enqueue_packet.
  rewrite (M_bind_run _ _ _ _ _ eq_refl). unfold deref. rewrite Hd, (M_bind_lift _ _ _ _ eq_refl), Ha.
  cbn [unwrap]. rewrite (M_bind_lift _ _ _ _ eq_refl), (M_bind_run _ _ _ _ _ eq_refl).
  assert (write_at (tx_buffers Q c) (cur_tx Q c) ptr
          = Done (<[Z.to_nat (cur_tx Q c) := ptr]> (tx_buffers Q c))) as ->.
  { unfold write_at. case_match eqn:E; [done |]. unfold len in E. lia. }
  rewrite (M_bind_lift _ _ _ _ eq_refl). unfold add_w. rewrite arith_in by (unfold uint; lia).
  rewrite (M_bind_lift _ _ _ _ eq_refl). fold next.
  erewrite M_bind_run by (unfold on_hw; rewrite write_command_run by (done || unfold REG_TXDESCTAIL; lia);
    reflexivity).
  reflexivity.
Qed.

(** Sending leaves the receive side alone. *)
Definition rx_kept c m c' m' : Prop :=
  rx_ring Q m' = rx_ring Q m ∧ rx_memory Q m' = rx_memory Q m ∧ handler_queue Q m' = handler_queue Q m
  ∧ rx_buffers Q c' = rx_buffers Q c ∧ cur_rx Q c' = cur_rx Q c ∧ card_id Q c' = card_id Q c.

Lemma transmit_step N c m p ps :
  tx_ok c m → q_items (card_queue Q c) = p :: ps →
  ∃ c1 m1, transmit_loop Q translate (S N) c m = transmit_loop Q translate N c1 m1
    ∧ q_items (card_queue Q c1) = ps
    ∧ cur_tx Q c1 = (cur_tx Q c + 1) mod 8
    ∧ last_reclaimed_tx Q c1 = last_reclaimed_tx Q c ∧ com Q c1 = com Q c
    ∧ hw Q m1 = mmio_write (hw Q m) (reg_address (com Q c) REG_TXDESCTAIL) (cur_tx Q c1)
    ∧ next_box Q m1 = next_box Q m + 1
    ∧ boxes Q m1 = <[next_box Q m := buf_data (buffer p)]> (boxes Q m)
    ∧ tx_ok c1 m1
    ∧ loaded c1 m1 (Z.to_nat (cur_tx Q c)) (next_box Q m) p
    ∧ (∀ i, i ≠ Z.to_nat (cur_tx Q c) →
        tx_ring Q m1 !! i = tx_ring Q m !! i ∧ tx_buffers Q c1 !! i = tx_buffers Q c !! i)
    ∧ rx_kept c m c1 m1.
Proof.
  intros Htx Hq. pose proof Htx as [Hcom Hcur Hlr Hlb]. cbn [transmit_loop].
  destruct (dequeue_some _ _ _ _ Hq) as (Hok & Hitems & _).
  destruct (q_try_dequeue (card_queue Q c)) as [q r]. simpl in Hok, Hitems. subst r.
  destruct (lookup_lt_is_Some_2 (tx_ring Q m) (Z.to_nat (cur_tx Q c)) ltac:(lia)) as [d Hd].
  destruct (Hmapped (next_box Q m)) as [a Ha].
  rewrite (M_bind_run _ _ _ _ _ eq_refl). cbn [fst snd].
  erewrite M_bind_run by (eapply (enqueue_packet_run (with_card_queue Q c q)); [by destruct Htx | exact Hd | exact Ha]).
  eexists _, _. split; [reflexivity |]. cbn.
  pose proof (Z.mod_pos_bound (cur_tx Q c + 1) 8).
  split_and!; try done.
  - split; cbn; rewrite ?length_insert; auto || lia.
  - eexists. cbn. rewrite !list_lookup_insert_eq, lookup_insert_eq by lia. split_and!; done.
  - intros i Hi. by rewrite !list_lookup_insert_ne by done.
Qed.

Definition tpos : nat → nat → nat := ring_pos TX_DESC.

Lemma tpos_next c1 c j :
  0 ≤ cur_tx Q c < 8 → cur_tx Q c1 = (cur_tx Q c + 1) mod 8 →
  tpos (Z.to_nat (cur_tx Q c1)) j = tpos (Z.to_nat (cur_tx Q c)) (S j).
Proof.
  intros Hc ->. unfold tpos. rewrite <- ring_pos_S. rewrite Z2Nat.inj_mod by lia. do 2 f_equal. lia.
Qed.

Lemma transmit_run N c m :
  tx_ok c m → (N ≤ 8)%nat →
  let ps := q_items (card_queue Q c) in
  let n := Nat.min N (length ps) in
  ∃ c' m', transmit_loop Q translate N c m = Done (m', c')
    ∧ q_items (card_queue Q c') = drop n ps
    ∧ cur_tx Q c' = (cur_tx Q c + Z.of_nat n) mod 8
    ∧ last_reclaimed_tx Q c' = last_reclaimed_tx Q c
    ∧ tx_ok c' m'
    ∧ ((0 < n)%nat → ∃ h, hw Q m' = mmio_write h (reg_address (com Q c) REG_TXDESCTAIL) (cur_tx Q c'))
    ∧ (∀ j p, ps !! j = Some p → (j < n)%nat →
         loaded c' m' (tpos (Z.to_nat (cur_tx Q c)) j) (next_box Q m + Z.of_nat j) p)
    ∧ (∀ i, (∀ j, (j < n)%nat → i ≠ tpos (Z.to_nat (cur_tx Q c)) j) →
         tx_ring Q m' !! i = tx_ring Q m !! i ∧ tx_buffers Q c' !! i = tx_buffers Q c !! i)
    ∧ (∀ ptr, ptr < next_box Q m → boxes Q m' !! ptr = boxes Q m !! ptr).
Proof.
  revert c m. induction N as [| N IH]; intros c m Htx HN ps n.
  { exists c, m. pose proof (tx_cur _ _ Htx). split_and!; try done; try lia.
    simpl. rewrite Z.add_0_r, Z.mod_small by done. done. }
  destruct (q_items (card_queue Q c)) as [| p ps1] eqn:Eps.
  { exists (with_card_queue Q c (card_queue Q c)), m. pose proof (tx_cur _ _ Htx). subst ps n.
    cbn [transmit_loop]. rewrite (dequeue_none _ _ Eps).
    split_and!; try done; simpl; try lia; try (destruct Htx; done).
    by rewrite Z.add_0_r, Z.mod_small. }
  subst ps. destruct (transmit_step N c m p ps1 Htx Eps)
    as (c1 & m1 & -> & Hq & Hcur & Hlast & Hcom & Hhw & Hnext & Hbox & Htx1 & Hload & Hother & _).
  destruct (IH c1 m1 Htx1 ltac:(lia)) as (c' & m' & Hr & Hq' & Hcur' & Hlast' & Htx' & Hhw' & Hload' & Hother' & Hbox').
  rewrite Hq in *. set (n1 := Nat.min N (length ps1)) in *. assert (n = S n1) as -> by reflexivity.
  pose proof (tx_cur _ _ Htx) as Hc.
  assert (∀ j, (0 < j < 8)%nat → tpos (Z.to_nat (cur_tx Q c)) j ≠ Z.to_nat (cur_tx Q c)) as Hne
    by (intros; apply ring_pos_ne; unfold TX_DESC; lia).
  exists c', m'. split; [exact Hr |]. split_and!; try done.
  - rewrite Hcur', Hcur, Zplus_mod_idemp_l. f_equal. lia.
  - by rewrite Hlast'.
  - intros _. destruct (decide (n1 = 0%nat)) as [E | E].
    + destruct N as [| N]; [| destruct ps1; [| by simpl in E]].
      * injection Hr as <- <-. eauto.
      * cbn [transmit_loop] in Hr. rewrite (dequeue_none _ _ Hq) in Hr. injection Hr as <- <-. eauto.
    + destruct Hhw' as [h Hh]; [lia |]. exists h. by rewrite Hh, Hcom.
  - intros [| j] p' Hp Hj; simplify_eq/=.
    + rewrite Z.add_0_r. unfold tpos at 1. rewrite ring_pos_0 by (unfold TX_DESC; lia).
      destruct Hload as (d & H1' & H2' & H3' & H4' & H5' & H6' & H7').
      destruct (Hother' (Z.to_nat (cur_tx Q c))) as [E1 E2].
      { intros j Hj'. rewrite (tpos_next c1 c) by done. apply not_eq_sym, Hne. lia. }
      exists d. rewrite E1, E2, Hbox' by lia. done.
    + rewrite <- (tpos_next c1 c) by done.
      replace (next_box Q m + Z.of_nat (S j)) with (next_box Q m1 + Z.of_nat j) by lia.
      apply Hload'; [done | lia].
  - intros i Hi. destruct (Hother' i) as [E1 E2].
    { intros j Hj. rewrite (tpos_next c1 c) by done. apply Hi. lia. }
    rewrite E1, E2. apply Hother. specialize (Hi 0%nat ltac:(lia)).
    unfold tpos in Hi. by rewrite ring_pos_0 in Hi by (unfold TX_DESC; lia).
  - intros ptr Hptr. rewrite Hbox' by lia. rewrite Hbox. apply lookup_insert_ne. lia.
Qed.

(** The descriptors the card works on when its head and tail registers are
    [head] and [tail]: an equal head and tail is an empty ring. *)
Definition pending (head tail : Z) : list nat :=
  map (tpos (Z.to_nat head)) (seq 0 (Z.to_nat ((tail - head) mod 8))).

Lemma pending_sent cur n :
  0 ≤ cur < 8 → (n ≤ 8)%nat →
  pending cur ((cur + Z.of_nat n) mod 8)
  = if decide (n = 8%nat) then [] else map (tpos (Z.to_nat cur)) (seq 0 n).
Proof.
  intros Hc Hn. unfold pending. rewrite Zminus_mod_idemp_l. replace (cur + Z.of_nat n - cur) with (Z.of_nat n) by lia.
  destruct (decide (n = 8%nat)) as [-> |]; [done |]. rewrite Z.mod_small, Nat2Z.id by lia. done.
Qed.

(** C14: the transmit loop.  It takes the first packets of the queue, at most
    eight, in order, and loads each into the next descriptor with the physical
    address and length of its buffer and the report-status command; every
    other descriptor keeps its content.  The tail register then makes exactly
    these descriptors pending for the card, unless they are eight: a full ring
    looks empty, and the card sends nothing. *)
Theorem transmit_loop_spec c m :
  tx_ok c m →
  let ps := q_items (card_queue Q c) in
  let n := Nat.min 8 (length ps) in
  ∃ c' m', transmit_loop Q translate TX_DESC c m = Done (m', c')
    ∧ q_items (card_queue Q c') = drop n ps
    ∧ (∀ j p, ps !! j = Some p → (j < n)%nat →
         loaded c' m' (tpos (Z.to_nat (cur_tx Q c)) j) (next_box Q m + Z.of_nat j) p)
    ∧ (∀ i, (∀ j, (j < n)%nat → i ≠ tpos (Z.to_nat (cur_tx Q c)) j) →
         tx_ring Q m' !! i = tx_ring Q m !! i)
    ∧ ((0 < n)%nat → ∃ h, hw Q m' = mmio_write h (reg_address (com Q c) REG_TXDESCTAIL) (cur_tx Q c'))
    ∧ pending (cur_tx Q c) (cur_tx Q c')
      = if decide (n = 8%nat) then [] else map (tpos (Z.to_nat (cur_tx Q c))) (seq 0 n).
Proof.
  intros Htx ps n. pose proof (tx_cur _ _ Htx) as Hc.
  destruct (transmit_run TX_DESC c m Htx ltac:(unfold TX_DESC; lia))
    as (c' & m' & Hr & Hq & Hcur & _ & _ & Hhw & Hload & Hother & _).
  exists c', m'. split; [exact Hr |]. split_and!; try done.
  - intros i Hi. by apply Hother.
  - rewrite Hcur. apply pending_sent; [done |]. unfold TX_DESC. lia.
Qed.

(** ** Giving buffers back *)

(** The card has reported slot [i] as sent. *)
Definition reported m (i : nat) : bool :=
  match tx_ring Q m !! i with Some d => tx_status d =? 1 | None => false end.

(** The reported slots among [slots], in order, and the pointers they hold. *)
Definition sent_slots m (slots : list nat) : list nat := filter (λ i, reported m i = true) slots.
Definition pointers c (slots : list nat) : list Z := omap (λ i, tx_buffers Q c !! i) slots.

(** Emptying slot [i], whose pointer is [p]. *)
Definition slot_freed (i : Z) c : E1000Card Q :=
  with_reclaimed Q c ((i + 1) mod 8) (<[Z.to_nat i := 0]> (tx_buffers Q c)).
Definition box_freed (p : Z) m : Machine Q (H := H) := set_boxes Q m (delete p (boxes Q m)).

Lemma reclaim_free fuel i h c m d p :
  0 ≤ i < 8 → i ≠ h → tx_ring Q m !! Z.to_nat i = Some d → tx_status d = 1 →
  tx_buffers Q c !! Z.to_nat i = Some p → is_Some (boxes Q m !! p) →
  reclaim_loop Q (S fuel) i h c m = reclaim_loop Q fuel ((i + 1) mod 8) h (slot_freed i c) (box_freed p m).
Proof.
  intros Hi Hne Hd Hs Hp [data Hdata]. cbn [reclaim_loop]. rewrite (proj2 (Z.eqb_neq i h)) by done.
  rewrite (M_bind_run _ _ _ _ _ eq_refl). unfold deref. rewrite Hd, (M_bind_lift _ _ _ _ eq_refl), Hs.
  cbn [Z.eqb Pos.eqb negb]. rewrite (index_ok _ _ p) by (done || lia). rewrite (M_bind_lift _ _ _ _ eq_refl).
  erewrite M_bind_run by (unfold from_raw; rewrite Hdata; reflexivity).
  assert (write_at (tx_buffers Q c) i 0 = Done (<[Z.to_nat i := 0]> (tx_buffers Q c))) as ->.
  { apply lookup_lt_Some in Hp. unfold write_at. case_match eqn:E; [done |]. unfold len in E. lia. }
  by rewrite (M_bind_lift _ _ _ _ eq_refl).
Qed.

Lemma reclaim_skip fuel i h c m d :
  i ≠ h → tx_ring Q m !! Z.to_nat i = Some d → tx_status d ≠ 1 →
  reclaim_loop Q (S fuel) i h c m = reclaim_loop Q fuel ((i + 1) mod 8) h c m.
Proof.
  intros Hne Hd Hs. cbn [reclaim_loop]. rewrite (proj2 (Z.eqb_neq i h)) by done.
  rewrite (M_bind_run _ _ _ _ _ eq_refl). unfold deref. rewrite Hd, (M_bind_lift _ _ _ _ eq_refl).
  by rewrite (proj2 (Z.eqb_neq _ 1)) by done.
Qed.

Lemma tpos_succ i j : 0 ≤ i < 8 → tpos (Z.to_nat ((i + 1) mod 8)) j = tpos (Z.to_nat i) (S j).
Proof. intros Hi. unfold tpos. rewrite <- ring_pos_S, Z2Nat.inj_mod by lia. do 2 f_equal. lia. Qed.

Lemma pointers_cons c i p slots :
  tx_buffers Q c !! i = Some p → pointers c (i :: slots) = p :: pointers c slots.
Proof. intros Hp. unfold pointers. cbn. by rewrite Hp. Qed.

(** Freeing a slot does not change what the others hold. *)
Lemma pointers_freed i c slots :
  Z.to_nat i ∉ slots → pointers (slot_freed i c) slots = pointers c slots.
Proof.
  intros Hi. unfold pointers. induction slots as [| j slots IH]; [done |].
  apply not_elem_of_cons in Hi as [Hne Hi]. cbn [omap list_omap]. rewrite (IH Hi). cbn [slot_freed tx_buffers with_reclaimed].
  by rewrite list_lookup_insert_ne.
Qed.

(** The [k] slots from [i] on. *)
Definition slots_from (i : Z) (k : nat) : list nat := map (tpos (Z.to_nat i)) (seq 0 k).

Lemma slots_from_S i k :
  0 ≤ i < 8 → slots_from i (S k) = Z.to_nat i :: slots_from ((i + 1) mod 8) k.
Proof.
  intros Hi. unfold slots_from. cbn [seq map]. f_equal.
  - unfold tpos. apply ring_pos_0. unfold TX_DESC. lia.
  - rewrite <- seq_shift, map_map. apply map_ext. intros j. by rewrite tpos_succ.
Qed.

Lemma slots_from_fresh i k : 0 ≤ i < 8 → (k < 8)%nat → Z.to_nat i ∉ slots_from ((i + 1) mod 8) k.
Proof.
  intros Hi Hk (j & Hj & Hin)%list_elem_of_fmap. apply elem_of_seq in Hin.
  rewrite tpos_succ in Hj by done. symmetry in Hj. revert Hj. apply ring_pos_ne; unfold TX_DESC; lia.
Qed.

(** One past the last slot of [slots]. *)
Definition after_last (last : Z) (slots : list nat) : Z :=
  match list.last slots with Some i => (Z.of_nat i + 1) mod 8 | None => last end.

(** What a pass over [slots] leaves: the reported ones are free. *)
Definition reclaimed_exactly (slots : list nat) c m c' m' : Prop :=
  let sent := sent_slots m slots in
  ∃ bufs bs, m' = set_boxes Q m bs
    ∧ c' = with_reclaimed Q c (after_last (last_reclaimed_tx Q c) sent) bufs
    ∧ (∀ p, bs !! p = if decide (p ∈ pointers c sent) then None else boxes Q m !! p)
    ∧ (∀ i, bufs !! i = if decide (i ∈ sent) then Some 0 else tx_buffers Q c !! i).

Lemma reclaimed_none c m : reclaimed_exactly [] c m c m.
Proof. exists (tx_buffers Q c), (boxes Q m). by destruct c, m. Qed.

Lemma reclaimed_skip i slots c m c' m' :
  reported m i = false → reclaimed_exactly slots c m c' m' → reclaimed_exactly (i :: slots) c m c' m'.
Proof. unfold reclaimed_exactly, sent_slots. intros Hi Hr. by rewrite filter_cons_False by congruence. Qed.

Lemma after_last_cons i slots last :
  0 ≤ i < 8 → after_last last (Z.to_nat i :: slots) = after_last ((i + 1) mod 8) slots.
Proof.
  intros Hi. unfold after_last. rewrite last_cons. destruct (list.last slots); [done |]. by rewrite Z2Nat.id by lia.
Qed.

Lemma reclaimed_free i p slots c m c' m' :
  0 ≤ i < 8 → length (tx_buffers Q c) = 8%nat → reported m (Z.to_nat i) = true → Z.to_nat i ∉ slots →
  tx_buffers Q c !! Z.to_nat i = Some p →
  reclaimed_exactly slots (slot_freed i c) (box_freed p m) c' m' →
  reclaimed_exactly (Z.to_nat i :: slots) c m c' m'.
Proof.
  intros Hi Hl Hr Hin Hp (bufs & bs & -> & -> & Hbs & Hbufs).
  change (sent_slots (box_freed p m) slots) with (sent_slots m slots) in *.
  unfold reclaimed_exactly. replace (sent_slots m (Z.to_nat i :: slots)) with (Z.to_nat i :: sent_slots m slots)
    by (unfold sent_slots; by rewrite filter_cons_True).
  assert (Z.to_nat i ∉ sent_slots m slots) as Hns by (intros [_ ?]%list_elem_of_filter; done).
  exists bufs, bs. cbn zeta. rewrite after_last_cons, (pointers_cons _ _ p) by done. split_and!; [done | done | |].
  - intros q. rewrite Hbs, pointers_freed by done. cbn [box_freed boxes set_boxes].
    destruct (decide (q = p)) as [-> |].
    + rewrite lookup_delete_eq. rewrite (decide_True (P := p ∈ p :: _)) by by left. by case_decide.
    + rewrite lookup_delete_ne by done. destruct (decide (q ∈ pointers c (sent_slots m slots))).
      * by rewrite decide_True by by right.
      * by rewrite decide_False by by apply not_elem_of_cons.
  - intros j. rewrite Hbufs. cbn [slot_freed tx_buffers with_reclaimed].
    destruct (decide (j = Z.to_nat i)) as [-> |].
    + rewrite decide_False, list_lookup_insert_eq by (done || lia). by rewrite decide_True by by left.
    + rewrite list_lookup_insert_ne by done. destruct (decide (j ∈ sent_slots m slots)).
      * by rewrite decide_True by by right.
      * by rewrite decide_False by by apply not_elem_of_cons.
Qed.

(** The reported slots hold live boxes, each its own. *)
Definition reclaimable c m (slots : list nat) : Prop :=
  let ptrs := pointers c (sent_slots m slots) in
  NoDup ptrs ∧ ∀ p, p ∈ ptrs → is_Some (boxes Q m !! p).

Lemma reclaim_run k fuel i c m :
  0 ≤ i < 8 → (k < 8)%nat → (k < fuel)%nat →
  length (tx_buffers Q c) = 8%nat → (8 ≤ length (tx_ring Q m))%nat → reclaimable c m (slots_from i k) →
  ∃ c' m', reclaim_loop Q fuel i ((i + Z.of_nat k) mod 8) c m = Done (m', c')
    ∧ reclaimed_exactly (slots_from i k) c m c' m'.
Proof.
  revert fuel i c m. induction k as [| k IH]; intros [| fuel] i c m Hi Hk Hf Hl Hlr Hre; try lia.
  { exists c, m. cbn [reclaim_loop]. rewrite Z.add_0_r, Z.mod_small, Z.eqb_refl by done.
    split; [done | apply reclaimed_none]. }
  set (h := (i + Z.of_nat (S k)) mod 8). set (i1 := (i + 1) mod 8).
  assert (i ≠ h) as Hne by (unfold h; Z.to_euclidean_division_equations; lia).
  assert (0 ≤ i1 < 8) as Hi1 by (apply Z.mod_pos_bound; lia).
  assert ((i1 + Z.of_nat k) mod 8 = h) as Eh by (unfold i1, h; rewrite Zplus_mod_idemp_l; f_equal; lia).
  rewrite slots_from_S in Hre |- * by done. fold i1 in Hre |- *.
  pose proof (slots_from_fresh i k Hi ltac:(lia)) as Hfresh. fold i1 in Hfresh.
  destruct (lookup_lt_is_Some_2 (tx_ring Q m) (Z.to_nat i) ltac:(lia)) as [d Hd].
  destruct (lookup_lt_is_Some_2 (tx_buffers Q c) (Z.to_nat i) ltac:(lia)) as [p Hp].
  unfold reclaimable, sent_slots in Hre.
  destruct (reported m (Z.to_nat i)) eqn:Er; pose proof Er as Er'; unfold reported in Er'; rewrite Hd in Er'.
  - rewrite filter_cons_True, (pointers_cons _ _ p) in Hre by done. destruct Hre as [Hnd Hlive].
    apply list.NoDup_cons in Hnd as [Hnin Hnd].
    rewrite (reclaim_free fuel i h c m d p) by (done || (by apply Z.eqb_eq) || (apply Hlive; by left)). fold i1.
    destruct (IH fuel i1 (slot_freed i c) (box_freed p m)) as (c' & m' & Hr & Hc'); try done; try lia.
    { cbn. by rewrite length_insert. }
    { unfold reclaimable. rewrite pointers_freed by (intros [_ ?]%list_elem_of_filter; done). split; [done |].
      intros q Hq. cbn. rewrite lookup_delete_ne by (intros ->; done). apply Hlive. by right. }
    rewrite Eh in Hr. exists c', m'. split; [done |]. by eapply reclaimed_free.
  - rewrite filter_cons_False in Hre by congruence.
    rewrite (reclaim_skip fuel i h c m d) by (done || by apply Z.eqb_neq). fold i1.
    destruct (IH fuel i1 c m) as (c' & m' & Hr & Hc'); try done; try lia.
    rewrite Eh in Hr. exists c', m'. split; [done |]. by apply reclaimed_skip.
Qed.

(** C15: the reclaim loop.  The slots from the last reclaimed one up to the card's
    head may be in any state.  When those the card has reported as sent
    (status 1) hold live boxes, each its own, the loop ends within the ring's
    nine rounds, frees exactly the boxes of the reported slots, once each,
    clears exactly these slots, and remembers the position after the last of
    them, or keeps the old one when there is none; slots not reported keep
    their buffers, and nothing else of the card or the machine changes. *)
Theorem reclaim_loop_spec c m (head : Z) :
  0 ≤ last_reclaimed_tx Q c < 8 → 0 ≤ head < 8 →
  length (tx_buffers Q c) = 8%nat → (8 ≤ length (tx_ring Q m))%nat →
  let last := last_reclaimed_tx Q c in
  let sent := filter (λ i, reported m i = true) (pending last head) in
  let ptrs := omap (λ i, tx_buffers Q c !! i) sent in
  NoDup ptrs → (∀ p, p ∈ ptrs → is_Some (boxes Q m !! p)) →
  ∃ bufs bs,
    reclaim_loop Q (S TX_DESC) last head c m
    = Done (set_boxes Q m bs,
            with_reclaimed Q c
              (match list.last sent with Some i => (Z.of_nat i + 1) mod 8 | None => last end) bufs)
    ∧ (∀ p, bs !! p = if decide (p ∈ ptrs) then None else boxes Q m !! p)
    ∧ (∀ i, bufs !! i = if decide (i ∈ sent) then Some 0 else tx_buffers Q c !! i).
Proof.
  intros Hi Hh Hl Hlr last sent ptrs Hnd Hlive.
  destruct (reclaim_run (Z.to_nat ((head - last) mod 8)) (S TX_DESC) last c m)
    as (c' & m' & Hr & bufs & bs & -> & -> & Hbs & Hbufs);
    try done; try (unfold TX_DESC; Z.to_euclidean_division_equations; lia).
  rewrite Z2Nat.id, Zplus_mod_idemp_r in Hr by (apply Z.mod_pos_bound; lia).
  replace (last + (head - last)) with head in Hr by lia. rewrite (Z.mod_small head) in Hr by lia.
  by exists bufs, bs.
Qed.

End transmit.
