(* ===== verification/E1000Init.v ===== *)
(** * Setting the card up

    [E1000Card::init] of [E1000]: the rings and buffers it allocates satisfy
    what the interrupt handler relies on, and the registers tell the card
    where they are. *)

From stdpp Require Import base tactics list gmap numbers.
From Stdlib Require Import ZArith Lia.
From S2P Require Import Prelude Queue Buffer Ethernet Device Handler Regs Pci E1000 E1000Rx E1000Tx.

Local Open Scope Z_scope.

(** Some registers store what is written to them: they change by writes to
    themselves only, and reading them returns what they store.  Others (the
    interrupt cause, the EEPROM access register) behave in ways of their own. *)
Class RegLaws (H : Type) `{Mmio H} := {
  stores : Z → bool;
  reg : H → Z → Z;
  reg_write : ∀ h a v a', stores a' = true → reg (mmio_write h a v) a' = if a' =? a then v else reg h a';
  reg_read : ∀ h a a', stores a' = true → reg (mmio_read h a).1 a' = reg h a';
  reg_value : ∀ h a, stores a = true → (mmio_read h a).2 = reg h a }.

(** The registers of the two rings, which store. *)
Definition ring_regs : list Z :=
  [REG_RXDESCLO; REG_RXDESCHI; REG_RXDESCLEN; REG_RXDESCHEAD; REG_RXDESCTAIL;
   REG_TXDESCLO; REG_TXDESCHI; REG_TXDESCLEN; REG_TXDESCHEAD; REG_TXDESCTAIL].

Ltac in_ring := unfold ring_regs; rewrite !elem_of_cons; auto 12.

Ltac reg_bound :=
  unfold REG_TCTRL, REG_TXDESCLO, REG_TXDESCHI, REG_TXDESCLEN, REG_TXDESCHEAD, REG_TXDESCTAIL,
    REG_TXDESCCTRL, REG_RCTRL, REG_RXDESCLO, REG_RXDESCHI, REG_RXDESCLEN, REG_RXDESCHEAD,
    REG_RXDESCTAIL, REG_TIPG, REG_EEPROM, REG_ICAUSE, REG_ICSET, REG_IMASK, REG_STATUS; lia.

Lemma ring_regs_bounds r : r ∈ ring_regs → 0 ≤ r < 0x10000 ∧ (r =? REG_EEPROM) = false.
Proof.
  intros Hr. assert (Forall (λ r, 0 ≤ r < 0x10000 ∧ (r =? REG_EEPROM) = false) ring_regs) as HF.
  { unfold ring_regs. repeat constructor; done. }
  rewrite List.Forall_forall in HF. by apply HF, list_elem_of_In.
Qed.

Section init.
Context {Q : Type → Type} {H : Type} `{QueueLaws Q} `{!UnboundedQueue Q} `{Mmio H} `{!RegLaws H}.
Context {B : Build} (translate : Z → option Z) (Hmapped : ∀ p, is_Some (translate p)).

Implicit Types (c : Coms) (m : Machine Q (H := H)).

Lemma on_hw_write c p v m :
  com_ok c → 0 ≤ p < 0x10000 →
  on_hw Q (write_command c p v) m
  = Done (set_hw Q m (mmio_write (hw Q m) (reg_address c p) v), tt).
Proof. intros Hc Hp. unfold on_hw. by rewrite write_command_run. Qed.

Lemma on_hw_read c p m :
  com_ok c → 0 ≤ p < 0x10000 →
  on_hw Q (read_command c p) m
  = Done (set_hw Q m (mmio_read (hw Q m) (reg_address c p)).1, (mmio_read (hw Q m) (reg_address c p)).2).
Proof. intros Hc Hp. unfold on_hw. by rewrite read_command_run. Qed.

Lemma any_eeprom_run n c m :
  com_ok c → ∃ h b, on_hw Q (any_eeprom n c) m = Done (set_hw Q m h, b).
Proof.
  intros Hc. revert m. induction n as [| n IH]; intros m; cbn [any_eeprom].
  - exists (hw Q m), false. by destruct m.
  - unfold on_hw. erewrite M_bind_run by (apply read_command_run; [done | reg_bound]).
    destruct (0 <? _); [eexists _, true; reflexivity |].
    destruct (IH (set_hw Q m (mmio_read (hw Q m) (reg_address c REG_EEPROM)).1)) as (h & b & Hr).
    unfold on_hw in Hr. cbn [hw set_hw] in Hr. exists h, b. destruct (any_eeprom n c _) as [[h' b'] | |]; done.
Qed.

Lemma init_rx_descriptors_run n m :
  ∃ m' descs, init_rx_descriptors Q translate n m = Done (m', (descs, seqZ (next_box Q m) (Z.of_nat n)))
    ∧ length descs = n ∧ Forall (λ d, rx_status d = 0 ∧ rx_length d = 0) descs
    ∧ (∀ p, next_box Q m ≤ p < next_box Q m + Z.of_nat n →
         rx_memory Q m' !! p = Some (replicate 2064 0))
    ∧ (∀ p, p < next_box Q m → rx_memory Q m' !! p = rx_memory Q m !! p)
    ∧ hw Q m' = hw Q m ∧ handler_queue Q m' = handler_queue Q m
    ∧ next_box Q m' = next_box Q m + Z.of_nat n.
Proof.
  revert m. induction n as [| n IH]; intros m; cbn [init_rx_descriptors].
  { exists m, []. split_and!; try done; [intros; lia | lia]. }
  rewrite (M_bind_run _ _ _ _ _ eq_refl).
  destruct (Hmapped (next_box Q m)) as [a Ha]. rewrite Ha. cbn [unwrap].
  rewrite (M_bind_lift _ _ _ _ eq_refl).
  match goal with |- context [init_rx_descriptors Q translate n] =>
    match goal with |- context [mbind _ _ ?m1] => destruct (IH m1)
      as (m' & descs & Hr & Hl & Hd & Hnew & Hold & Hh & Hq & Hb) end end.
  rewrite (M_bind_run _ _ _ _ _ Hr). cbn [next_box] in *. eexists m', _. split_and!; [| | | | | done | done | lia].
  - unfold mret, M_ret. cbn [fst snd]. do 3 f_equal.
    rewrite (seqZ_cons (next_box Q m)) by lia. do 2 f_equal; lia.
  - simpl. by rewrite Hl.
  - by constructor.
  - intros p Hp. destruct (decide (p = next_box Q m)) as [-> |].
    + rewrite Hold by lia. cbn. apply lookup_insert_eq.
    + apply Hnew. lia.
  - intros p Hp. rewrite Hold by lia. cbn. apply lookup_insert_ne. lia.
Qed.

Lemma reg_address_eqb c p p' : com_ok c → (reg_address c p =? reg_address c p') = (p =? p').
Proof.
  unfold com_ok, reg_address. destruct (com_bar c); [| done]. intros _.
  destruct (Z.eqb_spec p p'), (Z.eqb_spec (address + p + com_offset c) (address + p' + com_offset c)); lia.
Qed.

Definition regs_store c : Prop := ∀ r, r ∈ ring_regs → stores (reg_address c r) = true.

Lemma reg_write_ring c p r v (h : H) :
  com_ok c → regs_store c → r ∈ ring_regs →
  reg (mmio_write h (reg_address c p) v) (reg_address c r) = if r =? p then v else reg h (reg_address c r).
Proof. intros Hc Hs Hr. by rewrite reg_write, reg_address_eqb by auto. Qed.

(** Run the next register write. *)
Ltac run_write Hc := erewrite M_bind_run by (apply on_hw_write; [exact Hc | reg_bound]).

(** The value of a register after a sequence of writes. *)
Ltac reg_value := cbn [hw set_hw]; rewrite ?reg_write_ring by (done || in_ring); reflexivity.

Lemma init_rx_run c m :
  com_ok c → regs_store c → ∃ m' descs rx, init_rx Q translate c m = Done (m', seqZ (next_box Q m) 32)
    ∧ translate (next_box Q m + 33) = Some rx ∧ next_box Q m' = next_box Q m + 34
    ∧ rx_ring Q m' = descs ∧ length descs = 33%nat
    ∧ Forall (λ d, rx_status d = 0 ∧ rx_length d = 0) descs
    ∧ (∀ p, next_box Q m ≤ p < next_box Q m + 33 → rx_memory Q m' !! p = Some (replicate 2064 0))
    ∧ handler_queue Q m' = handler_queue Q m
    ∧ reg (hw Q m') (reg_address c REG_RXDESCLO) = cast 32 rx
    ∧ reg (hw Q m') (reg_address c REG_RXDESCHI) = 0
    ∧ reg (hw Q m') (reg_address c REG_RXDESCLEN) = 512
    ∧ reg (hw Q m') (reg_address c REG_RXDESCHEAD) = 0
    ∧ reg (hw Q m') (reg_address c REG_RXDESCTAIL) = 31.
Proof.
  intros Hc Hs. unfold init_rx.
  destruct (init_rx_descriptors_run (S RX_DESC) m) as (m1 & descs & Hr & Hl & Hd & Hnew & _ & Hh & Hq & Hb).
  rewrite (M_bind_run _ _ _ _ _ Hr). rewrite (M_bind_run _ _ _ _ _ eq_refl).
  rewrite (M_bind_run _ _ _ _ _ eq_refl).
  destruct (Hmapped (next_box Q m1)) as [rx Hrx]. rewrite Hrx. cbn [unwrap].
  rewrite (M_bind_lift _ _ _ _ eq_refl). do 8 run_write Hc.
  eexists _, descs, rx. split; [reflexivity |]. cbn [rx_ring set_hw set_rx_ring rx_memory handler_queue].
  change (Z.of_nat (S RX_DESC)) with 33 in *. rewrite Hb in Hrx. cbn [next_box].
  split_and!; try done; try reg_value. cbn [next_box set_hw set_rx_ring]. lia.
Qed.

Lemma init_tx_run c m :
  com_ok c → regs_store c → ∃ m' tx, init_tx Q translate c m = Done (m', tt)
    ∧ translate (next_box Q m) = Some tx
    ∧ tx_ring Q m' = replicate 9 (init_tx_descriptor tx_default) ∧ next_box Q m' = next_box Q m + 1
    ∧ rx_ring Q m' = rx_ring Q m ∧ rx_memory Q m' = rx_memory Q m
    ∧ handler_queue Q m' = handler_queue Q m
    ∧ reg (hw Q m') (reg_address c REG_TXDESCLO) = cast 32 tx
    ∧ reg (hw Q m') (reg_address c REG_TXDESCHI) = cast 32 (Z.shiftr tx 32)
    ∧ reg (hw Q m') (reg_address c REG_TXDESCLEN) = 128
    ∧ reg (hw Q m') (reg_address c REG_TXDESCHEAD) = 0
    ∧ reg (hw Q m') (reg_address c REG_TXDESCTAIL) = 0
    ∧ ∀ r, r ∈ [REG_RXDESCLO; REG_RXDESCHI; REG_RXDESCLEN; REG_RXDESCHEAD; REG_RXDESCTAIL] →
        reg (hw Q m') (reg_address c r) = reg (hw Q m) (reg_address c r).
Proof.
  intros Hc Hs. unfold init_tx. rewrite (M_bind_run _ _ _ _ _ eq_refl), (M_bind_run _ _ _ _ _ eq_refl).
  destruct (Hmapped (next_box Q m)) as [tx Htx]. rewrite Htx. cbn [unwrap].
  rewrite (M_bind_lift _ _ _ _ eq_refl). do 6 run_write Hc.
  rewrite (on_hw_write _ _ _ _ Hc) by reg_bound.
  eexists _, tx. split; [reflexivity |]. cbn [tx_ring rx_ring set_hw set_tx_ring rx_memory handler_queue].
  split_and!; try done; try reg_value.
  intros r Hr. do 5 (apply elem_of_cons in Hr as [-> | Hr]; [reg_value |]).
  by apply not_elem_of_nil in Hr.
Qed.

(** [init], with how it learns whether there is an EEPROM. *)
Lemma init_run id bar offset q m :
  let coms := {| com_bar := bar; com_offset := offset |} in
  com_ok coms → regs_store coms → q_is_closed (handler_queue Q m) = false →
  ∃ (card : E1000Card Q) m' rx tx, init Q translate id bar offset q m = Done (m', card)
    ∧ card_id Q card = id ∧ card_queue Q card = q ∧ com Q card = coms
    ∧ rx_ok card m' ∧ (∀ i, ready m' i = false)
    ∧ tx_ok card m' ∧ Forall (λ d, tx_status d = 1) (tx_ring Q m')
    ∧ cur_tx Q card = 0 ∧ last_reclaimed_tx Q card = 0 ∧ Forall (eq 0) (tx_buffers Q card)
    ∧ translate (next_box Q m + 33) = Some rx ∧ translate (next_box Q m + 34) = Some tx
    ∧ map (λ r, reg (hw Q m') (reg_address coms r)) ring_regs
      = [cast 32 rx; 0; 512; 0; 31; cast 32 tx; cast 32 (Z.shiftr tx 32); 128; 0; 0]
    ∧ ∃ h, any_eeprom 1000 coms
        (mmio_write (mmio_read (hw Q m) (reg_address coms REG_STATUS)).1 (reg_address coms REG_EEPROM) 1)
        = Done (h, has_eeprom Q card)
    ∧ rx_buffers Q card = seqZ (next_box Q m) 32 ∧ next_box Q m' = next_box Q m + 35.
Proof.
  intros coms Hc Hs Hopen. unfold init. fold coms.
  erewrite M_bind_run by (apply on_hw_read; [exact Hc | reg_bound]). run_write Hc.
  match goal with |- context [mbind _ (on_hw Q (any_eeprom 1000 coms)) ?m0] =>
    destruct (any_eeprom_run 1000 coms m0 Hc) as (h & b & Hr) end.
  rewrite (M_bind_run _ _ _ _ _ Hr).
  match goal with |- context [mbind _ (init_rx _ _ _) ?m1] =>
    destruct (init_rx_run coms m1 Hc Hs)
      as (m2 & descs & rx & Hr2 & Hrx & Hnext & Hring & Hl & Hd & Hmem & Hq & R1 & R2 & R3 & R4 & R5) end.
  rewrite (M_bind_run _ _ _ _ _ Hr2).
  destruct (init_tx_run coms m2 Hc Hs)
    as (m3 & tx & Hr3 & Htx & Htr & Hnext3 & Hrr & Hrm & Hhq & T1 & T2 & T3 & T4 & T5 & Hsame).
  rewrite (M_bind_run _ _ _ _ _ Hr3).
  cbn [next_box set_hw handler_queue] in Hrx, Hnext, Hmem, Hq. rename Hr into Hee. clear Hr2 Hr3.
  rewrite !Hnext in Htx.
  eexists _, m3, rx, tx. split; [reflexivity |]. subst descs.
  assert (∀ i d, rx_ring Q m3 !! i = Some d → rx_status d = 0 ∧ rx_length d = 0) as Hdesc.
  { intros i d Hi. rewrite Hrr in Hi. by eapply Forall_lookup_1 in Hd. }
  split_and!; try done.
  - split; cbn [com cur_rx rx_buffers]; try done; try lia.
    + by rewrite Hrr.
    + intros i p Hp. apply lookup_seqZ in Hp as [-> Hi]. eexists.
      cbn [next_box set_hw]. rewrite Hrm, Hmem by lia. split; [done | by rewrite length_replicate].
    + intros i d Hi. destruct (Hdesc i d Hi). lia.
    + by rewrite Hhq, Hq.
  - intros i. unfold ready. destruct (rx_ring Q m3 !! i) as [d |] eqn:Hi; [| done].
    by destruct (Hdesc i d Hi) as [-> _].
  - split; cbn [com cur_tx tx_buffers]; try done; try lia. by rewrite Htr.
  - rewrite Htr. by apply Forall_replicate.
  - by apply Forall_replicate.
  - cbn [ring_regs map]. rewrite (Hsame REG_RXDESCLO), (Hsame REG_RXDESCHI), (Hsame REG_RXDESCLEN),
      (Hsame REG_RXDESCHEAD), (Hsame REG_RXDESCTAIL) by (rewrite !elem_of_cons; auto 10).
    by rewrite R1, R2, R3, R4, R5, T1, T2, T3, T4, T5.
  - exists h. cbn [has_eeprom]. unfold on_hw in Hee. cbn [hw set_hw] in Hee. split_and!; [| done | cbn in *; lia].
    by destruct (any_eeprom 1000 coms _) as [[? ?] | |]; simplify_eq.
Qed.

(** C22: card set-up.  [init] returns a card for which the interrupt handler's
    preconditions hold on both rings: 32 receive descriptors with a 2064-byte
    buffer each and none ready, every transmit descriptor done and no buffer
    held.  The registers give the card both rings: the transmit ring with its
    whole 64-bit address, the receive ring with the low 32 bits of its address
    only (the high half is written as zero). *)
Theorem init_spec id bar offset q m :
  let coms := {| com_bar := bar; com_offset := offset |} in
  com_ok coms → regs_store coms → q_is_closed (handler_queue Q m) = false →
  ∃ (card : E1000Card Q) m' rx tx, init Q translate id bar offset q m = Done (m', card)
    ∧ card_id Q card = id ∧ card_queue Q card = q ∧ com Q card = coms
    ∧ rx_ok card m' ∧ (∀ i, ready m' i = false)
    ∧ tx_ok card m' ∧ Forall (λ d, tx_status d = 1) (tx_ring Q m')
    ∧ cur_tx Q card = 0 ∧ last_reclaimed_tx Q card = 0 ∧ Forall (eq 0) (tx_buffers Q card)
    ∧ translate (next_box Q m + 33) = Some rx ∧ translate (next_box Q m + 34) = Some tx
    ∧ map (λ r, reg (hw Q m') (reg_address coms r)) ring_regs
      = [cast 32 rx; 0; 512; 0; 31; cast 32 tx; cast 32 (Z.shiftr tx 32); 128; 0; 0].
Proof.
  intros coms Hc Hs Hopen. destruct (init_run id bar offset q m Hc Hs Hopen)
    as (card & m' & rx & tx & ? & ? & ? & ? & ? & ? & ? & ? & ? & ? & ? & ? & ? & ? & _).
  by exists card, m', rx, tx.
Qed.

End init.

(** ** A concrete machine *)

Module SampleCard.

(** Registers that hold what was written. *)
Abbreviation regs := (gmap Z Z).

#[global] Instance regs_mmio : Mmio regs := {|
  mmio_write h a v := <[a := v]> h;
  mmio_read h a := (h, default 0 (h !! a)) |}.

#[global] Instance regs_laws : RegLaws regs.
Proof.
  refine {| stores := λ _, true; reg h a := default 0 (h !! a) |}; [| done..].
  intros h a v a' _. cbn [mmio_write regs_mmio].
  destruct (Z.eqb_spec a' a) as [-> |]; [by rewrite lookup_insert_eq | by rewrite lookup_insert_ne].
Defined.

Definition bar : BaseAddressRegister := MemorySpace 0xfebc0000 false 0.
Definition coms : Coms := {| com_bar := bar; com_offset := 0x8000000000 |}.

Definition identity_map (p : Z) : option Z := Some p.

Definition blank : Machine jiffy_queue (H := regs) := {|
  hw := ∅; rx_ring := []; tx_ring := []; rx_memory := ∅; boxes := ∅; next_box := 1;
  handler_queue := mk_jiffy [] false |}.

(** A card whose receive buffers are one and the same. *)
Definition card (cur : Z) (bufs : list Z) (q : list Ethernet.Packet) : E1000Card jiffy_queue := {|
  card_id := 3; com := coms; has_eeprom := true; cur_tx := cur; cur_rx := 31;
  last_reclaimed_tx := 0; rx_buffers := replicate 32 1000; tx_buffers := bufs;
  card_queue := mk_jiffy q false |}.

Definition done_tx : TxDesc := init_tx_descriptor tx_default.

Definition rx_done (len : Z) : RxDesc := {|
  rx_addr := 1000; rx_length := len; rx_checksum := 0; rx_status := 3; rx_errors := 0;
  rx_special := 0 |}.

(** Two packets have arrived, in the last and the first descriptor. *)
Definition machine : Machine jiffy_queue (H := regs) := {|
  hw := ∅; rx_ring := rx_done 60 :: replicate 30 rx_default ++ [rx_done 64; rx_default];
  tx_ring := replicate 9 done_tx; rx_memory := {[1000 := replicate 2064 7]};
  boxes := {[500 := []; 501 := []]}; next_box := 502; handler_queue := mk_jiffy [] false |}.

(** The first packet is not sent yet. *)
Definition half_sent : Machine jiffy_queue (H := regs) :=
  set_tx_ring _ machine (tx_descriptor done_tx 500 60 :: replicate 8 done_tx).

Definition frame (n : nat) : Ethernet.Packet := Ethernet.packet_new (new (replicate n 0)).

Lemma coms_ok : com_ok coms.
Proof. by vm_compute. Qed.

Lemma coms_store : regs_store coms.
Proof. done. Qed.

End SampleCard.

Lemma init_spec_witness :
  ∃ c m', init jiffy_queue SampleCard.identity_map 3 SampleCard.bar 0x8000000000
      (mk_jiffy [] false) (B := debug_build) SampleCard.blank = Done (m', c)
    ∧ rx_ok c m' ∧ tx_ok c m'.
Proof.
  destruct (init_spec (B := debug_build) SampleCard.identity_map
    (λ p, ex_intro _ p eq_refl) 3 SampleCard.bar 0x8000000000 (mk_jiffy [] false) SampleCard.blank
    SampleCard.coms_ok SampleCard.coms_store ltac:(done))
    as (c & m' & rx & tx & H1 & _ & _ & _ & H2 & _ & H3 & _).
  exists c, m'. split; [exact H1 |]. split; [exact H2 | exact H3].
Defined.

Lemma receive_loop_spec_witness :
  ∃ m', receive_loop jiffy_queue (B := debug_build) (S RX_DESC)
      (SampleCard.card 0 (replicate 8 0) []) SampleCard.machine
      = Done (m', with_cur_rx _ (SampleCard.card 0 (replicate 8 0) []) 1)
    ∧ length (jq_items (handler_queue _ m')) = 2%nat.
Proof.
  assert (rx_ok (SampleCard.card 0 (replicate 8 0) []) SampleCard.machine) as Hok.
  { split; try done; try (by vm_compute).
    - intros i p Hp. change (rx_buffers _ _) with (replicate 32 1000) in Hp.
      apply lookup_replicate in Hp as [-> _]. exists (replicate 2064 7). split; [by vm_compute |].
      apply length_replicate.
    - intros i d Hd. change (rx_ring _ _)
        with (SampleCard.rx_done 60 :: replicate 30 rx_default ++ [SampleCard.rx_done 64; rx_default]) in Hd.
      apply list_elem_of_lookup_2 in Hd. rewrite elem_of_cons, elem_of_app, elem_of_replicate in Hd.
      rewrite !elem_of_cons, elem_of_nil in Hd.
      destruct Hd as [-> | [[-> _] | [-> | [-> | []]]]]; simpl; lia. }
  destruct (receive_loop_spec (B := debug_build) _ _ 2 Hok ltac:(lia))
    as (m' & H1 & H2 & _).
  - intros [| [| j]] Hj; [by vm_compute | by vm_compute | lia].
  - right. by vm_compute.
  - exists m'. split; [exact H1 |]. change (jq_items ?q) with (q_items q). rewrite H2. done.
Defined.

Lemma transmit_loop_spec_witness :
  ∃ c' m', transmit_loop jiffy_queue SampleCard.identity_map (B := debug_build) TX_DESC
      (SampleCard.card 6 (replicate 8 0) [SampleCard.frame 60; SampleCard.frame 64; SampleCard.frame 68])
      SampleCard.machine = Done (m', c')
    ∧ pending 6 (cur_tx _ c') = [6; 7; 0]%nat.
Proof.
  destruct (transmit_loop_spec (B := debug_build) SampleCard.identity_map
    (λ p, ex_intro _ p eq_refl)
    (SampleCard.card 6 (replicate 8 0) [SampleCard.frame 60; SampleCard.frame 64; SampleCard.frame 68])
    SampleCard.machine ltac:(by split; [exact SampleCard.coms_ok | by vm_compute.. ]))
    as (c' & m' & H1 & _ & _ & _ & _ & H2).
  exists c', m'. split; [exact H1 | exact H2].
Defined.

(** The card has reported the second slot before the first. *)
Lemma reclaim_loop_spec_witness :
  ∃ m' c', reclaim_loop jiffy_queue (S TX_DESC) 0 2
      (SampleCard.card 2 [500; 501; 0; 0; 0; 0; 0; 0] []) SampleCard.half_sent = Done (m', c')
    ∧ last_reclaimed_tx _ c' = 2 ∧ boxes _ m' !! 500 = Some [] ∧ boxes _ m' !! 501 = None
    ∧ tx_buffers _ c' !! 0%nat = Some 500 ∧ tx_buffers _ c' !! 1%nat = Some 0.
Proof.
  destruct (reclaim_loop_spec
    (SampleCard.card 2 [500; 501; 0; 0; 0; 0; 0; 0] []) SampleCard.half_sent 2
    ltac:(by vm_compute) ltac:(lia) eq_refl ltac:(by vm_compute; lia)
    ltac:(by apply (bool_decide_unpack _); vm_compute)
    ltac:(by intros p ->%list_elem_of_singleton; eexists)) as (bufs & bs & H1 & H2 & H3).
  eexists _, _. split; [exact H1 |]. split; [by vm_compute |].
  split; [exact (H2 500) |]. split; [exact (H2 501) |]. split; [exact (H3 0%nat) | exact (H3 1%nat)].
Defined.

(** ** Refilling before reclaiming *)

Module Refill.
Import SampleCard.

(** The card sends everything that is pending and reports it. *)
Definition card_completes (m : Machine jiffy_queue (H := regs)) : Machine jiffy_queue (H := regs) :=
  let tail := default 0 (hw _ m !! reg_address coms REG_TXDESCTAIL) in
  let done d := {| tx_addr := tx_addr d; tx_length := tx_length d; tx_cso := tx_cso d;
                   tx_cmd := tx_cmd d; tx_status := 1; tx_css := tx_css d; tx_special := tx_special d |} in
  set_hw _ (set_tx_ring _ m (map done (tx_ring _ m)))
    (<[reg_address coms REG_ICAUSE := 1]> (<[reg_address coms REG_TXDESCHEAD := tail]> (hw _ m))).

(** The card completes, [n] packets are queued, and the interrupt is handled. *)
Definition round (n : nat) (s : Machine jiffy_queue (H := regs) * E1000Card jiffy_queue) :
    outcome (Machine jiffy_queue (H := regs) * E1000Card jiffy_queue) :=
  handle_interrupt jiffy_queue identity_map (B := debug_build)
    (with_card_queue _ s.2 (mk_jiffy (replicate n (frame 60)) false)) (card_completes s.1).

Definition start : Machine jiffy_queue (H := regs) * E1000Card jiffy_queue :=
  ({| hw := ∅; rx_ring := replicate 33 rx_default; tx_ring := replicate 9 done_tx;
      rx_memory := ∅; boxes := ∅; next_box := 1; handler_queue := mk_jiffy [] false |},
   card 0 (replicate 8 0) []).

(** The interrupt handler refills the ring before it reclaims it.  Five
    packets, five more once the first five are sent, and a last interrupt:
    everything was sent and no slot holds a buffer any more, but two boxes of
    the first batch were overwritten and are never freed. *)
Theorem refill_leaks :
  ∃ s, (s ← round 5 start; s ← round 5 s; round 0 s) = Done s
    ∧ Forall (eq 0) (tx_buffers _ s.2) ∧ dom (boxes _ s.1) = {[1; 2]}.
Proof.
  eexists. split; [vm_compute; reflexivity |]. split; [repeat constructor |]. by vm_compute.
Qed.

End Refill.
