(* ===== verification/Register.v ===== *)
(** * Typed registers

    The generic [Register] of [src/src/hardware/device/e1000/regs.rs]: an
    address, the type of its content and a marker that says which accesses it
    allows.  The markers have no values and the accesses are methods with a
    class constraint, so that writing a read-only register is not a term. *)

From stdpp Require Import base tactics list numbers.
From Stdlib Require Import ZArith Lia.
From S2P Require Import Prelude Queue Regs Pci E1000 E1000Rx E1000Init.

Local Open Scope Z_scope.

(** ** Markers *)

Inductive RegisterRW := .
Inductive RegisterRO := .
Inductive RegisterWO := .

Class WriteableRegister (RT : Type) : Prop := {}.
Class ReadableRegister (RT : Type) : Prop := {}.

#[export] Instance writeable_wo : WriteableRegister RegisterWO := {}.
#[export] Instance writeable_rw : WriteableRegister RegisterRW := {}.
#[export] Instance readable_rw : ReadableRegister RegisterRW := {}.
#[export] Instance readable_ro : ReadableRegister RegisterRO := {}.

(** ** Contents *)

(** [From<u32>] and [Into<u32>] *)
Class FromU32 (T : Type) := from_u32 : Z → T.
Class IntoU32 (T : Type) := into_u32 : T → Z.

#[export] Instance ctrl_from_u32 : FromU32 Ctrl.CtrlRegister := Ctrl.ctrl_from.
#[export] Instance ctrl_into_u32 : IntoU32 Ctrl.CtrlRegister := Ctrl.ctrl_into.
#[export] Instance status_from_u32 : FromU32 Status.StatusRegister := Status.status_from.
#[export] Instance imask_from_u32 : FromU32 IMask.IMaskRegister := IMask.imask_from.
#[export] Instance imask_into_u32 : IntoU32 IMask.IMaskRegister := IMask.imask_into.
#[export] Instance cause_from_u32 : FromU32 Cause.InterruptCauseRegister := Cause.cause_from.
#[export] Instance cause_into_u32 : IntoU32 Cause.InterruptCauseRegister := Cause.cause_into.

(** What a register holds of a value survives the two conversions. *)
Class RoundTrip (T : Type) `{FromU32 T, IntoU32 T} := {
  holds : T → Prop;
  from_into : ∀ t, holds t → from_u32 (into_u32 t) = t }.

#[export] Instance ctrl_round_trip : RoundTrip Ctrl.CtrlRegister.
Proof. refine {| holds r := uint 2 (Ctrl.speed_selection r) |}. intros r. apply (ctrl_roundtrip r 0). Defined.
#[export] Instance imask_round_trip : RoundTrip IMask.IMaskRegister.
Proof. refine {| holds _ := True |}. intros r _. apply (imask_roundtrip r 0). Defined.
#[export] Instance cause_round_trip : RoundTrip Cause.InterruptCauseRegister.
Proof. refine {| holds _ := True |}. intros r _. apply (cause_roundtrip r 0). Defined.

(** ** Registers *)

Record Register (ADDR : Z) (T RT : Type) := register_new {}.
Arguments register_new {ADDR T RT}.

Definition CTRL : Type := Register 0x0000 Ctrl.CtrlRegister RegisterRW.
Definition STATUS : Type := Register 0x0008 Status.StatusRegister RegisterRO.
Definition IMASK : Type := Register 0x00D0 IMask.IMaskRegister RegisterRW.
Definition InterruptCause : Type := Register 0x00c0 Cause.InterruptCauseRegister RegisterRW.

Section register.
Context {H : Type} `{Mmio H} {B : Build} {ADDR : Z} {T RT : Type}.

Definition register_read `{FromU32 T, ReadableRegister RT} (r : Register ADDR T RT) (com : Coms) : M H T :=
  v ← read_command com ADDR;
  mret (from_u32 v).

Definition write_raw `{WriteableRegister RT} (r : Register ADDR T RT) (com : Coms) (value : Z) : M H unit :=
  write_command com ADDR value.

Definition register_write `{IntoU32 T, WriteableRegister RT} (r : Register ADDR T RT) (com : Coms) (value : T) : M H unit :=
  write_raw r com (into_u32 value).

(** What is written to a register that keeps its content is read back. *)
Lemma register_write_read `{!RegLaws H} `{RoundTrip T} `{WriteableRegister RT, ReadableRegister RT}
    (r : Register ADDR T RT) (com : Coms) (value : T) (h : H) :
  com_ok com → 0 ≤ ADDR < 0x10000 → stores (reg_address com ADDR) = true → holds value →
  ∃ h', (_ ← register_write r com value; register_read r com) h = Done (h', value)
    ∧ reg h' (reg_address com ADDR) = into_u32 value.
Proof.
  intros Hc Ha Hs Hv. unfold register_write, write_raw, register_read.
  rewrite (M_bind_run _ _ _ _ _ (write_command_run com ADDR _ h Hc Ha)).
  erewrite M_bind_run by (by apply read_command_run).
  eexists. split; [rewrite reg_value, reg_write, Z.eqb_refl, from_into by done; reflexivity |].
  by rewrite reg_read, reg_write, Z.eqb_refl.
Qed.

End register.

(** ** The driver's registers *)

Definition REG_CTRL : CTRL := register_new.
Definition REG_STATUS : STATUS := register_new.
Definition REG_IMASK : IMASK := register_new.
Definition REG_ICAUSE : InterruptCause := register_new.

Section driver.
Context {H : Type} `{Mmio H} {B : Build} (com : Coms).

(** The commands of the driver are accesses to these registers. *)
Lemma driver_accesses (mask : IMask.IMaskRegister) :
  register_read REG_STATUS com = (v ← read_command com E1000.REG_STATUS; mret (Status.status_from v) : M H _)
  ∧ register_write REG_IMASK com mask = (write_command com E1000.REG_IMASK (IMask.imask_into mask) : M H _)
  ∧ register_read REG_ICAUSE com = (v ← read_command com E1000.REG_ICAUSE; mret (Cause.cause_from v) : M H _).
Proof. done. Qed.

End driver.
