(* ===== verification/E1000Frame.v ===== *)
(** * What setting a card up leaves alone

    A frame relation for the set-up code of [E1000]: registers change only by
    accesses of the card's, memory only grows, boxes and the handler's queue
    are not touched.  [init], [enable_interrupts] and [read_mac_address] stay
    within it; [stays] carries the proofs. *)

From stdpp Require Import base tactics list gmap numbers.
From Stdlib Require Import ZArith Lia.
From S2P Require Import Prelude Queue Buffer Ethernet Device Handler Regs Pci E1000 E1000Rx E1000Tx E1000Init.

Local Open Scope Z_scope.

Section frame.
Context {Q : Type → Type} {H : Type} `{QueueOps Q} `{Mmio H} {B : Build}.

(** The registers of a card. *)
Definition card_reg (c : Coms) (a : Z) : Prop := ∃ p, 0 ≤ p < 0x10000 ∧ target_address c p = Done a.

(** A sequence of accesses to the registers of a card. *)
Inductive accessed (c : Coms) : H → H → Prop :=
  | accessed_refl h : accessed c h h
  | accessed_write h h' a v : accessed c h h' → card_reg c a → accessed c h (mmio_write h' a v)
  | accessed_read h h' a : accessed c h h' → card_reg c a → accessed c h (mmio_read h' a).1.

Lemma accessed_trans c h1 h2 h3 : accessed c h1 h2 → accessed c h2 h3 → accessed c h1 h3.
Proof. intros H12. induction 1; eauto using accessed. Qed.

(** A property no access changes holds at the end. *)
Lemma accessed_invariant (P : H → Prop) c h h' :
  (∀ h a v, card_reg c a → P h → P (mmio_write h a v)) → (∀ h a, card_reg c a → P h → P (mmio_read h a).1) →
  accessed c h h' → P h → P h'.
Proof. intros Hw Hr. induction 1; eauto. Qed.

Context (coms : Coms).

Record grows (m m' : Machine Q (H := H)) : Prop := {
  gr_hw : accessed coms (hw Q m) (hw Q m');
  gr_boxes : boxes Q m' = boxes Q m;
  gr_queue : handler_queue Q m' = handler_queue Q m;
  gr_next : next_box Q m ≤ next_box Q m';
  gr_memory : ∀ p, p < next_box Q m → rx_memory Q m' !! p = rx_memory Q m !! p }.

#[export] Instance grows_preorder : PreOrder grows.
Proof.
  split.
  - intros m. split; try done. constructor.
  - intros m1 m2 m3 [] []. split; try congruence; try lia.
    + eauto using accessed_trans.
    + intros p Hp. rewrite gr_memory1 by lia. by apply gr_memory0.
Qed.

#[export] Instance accessed_preorder : PreOrder (accessed coms).
Proof. split; [constructor | intros ? ? ?; apply accessed_trans]. Qed.

Lemma keeps_on_hw {A} (k : M H A) : stays (accessed coms) k → stays grows (on_hw Q k).
Proof.
  intros Hk m m' a Hr. unfold on_hw in Hr. destruct (k (hw Q m)) as [[h b] | |] eqn:E; simplify_eq.
  split; try done. cbn. by eapply Hk.
Qed.

Lemma keeps_write p v : 0 ≤ p < 0x10000 → stays (accessed coms) (write_command coms p v).
Proof.
  intros Hp h h' a Hr. unfold write_command in Hr. m_inv. constructor; [constructor |]. by exists p.
Qed.

Lemma keeps_read p : 0 ≤ p < 0x10000 → stays (accessed coms) (read_command coms p).
Proof.
  intros Hp h h' a Hr. unfold read_command, read_volatile in Hr. m_inv.
  destruct (mmio_read _ _) as [h1 v1] eqn:E. simplify_eq. change h' with (h', a).1. rewrite <- E.
  constructor; [constructor |]. by exists p.
Qed.

Hint Resolve keeps_on_hw keeps_write keeps_read : stays.
Hint Extern 1 (0 ≤ _ < _) => reg_bound : stays.

Lemma keeps_any_eeprom n : stays (accessed coms) (any_eeprom n coms).
Proof. induction n; cbn [any_eeprom]; stays. Qed.

Lemma keeps_wait_eeprom n : stays (accessed coms) (wait_eeprom n coms).
Proof. induction n; cbn [wait_eeprom]; stays. Qed.

Hint Resolve keeps_any_eeprom keeps_wait_eeprom : stays.

Lemma keeps_read_eeprom fuel c a : com Q c = coms → stays (accessed coms) (read_eeprom Q fuel c a).
Proof. intros Hc. unfold read_eeprom. rewrite Hc. stays. Qed.

Hint Resolve keeps_read_eeprom : stays.

Lemma keeps_read_mac fuel c : com Q c = coms → stays (accessed coms) (read_mac_address Q fuel c).
Proof. intros Hc. unfold read_mac_address. stays. Qed.

Lemma keeps_enable_interrupts c : com Q c = coms → stays grows (enable_interrupts Q c).
Proof. intros Hc. unfold enable_interrupts. rewrite Hc. stays. Qed.

Lemma keeps_set_rx_ring r : stays grows (modify (λ m, set_rx_ring Q m r)).
Proof. intros m m' a [= <- _]. by split. Qed.

Lemma keeps_set_tx_ring r : stays grows (modify (λ m, set_tx_ring Q m r)).
Proof. intros m m' a [= <- _]. by split. Qed.

Lemma keeps_new_rx_buffer : stays grows (new_rx_buffer Q).
Proof.
  intros m m' a [= <- _]. split; cbn; try done; [lia |].
  intros p Hp. apply lookup_insert_ne. lia.
Qed.

Lemma keeps_allocate_ring : stays grows (allocate_ring Q).
Proof. intros m m' a [= <- _]. split; cbn; try done; lia. Qed.

Hint Resolve keeps_set_rx_ring keeps_set_tx_ring keeps_new_rx_buffer keeps_allocate_ring : stays.

Context (translate : Z → option Z).

Lemma keeps_init_rx_descriptors n : stays grows (init_rx_descriptors Q translate n).
Proof. induction n; cbn [init_rx_descriptors]; stays. Qed.

Hint Resolve keeps_init_rx_descriptors : stays.

Lemma keeps_init_rx : stays grows (init_rx Q translate coms).
Proof. unfold init_rx. apply stays_bind; [typeclasses eauto | auto with stays |]. intros [descs ptrs]. stays. Qed.

Lemma keeps_init_tx : stays grows (init_tx Q translate coms).
Proof. unfold init_tx. stays. Qed.

Hint Resolve keeps_init_rx keeps_init_tx : stays.

Lemma keeps_init id q : stays grows (init Q translate id (com_bar coms) (com_offset coms) q).
Proof.
  unfold init. replace {| com_bar := com_bar coms; com_offset := com_offset coms |} with coms by by destruct coms.
  stays. Qed.

End frame.
