(* ===== verification/E1000Safe.v ===== *)
(** * The driver against any card

    The interrupt handler of [E1000] frees transmit buffers by the pointers
    it keeps per slot.  This file shows that, however interrupts, sends and
    receptions of the card and packets to send follow each other, it never
    frees a pointer that is not a live box, never reads past a buffer and
    always returns: rule induction over a step relation with an invariant on
    the arcs between the last reclaimed slot, the card's head and the driver's
    tail. *)

From stdpp Require Import base tactics list gmap numbers relations.
From Stdlib Require Import ZArith Lia.
From S2P Require Import Prelude Queue Buffer Ethernet Device Handler Regs Pci E1000 E1000Rx E1000Tx E1000Init E1000Frame.

Local Open Scope Z_scope.

(** ** Arcs of the ring *)

(** Slot [i] is met on the way from [a] to [b]. *)
Definition arc (a b i : Z) : Prop := 0 ≤ i < 8 ∧ (i - a) mod 8 < (b - a) mod 8.

Ltac arc_solve := unfold arc in *; Z.to_euclidean_division_equations; lia.

Section arcs.
Context (a b : Z) (Ha : 0 ≤ a < 8) (Hb : 0 ≤ b < 8).

Lemma arc_refl i : ¬ arc a a i.
Proof. unfold arc. rewrite Z.sub_diag. change (0 mod 8) with 0. intros [Hi Hm]. pose proof (Z.mod_pos_bound (i - a) 8). lia. Qed.

Lemma arc_first : a ≠ b → arc a b a.
Proof. intros Hne. split; [done |]. arc_solve. Qed.

(** Extending an arc by one slot. *)
Lemma arc_next_end i : arc a ((b + 1) mod 8) i → arc a b i ∨ i = b.
Proof. intros Hi. destruct (decide (i = b)); [by right | left]. arc_solve. Qed.

(** Shortening it by its first slot. *)
Lemma arc_next_start i : a ≠ b → arc ((a + 1) mod 8) b i → arc a b i ∧ i ≠ a.
Proof. intros Hne Hi. split; [arc_solve | intros ->; arc_solve]. Qed.

Lemma arc_length : (b - a) mod 8 < 8.
Proof. apply Z.mod_pos_bound. lia. Qed.

Lemma arc_length_next : a ≠ b → (b - (a + 1) mod 8) mod 8 < (b - a) mod 8.
Proof. intros Hne. arc_solve. Qed.

End arcs.

Section safe.
Context {Q : Type → Type} {H : Type} `{QueueLaws Q} `{!UnboundedQueue Q} `{Mmio H} `{!RegLaws H}.
Context {B : Build} (translate : Z → option Z) (Hmapped : ∀ p, is_Some (translate p)).

Implicit Types (c : E1000Card Q) (m : Machine Q (H := H)).

Definition head c m : Z := reg (hw Q m) (reg_address (com Q c) REG_TXDESCHEAD).
Definition tail c m : Z := reg (hw Q m) (reg_address (com Q c) REG_TXDESCTAIL).

(** Slot [i] keeps a pointer. *)
Definition held c (i : Z) : Prop := ∃ p, tx_buffers Q c !! Z.to_nat i = Some p ∧ p ≠ 0.

Definition slot_done m (i : Z) : Prop := ∃ d, tx_ring Q m !! Z.to_nat i = Some d ∧ tx_status d = 1.

(** Pointers kept in slots are live boxes, each in one slot. *)
Definition owned c m : Prop :=
  (∀ k p, tx_buffers Q c !! k = Some p → p ≠ 0 → is_Some (boxes Q m !! p))
  ∧ (∀ k j p, tx_buffers Q c !! k = Some p → tx_buffers Q c !! j = Some p → p ≠ 0 → k = j).

(** Slots from the last reclaimed one to the head and from the head to the
    tail keep a pointer, and the card has not completed the latter. *)
Record tx_inv c m : Prop := {
  ti_ok : tx_ok c m;
  ti_last : 0 ≤ last_reclaimed_tx Q c < 8;
  ti_store : regs_store (com Q c);
  ti_head : 0 ≤ head c m < 8;
  ti_tail : tail c m = cur_tx Q c;
  ti_owned : owned c m;
  ti_range : ∀ p, is_Some (boxes Q m !! p) → p < next_box Q m;
  ti_next : 0 < next_box Q m;
  ti_sent : ∀ i, arc (last_reclaimed_tx Q c) (head c m) i → held c i;
  ti_pending : ∀ i, arc (head c m) (cur_tx Q c) i → held c i ∧ ¬ slot_done m i }.

(** What the work of a card leaves alone: the registers of other cards, the
    receive buffers (up to their content) and the boxes it does not keep. *)
Record leaves c m c' m' : Prop := {
  lv_reg : ∀ a, stores a = true → ¬ card_reg (com Q c) a → reg (hw Q m') a = reg (hw Q m) a;
  lv_com : com Q c' = com Q c;
  lv_id : card_id Q c' = card_id Q c;
  lv_rx : rx_buffers Q c' = rx_buffers Q c;
  lv_memory : ∀ p data, rx_memory Q m !! p = Some data → length data = 2064%nat →
    ∃ data', rx_memory Q m' !! p = Some data' ∧ length data' = 2064%nat;
  lv_next : next_box Q m ≤ next_box Q m';
  lv_boxes : ∀ p, p ≠ 0 → p < next_box Q m → (∀ i, tx_buffers Q c !! i ≠ Some p) → boxes Q m' !! p = boxes Q m !! p;
  lv_bufs : ∀ i p, tx_buffers Q c' !! i = Some p → p ≠ 0 → (∃ j, tx_buffers Q c !! j = Some p) ∨ next_box Q m ≤ p }.

Lemma leaves_refl c m : leaves c m c m.
Proof. split; eauto; lia. Qed.

Lemma leaves_trans c1 m1 c2 m2 c3 m3 : leaves c1 m1 c2 m2 → leaves c2 m2 c3 m3 → leaves c1 m1 c3 m3.
Proof.
  intros [R1 C1 I1 K1 M1 N1 X1 B1] [R2 C2 I2 K2 M2 N2 X2 B2]. split; try congruence; try lia.
  - intros a Ha Hc. rewrite R2, R1 by congruence. done.
  - intros p data Hp Hl. destruct (M1 p data Hp Hl) as (data' & Hp' & Hl'). by eapply M2.
  - intros p Hp0 Hp Hc. rewrite X2, X1; try done; try lia. intros i Hi.
    destruct (B1 i p Hi Hp0) as [[j Hj] | ?]; [by apply (Hc j) | lia].
  - intros i p Hi Hp0. destruct (B2 i p Hi Hp0) as [[j Hj] | ?]; [by eapply B1 | right; lia].
Qed.

Lemma card_reg_address (c : Coms) r : com_ok c → 0 ≤ r < 0x10000 → card_reg c (reg_address c r).
Proof. intros Hc Hr. exists r. split; [done |]. by apply target_address_ok. Qed.

(** A change of the card's registers only. *)
Lemma leaves_hw c m h : (∀ a, stores a = true → ¬ card_reg (com Q c) a → reg h a = reg (hw Q m) a) → leaves c m c (set_hw Q m h).
Proof. intros Hh. split; eauto; cbn; lia. Qed.

(** ** Reclaiming *)

(** What a reclaim from slot [i] up to [h] did: it only emptied done slots, and
    none that is still to be reclaimed. *)
Definition reclaimed (i h : Z) c m c' m' : Prop :=
  ∃ last bufs bs, c' = with_reclaimed Q c last bufs ∧ m' = set_boxes Q m bs
    ∧ 0 ≤ last < 8 ∧ length bufs = 8%nat
    ∧ (∀ j p, bufs !! j = Some p → p ≠ 0 → tx_buffers Q c !! j = Some p ∧ bs !! p = boxes Q m !! p)
    ∧ (∀ p, is_Some (bs !! p) → is_Some (boxes Q m !! p))
    ∧ (∀ p, p ≠ 0 → (∀ j, tx_buffers Q c !! j ≠ Some p) → bs !! p = boxes Q m !! p)
    ∧ (∀ j, arc last h j → arc (last_reclaimed_tx Q c) h j)
    ∧ (∀ j, 0 ≤ j < 8 → held c j → ¬ slot_done m j ∨ arc last h j ∨ ¬ arc i h j → bufs !! Z.to_nat j = tx_buffers Q c !! Z.to_nat j).

Lemma slot_freed_bufs i c k q :
  length (tx_buffers Q c) = 8%nat → 0 ≤ i < 8 → tx_buffers Q (slot_freed i c) !! k = Some q → q ≠ 0 →
  k ≠ Z.to_nat i ∧ tx_buffers Q c !! k = Some q.
Proof.
  intros Hl Hi Hk Hq. cbn in Hk. destruct (decide (k = Z.to_nat i)) as [-> |].
  - rewrite list_lookup_insert_eq in Hk by lia. by simplify_eq.
  - by rewrite list_lookup_insert_ne in Hk by done.
Qed.

Lemma owned_freed i p c m :
  length (tx_buffers Q c) = 8%nat → 0 ≤ i < 8 → owned c m → tx_buffers Q c !! Z.to_nat i = Some p → p ≠ 0 →
  owned (slot_freed i c) (box_freed p m)
  ∧ ∀ k q, tx_buffers Q (slot_freed i c) !! k = Some q → q ≠ 0 → boxes Q (box_freed p m) !! q = boxes Q m !! q.
Proof.
  intros Hl Hi [Hlive Hdis] Hp Hp0.
  assert (∀ k q, tx_buffers Q (slot_freed i c) !! k = Some q → q ≠ 0 →
    boxes Q (box_freed p m) !! q = boxes Q m !! q) as Hbox.
  { intros k q Hk Hq. destruct (slot_freed_bufs i c k q Hl Hi Hk Hq) as [Hki Hk']. cbn.
    apply lookup_delete_ne. intros ->. by apply Hki, (Hdis _ _ q). }
  split; [split | done].
  - intros k q Hk Hq. rewrite (Hbox k q Hk Hq). destruct (slot_freed_bufs i c k q Hl Hi Hk Hq). by eapply Hlive.
  - intros k j q Hk Hj Hq. destruct (slot_freed_bufs i c k q Hl Hi Hk Hq), (slot_freed_bufs i c j q Hl Hi Hj Hq).
    by eapply Hdis.
Qed.

Lemma held_freed i j c : 0 ≤ i < 8 → 0 ≤ j < 8 → j ≠ i → held (slot_freed i c) j ↔ held c j.
Proof. intros Hi Hj Hne. unfold held, slot_freed. cbn. by rewrite list_lookup_insert_ne by lia. Qed.

Lemma reclaim_safe fuel i h c m :
  0 ≤ i < 8 → 0 ≤ h < 8 → (h - i) mod 8 < Z.of_nat fuel →
  0 ≤ last_reclaimed_tx Q c < 8 → length (tx_buffers Q c) = 8%nat → length (tx_ring Q m) = 9%nat →
  owned c m → (∀ j, arc i h j → held c j) → (∀ j, arc i h j → arc (last_reclaimed_tx Q c) h j) →
  ∃ c' m', reclaim_loop Q fuel i h c m = Done (m', c') ∧ reclaimed i h c m c' m'.
Proof.
  revert i c m. induction fuel as [| fuel IH]; intros i c m Hi Hh Hf Hlast Hlb Hlr Hown Hheld Harc.
  { pose proof (Z.mod_pos_bound (h - i) 8). lia. }
  destruct (decide (i = h)) as [-> | Hne].
  { exists c, m. cbn [reclaim_loop]. rewrite Z.eqb_refl. split; [done |].
    exists (last_reclaimed_tx Q c), (tx_buffers Q c), (boxes Q m).
    split_and!; try done; solve [by destruct c | by destruct m | naive_solver]. }
  set (i1 := (i + 1) mod 8). assert (0 ≤ i1 < 8) as Hi1 by (apply Z.mod_pos_bound; lia).
  pose proof (arc_length_next i h Hi Hh Hne) as Hlen. fold i1 in Hlen.
  assert (∀ j, arc i1 h j → arc i h j ∧ j ≠ i) as Hsub by (intros j; by apply arc_next_start).
  assert (∀ j, ¬ arc i h j → ¬ arc i1 h j) as Hsub' by (intros j Hj ?; by apply Hj, Hsub).
  destruct (lookup_lt_is_Some_2 (tx_ring Q m) (Z.to_nat i) ltac:(lia)) as [d Hd].
  destruct (decide (tx_status d = 1)) as [Hs | Hs].
  - destruct (Hheld i (arc_first i h Hi Hh Hne)) as (p & Hp & Hp0).
    rewrite (reclaim_free fuel i h c m d p) by (done || by eapply (proj1 Hown)). fold i1.
    destruct (owned_freed i p c m Hlb Hi Hown Hp Hp0) as [Hown1 Hbox].
    destruct (IH i1 (slot_freed i c) (box_freed p m)) as (c' & m' & Hr & last & bufs & bs & -> & -> & Hla & Hbl & Hkeep & Hbs & Hoth & Hla' & Hstay);
      try done; try lia.
    { cbn. by rewrite length_insert. }
    { intros j Hj. destruct (Hsub j Hj) as [Hj' ?]. apply held_freed; [done | apply Hj' | done |]. by apply Hheld. }
    eexists _, _. split; [exact Hr |]. exists last, bufs, bs. split_and!; try done; try lia.
    + intros j q Hj Hq. destruct (Hkeep j q Hj Hq) as [Hj' ->]. rewrite (Hbox j q Hj' Hq).
      by destruct (slot_freed_bufs i c j q Hlb Hi Hj' Hq).
    + intros q Hq. destruct (Hbs q Hq) as [x Hx]. cbn in Hx. apply lookup_delete_Some in Hx as [_ Hx]. by eexists.
    + intros q Hq0 Hq. rewrite Hoth; [cbn; apply lookup_delete_ne; intros ->; by apply (Hq (Z.to_nat i)) | done |].
      intros j Hj. destruct (slot_freed_bufs i c j q Hlb Hi Hj Hq0). by apply (Hq j).
    + intros j Hj. apply Harc, Hsub. by apply Hla'.
    + intros j Hj8 Hj Hcase. destruct (decide (j = i)) as [-> | Hji].
      { exfalso. destruct Hcase as [Hnd | [Hj' | Hj']]; [by apply Hnd; exists d | | by apply Hj', arc_first].
        apply Hla' in Hj'. by apply Hsub in Hj' as [_ ?]. }
      rewrite Hstay; [| done | by apply held_freed | naive_solver]. cbn. apply list_lookup_insert_ne. lia.
  - rewrite (reclaim_skip fuel i h c m d) by done. fold i1.
    destruct (IH i1 c m) as (c' & m' & Hr & last & bufs & bs & -> & -> & Hla & Hbl & Hkeep & Hbs & Hoth & Hla' & Hstay);
      try done; try lia; [intros j Hj; by apply Hheld, Hsub | intros j Hj; by apply Harc, Hsub |].
    eexists _, _. split; [exact Hr |]. exists last, bufs, bs. split_and!; try done; try lia.
    intros j Hj8 Hj Hcase. apply Hstay; [done | done | naive_solver].
Qed.

(** Reclaiming up to the head keeps the invariant. *)
Lemma reclaim_inv c m :
  tx_inv c m →
  ∃ c' m', reclaim_loop Q (S TX_DESC) (last_reclaimed_tx Q c) (head c m) c m = Done (m', c')
    ∧ tx_inv c' m' ∧ (rx_ok c m → rx_ok c' m') ∧ leaves c m c' m'.
Proof.
  intros [Hok Hlast Hst Hhead Htail Hown Hrange Hnext Hsent Hpend].
  destruct (reclaim_safe (S TX_DESC) (last_reclaimed_tx Q c) (head c m) c m)
    as (c' & m' & Hr & last & bufs & bs & -> & -> & Hla & Hbl & Hkeep & Hbs & Hoth & Hla' & Hstay); try done.
  { pose proof (arc_length (last_reclaimed_tx Q c) (head c m)). unfold TX_DESC. lia. }
  { apply Hok. } { apply Hok. }
  assert (∀ j, held c j → 0 ≤ j < 8 → ¬ slot_done m j ∨ arc last (head c m) j →
    held (with_reclaimed Q c last bufs) j) as Hheld.
  { intros j Hj Hj8 Hcase. pose proof Hj as (p & Hp & Hp0). exists p. split; [| done]. cbn.
    rewrite Hstay; [done | done | done |]. destruct Hcase; [by left | by right; left]. }
  eexists _, _. split; [exact Hr |]. split_and!.
  - split; cbn; try done.
    + destruct Hok. by split.
    + destruct Hown as [Hlive Hdis]. split.
      * intros k p Hk Hp. cbn in *. destruct (Hkeep k p Hk Hp) as [Hk' ->]. by eapply Hlive.
      * intros k j p Hk Hj Hp. cbn in *. destruct (Hkeep k p Hk Hp), (Hkeep j p Hj Hp). by eapply Hdis.
    + intros p Hp. by apply Hrange, Hbs.
    + intros j Hj. apply Hheld; [by apply Hsent, Hla' | apply Hj | by right].
    + intros j Hj. destruct (Hpend j Hj) as [Hj' Hnd]. split; [| done].
      apply Hheld; [done | apply Hj | by left].
  - intros []. by split.
  - split; cbn; try done; [by eauto | intros; by apply Hoth |]. intros i p Hi Hp. left. exists i. by apply (Hkeep i p).
Qed.

(** ** Transmitting *)

Lemma held_insert c c1 cur p i :
  0 ≤ cur < 8 → length (tx_buffers Q c) = 8%nat → tx_buffers Q c1 !! Z.to_nat cur = Some p → p ≠ 0 →
  (∀ k, k ≠ Z.to_nat cur → tx_buffers Q c1 !! k = tx_buffers Q c !! k) → held c i ∨ i = cur → held c1 i.
Proof.
  intros Hc Hl Hp Hp0 Hother Hi. destruct (decide (Z.to_nat i = Z.to_nat cur)) as [E |].
  - exists p. by rewrite E.
  - destruct Hi as [(q & Hq & Hq0) | ->]; [| done]. exists q. by rewrite Hother.
Qed.

(** The pointers of the slots once the next box is in the current one. *)
Definition slots_loaded c m c1 : Prop :=
  ∀ k q, tx_buffers Q c1 !! k = Some q → q ≠ 0 →
    (k = Z.to_nat (cur_tx Q c) ∧ q = next_box Q m)
    ∨ (k ≠ Z.to_nat (cur_tx Q c) ∧ tx_buffers Q c !! k = Some q ∧ q < next_box Q m).

Lemma loaded_slots c m c1 :
  owned c m → (∀ p, is_Some (boxes Q m !! p) → p < next_box Q m) →
  tx_buffers Q c1 !! Z.to_nat (cur_tx Q c) = Some (next_box Q m) →
  (∀ k, k ≠ Z.to_nat (cur_tx Q c) → tx_buffers Q c1 !! k = tx_buffers Q c !! k) → slots_loaded c m c1.
Proof.
  intros [Hlive _] Hrange Hbuf Hother k q Hk Hq0. destruct (decide (k = Z.to_nat (cur_tx Q c))) as [-> | Hne].
  - left. split; [done |]. congruence.
  - right. rewrite (Hother k Hne) in Hk. split_and!; try done. apply Hrange. by eapply Hlive.
Qed.

Lemma loaded_owned c m c1 m1 data :
  owned c m → slots_loaded c m c1 → boxes Q m1 = <[next_box Q m := data]> (boxes Q m) → owned c1 m1.
Proof.
  intros [Hlive Hdis] Hslot Hbox. split.
  - intros k q Hk Hq0. rewrite Hbox. destruct (Hslot k q Hk Hq0) as [[_ ->] | (_ & Hk' & Hlt)].
    { rewrite lookup_insert_eq. by eexists. }
    rewrite lookup_insert_ne by lia. by eapply Hlive.
  - intros k j q Hk Hj Hq0.
    destruct (Hslot k q Hk Hq0) as [[-> ->] | (_ & Hk' & ?)], (Hslot j _ Hj Hq0) as [[-> ?] | (_ & Hj' & ?)];
      try done; try lia. by eapply Hdis.
Qed.

Lemma transmit_step_inv N c m p ps :
  tx_inv c m → q_items (card_queue Q c) = p :: ps →
  ∃ c1 m1, transmit_loop Q translate (S N) c m = transmit_loop Q translate N c1 m1
    ∧ tx_inv c1 m1 ∧ last_reclaimed_tx Q c1 = last_reclaimed_tx Q c ∧ head c1 m1 = head c m
    ∧ (rx_ok c m → rx_ok c1 m1) ∧ leaves c m c1 m1.
Proof.
  intros [Hok Hlast Hst Hhead Htail Hown Hrange Hnext Hsent Hpend] Hq.
  destruct (transmit_step translate Hmapped N c m p ps Hok Hq)
    as (c1 & m1 & Hr & _ & Hcur & Hl1 & Hcom & Hhw & Hnb & Hbox & Hok1 & Hload & Hother & Hrx).
  pose proof (tx_com _ _ Hok) as Hc. pose proof (tx_cur _ _ Hok) as Hc8. pose proof (tx_buffers_length _ _ Hok) as Hlb.
  destruct Hload as (d & Hd & _ & _ & _ & Hs & Hbuf & _).
  assert (next_box Q m ≠ 0) as Hn0 by lia.
  assert (head c1 m1 = head c m) as Hh.
  { unfold head. rewrite Hcom, Hhw, reg_write_ring by (done || in_ring). reflexivity. }
  assert (∀ i, held c i ∨ i = cur_tx Q c → held c1 i) as Hheld.
  { intros i. apply (held_insert c c1 (cur_tx Q c) (next_box Q m)); try done. intros k Hk. by apply Hother. }
  pose proof (loaded_slots c m c1 Hown Hrange Hbuf (λ k Hk, proj2 (Hother k Hk))) as Hslot.
  exists c1, m1. split; [exact Hr |]. split_and!; [| done | done | |].
  - split; rewrite ?Hh, ?Hl1, ?Hcom; try done.
    + unfold tail. rewrite Hcom, Hhw, reg_write_ring by (done || in_ring). done.
    + by eapply loaded_owned.
    + intros q. rewrite Hbox, Hnb, lookup_insert_is_Some. intros [<- | [_ Hq']]; [lia |]. specialize (Hrange q Hq'). lia.
    + lia.
    + intros i Hi. apply Hheld. left. by apply Hsent.
    + intros i Hi. rewrite Hcur in Hi. destruct (decide (i = cur_tx Q c)) as [-> | Hne].
      { split; [apply Hheld; by right |]. intros (d' & Hd' & Hs'). congruence. }
      destruct (arc_next_end (head c m) (cur_tx Q c) Hhead Hc8 i Hi) as [Hi' | ->]; [| done].
      destruct (Hpend i Hi') as [Hi1 Hi2]. split; [apply Hheld; by left |]. unfold slot_done.
      destruct (Hother (Z.to_nat i)) as [-> _]; [| done]. destruct Hi' as [? _]. lia.
  - destruct Hrx as (E1 & E2 & E3 & E4 & E5 & _). intros []. split; rewrite ?E1, ?E2, ?E3, ?E4, ?E5, ?Hcom; done.
  - split; try done; try lia.
    + intros a Ha Hna. rewrite Hhw, reg_write by done. destruct (Z.eqb_spec a (reg_address (com Q c) REG_TXDESCTAIL)) as [-> |]; [| done].
      destruct Hna. apply card_reg_address; [done | reg_bound].
    + apply Hrx.
    + apply Hrx.
    + destruct Hrx as (_ & -> & _). eauto.
    + intros q Hq0 Hlt _. rewrite Hbox. apply lookup_insert_ne. lia.
    + intros k q Hk Hq0. destruct (Hslot k q Hk Hq0) as [[_ ->] | (_ & ? & _)]; [right; lia | left; by exists k].
Qed.

Lemma transmit_inv N c m :
  tx_inv c m →
  ∃ c' m', transmit_loop Q translate N c m = Done (m', c')
    ∧ tx_inv c' m' ∧ last_reclaimed_tx Q c' = last_reclaimed_tx Q c ∧ head c' m' = head c m
    ∧ (rx_ok c m → rx_ok c' m') ∧ leaves c m c' m'.
Proof.
  revert c m. induction N as [| N IH]; intros c m Hinv; [exists c, m; split_and!; auto using leaves_refl |].
  destruct (q_items (card_queue Q c)) as [| p ps] eqn:Eq.
  - cbn [transmit_loop]. rewrite (dequeue_none _ _ Eq). eexists _, m. split; [done |].
    split; [destruct Hinv as [[]]; split; done || by split |]. split_and!; try done; [intros []; by split |].
    split; eauto; lia.
  - destruct (transmit_step_inv N c m p ps Hinv Eq) as (c1 & m1 & -> & Hinv1 & Hl1 & Hh1 & Hrx1 & Hlv1).
    destruct (IH c1 m1 Hinv1) as (c' & m' & Hr & Hinv' & Hl' & Hh' & Hrx' & Hlv').
    exists c', m'. split; [done |]. rewrite Hl', Hh', Hl1, Hh1. split_and!; eauto using leaves_trans.
Qed.

(** ** The interrupt handler *)

(** Register changes that leave the head and the tail alone. *)
Definition same_ring c (h h' : H) : Prop :=
  reg h' (reg_address (com Q c) REG_TXDESCHEAD) = reg h (reg_address (com Q c) REG_TXDESCHEAD)
  ∧ reg h' (reg_address (com Q c) REG_TXDESCTAIL) = reg h (reg_address (com Q c) REG_TXDESCTAIL).

Lemma tx_inv_hw c m h : tx_inv c m → same_ring c (hw Q m) h → tx_inv c (set_hw Q m h).
Proof.
  intros [[] ? ? Hhead Htail ? ? ? Hsent Hpend] [E1 E2].
  split; unfold head, tail in *; cbn [hw set_hw]; rewrite ?E1, ?E2; done || by split.
Qed.

Lemma rx_ok_hw c m h : rx_ok c m → rx_ok c (set_hw Q m h).
Proof. intros []. by split. Qed.

Lemma same_ring_read c m p :
  tx_inv c m → same_ring c (hw Q m) (mmio_read (hw Q m) (reg_address (com Q c) p)).1.
Proof. intros Hinv. split; apply reg_read, (ti_store _ _ Hinv); in_ring. Qed.

(** Reading a register of the card. *)
Lemma read_inv c m p :
  tx_inv c m → rx_ok c m → 0 ≤ p < 0x10000 →
  ∃ m' v, on_hw Q (read_command (com Q c) p) m = Done (m', v)
    ∧ (p ∈ ring_regs → v = reg (hw Q m) (reg_address (com Q c) p))
    ∧ tx_inv c m' ∧ rx_ok c m' ∧ head c m' = head c m ∧ leaves c m c m'.
Proof.
  intros Hinv Hrx Hp. pose proof (same_ring_read c m p Hinv) as Hsame.
  rewrite (on_hw_read (com Q c) p m (tx_com _ _ (ti_ok _ _ Hinv)) Hp).
  eexists _, _. split; [reflexivity |]. split; [intros Hring; by apply reg_value, (ti_store _ _ Hinv) |].
  split_and!; [by apply tx_inv_hw | by apply rx_ok_hw | apply Hsame |].
  apply leaves_hw. intros a Ha _. by apply reg_read.
Qed.

Lemma reg_writes c (vs : list Z) (h : H) r :
  com_ok (com Q c) → regs_store (com Q c) → r ∈ ring_regs → r ≠ REG_RXDESCTAIL →
  reg (foldl (λ h v, mmio_write h (reg_address (com Q c) REG_RXDESCTAIL) v) h vs) (reg_address (com Q c) r)
  = reg h (reg_address (com Q c) r).
Proof.
  intros Hc Hs Hr Hne. revert h. induction vs as [| v vs IH]; intros h; [done |]. cbn [foldl].
  rewrite IH, reg_write_ring by done. by apply Z.eqb_neq in Hne as ->.
Qed.

Lemma reg_writes_other c (vs : list Z) (h : H) a :
  com_ok (com Q c) → stores a = true → ¬ card_reg (com Q c) a →
  reg (foldl (λ h v, mmio_write h (reg_address (com Q c) REG_RXDESCTAIL) v) h vs) a = reg h a.
Proof.
  intros Hc Ha Hna. revert h. induction vs as [| v vs IH]; intros h; [done |]. cbn [foldl].
  rewrite IH, reg_write by done. destruct (Z.eqb_spec a (reg_address (com Q c) REG_RXDESCTAIL)) as [-> |]; [| done].
  destruct Hna. apply card_reg_address; [done | reg_bound].
Qed.

Lemma receive_inv c m :
  tx_inv c m → rx_ok c m →
  ∃ c' m', receive_loop Q (S RX_DESC) c m = Done (m', c') ∧ tx_inv c' m' ∧ rx_ok c' m'
    ∧ leaves c m c' m'.
Proof.
  intros Hinv Hrx. pose proof (rx_com _ _ Hrx) as Hc.
  destruct (receive_all c m Hrx) as (k & m' & Hr & Hrx' & E1 & E2 & E3 & E4 & vs & Eh).
  eexists _, m'. split; [exact Hr |]. split_and!; [| done |].
  2: { split; rewrite ?E2, ?E3, ?E4; eauto; [| lia]. intros a Ha Hna. rewrite Eh. by apply reg_writes_other. }
  assert (same_ring c (hw Q m) (hw Q m')) as [S1 S2].
  { rewrite Eh. pose proof (ti_store _ _ Hinv). split; apply reg_writes; done || in_ring. }
  destruct Hinv as [[] ? ? Hhead Htail [Hlive Hdis] Hrange Hnext Hsent Hpend].
  unfold head, tail, slot_done in *.
  split; unfold head, tail, slot_done; cbn [com with_cur_rx cur_tx last_reclaimed_tx];
    rewrite ?E1, ?E2, ?E3, ?S1, ?S2; try done.
  - split; cbn; rewrite ?E1; done.
  - split; cbn; rewrite ?E2; done.
Qed.

(** An interrupt, whatever its cause, returns and keeps the invariant. *)
Lemma interrupt_inv c m :
  tx_inv c m → rx_ok c m →
  ∃ c' m', handle_interrupt Q translate c m = Done (m', c') ∧ tx_inv c' m' ∧ rx_ok c' m' ∧ leaves c m c' m'.
Proof.
  intros Hinv Hrx. unfold handle_interrupt, get_interrupt_cause.
  destruct (read_inv c m REG_ICAUSE Hinv Hrx ltac:(reg_bound)) as (m1 & v1 & Hr1 & _ & Hinv1 & Hrx1 & _ & L1).
  erewrite M_bind_run; last (by rewrite (M_bind_run _ _ _ _ _ Hr1)). set (cause := Cause.cause_from _).
  assert (∃ c2 m2, (if Cause.rxt cause then receive_loop Q (S RX_DESC) c else mret c) m1 = Done (m2, c2)
    ∧ tx_inv c2 m2 ∧ rx_ok c2 m2 ∧ leaves c m1 c2 m2) as (c2 & m2 & Hr2 & Hinv2 & Hrx2 & L2).
  { destruct (Cause.rxt cause); [by apply receive_inv | exists c, m1; auto using leaves_refl]. }
  rewrite (M_bind_run _ _ _ _ _ Hr2).
  destruct (read_inv c2 m2 REG_TXDESCHEAD Hinv2 Hrx2 ltac:(reg_bound)) as (m3 & v3 & Hr3 & Hv3 & Hinv3 & Hrx3 & Hh3 & L3).
  rewrite (M_bind_run _ _ _ _ _ Hr3), Hv3 by in_ring. fold (head c2 m2).
  destruct (read_inv c2 m3 REG_TXDESCTAIL Hinv3 Hrx3 ltac:(reg_bound)) as (m4 & v4 & Hr4 & _ & Hinv4 & Hrx4 & Hh4 & L4).
  rewrite (M_bind_run _ _ _ _ _ Hr4). pose proof (leaves_trans _ _ _ _ _ _ L3 L4) as L34.
  pose proof (leaves_trans _ _ _ _ _ _ (leaves_trans _ _ _ _ _ _ L1 L2) L34) as L14.
  set (go := _ && _). assert (∃ c5 m5, (if go then transmit_loop Q translate TX_DESC c2 else mret c2) m4 = Done (m5, c5)
    ∧ tx_inv c5 m5 ∧ rx_ok c5 m5 ∧ head c5 m5 = head c2 m2 ∧ leaves c2 m4 c5 m5) as (c5 & m5 & Hr5 & Hinv5 & Hrx5 & Hh5 & L5).
  { rewrite <- Hh3, <- Hh4. destruct go; [| exists c2, m4; auto using leaves_refl].
    destruct (transmit_inv TX_DESC c2 m4 Hinv4) as (c5 & m5 & ? & ? & _ & ? & ? & ?). exists c5, m5. auto. }
  rewrite (M_bind_run _ _ _ _ _ Hr5), <- Hh5. pose proof (leaves_trans _ _ _ _ _ _ L14 L5) as L15.
  destruct (Cause.txdw cause); [| by exists c5, m5].
  destruct (reclaim_inv c5 m5 Hinv5) as (c' & m' & ? & ? & ? & L6). exists c', m'. split_and!; [done | done | auto | by eapply leaves_trans].
Qed.

(** ** Any course of events *)

Definition tx_done (d : TxDesc) : TxDesc := {|
  tx_addr := tx_addr d; tx_length := tx_length d; tx_cso := tx_cso d; tx_cmd := tx_cmd d; tx_status := 1;
  tx_css := tx_css d; tx_special := tx_special d |}.

Definition set_rx_memory m (mem : gmap Z (list Z)) : Machine Q (H := H) :=
  {| hw := hw Q m; rx_ring := rx_ring Q m; tx_ring := tx_ring Q m; rx_memory := mem; boxes := boxes Q m;
     next_box := next_box Q m; handler_queue := handler_queue Q m |}.

(** What can happen next: an interrupt; a packet is queued for the card, which
    is notified; the card sends the packet at its head; it stores a packet in
    a receive buffer; other registers change (the cause of an interrupt); the
    network handler takes messages. *)
Inductive step : E1000Card Q * Machine Q (H := H) → E1000Card Q * Machine Q (H := H) → Prop :=
  | step_interrupt c m c' m' :
      handle_interrupt Q translate c m = Done (m', c') → step (c, m) (c', m')
  | step_queue c m p h :
      notify_card (com Q c) (hw Q m) = Done (h, tt) →
      step (c, m) (with_card_queue Q c (q_try_enqueue (card_queue Q c) p).1, set_hw Q m h)
  | step_sent c m h d :
      head c m ≠ tail c m → tx_ring Q m !! Z.to_nat (head c m) = Some d →
      reg h (reg_address (com Q c) REG_TXDESCHEAD) = (head c m + 1) mod 8 →
      reg h (reg_address (com Q c) REG_TXDESCTAIL) = tail c m →
      step (c, m) (c, set_hw Q (set_tx_ring Q m (<[Z.to_nat (head c m) := tx_done d]> (tx_ring Q m))) h)
  | step_stored c m i p d data :
      rx_buffers Q c !! i = Some p → 0 ≤ rx_length d ≤ 2064 → length data = 2064%nat →
      step (c, m) (c, set_rx_memory (set_rx_ring Q m (<[i := d]> (rx_ring Q m))) (<[p := data]> (rx_memory Q m)))
  | step_registers c m h : same_ring c (hw Q m) h → step (c, m) (c, set_hw Q m h)
  | step_handled c m q : q_is_closed q = false → step (c, m) (c, set_handler_queue Q m q).

Lemma sent_inv c m h d :
  tx_inv c m → head c m ≠ tail c m → tx_ring Q m !! Z.to_nat (head c m) = Some d →
  reg h (reg_address (com Q c) REG_TXDESCHEAD) = (head c m + 1) mod 8 →
  reg h (reg_address (com Q c) REG_TXDESCTAIL) = tail c m →
  tx_inv c (set_hw Q (set_tx_ring Q m (<[Z.to_nat (head c m) := tx_done d]> (tx_ring Q m))) h).
Proof.
  intros [[Hcom Hcur Hlr Hlb] Hlast Hst Hhead Htail Hown Hrange Hnext Hsent Hpend] Hne Hd E1 E2.
  rewrite Htail in Hne. set (m' := set_hw Q _ h).
  assert (head c m' = (head c m + 1) mod 8) as Hh' by done.
  assert (held c (head c m)) as Hheld by (by apply Hpend, arc_first).
  split; rewrite ?Hh'; try done.
  - split; try done. cbn. by rewrite length_insert.
  - apply Z.mod_pos_bound. lia.
  - by rewrite <- Htail.
  - intros i Hi. destruct (arc_next_end (last_reclaimed_tx Q c) (head c m) Hlast Hhead i Hi) as [Hi' | ->]; auto.
  - intros i Hi. destruct (arc_next_start (head c m) (cur_tx Q c) Hhead Hcur i Hne Hi) as [Hi' Hi0].
    destruct (Hpend i Hi') as [? Hnd]. split; [done |]. unfold slot_done. cbn.
    destruct Hi' as [Hi8 _]. by rewrite list_lookup_insert_ne by lia.
Qed.

Lemma stored_ok c m i p d data :
  rx_ok c m → rx_buffers Q c !! i = Some p → 0 ≤ rx_length d ≤ 2064 → length data = 2064%nat →
  rx_ok c (set_rx_memory (set_rx_ring Q m (<[i := d]> (rx_ring Q m))) (<[p := data]> (rx_memory Q m))).
Proof.
  intros [Hcom Hcur Hlr Hlb Hlive Hlen Hopen] Hi Hd Hdata. split; try done.
  - cbn. by rewrite length_insert.
  - intros j q Hj. cbn. destruct (decide (q = p)) as [-> |]; [rewrite lookup_insert_eq; by eexists |].
    rewrite lookup_insert_ne by done. by eapply Hlive.
  - intros j d' Hj. cbn in Hj. apply list_lookup_insert_Some in Hj as [(_ & <- & _) | [_ Hj]]; [done | by eapply Hlen].
Qed.

Lemma driver_step_inv s s' : step s s' → tx_inv s.1 s.2 ∧ rx_ok s.1 s.2 → tx_inv s'.1 s'.2 ∧ rx_ok s'.1 s'.2.
Proof.
  intros Hs [Hinv Hrx]. destruct Hs as [c m c' m' Hr | c m p h Hr | c m h d | c m i p d data | c m h | c m q]; cbn [fst snd] in *.
  - destruct (interrupt_inv c m Hinv Hrx) as (c1 & m1 & Hr1 & ? & ? & _). rewrite Hr in Hr1. by simplify_eq.
  - pose proof (rx_com _ _ Hrx) as Hc. unfold notify_card in Hr.
    rewrite write_command_run in Hr by (done || reg_bound). injection Hr as <-.
    assert (tx_inv c (set_hw Q m (mmio_write (hw Q m) (reg_address (com Q c) REG_ICSET)
      (Cause.cause_into (Cause.cause_set_asserted (Cause.cause_set_txd_low Cause.cause_default true) false)))))
      as [[]].
    { apply tx_inv_hw; [done |]. pose proof (ti_store _ _ Hinv).
      split; rewrite reg_write_ring by (done || in_ring); reflexivity. }
    split; [split; done || by split |]. destruct Hrx. by split.
  - split; [by apply sent_inv | destruct Hrx; by split].
  - split; [destruct Hinv as [[]]; split; done || by split | by apply (stored_ok c m i p)].
  - split; [by apply tx_inv_hw | by apply rx_ok_hw].
  - split; [destruct Hinv as [[]]; split; done || by split | destruct Hrx; by split].
Qed.

(** A step that leaves the registers of other cards alone leaves the rest alone. *)
Lemma step_leaves s s' :
  step s s' → tx_inv s.1 s.2 → rx_ok s.1 s.2 →
  (∀ a, stores a = true → ¬ card_reg (com Q s.1) a → reg (hw Q s'.2) a = reg (hw Q s.2) a) →
  leaves s.1 s.2 s'.1 s'.2.
Proof.
  intros Hs Hinv Hrx Hregs.
  destruct Hs as [c m c' m' Hr | c m p h Hr | c m h d | c m i p d data | c m h | c m q]; cbn [fst snd] in *;
    try (split; cbn; eauto; lia).
  - destruct (interrupt_inv c m Hinv Hrx) as (c1 & m1 & Hr1 & _ & _ & L). rewrite Hr in Hr1. by simplify_eq.
  - split; cbn; eauto; [| lia]. intros q data' Hq Hl. destruct (decide (q = p)) as [-> |].
    + rewrite lookup_insert_eq. by exists data.
    + rewrite lookup_insert_ne by done. by exists data'.
Qed.

Lemma driver_steps_inv s s' : rtc step s s' → tx_inv s.1 s.2 ∧ rx_ok s.1 s.2 → tx_inv s'.1 s'.2 ∧ rx_ok s'.1 s'.2.
Proof. induction 1; eauto using driver_step_inv. Qed.

(** Set-up establishes the invariant. *)
Lemma init_inv id bar offset q m0 m c :
  let coms := {| com_bar := bar; com_offset := offset |} in
  com_ok coms → regs_store coms → q_is_closed (handler_queue Q m0) = false →
  0 < next_box Q m0 → (∀ p, is_Some (boxes Q m0 !! p) → p < next_box Q m0) →
  init Q translate id bar offset q m0 = Done (m, c) → tx_inv c m ∧ rx_ok c m.
Proof.
  intros coms Hc Hst Hopen Hn Hb Hr.
  destruct (init_run translate Hmapped id bar offset q m0 Hc Hst Hopen)
    as (c' & m' & rx & tx & Hr' & _ & _ & Hcom & Hrx & _ & Htx & _ & Hcur & Hlast & Hbufs & _ & _ & Hregs & _).
  rewrite Hr in Hr'. injection Hr' as <- <-. split; [| done].
  destruct (keeps_init coms translate id q m0 m c Hr) as [_ Eb _ En _].
  cbn [ring_regs map] in Hregs. injection Hregs as _ _ _ _ _ _ _ _ R1 R2. fold coms in Hcom.
  assert (head c m = 0) as Hh by (unfold head; by rewrite Hcom).
  assert (∀ k p, tx_buffers Q c !! k = Some p → p = 0) as Hz.
  { intros k p Hk. eapply Forall_lookup_1 in Hbufs; [| exact Hk]. done. }
  split; rewrite ?Hcom, ?Hlast, ?Hh, ?Hcur; try done; try lia.
  - unfold tail. by rewrite Hcom.
  - split; [intros k p Hk Hp | intros k j p Hk _ Hp]; by apply Hz in Hk.
  - intros p Hp. rewrite Eb in Hp. specialize (Hb p Hp). lia.
  - intros i Hi. by apply arc_refl in Hi.
  - intros i Hi. by apply arc_refl in Hi.
Qed.

(** C10: the driver is memory safe and never stuck.  From a card that was set up,
    after any course of interrupts, queued packets, packets sent and received
    by the card and register changes, the next interrupt returns, whatever its
    cause: it frees no pointer that is not a live box, reads no more than the
    receive buffers, and every pointer the driver keeps is a live box that no
    other slot keeps. *)
Theorem driver_safe (id : Z) (bar : BaseAddressRegister) (offset : Z) (q : Q Ethernet.Packet)
    (m0 m : Machine Q (H := H)) (c : E1000Card Q) (s : E1000Card Q * Machine Q (H := H)) :
  let coms := {| com_bar := bar; com_offset := offset |} in
  com_ok coms → regs_store coms → q_is_closed (handler_queue Q m0) = false →
  0 < next_box Q m0 → (∀ p, is_Some (boxes Q m0 !! p) → p < next_box Q m0) →
  init Q translate id bar offset q m0 = Done (m, c) → rtc step (c, m) s →
  (∃ c' m', handle_interrupt Q translate s.1 s.2 = Done (m', c'))
  ∧ (∀ i p, tx_buffers Q s.1 !! i = Some p → p ≠ 0 → is_Some (boxes Q s.2 !! p))
  ∧ (∀ i j p, tx_buffers Q s.1 !! i = Some p → tx_buffers Q s.1 !! j = Some p → p ≠ 0 → i = j).
Proof.
  intros coms Hc Hst Hopen Hn Hb Hr Hs.
  assert (tx_inv s.1 s.2 ∧ rx_ok s.1 s.2) as [Hinv Hrx].
  { eapply driver_steps_inv; [exact Hs |]. by eapply init_inv. }
  split; [| apply (ti_owned _ _ Hinv)].
  destruct (interrupt_inv s.1 s.2 Hinv Hrx) as (c' & m' & Hr' & _). by exists c', m'.
Qed.

End safe.

(** ** A run *)

Module SafeRun.
Import SampleCard.

Abbreviation sample_step := (step (H := regs) (B := debug_build) identity_map).

(** A packet is queued on the card that was just set up. *)
Definition queued_on (c : E1000Card jiffy_queue) : E1000Card jiffy_queue :=
  with_card_queue _ c (q_try_enqueue (card_queue _ c) (frame 60)).1.

Lemma driver_safe_witness :
  ∃ c m h c' m', init jiffy_queue identity_map 3 bar 0x8000000000 (mk_jiffy [] false) (B := debug_build) blank = Done (m, c)
    ∧ notify_card (com _ c) (B := debug_build) (hw _ m) = Done (h, tt)
    ∧ handle_interrupt jiffy_queue identity_map (B := debug_build) (queued_on c) (set_hw _ m h) = Done (m', c').
Proof.
  destruct (init_run (B := debug_build) identity_map (λ p, ex_intro _ p eq_refl) 3 bar 0x8000000000
    (mk_jiffy [] false) blank coms_ok coms_store ltac:(done)) as (c & m & rx & tx & Hr & _ & _ & Hcom & _).
  assert (∃ h, notify_card (com _ c) (B := debug_build) (hw _ m) = Done (h, tt)) as [h Hh].
  { rewrite Hcom. unfold notify_card. rewrite write_command_run; [by eexists | exact coms_ok | reg_bound]. }
  destruct (driver_safe (B := debug_build) identity_map (λ p, ex_intro _ p eq_refl) 3 bar 0x8000000000
    (mk_jiffy [] false) blank m c (queued_on c, set_hw _ m h) coms_ok coms_store ltac:(done) ltac:(done)
    ltac:(intros p Hp; cbn in Hp; rewrite lookup_empty in Hp; by destruct Hp) Hr)
    as [(c' & m' & Hi) _].
  - apply rtc_once. by apply (step_queue (B := debug_build) identity_map).
  - exists c, m, h, c', m'. split; [exact Hr |]. split; [exact Hh | exact Hi].
Defined.

End SafeRun.
