(* ===== verification/Board.v ===== *)
(** * The board

    What set-up relies on of the hardware around a card: its EEPROM, read
    through an access register ([Eeprom]), and ports and memory-mapped
    registers that do not interfere ([Board]); and how the set-up code of
    [E1000] and [Pci] fares on it. *)

From stdpp Require Import base tactics list gmap numbers relations.
From Stdlib Require Import ZArith Lia.
From S2P Require Import Prelude Queue Buffer Ethernet Device Handler Regs Pci E1000 E1000Rx E1000Tx E1000Init E1000Frame E1000Safe.

Local Open Scope Z_scope.

(** ** The EEPROM *)

(** Writing a word's address with the start bit to the access register starts
    a read; the register then shows the done bit clear for a while, and at
    last the done bit set with the word in its upper half. *)
Class Eeprom (H : Type) `{Mmio H} := {
  eerd : Z → bool;
  eeprom_word : H → Z → Z → Z;
  (** the word being read and for how many reads it is not there yet *)
  eeprom_busy : H → Z → option (Z * nat);
  eeprom_delay : nat;
  eeprom_start : ∀ h a k, eerd a = true → 0 ≤ k < 256 →
    ∃ d, (d ≤ eeprom_delay)%nat ∧ eeprom_busy (mmio_write h a (Z.lor 1 (k * 256))) a = Some (k, d);
  eeprom_wait : ∀ h a k d, eerd a = true → eeprom_busy h a = Some (k, S d) →
    Z.land (mmio_read h a).2 0x10 = 0 ∧ eeprom_busy (mmio_read h a).1 a = Some (k, d);
  eeprom_done : ∀ h a k, eerd a = true → eeprom_busy h a = Some (k, 0%nat) →
    Z.land (mmio_read h a).2 0x10 = 0x10 ∧ Z.land (Z.shiftr (mmio_read h a).2 16) 0xffff = eeprom_word h a k;
  eeprom_write : ∀ h a v a' k, eeprom_word (mmio_write h a v) a' k = eeprom_word h a' k;
  eeprom_read : ∀ h a a' k, eeprom_word (mmio_read h a).1 a' k = eeprom_word h a' k;
  eeprom_uint : ∀ h a k, uint 16 (eeprom_word h a k) }.

Section eeprom.
Context {Q : Type → Type} {H : Type} `{QueueOps Q} `{Mmio H} `{!RegLaws H} `{!Eeprom H} {B : Build}.

Implicit Types (c : Coms) (h : H).

Definition eerd_of c : Z := reg_address c REG_EEPROM.

(** Registers that store, other than the access register, and the words stay. *)
Definition eeprom_only c h h' : Prop :=
  (∀ a, stores a = true → a ≠ eerd_of c → reg h' a = reg h a) ∧ ∀ a k, eeprom_word h' a k = eeprom_word h a k.

Lemma eeprom_only_trans c h1 h2 h3 : eeprom_only c h1 h2 → eeprom_only c h2 h3 → eeprom_only c h1 h3.
Proof. intros [R1 W1] [R2 W2]. split; intros; [rewrite R2, R1 by done | rewrite W2, W1]; done. Qed.

Lemma eeprom_only_read c h : eeprom_only c h (mmio_read h (eerd_of c)).1.
Proof. split; intros; [by apply reg_read | by apply eeprom_read]. Qed.

Lemma eeprom_only_write c h v : eeprom_only c h (mmio_write h (eerd_of c) v).
Proof.
  split; intros; [| by apply eeprom_write]. rewrite reg_write by done. by rewrite (proj2 (Z.eqb_neq _ _)) by done.
Qed.

Lemma any_eeprom_found n c h k d :
  com_ok c → eerd (eerd_of c) = true → eeprom_busy h (eerd_of c) = Some (k, d) → (d < n)%nat →
  ∃ h', any_eeprom n c h = Done (h', true).
Proof.
  intros Hc He. revert h d. induction n as [| n IH]; intros h d Hb Hd; [lia |]. cbn [any_eeprom].
  erewrite M_bind_run by (apply read_command_run; [done | reg_bound]). fold (eerd_of c). destruct d as [| d].
  - destruct (eeprom_done h _ k He Hb) as [-> _]. by eexists.
  - destruct (eeprom_wait h _ k d He Hb) as [-> Hb']. apply (IH _ d Hb'). lia.
Qed.

Lemma wait_eeprom_run n c h k d :
  com_ok c → eerd (eerd_of c) = true → eeprom_busy h (eerd_of c) = Some (k, d) → (d < n)%nat →
  ∃ h' v, wait_eeprom n c h = Done (h', v) ∧ Z.land (Z.shiftr v 16) 0xffff = eeprom_word h (eerd_of c) k
    ∧ eeprom_only c h h'.
Proof.
  intros Hc He. revert h d. induction n as [| n IH]; intros h d Hb Hd; [lia |]. cbn [wait_eeprom].
  erewrite M_bind_run by (apply read_command_run; [done | reg_bound]). fold (eerd_of c). destruct d as [| d].
  - destruct (eeprom_done h _ k He Hb) as [E1 E2]. change (Z.shiftl 1 4) with 0x10. rewrite E1.
    eexists _, _. split; [reflexivity |]. split; [done | apply eeprom_only_read].
  - destruct (eeprom_wait h _ k d He Hb) as [E1 Hb']. change (Z.shiftl 1 4) with 0x10. rewrite E1.
    destruct (IH _ d Hb' ltac:(lia)) as (h' & v & Hr & Hv & Ho). exists h', v. split; [exact Hr |].
    rewrite Hv, eeprom_read. split; [done |]. eauto using eeprom_only_trans, eeprom_only_read.
Qed.

Lemma read_eeprom_run fuel (card : E1000Card Q) h k :
  com_ok (com Q card) → eerd (eerd_of (com Q card)) = true → has_eeprom Q card = true →
  0 ≤ k < 256 → (eeprom_delay < fuel)%nat →
  ∃ h', read_eeprom Q fuel card k h = Done (h', eeprom_word h (eerd_of (com Q card)) k)
    ∧ eeprom_only (com Q card) h h'.
Proof.
  intros Hc He Hh Hk Hf. unfold read_eeprom. rewrite Hh.
  assert (shl_w 32 k 8 = k * 256) as ->.
  { unfold shl_w. rewrite Z.shiftl_mul_pow2, cast_small by (unfold uint; lia). done. }
  erewrite M_bind_run by (apply write_command_run; [done | reg_bound]). fold (eerd_of (com Q card)).
  destruct (eeprom_start h _ k He Hk) as (d & Hd & Hb).
  destruct (wait_eeprom_run fuel (com Q card) _ k d Hc He Hb ltac:(lia)) as (h' & v & Hr & Hv & Ho).
  rewrite (M_bind_run _ _ _ _ _ Hr). exists h'. rewrite eeprom_write in Hv. unfold mret, M_ret. rewrite Hv.
  split; [done |]. eauto using eeprom_only_trans, eeprom_only_write.
Qed.

(** The address an EEPROM holds, low byte first in each word. *)
Definition eeprom_mac h c : list Z :=
  flat_map (λ k, [eeprom_word h (eerd_of c) k mod 256; eeprom_word h (eerd_of c) k / 256]) [0; 1; 2].

Lemma eeprom_mac_wf h c : wf_mac (eeprom_mac h c).
Proof.
  split; [done |]. unfold eeprom_mac. cbn [flat_map app]. pose proof (eeprom_uint h (eerd_of c)) as Hu. unfold uint in Hu.
  repeat constructor; try apply Z.mod_pos_bound; try lia; try (apply Z.div_pos; [apply Hu | lia]);
    apply Z.div_lt_upper_bound; try lia; apply Hu.
Qed.

Lemma read_mac_run fuel (card : E1000Card Q) h :
  com_ok (com Q card) → eerd (eerd_of (com Q card)) = true → has_eeprom Q card = true → (eeprom_delay < fuel)%nat →
  ∃ h', read_mac_address Q fuel card h = Done (h', eeprom_mac h (com Q card)) ∧ eeprom_only (com Q card) h h'.
Proof.
  intros Hc He Hh Hf. unfold read_mac_address. rewrite Hh.
  destruct (read_eeprom_run fuel card h 0 Hc He Hh ltac:(lia) Hf) as (h1 & Hr1 & O1).
  rewrite (M_bind_run _ _ _ _ _ Hr1).
  destruct (read_eeprom_run fuel card h1 1 Hc He Hh ltac:(lia) Hf) as (h2 & Hr2 & O2).
  rewrite (M_bind_run _ _ _ _ _ Hr2).
  destruct (read_eeprom_run fuel card h2 2 Hc He Hh ltac:(lia) Hf) as (h3 & Hr3 & O3).
  rewrite (M_bind_run _ _ _ _ _ Hr3). exists h3. split; [| eauto using eeprom_only_trans].
  unfold mret, M_ret, eeprom_mac. cbn [flat_map app].
  rewrite (proj2 O2), !(proj2 O1). change 0xff with (Z.ones 8). rewrite !Z.land_ones, !Z.shiftr_div_pow2 by lia. done.
Qed.

Lemma enable_interrupts_run (card : E1000Card Q) (m : Machine Q (H := H)) :
  com_ok (com Q card) → regs_store (com Q card) →
  ∃ h, enable_interrupts Q card m = Done (set_hw Q m h, tt) ∧ same_ring card (hw Q m) h
    ∧ (∀ a, stores a = true → ¬ card_reg (com Q card) a → reg h a = reg (hw Q m) a)
    ∧ ∀ a k, eeprom_word h a k = eeprom_word (hw Q m) a k.
Proof.
  intros Hc Hs. unfold enable_interrupts.
  do 2 erewrite M_bind_run by (apply on_hw_write; [exact Hc | reg_bound]).
  erewrite M_bind_run by (apply on_hw_read; [exact Hc | reg_bound]).
  eexists. split; [reflexivity |]. cbn [hw set_hw]. split_and!.
  - split; rewrite reg_read by (apply Hs; in_ring); by rewrite !reg_write_ring by (done || in_ring).
  - intros a Ha Hna. rewrite reg_read, !reg_write by done.
    assert (∀ r, 0 ≤ r < 0x10000 → (a =? reg_address (com Q card) r) = false) as Hne.
    { intros r Hr. apply Z.eqb_neq. intros ->. by apply Hna, card_reg_address. }
    by rewrite !Hne by reg_bound.
  - intros a k. by rewrite eeprom_read, !eeprom_write.
Qed.

End eeprom.

(** ** The board *)

Class Board (H : Type) `{PciHost H} `{Mmio H} `{!RegLaws H} `{!Eeprom H} : Prop := {
  config_mmio_write : ∀ h a v, config (mmio_write h a v) = config h;
  config_mmio_read : ∀ h a, config (mmio_read h a).1 = config h;
  reg_port_write : ∀ h p v a, reg (port_write h p v) a = reg h a;
  reg_port_read : ∀ h p a, reg (port_read h p).1 a = reg h a;
  word_port_write : ∀ h p v a k, eeprom_word (port_write h p v) a k = eeprom_word h a k;
  word_port_read : ∀ h p a k, eeprom_word (port_read h p).1 a k = eeprom_word h a k }.

Section board.
Context {H : Type} `{Board H} {B : Build}.

(** Port accesses leave registers and EEPROMs alone. *)
Definition ports_only (h h' : H) : Prop :=
  (∀ a, reg h' a = reg h a) ∧ ∀ a k, eeprom_word h' a k = eeprom_word h a k.

#[export] Instance ports_only_preorder : PreOrder ports_only.
Proof.
  split; [done |]. intros h1 h2 h3 [R1 W1] [R2 W2]. split; intros; [by rewrite R2, R1 | by rewrite W2, W1].
Qed.

Lemma keeps_regs_outport p v : stays ports_only (outport p v).
Proof. intros h h' a [= <- _]. split; intros; [apply reg_port_write | apply word_port_write]. Qed.

Lemma keeps_regs_inport p : stays ports_only (inport p).
Proof.
  intros h h' a Hr. unfold inport in Hr. destruct (port_read h p) as [h1 v] eqn:E. simplify_eq.
  change h' with (h', a).1. rewrite <- E. split; intros; [apply reg_port_read | apply word_port_read].
Qed.

Hint Resolve keeps_regs_outport keeps_regs_inport : stays.

Lemma keeps_regs_load_device b s : stays ports_only (load_device b s).
Proof. unfold load_device, load_header_type, read_bar, read_word, read_32bit. stays. Qed.

Lemma keeps_regs_bruteforce : stays ports_only bruteforce.
Proof.
  unfold bruteforce. induction slots as [| [b s] l IH]; cbn [load_all]; [stays |].
  apply stays_bind; [typeclasses eauto | apply keeps_regs_load_device |]. stays.
Qed.

Lemma keeps_regs_bus_mastering d : stays ports_only (enable_bus_mastering d).
Proof. unfold enable_bus_mastering. stays. Qed.

Lemma accessed_config c (h h' : H) : accessed c h h' → config h' = config h.
Proof. induction 1; [done | by rewrite config_mmio_write | by rewrite config_mmio_read]. Qed.

Lemma accessed_words c (h h' : H) a k : accessed c h h' → eeprom_word h' a k = eeprom_word h a k.
Proof. induction 1; [done | by rewrite eeprom_write | by rewrite eeprom_read]. Qed.

Lemma accessed_reg c (h h' : H) a : accessed c h h' → stores a = true → ¬ card_reg c a → reg h' a = reg h a.
Proof.
  intros Hacc Ha Hna. induction Hacc as [| h h' a' v _ IH Hc | h h' a' _ IH Hc]; [done | |].
  - rewrite reg_write by done. destruct (Z.eqb_spec a a') as [-> |]; done.
  - by rewrite reg_read.
Qed.

End board.
