(* ===== verification/Kernel.v ===== *)
(** * The kernel's scheduler

    [src/kernel/src/lib.rs], [handle.rs] and [task.rs]: tasks, the handle
    that adds them, the wakers, and the run loop that polls the task whose id
    it takes from the run queue.

    A future is abstract: a type of states and a [poll] that computes on the
    kernel's state, because polling may wake tasks and add new ones.  Wakers
    are boxes on a heap of their own, by address. *)

From stdpp Require Import base tactics list gmap sets numbers.
From Stdlib Require Import ZArith Lia.
From S2P Require Import Prelude Queue.

Local Open Scope Z_scope.

Section kernel.
Context (Q : Type → Type) {F Env : Type} `{QueueOps Q}.

Record Task := { task_id : Z; future : F }.

(** [Handle] and [Kernel] share both queues and the id counter.  [env] is the
    hardware, with everything else that polling can change: the statics of the
    program and the machine. *)
Record State := {
  id_count : Z;
  task_add_queue : Q Task;
  run_queue : Q Z;
  tasks : list Task;
  wakers : gmap Z Z;
  next_waker : Z;
  env : Env }.

Definition set_id_count (s : State) (n : Z) : State :=
  {| id_count := n; task_add_queue := task_add_queue s; run_queue := run_queue s;
     tasks := tasks s; wakers := wakers s; next_waker := next_waker s; env := env s |}.
Definition set_add_queue (s : State) (q : Q Task) : State :=
  {| id_count := id_count s; task_add_queue := q; run_queue := run_queue s;
     tasks := tasks s; wakers := wakers s; next_waker := next_waker s; env := env s |}.
Definition set_run_queue (s : State) (q : Q Z) : State :=
  {| id_count := id_count s; task_add_queue := task_add_queue s; run_queue := q;
     tasks := tasks s; wakers := wakers s; next_waker := next_waker s; env := env s |}.
Definition set_tasks (s : State) (l : list Task) : State :=
  {| id_count := id_count s; task_add_queue := task_add_queue s; run_queue := run_queue s;
     tasks := l; wakers := wakers s; next_waker := next_waker s; env := env s |}.
Definition set_wakers (s : State) (w : gmap Z Z) (n : Z) : State :=
  {| id_count := id_count s; task_add_queue := task_add_queue s; run_queue := run_queue s;
     tasks := tasks s; wakers := w; next_waker := n; env := env s |}.
Definition set_env (s : State) (e : Env) : State :=
  {| id_count := id_count s; task_add_queue := task_add_queue s; run_queue := run_queue s;
     tasks := tasks s; wakers := wakers s; next_waker := next_waker s; env := e |}.

(** [Kernel::setup], given two new queues. *)
Definition setup (hardware : Env) (add : Q Task) (run : Q Z) : State :=
  {| id_count := 0; task_add_queue := add; run_queue := run; tasks := []; wakers := ∅;
     next_waker := 1; env := hardware |}.

(** ** [Handle] *)

(** [id_count.fetch_add(1)] *)
Definition fetch_add : M State Z := fun s =>
  Done (set_id_count s ((id_count s + 1) mod 2 ^ 64), id_count s).

Definition enqueue_task (t : Task) : M State unit :=
  modify (fun s => set_add_queue s (q_try_enqueue (task_add_queue s) t).1).

Definition enqueue_id (id : Z) : M State (result unit unit) := fun s =>
  let '(q, r) := q_try_enqueue (run_queue s) id in Done (set_run_queue s q, r).

(** [Handle::add_task] and [Handle::add_raw_task] *)
Definition add_task (fut : F) : M State unit :=
  id ← fetch_add;
  _ ← enqueue_task {| task_id := id; future := fut |};
  _ ← enqueue_id id;
  mret tt.

(** A computation on the rest of the machine. *)
Definition on_env {A} (k : M Env A) : M State A := zoom env (λ e s, set_env s e) k.

(** [Kernel::add_extension]: the extension's [setup] works on the hardware and
    returns its task. *)
Definition add_extension (extension_setup : M Env F) : M State unit :=
  ext_task ← on_env extension_setup;
  add_task ext_task.

(** ** Wakers *)

Definition create_waker (id : Z) : M State Z := fun s =>
  Done (set_wakers s (<[next_waker s := id]> (wakers s)) (next_waker s + 1), next_waker s).

Definition ptr_ref (ptr : Z) : M State Z := fun s =>
  match wakers s !! ptr with Some id => Done (s, id) | None => Panicked Undefined end.

Definition waker_clone (ptr : Z) : M State Z := id ← ptr_ref ptr; create_waker id.

Definition waker_wake (ptr : Z) : M State unit :=
  id ← ptr_ref ptr;
  r ← enqueue_id id;
  lift (unwrap_result r).

Definition waker_wake_by_ref (ptr : Z) : M State unit :=
  id ← ptr_ref ptr;
  r ← enqueue_id id;
  lift (unwrap_result r).

Definition waker_drop (ptr : Z) : M State unit :=
  _ ← ptr_ref ptr;
  modify (fun s => set_wakers s (delete ptr (wakers s)) (next_waker s)).

(** ** The run loop *)

(** [Future::poll], with the address of the waker in its context; whether it
    is ready. *)
Context (poll : F → Z → M State (F * bool)).

(** [Task::run]: the waker lives for the duration of the poll. *)
Definition task_run (t : Task) : M State (Task * bool) :=
  waker ← create_waker (task_id t);
  r ← poll (future t) waker;
  _ ← waker_drop waker;
  mret ({| task_id := task_id t; future := r.1 |}, r.2).

(** [while let Ok(n_task) = self.task_add_queue.try_dequeue()] *)
Fixpoint drain (fuel : nat) : M State unit :=
  match fuel with
  | O => fun _ => OutOfFuel
  | S fuel => fun s =>
      match q_try_dequeue (task_add_queue s) with
      | (q, Ok t) => drain fuel (set_tasks (set_add_queue s q) (tasks s ++ [t]))
      | (q, Err _) => Done (set_add_queue s q, tt)
      end
  end.

(** What one round of the loop did.  [Waiting] is a [dequeue] that has not
    returned yet; [QueueClosed] and [NotAvailable] are the two errors the loop
    logs, with what the messages say; [Polled] has the id of the task that was
    found and run. *)
Inductive Round :=
  | Waiting
  | QueueClosed
  | NotAvailable (id : Z)
  | Polled (id : Z) (ready : bool).

Definition run_round : M State Round := fun s =>
  match q_try_dequeue (run_queue s) with
  | (q, Err Empty) => Done (set_run_queue s q, Waiting)
  | (q, Err Closed) => Done (set_run_queue s q, QueueClosed)
  | (q, Ok run_id) =>
      (_ ← drain (S (length (q_items (task_add_queue s))));
       ts ← gets tasks;
       match list_find (λ t, task_id t = run_id) ts with
       | None => mret (NotAvailable run_id)
       | Some (i, entry) =>
           r ← task_run entry;
           _ ← modify (fun s => set_tasks s (<[i := r.1]> (tasks s)));
           mret (Polled (task_id entry) r.2)
       end) (set_run_queue s q)
  end.

(** [n] rounds of [Kernel::run], and what they did. *)
Fixpoint run_rounds (n : nat) : M State (list Round) :=
  match n with
  | O => mret []
  | S n => r ← run_round; rs ← run_rounds n; mret (r :: rs)
  end.

End kernel.

Arguments Task F : clear implicits.
Arguments task_id {F} _.
Arguments future {F} _.
Arguments State Q F Env : clear implicits.
Arguments env {Q F Env} _.
Arguments id_count {Q F Env} _.
Arguments task_add_queue {Q F Env} _.
Arguments run_queue {Q F Env} _.
Arguments tasks {Q F Env} _.
Arguments wakers {Q F Env} _.
Arguments next_waker {Q F Env} _.
