(* ===== verification/KernelSpec.v ===== *)
(** * What the scheduler guarantees

    Between rounds: every id in the run queue is polled, in queue order, by
    the task it belongs to.  With tasks added and woken at any time, from
    interrupt handlers or other tasks: no id ever outruns its task, ids stay
    unique, and the loop never meets an id without a task. *)

From stdpp Require Import base tactics list gmap sets numbers relations.
From Stdlib Require Import ZArith Lia.
From S2P Require Import Prelude Queue Kernel.

Local Open Scope Z_scope.

Section rounds.
Context {Q : Type → Type} {F Env : Type} `{QueueLaws Q} `{!UnboundedQueue Q}.

Implicit Types (s : State Q F Env).

(** The task of [id] has arrived, in the vector or in the queue before it. *)
Definition known s (id : Z) : Prop :=
  id ∈ map task_id (tasks s ++ q_items (task_add_queue s)).

Record inv s : Prop := {
  inv_run_open : q_is_closed (run_queue s) = false;
  inv_add_open : q_is_closed (task_add_queue s) = false;
  inv_run : ∀ id, id ∈ q_items (run_queue s) → known s id;
  inv_wakers : ∀ p id, wakers s !! p = Some id → known s id;
  inv_fresh : ∀ p, next_waker s ≤ p → wakers s !! p = None }.

Lemma setup_inv (e : Env) (add : Q (Task F)) (run : Q Z) :
  q_items run = [] → q_is_closed run = false → q_is_closed add = false → inv (setup Q e add run).
Proof.
  intros Hi Hr Ha. split; simpl; try done.
  intros id Hid. rewrite Hi in Hid. by apply not_elem_of_nil in Hid.
Qed.

(** ** The operations keep the invariant *)

Lemma enqueue_id_run s id :
  inv s → known s id →
  ∃ s', enqueue_id Q id s = Done (s', Ok tt) ∧ inv s'
    ∧ q_items (run_queue s') = q_items (run_queue s) ++ [id]
    ∧ tasks s' = tasks s ∧ task_add_queue s' = task_add_queue s ∧ wakers s' = wakers s
    ∧ next_waker s' = next_waker s ∧ id_count s' = id_count s.
Proof.
  intros Hs Hk. unfold enqueue_id. pose proof (inv_run_open _ Hs) as Ho.
  destruct (enqueue_ok _ (run_queue s) id Ho (always_room _ _)) as (Hr & Hi & Hc).
  destruct (q_try_enqueue (run_queue s) id) as [q r]. simpl in *. subst r.
  eexists. split; [reflexivity |]. split_and!; try done. destruct Hs as [_ Ha Hrun Hw Hf].
  split; try done. intros id' Hid. cbn in Hid. rewrite Hi in Hid.
  apply elem_of_app in Hid as [Hid | ->%list_elem_of_singleton]; [by apply Hrun | done].
Qed.

(** [add_task] on open queues, exactly. *)
Lemma add_task_run (f : F) s :
  q_is_closed (run_queue s) = false → q_is_closed (task_add_queue s) = false →
  ∃ qa qr, add_task Q f s
      = Done (set_run_queue Q (set_add_queue Q (set_id_count Q s ((id_count s + 1) mod 2 ^ 64)) qa) qr, tt)
    ∧ q_items qa = q_items (task_add_queue s) ++ [{| task_id := id_count s; future := f |}] ∧ q_is_closed qa = false
    ∧ q_items qr = q_items (run_queue s) ++ [id_count s] ∧ q_is_closed qr = false.
Proof.
  intros Hr Ha. unfold add_task. rewrite !(M_bind_run _ _ _ _ _ eq_refl).
  destruct (enqueue_open (task_add_queue s) {| task_id := id_count s; future := f |} Ha) as [Hia Hca].
  destruct (enqueue_open (run_queue s) (id_count s) Hr) as [Hir Hcr]. eexists _, _.
  erewrite M_bind_run; last first.
  { unfold enqueue_id. cbn. rewrite (surjective_pairing (q_try_enqueue (run_queue s) (id_count s))). reflexivity. }
  by split_and!.
Qed.

Lemma drain_run fuel s :
  (length (q_items (task_add_queue s)) < fuel)%nat →
  ∃ q, drain Q fuel s
       = Done (set_tasks Q (set_add_queue Q s q) (tasks s ++ q_items (task_add_queue s)), tt)
    ∧ q_items q = [] ∧ q_is_closed q = q_is_closed (task_add_queue s).
Proof.
  revert s. induction fuel as [| fuel IH]; intros s Hf; [lia |]. cbn [drain].
  destruct (q_items (task_add_queue s)) as [| t rest] eqn:Ei.
  - rewrite (dequeue_none _ _ Ei). exists (task_add_queue s). rewrite app_nil_r. by destruct s.
  - destruct (dequeue_some _ _ _ _ Ei) as (Hr & Hi & Hc).
    destruct (q_try_dequeue (task_add_queue s)) as [q r]. simpl in Hr, Hi, Hc. subst r.
    destruct (IH (set_tasks Q (set_add_queue Q s q) (tasks s ++ [t]))) as (q' & Hd & Hi' & Hc').
    { cbn. rewrite Hi. simpl in Hf. lia. }
    exists q'. rewrite Hd. cbn. rewrite Hi, <- app_assoc. cbn in Hc'. by rewrite Hc'.
Qed.

Lemma known_drained s q :
  q_items q = [] →
  ∀ id, known (set_tasks Q (set_add_queue Q s q) (tasks s ++ q_items (task_add_queue s))) id ↔ known s id.
Proof. intros Hq id. unfold known. cbn. by rewrite Hq, app_nil_r. Qed.

(** ** Rounds *)

Context (poll : F → Z → M (State Q F Env) (F * bool)).

(** Polling uses the handle and live wakers only: it returns, adds to the
    ends of the queues, and leaves the task vector and its own waker alone. *)
Class GoodPoll : Prop := good_poll : ∀ f p id s,
  inv s → wakers s !! p = Some id →
  ∃ s' r, poll f p s = Done (s', r) ∧ inv s' ∧ tasks s' = tasks s ∧ wakers s' !! p = Some id
    ∧ (∃ new, q_items (task_add_queue s') = q_items (task_add_queue s) ++ new)
    ∧ ∃ ids, q_items (run_queue s') = q_items (run_queue s) ++ ids.

Context `{GoodPoll}.

Lemma inv_create_waker s id :
  inv s → known s id →
  inv (set_wakers Q s (<[next_waker s := id]> (wakers s)) (next_waker s + 1)).
Proof.
  intros [Hr Ha Hrun Hw Hf] Hk. split; try done; cbn.
  - intros p id' Hp. apply lookup_insert_Some in Hp as [[_ <-] | [_ Hp]]; [done | by apply (Hw p)].
  - intros p Hp. rewrite lookup_insert_ne by lia. apply Hf. lia.
Qed.

Lemma inv_drop_waker s p : inv s → inv (set_wakers Q s (delete p (wakers s)) (next_waker s)).
Proof.
  intros [Hr Ha Hrun Hw Hf]. split; try done; cbn.
  - intros p' id' [_ Hp]%lookup_delete_Some. by apply (Hw p').
  - intros p' Hp. apply lookup_delete_None. right. by apply Hf.
Qed.

(** The state in which a task with the id [id] is polled, and what is left of
    the one after it. *)
Definition with_waker s (id : Z) : State Q F Env :=
  set_wakers Q s (<[next_waker s := id]> (wakers s)) (next_waker s + 1).
Definition without_waker s (p : Z) : State Q F Env := set_wakers Q s (delete p (wakers s)) (next_waker s).

Lemma task_run_run s t :
  inv s → known s (task_id t) →
  ∃ s2 f ready, poll (future t) (next_waker s) (with_waker s (task_id t)) = Done (s2, (f, ready))
    ∧ task_run Q poll t s
      = Done (without_waker s2 (next_waker s), ({| task_id := task_id t; future := f |}, ready))
    ∧ inv (without_waker s2 (next_waker s)) ∧ tasks s2 = tasks s
    ∧ (∃ new, q_items (task_add_queue s2) = q_items (task_add_queue s) ++ new)
    ∧ ∃ ids, q_items (run_queue s2) = q_items (run_queue s) ++ ids.
Proof.
  intros Hs Hk. unfold task_run. rewrite (M_bind_run _ _ _ _ _ eq_refl).
  pose proof (inv_create_waker s (task_id t) Hs Hk) as Hs1. fold (with_waker s (task_id t)) in *.
  destruct (good_poll (future t) (next_waker s) (task_id t) _ Hs1) as (s2 & [f ready] & Hp & Hs2 & Ht & Hw & Hnew & Hi).
  { cbn. apply lookup_insert_eq. }
  rewrite (M_bind_run _ _ _ _ _ Hp).
  erewrite M_bind_run; last first.
  { unfold waker_drop. erewrite M_bind_run; [reflexivity |]. unfold ptr_ref. by rewrite Hw. }
  exists s2, f, ready. split_and!; try done. by apply inv_drop_waker.
Qed.

Lemma inv_set_task s i t f :
  inv s → tasks s !! i = Some t →
  inv (set_tasks Q s (<[i := {| task_id := task_id t; future := f |}]> (tasks s))).
Proof.
  intros Hs Hi.
  assert (map task_id (<[i := {| task_id := task_id t; future := f |}]> (tasks s))
          = map task_id (tasks s)) as E.
  { rewrite list_fmap_insert. cbn. apply list_insert_id. by rewrite list_lookup_fmap, Hi. }
  assert (∀ id, known (set_tasks Q s (<[i := {| task_id := task_id t; future := f |}]> (tasks s))) id
    ↔ known s id) as Hk.
  { intros id. unfold known. cbn. rewrite !map_app, E. done. }
  destruct Hs as [Hr Ha Hrun Hw Hf]. split; try done; intros; apply Hk; eauto.
Qed.

(** Every task, in the order in which the loop looks through them. *)
Definition all_tasks s : list (Task F) := tasks s ++ q_items (task_add_queue s).

(** A round from [s] to [s'] polls the task [t], the [i]th: with the new tasks
    moved to the vector and the first id taken from the run queue, the future
    of [t] is polled once, with a waker for its id; then the waker is dropped
    and the future stored in its place. *)
Definition polled_in_round (i : nat) (t : Task F) s s' (ready : bool) : Prop :=
  ∃ s1 s2 f', all_tasks s !! i = Some t
    ∧ tasks s1 = all_tasks s ∧ q_items (task_add_queue s1) = []
    ∧ q_items (run_queue s1) = tail (q_items (run_queue s))
    ∧ env s1 = env s ∧ id_count s1 = id_count s ∧ wakers s1 = wakers s ∧ next_waker s1 = next_waker s
    ∧ poll (future t) (next_waker s) (with_waker s1 (task_id t)) = Done (s2, (f', ready))
    ∧ s' = set_tasks Q (without_waker s2 (next_waker s)) (<[i := {| task_id := task_id t; future := f' |}]> (tasks s2)).

Lemma run_round_run s id rest :
  inv s → q_items (run_queue s) = id :: rest →
  ∃ s' i t f' ready, run_round Q poll s = Done (s', Polled id ready) ∧ inv s'
    ∧ list_find (λ t, task_id t = id) (all_tasks s) = Some (i, t)
    ∧ polled_in_round i t s s' ready
    ∧ (∃ new, all_tasks s' = <[i := {| task_id := id; future := f' |}]> (all_tasks s) ++ new)
    ∧ ∃ ids, q_items (run_queue s') = rest ++ ids.
Proof.
  intros Hs Hq. unfold run_round. destruct (dequeue_some _ _ _ _ Hq) as (Hr & Hi & Hc).
  pose proof (inv_run _ Hs id ltac:(rewrite Hq; left)) as Hk.
  destruct (q_try_dequeue (run_queue s)) as [q r]. simpl in Hr, Hi, Hc. subst r.
  destruct (drain_run (S (length (q_items (task_add_queue s)))) (set_run_queue Q s q) ltac:(cbn; lia))
    as (qa & Hd & Hia & Hca).
  rewrite (M_bind_run _ _ _ _ _ Hd). cbn in Hca. set (s1 := set_tasks _ _ _) in *.
  assert (∀ id, known s1 id ↔ known s id) as Hk1 by (apply (known_drained (set_run_queue Q s q)); done).
  assert (inv s1) as Hs1.
  { destruct Hs as [Hro Ha Hrun Hw Hf]. split; cbn; rewrite ?Hc, ?Hca; try done.
    - intros id' Hid. apply Hk1, Hrun. rewrite Hq. right. by rewrite <- Hi.
    - intros p id' Hp. apply Hk1. by apply (Hw p). }
  rewrite (M_bind_run _ _ _ _ _ eq_refl). change (tasks s1) with (all_tasks s).
  destruct (list_find (λ t, task_id t = id) (all_tasks s)) as [[i t] |] eqn:Ef.
  - pose proof Ef as (Hti & Eid & _)%list_find_Some.
    destruct (task_run_run s1 t Hs1 ltac:(by rewrite Eid; apply Hk1)) as (s2 & f & ready & Hp & Hrun & Hs2 & Ht & [new Hn] & ids & Hq2).
    rewrite (M_bind_run _ _ _ _ _ Hrun), (M_bind_run _ _ _ _ _ eq_refl), Eid.
    eexists _, i, t, f, ready. split; [reflexivity |]. split_and!; [| done | | |].
    + rewrite <- Eid. apply inv_set_task; [done |]. cbn. by rewrite Ht.
    + exists s1, s2, f. split_and!; try done; [by rewrite Hq, <- Hi | by rewrite Eid].
    + exists new. unfold all_tasks. cbn. rewrite Ht, Hn. cbn. by rewrite Hia.
    + exists ids. cbn. rewrite Hq2. cbn. by rewrite Hi.
  - exfalso. apply list_find_None in Ef. unfold known in Hk.
    apply list_elem_of_fmap in Hk as (t & -> & Ht). rewrite Forall_forall in Ef. by apply (Ef t).
Qed.

(** The task [t] is the [n]th, and the first with its id. *)
Definition placed (n : nat) (t : Task F) s : Prop :=
  all_tasks s !! n = Some t ∧ ∀ j u, (j < n)%nat → all_tasks s !! j = Some u → task_id u ≠ task_id t.

Lemma placed_find n t s :
  placed n t s → list_find (λ u, task_id u = task_id t) (all_tasks s) = Some (n, t).
Proof. intros [Ht Hb]. apply list_find_Some. split_and!; try done. intros j u Hj Hlt. by eapply Hb. Qed.

(** Polling another task, and adding new ones behind it, leaves it there. *)
Lemma placed_round n t s s' i u f' new :
  placed n t s → all_tasks s !! i = Some u → task_id u ≠ task_id t →
  all_tasks s' = <[i := {| task_id := task_id u; future := f' |}]> (all_tasks s) ++ new → placed n t s'.
Proof.
  intros [Ht Hb] Hi Hne E. pose proof (lookup_lt_Some _ _ _ Ht) as Hn.
  assert (∀ j, (j ≤ n)%nat → all_tasks s' !! j = <[i := {| task_id := task_id u; future := f' |}]> (all_tasks s) !! j) as Hl.
  { intros j Hj. rewrite E. apply lookup_app_l. rewrite length_insert. lia. }
  assert (i ≠ n) by (intros ->; congruence). split.
  - rewrite Hl, list_lookup_insert_ne by done. done.
  - intros j v Hj. rewrite Hl by lia. destruct (decide (i = j)) as [<- |].
    + rewrite list_lookup_insert_eq by (by eapply lookup_lt_Some). by intros [= <-].
    + rewrite list_lookup_insert_ne by done. by apply Hb.
Qed.

Lemma rounds_fifo (k : nat) s :
  inv s → (k ≤ length (q_items (run_queue s)))%nat →
  ∃ s' rs, run_rounds Q poll k s = Done (s', rs) ∧ inv s'
    ∧ Forall2 (λ id r, ∃ ready, r = Polled id ready) (take k (q_items (run_queue s))) rs
    ∧ (∃ ids, q_items (run_queue s') = drop k (q_items (run_queue s)) ++ ids)
    ∧ (∀ n t, placed n t s → task_id t ∉ take k (q_items (run_queue s)) → placed n t s').
Proof.
  revert s. induction k as [| k IH]; intros s Hs Hk; cbn [run_rounds].
  { exists s, []. rewrite take_0. split_and!; try done. exists []. by rewrite app_nil_r. }
  destruct (q_items (run_queue s)) as [| id rest] eqn:Eq; [simpl in Hk; lia |].
  destruct (run_round_run s id rest Hs Eq) as (s1 & i & u & f' & ready & Hr & Hs1 & Hfind & _ & [new Hnew] & ids & Hq1).
  rewrite (M_bind_run _ _ _ _ _ Hr). apply list_find_Some in Hfind as (Hi & Eu & _). simpl in Hk.
  destruct (IH s1 Hs1) as (s2 & rs & Hrs & Hs2 & HF & [ids' Hq2] & Hpl).
  { rewrite Hq1, length_app. lia. }
  rewrite (M_bind_run _ _ _ _ _ Hrs). eexists s2, _. split; [reflexivity |]. split; [done |].
  rewrite Hq1, take_app_le in HF, Hpl by lia. cbn [take drop]. split_and!.
  - constructor; [by exists ready | done].
  - exists (ids ++ ids'). by rewrite Hq2, Hq1, drop_app_le, app_assoc by lia.
  - intros n t Ht [Hne Hin]%not_elem_of_cons. apply Hpl; [| done].
    eapply placed_round; [done | exact Hi | congruence | by rewrite Eu].
Qed.

(** Scheduling is fair.  Starting from any consistent state, the next [k]
    rounds of the loop poll exactly the first [k] ids of the run queue, in
    order, each by its own task; no round finds its task missing. *)
Theorem run_rounds_fifo (k : nat) s :
  inv s → (k ≤ length (q_items (run_queue s)))%nat →
  ∃ s' rs, run_rounds Q poll k s = Done (s', rs) ∧ inv s'
    ∧ Forall2 (λ id r, ∃ ready, r = Polled id ready) (take k (q_items (run_queue s))) rs.
Proof. intros Hs Hk. destruct (rounds_fifo k s Hs Hk) as (s' & rs & ? & ? & ? & _). by exists s', rs. Qed.

Lemma enqueue_task_inv s t s' :
  inv s → enqueue_task Q t s = Done (s', tt) →
  inv s' ∧ q_items (task_add_queue s') = q_items (task_add_queue s) ++ [t]
  ∧ tasks s' = tasks s ∧ run_queue s' = run_queue s ∧ wakers s' = wakers s
  ∧ id_count s' = id_count s ∧ next_waker s' = next_waker s
  ∧ (∀ id, known s' id ↔ known s id ∨ id = task_id t).
Proof.
  intros Hs [= <-]. pose proof (inv_add_open _ Hs) as Ho.
  destruct (enqueue_open (task_add_queue s) t Ho) as [Hi Hc]. set (s' := set_add_queue _ _ _).
  assert (∀ id, known s' id ↔ known s id ∨ id = task_id t) as Hk.
  { intros id. unfold known. cbn. rewrite Hi, app_assoc, map_app, elem_of_app. cbn.
    by rewrite list_elem_of_singleton. }
  split_and!; try done. destruct Hs as [Hr Ha Hrun Hw Hf].
  split; try done; intros; apply Hk; left; eauto.
Qed.

(** C17: an added task runs.  [add_task] always succeeds, gives the task the next
    id, and queues the task and its id last.  When that id is not in use, the
    rounds of the ids queued before poll the tasks of these ids, in order, and
    whatever they do, the round after them polls the future that was added,
    as it was added, with a waker for its id, and stores what the poll made
    of it in its place. *)
Theorem added_task_runs (f : F) s :
  inv s → ¬ known s (id_count s) →
  let t := {| task_id := id_count s; future := f |} in
  ∃ s1, add_task Q f s = Done (s1, tt)
    ∧ all_tasks s1 = all_tasks s ++ [t]
    ∧ q_items (run_queue s1) = q_items (run_queue s) ++ [id_count s]
    ∧ ∃ s2 rs s3 ready, run_rounds Q poll (length (q_items (run_queue s))) s1 = Done (s2, rs)
        ∧ Forall2 (λ id r, ∃ ready, r = Polled id ready) (q_items (run_queue s)) rs
        ∧ run_round Q poll s2 = Done (s3, Polled (id_count s) ready)
        ∧ polled_in_round (length (all_tasks s)) t s2 s3 ready.
Proof.
  intros Hs Hfresh t. unfold add_task. rewrite (M_bind_run _ _ _ _ _ eq_refl).
  set (s0 := set_id_count _ _ _). assert (inv s0) as Hs0 by by destruct Hs.
  destruct (enqueue_task_inv s0 t _ Hs0 eq_refl) as (Hs1 & Ha1 & _ & Hrq & _ & _ & _ & Hk).
  rewrite (M_bind_run _ _ _ _ _ eq_refl). fold t. set (s1 := set_add_queue _ _ _) in *.
  destruct (enqueue_id_run s1 (id_count s) Hs1 ltac:(apply Hk; by right)) as (s2 & Hr & Hs2 & Hi & Ht2 & Ha2 & _).
  rewrite (M_bind_run _ _ _ _ _ Hr). exists s2. split; [done |]. rewrite Hrq in Hi. cbn in Hi.
  assert (all_tasks s2 = all_tasks s ++ [t]) as Hall.
  { unfold all_tasks. rewrite Ht2, Ha2, Ha1. cbn. by rewrite app_assoc. }
  split; [done |]. split; [done |].
  assert (placed (length (all_tasks s)) t s2) as Hpl.
  { split; rewrite Hall; [by apply list_lookup_middle |]. intros j u Hj. rewrite lookup_app_l by done.
    intros Hu E. apply Hfresh. unfold known. fold (all_tasks s).
    replace (id_count s) with (task_id u) by done. apply list_elem_of_fmap_2. by eapply list_elem_of_lookup_2. }
  destruct (rounds_fifo (length (q_items (run_queue s))) s2 Hs2) as (s3 & rs & Hrs & Hs3 & HF & [ids Hq] & Hpl').
  { rewrite Hi, length_app. lia. }
  rewrite Hi, take_app_length in HF, Hpl'. rewrite Hi, drop_app_length in Hq.
  specialize (Hpl' _ _ Hpl (λ Hin, Hfresh (inv_run _ Hs _ Hin))).
  destruct (run_round_run s3 (id_count s) ids Hs3 Hq) as (s4 & i & u & f' & ready & Hr4 & _ & Hfind & Hp & _).
  pose proof (placed_find _ _ _ Hpl') as Hfind'. cbn [task_id t] in Hfind'.
  rewrite Hfind in Hfind'. injection Hfind' as -> ->. by exists s3, rs, s4, ready.
Qed.

End rounds.

(** ** Interleaving

    The loop runs on the boot CPU while interrupt handlers and the polled
    futures themselves add tasks and use wakers between any two of its
    actions.  [add_task] is three atomic actions: taking the id, queueing the
    task, queueing the id. *)

Section interleaving.
Context {Q : Type → Type} {F Env : Type} `{QueueLaws Q} `{!UnboundedQueue Q}.

Inductive Adder :=
  | NeedTask (id : Z) (f : F)
  | NeedId (id : Z).

(** Where the loop stands. *)
Inductive Pc :=
  | Idle
  | Draining (id : Z)
  | Finding (id : Z)
  | Running (id : Z) (i : nat) (waker : Z).

(** [held] are the wakers somebody else owns; [lost] the ids for which the loop
    reported that their task is not available. *)
Record Sys := {
  st : State Q F Env;
  adders : list Adder;
  pc : Pc;
  held : gset Z;
  lost : list Z }.

Definition in_use (y : Sys) (p : Z) : Prop := p ∈ held y ∨ ∃ id i, pc y = Running id i p.

Inductive step : Sys → Sys → Prop :=
  | step_begin y f s' id :
      fetch_add Q (st y) = Done (s', id) →
      step y {| st := s'; adders := NeedTask id f :: adders y; pc := pc y; held := held y; lost := lost y |}
  | step_task y a1 id f a2 s' :
      adders y = a1 ++ NeedTask id f :: a2 →
      enqueue_task Q {| task_id := id; future := f |} (st y) = Done (s', tt) →
      step y {| st := s'; adders := a1 ++ NeedId id :: a2; pc := pc y; held := held y; lost := lost y |}
  | step_id y a1 id a2 s' r :
      adders y = a1 ++ NeedId id :: a2 → enqueue_id Q id (st y) = Done (s', r) →
      step y {| st := s'; adders := a1 ++ a2; pc := pc y; held := held y; lost := lost y |}
  | step_dequeue y q id :
      pc y = Idle → q_try_dequeue (run_queue (st y)) = (q, Ok id) →
      step y {| st := set_run_queue Q (st y) q; adders := adders y; pc := Draining id;
                held := held y; lost := lost y |}
  | step_drain y id q t :
      pc y = Draining id → q_try_dequeue (task_add_queue (st y)) = (q, Ok t) →
      step y {| st := set_tasks Q (set_add_queue Q (st y) q) (tasks (st y) ++ [t]);
                adders := adders y; pc := Draining id; held := held y; lost := lost y |}
  | step_drained y id q e :
      pc y = Draining id → q_try_dequeue (task_add_queue (st y)) = (q, Err e) →
      step y {| st := set_add_queue Q (st y) q; adders := adders y; pc := Finding id;
                held := held y; lost := lost y |}
  | step_found y id i t s' p :
      pc y = Finding id → list_find (λ t, task_id t = id) (tasks (st y)) = Some (i, t) →
      create_waker Q (task_id t) (st y) = Done (s', p) →
      step y {| st := s'; adders := adders y; pc := Running id i p; held := held y; lost := lost y |}
  | step_missing y id :
      pc y = Finding id → list_find (λ t, task_id t = id) (tasks (st y)) = None →
      step y {| st := st y; adders := adders y; pc := Idle; held := held y; lost := id :: lost y |}
  | step_polled y id i p t f' s' :
      pc y = Running id i p → tasks (st y) !! i = Some t → waker_drop Q p (st y) = Done (s', tt) →
      step y {| st := set_tasks Q s' (<[i := {| task_id := task_id t; future := f' |}]> (tasks s'));
                adders := adders y; pc := Idle; held := held y; lost := lost y |}
  | step_clone y p s' p' :
      in_use y p → waker_clone Q p (st y) = Done (s', p') →
      step y {| st := s'; adders := adders y; pc := pc y; held := {[p']} ∪ held y; lost := lost y |}
  | step_wake y p s' :
      p ∈ held y → waker_wake Q p (st y) = Done (s', tt) →
      step y {| st := s'; adders := adders y; pc := pc y; held := held y ∖ {[p]}; lost := lost y |}
  | step_wake_by_ref y p s' :
      in_use y p → waker_wake_by_ref Q p (st y) = Done (s', tt) →
      step y {| st := s'; adders := adders y; pc := pc y; held := held y; lost := lost y |}
  | step_drop y p s' :
      p ∈ held y → waker_drop Q p (st y) = Done (s', tt) →
      step y {| st := s'; adders := adders y; pc := pc y; held := held y ∖ {[p]}; lost := lost y |}
  | step_env y e :
      step y {| st := set_env Q (st y) e; adders := adders y; pc := pc y; held := held y; lost := lost y |}.

Definition initial (e : Env) (add : Q (Task F)) (run : Q Z) : Sys :=
  {| st := setup Q e add run; adders := []; pc := Idle; held := ∅; lost := [] |}.

(** ** The invariant *)

Definition unqueued (a : Adder) : option Z := match a with NeedTask id _ => Some id | NeedId _ => None end.

(** Every id in the system whose task exists or is about to. *)
Definition ids (y : Sys) : list Z :=
  map task_id (tasks (st y) ++ q_items (task_add_queue (st y))) ++ omap unqueued (adders y).

Definition pc_ok (y : Sys) : Prop :=
  match pc y with
  | Idle => True
  | Draining id => known (st y) id
  | Finding id => id ∈ map task_id (tasks (st y))
  | Running id i p =>
      (∃ t, tasks (st y) !! i = Some t ∧ task_id t = id) ∧ is_Some (wakers (st y) !! p) ∧ p ∉ held y
  end.

Record sys_inv (n : Z) (y : Sys) : Prop := {
  si_inv : inv (st y);
  si_adders : ∀ id, NeedId id ∈ adders y → known (st y) id;
  si_pc : pc_ok y;
  si_held : ∀ p, p ∈ held y → is_Some (wakers (st y) !! p);
  si_lost : lost y = [];
  si_nodup : NoDup (ids y);
  si_ids : ∀ id, id ∈ ids y → id < id_count (st y);
  si_count : 0 ≤ id_count (st y) ≤ n }.

Lemma initial_inv e add run :
  q_items run = [] → q_items add = [] → q_is_closed run = false → q_is_closed add = false →
  sys_inv 0 (initial e add run).
Proof.
  intros Hr Ha Hrc Hac. split; try done.
  - by apply setup_inv.
  - intros id Hid. by apply not_elem_of_nil in Hid.
  - unfold ids. cbn. rewrite Ha. constructor.
  - intros id Hid. unfold ids in Hid. cbn in Hid. rewrite Ha in Hid. by apply not_elem_of_nil in Hid.
Qed.

(** Two states with the same tasks, arrived and queued, and the same counter. *)
Definition same_tasks (s s' : State Q F Env) : Prop :=
  tasks s' = tasks s ∧ task_add_queue s' = task_add_queue s ∧ id_count s' = id_count s.

Lemma same_tasks_known s s' id : same_tasks s s' → known s' id ↔ known s id.
Proof. intros (Ht & Ha & _). unfold known. by rewrite Ht, Ha. Qed.

(** Actions on the run queue and the wakers. *)
Lemma sys_inv_wakers n y s' held' pc' :
  sys_inv n y → inv s' → same_tasks (st y) s' →
  (∀ p, p ∈ held' → is_Some (wakers s' !! p)) →
  let y' := {| st := s'; adders := adders y; pc := pc'; held := held'; lost := lost y |} in
  pc_ok y' → sys_inv (n + 1) y'.
Proof.
  intros [Hi Had Hpc Hh Hl Hnd Hids Hc] Hi' Hs Hh' y' Hpc'.
  assert (ids y' = ids y) as E by (destruct Hs as (Ht & Ha & _); unfold ids; cbn; by rewrite Ht, Ha).
  split; cbn; try done.
  - intros id Hid. apply (same_tasks_known _ _ _ Hs). by apply Had.
  - by rewrite E.
  - intros id Hid. rewrite E in Hid. destruct Hs as (_ & _ & ->). by apply Hids.
  - destruct Hs as (_ & _ & ->). lia.
Qed.

Lemma pc_ok_wakers y s' held' :
  pc_ok y → same_tasks (st y) s' →
  (∀ id i p, pc y = Running id i p → p ∉ held y → is_Some (wakers (st y) !! p) →
     is_Some (wakers s' !! p) ∧ p ∉ held') →
  pc_ok {| st := s'; adders := adders y; pc := pc y; held := held'; lost := lost y |}.
Proof.
  intros Hpc Hs Hp. unfold pc_ok in *. cbn. destruct (pc y) as [| id | id | id i p] eqn:Epc; try done.
  - by apply (same_tasks_known _ _ _ Hs).
  - by destruct Hs as (-> & _ & _).
  - destruct Hpc as (Ht & Hw & Hn). destruct (Hp id i p eq_refl Hn Hw). destruct Hs as (-> & _ & _). done.
Qed.

Lemma ptr_ref_done (s s' : State Q F Env) p id : ptr_ref Q p s = Done (s', id) → s' = s ∧ wakers s !! p = Some id.
Proof. unfold ptr_ref. destruct (wakers s !! p) eqn:E; naive_solver. Qed.

(** A wake enqueues the id of a live waker, and keeps the waker. *)
Lemma wake_inv (s s' : State Q F Env) p :
  inv s → (id ← ptr_ref Q p; r ← enqueue_id Q id; lift (unwrap_result r)) s = Done (s', tt) →
  inv s' ∧ same_tasks s s' ∧ wakers s' = wakers s.
Proof.
  intros Hs Hr. apply M_bind_done in Hr as (s1 & id & [-> Hp]%ptr_ref_done & Hr).
  destruct (enqueue_id_run s id Hs (inv_wakers _ Hs _ _ Hp)) as (s2 & He & Hs2 & _ & Ht & Ha & Hw & _ & Hc).
  rewrite (M_bind_run _ _ _ _ _ He) in Hr. injection Hr as <-. done.
Qed.

Lemma drop_inv (s s' : State Q F Env) p :
  inv s → waker_drop Q p s = Done (s', tt) →
  inv s' ∧ same_tasks s s' ∧ wakers s' = delete p (wakers s).
Proof.
  intros Hs Hr. unfold waker_drop in Hr. apply M_bind_done in Hr as (s1 & id & [-> Hp]%ptr_ref_done & Hr).
  injection Hr as <-. split; [by apply inv_drop_waker | done].
Qed.

Lemma clone_inv (s s' : State Q F Env) p p' :
  inv s → waker_clone Q p s = Done (s', p') →
  inv s' ∧ same_tasks s s' ∧ wakers s !! p' = None ∧ ∃ id, wakers s' = <[p' := id]> (wakers s).
Proof.
  intros Hs Hr. unfold waker_clone in Hr. apply M_bind_done in Hr as (s1 & id & [-> Hp]%ptr_ref_done & Hr).
  injection Hr as <- <-. split; [by apply inv_create_waker, (inv_wakers _ Hs p) |].
  split; [done |]. split; [by apply (inv_fresh _ Hs) | by exists id].
Qed.

Lemma clone_step n y p s' p' :
  sys_inv n y → waker_clone Q p (st y) = Done (s', p') →
  sys_inv (n + 1) {| st := s'; adders := adders y; pc := pc y; held := {[p']} ∪ held y; lost := lost y |}.
Proof.
  intros Hy Hr. destruct (clone_inv _ _ _ _ (si_inv _ _ Hy) Hr) as (Hi & Hs & Hf & id & Hw).
  apply sys_inv_wakers; try done.
  - intros q Hq. rewrite Hw. destruct (decide (q = p')) as [-> |]; [rewrite lookup_insert_eq; by eexists |].
    rewrite lookup_insert_ne by done. apply (si_held _ _ Hy). set_solver.
  - apply pc_ok_wakers; [apply Hy | done |]. intros id' i q _ Hn Hq. rewrite Hw.
    assert (q ≠ p') as Hne by (intros ->; rewrite Hf in Hq; by destruct Hq).
    rewrite lookup_insert_ne by done. set_solver.
Qed.

Lemma wake_step n y held' p s' :
  sys_inv n y → held' ⊆ held y →
  (id ← ptr_ref Q p; r ← enqueue_id Q id; lift (unwrap_result r)) (st y) = Done (s', tt) →
  sys_inv (n + 1) {| st := s'; adders := adders y; pc := pc y; held := held'; lost := lost y |}.
Proof.
  intros Hy Hsub Hr. destruct (wake_inv _ _ _ (si_inv _ _ Hy) Hr) as (Hi & Hs & Hw).
  apply sys_inv_wakers; try done.
  - intros q Hq. rewrite Hw. apply (si_held _ _ Hy). set_solver.
  - apply pc_ok_wakers; [apply Hy | done |]. intros id' i q _ Hn Hq. rewrite Hw. set_solver.
Qed.

Lemma drop_step n y p s' :
  sys_inv n y → p ∈ held y → waker_drop Q p (st y) = Done (s', tt) →
  sys_inv (n + 1) {| st := s'; adders := adders y; pc := pc y; held := held y ∖ {[p]}; lost := lost y |}.
Proof.
  intros Hy Hp Hr. destruct (drop_inv _ _ _ (si_inv _ _ Hy) Hr) as (Hi & Hs & Hw).
  apply sys_inv_wakers; try done.
  - intros q Hq. rewrite Hw, lookup_delete_ne by set_solver. apply (si_held _ _ Hy). set_solver.
  - apply pc_ok_wakers; [apply Hy | done |]. intros id' i q _ Hn Hq. rewrite Hw.
    rewrite lookup_delete_ne by set_solver. set_solver.
Qed.

Lemma found_step n y id i t s' p :
  sys_inv n y → list_find (λ t, task_id t = id) (tasks (st y)) = Some (i, t) →
  create_waker Q (task_id t) (st y) = Done (s', p) →
  sys_inv (n + 1) {| st := s'; adders := adders y; pc := Running id i p; held := held y; lost := lost y |}.
Proof.
  intros Hy (Hi & Hid & _)%list_find_Some [= <- <-]. pose proof (si_inv _ _ Hy) as Hs.
  assert (known (st y) (task_id t)) as Hk.
  { unfold known. rewrite map_app. apply elem_of_app. left. apply list_elem_of_fmap.
    exists t. split; [done | by eapply list_elem_of_lookup_2]. }
  pose proof (inv_fresh _ Hs (next_waker (st y)) ltac:(lia)) as Hf.
  apply sys_inv_wakers; try done.
  - by apply inv_create_waker.
  - intros q Hq. cbn. pose proof (si_held _ _ Hy q Hq) as Hl.
    rewrite lookup_insert_ne; [done |]. intros E. rewrite <- E, Hf in Hl. by destruct Hl.
  - cbn. split_and!; [by exists t | rewrite lookup_insert_eq; by eexists |].
    intros Hq. pose proof (si_held _ _ Hy _ Hq) as Hl. rewrite Hf in Hl. by destruct Hl.
Qed.

Lemma polled_step n y id i p t f' s' :
  sys_inv n y → pc y = Running id i p → tasks (st y) !! i = Some t →
  waker_drop Q p (st y) = Done (s', tt) →
  sys_inv (n + 1)
    {| st := set_tasks Q s' (<[i := {| task_id := task_id t; future := f' |}]> (tasks s'));
       adders := adders y; pc := Idle; held := held y; lost := lost y |}.
Proof.
  intros Hy Hpc Ht Hr. destruct (drop_inv _ _ _ (si_inv _ _ Hy) Hr) as (Hi & Hs & Hw).
  pose proof (si_pc _ _ Hy) as Hp. unfold pc_ok in Hp. rewrite Hpc in Hp. destruct Hp as (_ & _ & Hn).
  assert (sys_inv (n + 1) {| st := s'; adders := adders y; pc := Idle; held := held y; lost := lost y |}) as H'.
  { apply sys_inv_wakers; try done. intros q Hq. rewrite Hw, lookup_delete_ne by set_solver.
    by apply (si_held _ _ Hy). }
  destruct Hs as (Hts & Has & Hcs). rewrite <- Hts in Ht.
  assert (map task_id (<[i := {| task_id := task_id t; future := f' |}]> (tasks s')) = map task_id (tasks s')) as E.
  { rewrite list_fmap_insert. apply list_insert_id. by rewrite list_lookup_fmap, Ht. }
  destruct H' as [H1' H2' _ H4' H5' H6' H7' H8']. split; cbn; try done.
  - by apply inv_set_task.
  - intros id' Hid. unfold known. cbn. rewrite map_app, E, <- map_app. by apply H2'.
  - unfold ids in *. cbn in *. by rewrite map_app, E, <- map_app.
  - unfold ids in *. cbn in *. by rewrite map_app, E, <- map_app.
Qed.

Lemma begin_step n y f s' id :
  sys_inv n y → n + 1 < 2 ^ 64 → fetch_add Q (st y) = Done (s', id) →
  sys_inv (n + 1)
    {| st := s'; adders := NeedTask id f :: adders y; pc := pc y; held := held y; lost := lost y |}.
Proof.
  intros [Hi Had Hpc Hh Hl Hnd Hids Hc] Hn [= <- <-]. rewrite Z.mod_small by lia.
  split; cbn; try done; try lia.
  - by destruct Hi.
  - intros id Hid. apply elem_of_cons in Hid as [? | Hid]; [done | by apply Had].
  - unfold ids in *. cbn in *. rewrite <- Permutation_middle. constructor; [| done].
    intros Hin. apply Hids in Hin. lia.
  - intros id. unfold ids in *. cbn in *. rewrite elem_of_app, elem_of_cons. intros Hid.
    destruct (decide (id = id_count (st y))) as [-> |]; [lia |].
    assert (id < id_count (st y)); [| lia]. apply Hids, elem_of_app. naive_solver.
Qed.

Lemma known_mono_pc n y s' ad :
  sys_inv n y → (∀ id, known (st y) id → known s' id) → tasks s' = tasks (st y) → wakers s' = wakers (st y) →
  pc_ok {| st := s'; adders := ad; pc := pc y; held := held y; lost := lost y |}.
Proof.
  intros Hy Hk Ht Hw. pose proof (si_pc _ _ Hy) as Hpc. unfold pc_ok in *. cbn. rewrite Ht, Hw.
  destruct (pc y); auto.
Qed.

Lemma task_step n y a1 id f a2 s' :
  sys_inv n y → adders y = a1 ++ NeedTask id f :: a2 →
  enqueue_task Q {| task_id := id; future := f |} (st y) = Done (s', tt) →
  sys_inv (n + 1)
    {| st := s'; adders := a1 ++ NeedId id :: a2; pc := pc y; held := held y; lost := lost y |}.
Proof.
  intros Hy Had Hr.
  destruct (enqueue_task_inv _ _ _ (si_inv _ _ Hy) Hr) as (Hi' & Hq & Ht & Hrq & Hw & Hc & _ & Hk).
  pose proof (known_mono_pc n y s' (a1 ++ NeedId id :: a2) Hy (λ id' H', proj2 (Hk id') (or_introl H')) Ht Hw) as Hpc.
  destruct Hy as [Hi Ha _ Hh Hl Hnd Hids Hcn].
  set (y' := {| st := s' |}) in *. assert (ids y' ≡ₚ ids y) as E.
  { unfold ids. cbn. rewrite Ht, Hq, Had, !omap_app, !map_app. cbn. solve_Permutation. }
  split; try done.
  - intros id' Hid. apply Hk. cbn in Hid. apply elem_of_app in Hid as [Hid | Hid].
    + left. apply Ha. rewrite Had. apply elem_of_app. by left.
    + apply elem_of_cons in Hid as [[= ->] | Hid]; [by right |]. left. apply Ha. rewrite Had.
      apply elem_of_app. right. by right.
  - cbn. by rewrite Hw.
  - by rewrite E.
  - intros id' Hid. cbn. rewrite Hc. apply Hids. by rewrite <- E.
  - cbn. rewrite Hc. lia.
Qed.

Lemma id_step n y a1 id a2 s' r :
  sys_inv n y → adders y = a1 ++ NeedId id :: a2 → enqueue_id Q id (st y) = Done (s', r) →
  sys_inv (n + 1) {| st := s'; adders := a1 ++ a2; pc := pc y; held := held y; lost := lost y |}.
Proof.
  intros Hy Had Hr.
  assert (known (st y) id) as Hkid by (apply (si_adders _ _ Hy); rewrite Had; apply elem_of_app; right; left).
  destruct (enqueue_id_run (st y) id (si_inv _ _ Hy) Hkid) as (s2 & Hr2 & Hi2 & _ & Ht & Ha & Hw & _ & Hc).
  rewrite Hr2 in Hr. injection Hr as <- _.
  assert (same_tasks (st y) s2) as Hs by done.
  pose proof (known_mono_pc n y s2 (a1 ++ a2) Hy (λ id', proj2 (same_tasks_known _ _ id' Hs)) Ht Hw) as Hpc.
  destruct Hy as [Hi Hadd _ Hh Hl Hnd Hids Hcn].
  set (y' := {| st := s2 |}) in *. assert (ids y' = ids y) as E.
  { unfold ids. cbn. by rewrite Ht, Ha, Had, !omap_app. }
  split; try done.
  - intros id' Hid. apply (same_tasks_known _ _ _ Hs), Hadd. rewrite Had. cbn in Hid.
    apply elem_of_app in Hid as [Hid | Hid]; apply elem_of_app; [by left | right; by right].
  - cbn. by rewrite Hw.
  - by rewrite E.
  - intros id' Hid. cbn. rewrite Hc. apply Hids. by rewrite <- E.
  - cbn. rewrite Hc. lia.
Qed.

Lemma dequeue_step n y q id :
  sys_inv n y → q_try_dequeue (run_queue (st y)) = (q, Ok id) →
  sys_inv (n + 1)
    {| st := set_run_queue Q (st y) q; adders := adders y; pc := Draining id; held := held y; lost := lost y |}.
Proof.
  intros Hy Hd. pose proof (si_inv _ _ Hy) as Hi.
  destruct (q_items (run_queue (st y))) as [| id' rest] eqn:Eq.
  { rewrite (dequeue_none _ _ Eq) in Hd. by destruct (q_is_closed _). }
  destruct (dequeue_some _ _ _ _ Eq) as (Hr & Hit & Hc). rewrite Hd in Hr, Hit, Hc. cbn in Hr, Hit, Hc.
  injection Hr as <-.
  assert (known (st y) id) as Hk by (apply (inv_run _ Hi); rewrite Eq; left).
  apply sys_inv_wakers; try done; [| by apply (si_held _ _ Hy)].
  destruct Hi as [Hro Ha Hrun Hw Hf]. split; cbn; try done; [by rewrite Hc |].
  intros id' Hid. apply Hrun. rewrite Eq. right. by rewrite <- Hit.
Qed.

(** Moving the oldest queued task to the vector. *)
Lemma drain_one (s : State Q F Env) q r :
  inv s → q_try_dequeue (task_add_queue s) = (q, r) →
  let s' := set_tasks Q (set_add_queue Q s q)
              (tasks s ++ match r with Ok t => [t] | Err _ => [] end) in
  inv s' ∧ tasks s' ++ q_items (task_add_queue s') = tasks s ++ q_items (task_add_queue s)
  ∧ ((∃ e, r = Err e) → q_items (task_add_queue s) = []).
Proof.
  intros Hi Hd s'.
  assert (tasks s' ++ q_items (task_add_queue s') = tasks s ++ q_items (task_add_queue s)
    ∧ q_is_closed q = false ∧ ((∃ e, r = Err e) → q_items (task_add_queue s) = [])) as (E & Hc & He).
  { pose proof (inv_add_open _ Hi) as Ho. subst s'. cbn.
    destruct (q_items (task_add_queue s)) as [| t rest] eqn:Eq.
    - rewrite (dequeue_none _ _ Eq), Ho in Hd. injection Hd as <- <-. by rewrite Eq, !app_nil_r.
    - destruct (dequeue_some _ _ _ _ Eq) as (Hr & Hit & Hc). rewrite Hd in Hr, Hit, Hc. cbn in Hr, Hit, Hc.
      subst r. rewrite Hit, Hc, <- app_assoc. split_and!; [done | done |]. by intros [e ?]. }
  split_and!; try done.
  assert (∀ id, known s' id ↔ known s id) as Hk by (intros id; unfold known; by rewrite E).
  destruct Hi as [Hro Ha Hrun Hw Hf]. split; try done; intros; apply Hk; eauto.
Qed.

Lemma drain_step n y q r pc' :
  sys_inv n y → q_try_dequeue (task_add_queue (st y)) = (q, r) →
  let y' := {| st := set_tasks Q (set_add_queue Q (st y) q)
                       (tasks (st y) ++ match r with Ok t => [t] | Err _ => [] end);
               adders := adders y; pc := pc'; held := held y; lost := lost y |} in
  pc_ok y' → sys_inv (n + 1) y'.
Proof.
  intros Hy Hd y' Hpc. destruct (drain_one _ _ _ (si_inv _ _ Hy) Hd) as (Hi & E & _).
  destruct Hy as [_ Ha _ Hh Hl Hnd Hids Hcn].
  assert (ids y' = ids y) as E' by (unfold ids; cbn in *; by rewrite E).
  split; try done.
  - intros id Hid. unfold known. cbn [st y']. rewrite E. by apply Ha.
  - by rewrite E'.
  - intros id Hid. rewrite E' in Hid. by apply Hids.
  - cbn. lia.
Qed.

Lemma step_inv n y y' : n + 1 < 2 ^ 64 → step y y' → sys_inv n y → sys_inv (n + 1) y'.
Proof.
  intros Hn Hstep Hy. pose proof (si_pc _ _ Hy) as Hpc. destruct Hstep as
    [| | | | y id q t Ep Hd | y id q e Ep Hd | | y id Ep Hf | | | | | | y e].
  - by apply begin_step.
  - by eapply task_step.
  - by eapply id_step.
  - by apply dequeue_step.
  - eapply (drain_step n y q (Ok t)); [done.. |]. unfold pc_ok in *. cbn. rewrite Ep in Hpc.
    destruct (drain_one _ _ _ (si_inv _ _ Hy) Hd) as (_ & E & _). unfold known. by rewrite E.
  - replace (set_add_queue Q (st y) q) with (set_tasks Q (set_add_queue Q (st y) q) (tasks (st y) ++ []))
      by (by rewrite app_nil_r).
    eapply (drain_step n y q (Err e)); [done.. |].
    destruct (drain_one _ _ _ (si_inv _ _ Hy) Hd) as (_ & _ & He).
    unfold pc_ok in *. rewrite Ep in Hpc. cbn. rewrite app_nil_r. unfold known in Hpc.
    rewrite He, app_nil_r in Hpc by (by eexists). done.
  - by eapply found_step.
  - exfalso. unfold pc_ok in Hpc. rewrite Ep in Hpc. apply list_elem_of_fmap in Hpc as (t & -> & Ht).
    apply list_find_None in Hf. rewrite Forall_forall in Hf. by apply (Hf t).
  - by eapply polled_step.
  - by eapply clone_step.
  - eapply wake_step; [done | set_solver | done].
  - by eapply wake_step.
  - by eapply drop_step.
  - destruct Hy as [[]]. by repeat split; cbn; try done; try lia.
Qed.

Lemma steps_inv (n : nat) y0 y :
  nsteps step n y0 y → ∀ k, 0 ≤ k → k + Z.of_nat n < 2 ^ 64 → sys_inv k y0 → sys_inv (k + Z.of_nat n) y.
Proof.
  induction 1 as [| n y0 y1 y Hs _ IH]; intros k Hk Hb Hy.
  - by rewrite Z.add_0_r.
  - replace (k + Z.of_nat (S n)) with (k + 1 + Z.of_nat n) by lia.
    apply IH; [lia.. |]. by apply (step_inv k y0); [lia | |].
Qed.

(** The next id is not in use. *)
Lemma next_id_fresh n y : sys_inv n y → ¬ known (st y) (id_count (st y)).
Proof.
  intros Hy Hk. assert (id_count (st y) ∈ ids y) as Hin by (apply elem_of_app; by left).
  pose proof (si_ids _ _ Hy _ Hin). lia.
Qed.

(** C16: the scheduler under arbitrary interleaving.  From boot, through fewer
    than 2^64 atomic actions of the run loop, of [add_task] callers and of
    waker owners in any order, no round finds its task missing, no two tasks
    ever get the same id, and no waker in use is dangling: waking by it
    always succeeds. *)
Theorem interleaving_safe (e : Env) (add : Q (Task F)) (run : Q Z) (n : nat) (y : Sys) :
  q_items run = [] → q_items add = [] → q_is_closed run = false → q_is_closed add = false →
  nsteps step n (initial e add run) y → Z.of_nat n < 2 ^ 64 →
  lost y = [] ∧ NoDup (ids y)
  ∧ (∀ p, in_use y p → ∃ s', waker_wake_by_ref Q p (st y) = Done (s', tt))
  ∧ (∀ id rest, q_items (run_queue (st y)) = id :: rest → known (st y) id).
Proof.
  intros Hr Ha Hrc Hac Hs Hn.
  pose proof (steps_inv n _ _ Hs 0 ltac:(lia) ltac:(lia) (initial_inv _ _ _ Hr Ha Hrc Hac)) as Hy.
  split_and!; [apply Hy | apply Hy | |].
  - intros p Hu. assert (is_Some (wakers (st y) !! p)) as [id Hid].
    { destruct Hu as [Hp | (id & i & Hp)]; [by apply (si_held _ _ Hy) |].
      pose proof (si_pc _ _ Hy) as Hpc. unfold pc_ok in Hpc. rewrite Hp in Hpc. apply Hpc. }
    pose proof (si_inv _ _ Hy) as Hi.
    destruct (enqueue_id_run (st y) id Hi (inv_wakers _ Hi _ _ Hid)) as (s2 & He & _).
    exists s2. unfold waker_wake_by_ref. erewrite M_bind_run; last (unfold ptr_ref; by rewrite Hid).
    by rewrite (M_bind_run _ _ _ _ _ He).
  - intros id rest Hq. apply (inv_run _ (si_inv _ _ Hy)). rewrite Hq. left.
Qed.

End interleaving.

(** ** The actions and the code

    The steps are the code's own: [add_task] is three of them in a row, and a
    round of the loop is a sequence of them, when what the polled future does
    is. *)

Section refinement.
Context {Q : Type → Type} {F Env : Type} `{QueueLaws Q} `{!UnboundedQueue Q}.

Implicit Types (y : Sys (Q := Q) (F := F) (Env := Env)) (s : State Q F Env).

(** The system [y] with another kernel state, loop position, owned wakers and
    reports. *)
Definition moved y s (p : Pc) (h : gset Z) (l : list Z) : Sys (Q := Q) (F := F) (Env := Env) :=
  {| st := s; adders := adders y; pc := p; held := h; lost := l |}.

(** [Handle::add_task] is three steps. *)
Theorem add_task_steps (f : F) y s' :
  add_task Q f (st y) = Done (s', tt) → nsteps step 3 y (moved y s' (pc y) (held y) (lost y)).
Proof.
  intros Hr. unfold add_task in Hr. apply M_bind_done in Hr as (s1 & id & H1' & Hr).
  apply M_bind_done in Hr as (s2 & [] & H2' & Hr). apply M_bind_done in Hr as (s3 & r & H3' & Hr).
  injection Hr as <-. eapply nsteps_l; [exact (step_begin y f s1 id H1') |].
  eapply nsteps_l; [apply (step_task _ [] id f (adders y) s2); [reflexivity | exact H2'] |].
  eapply nsteps_l; [apply (step_id _ [] id (adders y) s3 r); [reflexivity | exact H3'] |]. apply nsteps_O.
Qed.

Lemma drain_steps fuel id y s' :
  pc y = Draining id → drain Q fuel (st y) = Done (s', tt) →
  rtc step y (moved y s' (Finding id) (held y) (lost y)).
Proof.
  revert y. induction fuel as [| fuel IH]; intros y Hp Hr; cbn [drain] in Hr; [done |].
  destruct (q_try_dequeue (task_add_queue (st y))) as [q [t | e]] eqn:Eq.
  - eapply rtc_l; [exact (step_drain y id q t Hp Eq) |].
    exact (IH (moved y _ (Draining id) (held y) (lost y)) eq_refl Hr).
  - injection Hr as <-. eapply rtc_l; [exact (step_drained y id q e Hp Eq) | apply rtc_refl].
Qed.

Context (poll : F → Z → M (State Q F Env) (F * bool)).

(** Polling a future is a sequence of steps of the others, which leave the task
    vector alone. *)
Class PollSteps : Prop := poll_steps : ∀ f p y id i s' r,
  pc y = Running id i p → poll f p (st y) = Done (s', r) →
  tasks s' = tasks (st y) ∧ ∃ h, rtc step y (moved y s' (pc y) h (lost y)).

Context `{!PollSteps}.

(** A round of [Kernel::run] is a sequence of steps from [Idle] to [Idle], and
    reports a task as missing exactly when a step does. *)
Theorem run_round_steps y s' r :
  pc y = Idle → run_round Q poll (st y) = Done (s', r) →
  ∃ h, rtc step y (moved y s' Idle h (match r with NotAvailable id => id :: lost y | _ => lost y end)).
Proof.
  intros Hp Hr. unfold run_round in Hr. destruct (q_try_dequeue (run_queue (st y))) as [q [id | e]] eqn:Eq; last first.
  { destruct (q_items (run_queue (st y))) as [| a rest] eqn:Ei.
    - rewrite (dequeue_none _ _ Ei) in Eq. injection Eq as <- _. exists (held y).
      assert (set_run_queue Q (st y) (run_queue (st y)) = st y) as E by by destruct (st y).
      assert (moved y (st y) Idle (held y) (lost y) = y) as Ey by (rewrite <- Hp; by destruct y).
      destruct e; injection Hr as <- <-; rewrite E, Ey; apply rtc_refl.
    - destruct (dequeue_some _ _ _ _ Ei) as [Hok _]. by rewrite Eq in Hok. }
  apply M_bind_done in Hr as (s1 & [] & Hd & Hr). apply M_bind_done in Hr as (s2 & ts & [= <- <-] & Hr).
  set (y1 := moved y (set_run_queue Q (st y) q) (Draining id) (held y) (lost y)).
  set (yf := moved y s1 (Finding id) (held y) (lost y)). assert (rtc step y yf) as Hfind.
  { eapply rtc_l; [exact (step_dequeue y q id Hp Eq) |]. exact (drain_steps _ id y1 s1 eq_refl Hd). }
  destruct (list_find (λ t, task_id t = id) (tasks s1)) as [[i t] |] eqn:Ef; last first.
  { injection Hr as <- <-. exists (held y). eapply rtc_r; [exact Hfind |]. exact (step_missing yf id eq_refl Ef). }
  apply M_bind_done in Hr as (s3 & [t' ready] & Ht & Hr). apply M_bind_done in Hr as (s4 & [] & [= <-] & [= <- <-]).
  unfold task_run in Ht. apply M_bind_done in Ht as (sp & p & Hw & Ht). apply M_bind_done in Ht as (sq & [f' b] & Hpoll & Ht).
  apply M_bind_done in Ht as (sr & [] & Hdrop & [= -> <- <-]).
  set (y2 := moved y sp (Running id i p) (held y) (lost y)).
  destruct (poll_steps (future t) p y2 id i sq (f', b) eq_refl Hpoll) as (Htasks & h & Hsteps).
  assert (tasks sq !! i = Some t) as Hi.
  { rewrite Htasks. cbn. injection Hw as <- _. by apply list_find_Some in Ef as [? _]. }
  exists h. etrans; [exact Hfind |]. eapply rtc_l; [exact (step_found yf id i t sp p eq_refl Ef Hw) |].
  eapply rtc_r; [exact Hsteps |]. exact (step_polled (moved y sq (Running id i p) h (lost y)) id i p t f' _ eq_refl Hi Hdrop).
Qed.

End refinement.

(** ** What is never freed *)

Section leak.
Context {Q : Type → Type} {F Env : Type} `{QueueLaws Q} `{!UnboundedQueue Q}.

(** A waker consumed by [wake] is never freed.  Waking through a held waker
    by value, which ends its owner's claim on it, queues the task's id but
    leaves the box on the heap; only [drop], which the owner can no longer
    call, would release it. *)
Theorem consumed_waker_leaks (y : Sys (Q := Q) (F := F) (Env := Env)) (p id : Z) :
  inv (st y) → wakers (st y) !! p = Some id → p ∈ held y →
  ∃ s', waker_wake Q p (st y) = Done (s', tt)
    ∧ step y {| st := s'; adders := adders y; pc := pc y; held := held y ∖ {[p]}; lost := lost y |}
    ∧ q_items (run_queue s') = q_items (run_queue (st y)) ++ [id]
    ∧ wakers s' !! p = Some id.
Proof.
  intros Hi Hp Hh.
  destruct (enqueue_id_run (st y) id Hi (inv_wakers _ Hi _ _ Hp)) as (s2 & He & _ & Hq & _ & _ & Hw & _).
  assert (waker_wake Q p (st y) = Done (s2, tt)) as Hr.
  { unfold waker_wake. erewrite M_bind_run; last (unfold ptr_ref; by rewrite Hp).
    by rewrite (M_bind_run _ _ _ _ _ He). }
  exists s2. rewrite Hw. split_and!; try done. by apply step_wake.
Qed.

End leak.

(** ** A kernel with tasks that yield a number of times *)

Module Yielding.

Abbreviation Kst := (State jiffy_queue nat unit).

Definition empty_kernel : Kst := setup jiffy_queue tt (mk_jiffy [] false) (mk_jiffy [] false).

(** A future that wakes its own task and yields, [n] times. *)
Definition yielding (n : nat) (waker : Z) : M Kst (nat * bool) :=
  match n with
  | O => mret (O, true)
  | S n => _ ← waker_wake_by_ref jiffy_queue waker; mret (n, false)
  end.

#[global] Instance yielding_good : GoodPoll yielding.
Proof.
  intros f p id s Hs Hp. destruct f as [| f]; cbn [yielding].
  - exists s, (O, true). split_and!; try done; exists []; by rewrite app_nil_r.
  - destruct (enqueue_id_run s id Hs (inv_wakers _ Hs _ _ Hp)) as (s2 & He & Hs2 & Hq & Ht & Ha & Hw & _).
    exists s2, (f, false). split.
    + erewrite M_bind_run; [reflexivity |]. unfold waker_wake_by_ref.
      erewrite M_bind_run; last (unfold ptr_ref; by rewrite Hp). by rewrite (M_bind_run _ _ _ _ _ He).
    + split_and!; try done; [by rewrite Hw | | by exists [id]]. exists []. by rewrite Ha, app_nil_r.
Qed.

#[global] Instance yielding_steps : PollSteps yielding.
Proof.
  intros f p y id i s' r Hp Hr. destruct f as [| f]; cbn [yielding] in Hr.
  - injection Hr as <- _. split; [done |]. exists (held y). by destruct y; apply rtc_refl.
  - apply M_bind_done in Hr as (s1 & [] & Hw & [= <- _]). split.
    + unfold waker_wake_by_ref in Hw. apply M_bind_done in Hw as (s2 & id' & [-> _]%ptr_ref_done & Hw).
      apply M_bind_done in Hw as (s3 & r' & He & [_ ->]%lift_done). unfold enqueue_id in He.
      destruct (q_try_enqueue _ _). by injection He as <- _.
    + exists (held y). eapply rtc_l; [apply (step_wake_by_ref y p s1); [right; by exists id, i | done] | apply rtc_refl].
Qed.

Lemma empty_kernel_inv : inv empty_kernel.
Proof. by apply setup_inv. Qed.

(** Two tasks, queued behind each other. *)
Definition two_tasks : Kst :=
  {| id_count := 2;
     task_add_queue := mk_jiffy [{| task_id := 0; future := 1%nat |}; {| task_id := 1; future := 2%nat |}] false;
     run_queue := mk_jiffy [0; 1] false; tasks := []; wakers := ∅; next_waker := 1; env := tt |}.

Lemma two_tasks_added :
  (_ ← add_task jiffy_queue 1%nat; add_task jiffy_queue 2%nat) empty_kernel = Done (two_tasks, tt).
Proof. vm_compute. reflexivity. Qed.

Lemma two_tasks_inv : inv two_tasks.
Proof. split; done. Qed.

(** The first five rounds: each task yields as often as it was asked to. *)
Lemma two_tasks_run :
  match run_rounds jiffy_queue yielding 6 two_tasks with
  | Done (_, rs) => rs = [Polled 0 false; Polled 1 false; Polled 0 true; Polled 1 false; Polled 1 true; Waiting]
  | _ => False
  end.
Proof. vm_compute. reflexivity. Qed.

Lemma run_rounds_fifo_witness :
  ∃ s' rs, run_rounds jiffy_queue yielding 2 two_tasks = Done (s', rs) ∧ inv s'
    ∧ Forall2 (λ id r, ∃ ready, r = Polled id ready) [0; 1] rs.
Proof.
  change [0; 1] with (take 2 (q_items (run_queue two_tasks))).
  apply (run_rounds_fifo (Q := jiffy_queue) yielding 2 two_tasks); [apply two_tasks_inv |].
  vm_compute. lia.
Defined.

Lemma two_tasks_fresh : ¬ known two_tasks 2.
Proof. vm_compute. intros Hin. by repeat (apply elem_of_cons in Hin as [? | Hin]; [done |]); apply elem_of_nil in Hin. Qed.

Lemma added_task_runs_witness :
  ∃ s1, add_task jiffy_queue 3%nat two_tasks = Done (s1, tt)
    ∧ q_items (run_queue s1) = [0; 1; 2]
    ∧ ∃ s2 rs s3 ready, run_rounds jiffy_queue yielding 2 s1 = Done (s2, rs)
        ∧ run_round jiffy_queue yielding s2 = Done (s3, Polled 2 ready)
        ∧ polled_in_round yielding 2 {| task_id := 2; future := 3%nat |} s2 s3 ready.
Proof.
  destruct (added_task_runs (Q := jiffy_queue) yielding 3%nat two_tasks two_tasks_inv two_tasks_fresh)
    as (s1 & Ha & _ & Hq & s2 & rs & s3 & ready & Hr & _ & Hl & Hp).
  exists s1. split; [exact Ha |]. split; [exact Hq |]. by exists s2, rs, s3, ready.
Defined.

(** The loop polls task 0, which cloned its waker for an interrupt handler. *)
Definition polling : Sys (Q := jiffy_queue) (F := nat) (Env := unit) :=
  {| st := {| id_count := 2; task_add_queue := mk_jiffy [] false; run_queue := mk_jiffy [1] false;
              tasks := [{| task_id := 0; future := 1%nat |}; {| task_id := 1; future := 2%nat |}];
              wakers := {[1 := 0; 2 := 0]}; next_waker := 3; env := tt |};
     adders := []; pc := Running 0 0 1; held := {[2]}; lost := [] |}.

(** Take the named step, evaluating its premises. *)
Tactic Notation "take_step" open_constr(r) :=
  eapply nsteps_l; [eapply r; vm_compute; reflexivity |]; cbn [st adders pc held lost].

Lemma boot_to_polling :
  nsteps step 12 (initial tt (mk_jiffy [] false) (mk_jiffy [] false)) polling.
Proof.
  take_step (step_begin _ 1%nat).
  take_step (step_begin _ 2%nat).
  take_step (step_task _ [NeedTask 1 2%nat]).
  take_step (step_id _ [NeedTask 1 2%nat]).
  take_step step_dequeue.
  take_step step_drain.
  take_step (step_task _ []).
  take_step step_drain.
  take_step step_drained.
  take_step (step_id _ []).
  take_step step_found.
  eapply nsteps_l; [eapply (step_clone _ 1); [right; by eexists _, _ | vm_compute; reflexivity] |].
  apply nsteps_O.
Qed.

Lemma interleaving_safe_witness :
  lost polling = [] ∧ NoDup (ids polling)
  ∧ (∀ p, in_use polling p → ∃ s', waker_wake_by_ref jiffy_queue p (st polling) = Done (s', tt))
  ∧ (∀ id rest, q_items (run_queue (st polling)) = id :: rest → known (st polling) id).
Proof.
  apply (interleaving_safe (Q := jiffy_queue) tt (mk_jiffy [] false) (mk_jiffy [] false) 12 polling);
    [reflexivity .. | apply boot_to_polling | reflexivity].
Defined.

Lemma polling_inv : inv (st polling).
Proof.
  split; try done; cbn.
  - intros id ->%list_elem_of_singleton. vm_compute. right. left.
  - intros p id Hp. apply lookup_insert_Some in Hp as [[_ <-] | [_ Hp]]; [by repeat constructor |].
    apply lookup_singleton_Some in Hp as [_ <-]. by repeat constructor.
  - intros p Hp. rewrite !lookup_insert_ne by lia. apply lookup_singleton_ne. lia.
Qed.

Lemma consumed_waker_leaks_witness :
  ∃ s', waker_wake jiffy_queue 2 (st polling) = Done (s', tt)
    ∧ step polling {| st := s'; adders := adders polling; pc := pc polling;
                      held := held polling ∖ {[2]}; lost := lost polling |}
    ∧ q_items (run_queue s') = q_items (run_queue (st polling)) ++ [0] ∧ wakers s' !! 2 = Some 0.
Proof.
  apply (consumed_waker_leaks (Q := jiffy_queue) polling 2 0); [apply polling_inv | reflexivity |].
  by apply elem_of_singleton.
Defined.

End Yielding.
