(* ===== verification/Rng.v ===== *)
(** * Random numbers

    [src/src/hardware/rng.rs]: the 64-bit KISS generator, which adds a linear
    congruential generator, a xorshift generator and a multiply-with-carry
    generator. *)

From stdpp Require Import base tactics numbers.
From Stdlib Require Import ZArith Lia.
From S2P Require Import Prelude Queue.

Local Open Scope Z_scope.

Record Kiss := { x : Z; y : Z; z : Z; c : Z }.

Definition kiss_new (seed y z c : Z) : result Kiss unit := Ok {| x := seed; y := y; z := z; c := c |}.

(** [y ^= y << n] and [y ^= y >> n] *)
Definition xor_shl (v n : Z) : Z := Z.lxor v (shl_w 64 v n).
Definition xor_shr (v n : Z) : Z := Z.lxor v (Z.shiftr v n).

Definition rand {B : Build} : M Kiss Z := fun s =>
  let x' := cast 64 (cast 64 (6906969069 * x s) + 1234567) in
  let y' := xor_shl (xor_shr (xor_shl (y s) 13) 17) 43 in
  t ← add_w 64 (shl_w 64 (z s) 58) (c s);
  let c' := Z.shiftr (z s) 6 in
  let z' := cast 64 (z s + t) in
  c' ← add_w 64 c' (if z' <? t then 1 else 0);
  Done ({| x := x'; y := y'; z := z'; c := c' |}, cast 64 (cast 64 (x' + y') + z')).

(** The state [Hardware::init] starts with. *)
Definition boot_kiss : Kiss := {| x := 239812446; y := 1837621879; z := 512893; c := 123873267123 |}.

(** ** The invariant *)

Record kiss_inv (s : Kiss) : Prop := {
  kiss_x : uint 64 (x s);
  kiss_y : uint 64 (y s);
  kiss_z : uint 64 (z s);
  kiss_c : 0 ≤ c s ≤ 2 ^ 58 }.

(** The carry does not fit: [t] is 2^64. *)
Definition carry_lost (s : Kiss) : Prop := c s = 2 ^ 58 ∧ z s mod 64 = 63.

#[export] Instance carry_lost_dec s : Decision (carry_lost s).
Proof. unfold carry_lost. apply _. Defined.

(** ** The xorshift generator is a permutation *)

Lemma xor_shl_uint v n : uint 64 v → uint 64 (xor_shl v n).
Proof. intros. apply uint_lxor; [lia | done | apply uint_shl; lia]. Qed.

Lemma xor_shr_uint v n : 0 ≤ n → uint 64 v → uint 64 (xor_shr v n).
Proof. intros. apply uint_lxor; [lia | done | apply uint_shiftr; [lia | done | done]]. Qed.

Lemma xor_shl_testbit v n i :
  0 ≤ i < 64 → Z.testbit (xor_shl v n) i = xorb (Z.testbit v i) (Z.testbit v (i - n)).
Proof.
  intros Hi. unfold xor_shl, shl_w, cast. rewrite Z.lxor_spec, Z.mod_pow2_bits_low by lia.
  by rewrite Z.shiftl_spec by lia.
Qed.

Lemma uint_bits_eq w a b : 0 ≤ w → uint w a → uint w b →
  (∀ i, 0 ≤ i < w → Z.testbit a i = Z.testbit b i) → a = b.
Proof.
  intros Hw Ha Hb E. apply Z.bits_inj'. intros i Hi. destruct (Z.lt_ge_cases i w); [by apply E |].
  by rewrite (uint_testbit w a), (uint_testbit w b).
Qed.

Lemma xor_shl_inj n a b :
  0 < n → uint 64 a → uint 64 b → xor_shl a n = xor_shl b n → a = b.
Proof.
  intros Hn Ha Hb E. apply (uint_bits_eq 64); try done.
  intros i. induction i as [i IH] using (well_founded_induction (Z.lt_wf 0)). intros Hi.
  pose proof (f_equal (λ v, Z.testbit v i) E) as Ei. cbv beta in Ei.
  rewrite !xor_shl_testbit in Ei by lia. destruct (Z.lt_ge_cases i n).
  - rewrite !(Z.testbit_neg_r _ (i - n)) in Ei by lia. by rewrite !xorb_false_r in Ei.
  - rewrite (IH (i - n)) in Ei by lia. by destruct (Z.testbit a i), (Z.testbit b i), (Z.testbit b (i - n)).
Qed.

Lemma xor_shr_inj n a b :
  0 < n → uint 64 a → uint 64 b → xor_shr a n = xor_shr b n → a = b.
Proof.
  intros Hn Ha Hb E.
  assert (∀ k i, 0 ≤ k → i = 64 - k → Z.testbit a i = Z.testbit b i) as Hk.
  { intros k. induction k as [k IH] using (well_founded_induction (Z.lt_wf 0)). intros i Hk ->.
    destruct (Z.lt_ge_cases 64 k); [by rewrite !Z.testbit_neg_r by lia |].
    pose proof (f_equal (λ v, Z.testbit v (64 - k)) E) as Ei. cbv beta in Ei.
    unfold xor_shr in Ei. rewrite !Z.lxor_spec, !Z.shiftr_spec in Ei by lia.
    assert (Z.testbit a (64 - k + n) = Z.testbit b (64 - k + n)) as En.
    { destruct (Z.lt_ge_cases k n).
      - by rewrite (uint_testbit 64 a), (uint_testbit 64 b) by (done || lia).
      - apply (IH (k - n)); lia. }
    rewrite En in Ei.
    by destruct (Z.testbit a (64 - k)), (Z.testbit b (64 - k)), (Z.testbit b (64 - k + n)). }
  apply (uint_bits_eq 64); try done. intros i Hi. apply (Hk (64 - i)); lia.
Qed.

Definition xorshift (v : Z) : Z := xor_shl (xor_shr (xor_shl v 13) 17) 43.

Lemma xorshift_inj a b : uint 64 a → uint 64 b → xorshift a = xorshift b → a = b.
Proof.
  intros Ha Hb E. assert (∀ v, uint 64 v → uint 64 (xor_shl v 13)) by (intros; by apply xor_shl_uint).
  apply xor_shl_inj in E; [| lia | by apply xor_shr_uint; auto ..].
  apply xor_shr_inj in E; [| lia | auto ..]. by apply xor_shl_inj in E.
Qed.

Lemma xorshift_zero v : uint 64 v → xorshift v = 0 ↔ v = 0.
Proof.
  intros Hv. split; [| by intros ->]. intros E. by apply xorshift_inj.
Qed.

(** The same three steps in arithmetic on the numbers. *)
Lemma xorshift_arith v :
  xorshift v
  = let a := Z.lxor v (v * 2 ^ 13 mod 2 ^ 64) in
    let b := Z.lxor a (a / 2 ^ 17) in
    Z.lxor b (b * 2 ^ 43 mod 2 ^ 64).
Proof.
  unfold xorshift, xor_shl, xor_shr, shl_w, cast. cbv zeta.
  by rewrite !Z.shiftl_mul_pow2, !Z.shiftr_div_pow2 by lia.
Qed.

(** ** The multiply-with-carry generator *)

Lemma mwc_split v : uint 64 v → v * 2 ^ 58 = Z.shiftr v 6 * 2 ^ 64 + shl_w 64 v 58.
Proof.
  intros [H0 H1]. unfold shl_w, cast. rewrite Z.shiftl_mul_pow2, Z.shiftr_div_pow2 by lia.
  change (2 ^ 6) with 64. change (2 ^ 64) with 18446744073709551616 in *.
  change (2 ^ 58) with 288230376151711744. Z.to_euclidean_division_equations. lia.
Qed.

Lemma shl_58 v : 0 ≤ v → shl_w 64 v 58 = v mod 64 * 2 ^ 58.
Proof.
  intros H0. unfold shl_w, cast. rewrite Z.shiftl_mul_pow2 by lia.
  change (2 ^ 64) with 18446744073709551616. change (2 ^ 58) with 288230376151711744.
  Z.to_euclidean_division_equations. lia.
Qed.

Lemma mwc_t s : kiss_inv s → shl_w 64 (z s) 58 + c s < 2 ^ 64 ↔ ¬ carry_lost s.
Proof.
  intros [_ _ Hz Hc]. unfold carry_lost, uint in *. rewrite shl_58 by lia.
  change (2 ^ 64) with 18446744073709551616 in *. change (2 ^ 58) with 288230376151711744 in *.
  pose proof (Z.mod_pos_bound (z s) 64). lia.
Qed.

Lemma cast_cast_add a b : cast 64 (cast 64 a + b) = (a + b) mod 2 ^ 64.
Proof. unfold cast. by rewrite Zplus_mod_idemp_l. Qed.

(** What [rand] does when the carry fits. *)
Lemma rand_run {B : Build} s :
  kiss_inv s → ¬ carry_lost s →
  ∃ s', rand s = Done (s', (x s' + y s' + z s') mod 2 ^ 64)
    ∧ x s' = (6906969069 * x s + 1234567) mod 2 ^ 64
    ∧ y s' = xorshift (y s)
    ∧ z s' + 2 ^ 64 * c s' = (2 ^ 58 + 1) * z s + c s
    ∧ kiss_inv s'.
Proof.
  intros Hs Hc. pose proof (proj2 (mwc_t s Hs) Hc) as Ht. destruct Hs as [Hx Hy Hz Hcs].
  pose proof (mwc_split _ Hz) as Hsplit. pose proof (uint_shl 64 (z s) 58 ltac:(lia)) as Hsh.
  unfold rand, add_w. unfold uint in Hsh, Hz.
  rewrite (arith_in 64 (shl_w 64 (z s) 58 + c s)) by (unfold uint; lia). rewrite bind_Done_l.
  set (t := shl_w 64 (z s) 58 + c s) in *.
  assert (cast 64 (z s + t) = z s + t - (if cast 64 (z s + t) <? t then 2 ^ 64 else 0)
    ∧ (cast 64 (z s + t) <? t) = (2 ^ 64 <=? z s + t)) as [Ez Eb].
  { unfold cast. change (2 ^ 64) with 18446744073709551616 in *.
    destruct (Z.ltb_spec ((z s + t) mod 18446744073709551616) t);
      destruct (Z.leb_spec 18446744073709551616 (z s + t));
      Z.to_euclidean_division_equations; lia. }
  assert (0 ≤ Z.shiftr (z s) 6 < 2 ^ 58) as Hr.
  { rewrite Z.shiftr_div_pow2 by lia. change (2 ^ 6) with 64. change (2 ^ 58) with 288230376151711744.
    change (2 ^ 64) with 18446744073709551616 in *. Z.to_euclidean_division_equations. lia. }
  rewrite (arith_in 64 (Z.shiftr (z s) 6 + _)) by
    (unfold uint; change (2 ^ 58) with 288230376151711744 in *;
     change (2 ^ 64) with 18446744073709551616 in *; destruct (_ <? _); lia).
  rewrite bind_Done_l, !cast_cast_add.
  exists {| x := (6906969069 * x s + 1234567) mod 2 ^ 64; y := xorshift (y s); z := cast 64 (z s + t);
            c := Z.shiftr (z s) 6 + (if cast 64 (z s + t) <? t then 1 else 0) |}.
  split; [reflexivity |]. cbn [x y z c]. split_and!.
  - done.
  - done.
  - clear Ht Eb. revert Ez. set (m := cast 64 (z s + t)). clearbody m. subst t.
    change (2 ^ 58) with 288230376151711744 in *. change (2 ^ 64) with 18446744073709551616 in *.
    destruct (m <? _); lia.
  - split; cbn [x y z c].
    + apply cast_uint. lia.
    + apply xor_shl_uint, xor_shr_uint, xor_shl_uint; [lia | done].
    + apply cast_uint. lia.
    + destruct (_ <? _); lia.
Qed.

(** What it does when the carry is lost: [t] is 2^64. *)
Lemma lost_t s : kiss_inv s → carry_lost s → shl_w 64 (z s) 58 + c s = 2 ^ 64.
Proof.
  intros [_ _ Hz _] [Ec Em]. rewrite shl_58, Ec, Em by (unfold uint in Hz; lia). reflexivity.
Qed.

Lemma rand_panics {B : Build} s :
  kiss_inv s → carry_lost s ∧ overflow_checks = true → rand s = Panicked ArithOverflow.
Proof.
  intros Hs [Hc Ho]. unfold rand, add_w. rewrite (lost_t s) by done. unfold arith. by rewrite Ho.
Qed.

Lemma rand_lost {B : Build} s :
  kiss_inv s → carry_lost s → overflow_checks = false →
  ∃ s', rand s = Done (s', (x s' + y s' + z s') mod 2 ^ 64)
    ∧ x s' = (6906969069 * x s + 1234567) mod 2 ^ 64
    ∧ y s' = xorshift (y s)
    ∧ z s' + 2 ^ 64 * (c s' + 1) = (2 ^ 58 + 1) * z s + c s
    ∧ kiss_inv s'.
Proof.
  intros Hs Hc Ho. pose proof (lost_t s Hs Hc) as Et. destruct Hs as [Hx Hy Hz Hcs].
  pose proof (mwc_split _ Hz) as Hsplit. unfold rand, add_w. rewrite Et.
  assert (arith 64 (2 ^ 64) = Done 0) as -> by (unfold arith; by rewrite Ho).
  rewrite bind_Done_l, Z.add_0_r, (cast_small 64 (z s)) by done. unfold uint in Hz.
  replace (z s <? 0) with false by (symmetry; apply Z.ltb_ge; lia).
  assert (0 ≤ Z.shiftr (z s) 6 < 2 ^ 58) as Hr.
  { rewrite Z.shiftr_div_pow2 by lia. change (2 ^ 6) with 64. change (2 ^ 58) with 288230376151711744.
    change (2 ^ 64) with 18446744073709551616 in *. Z.to_euclidean_division_equations. lia. }
  rewrite Z.add_0_r, arith_in, bind_Done_l, !cast_cast_add by
    (unfold uint; change (2 ^ 58) with 288230376151711744 in *;
     change (2 ^ 64) with 18446744073709551616 in *; lia).
  exists {| x := (6906969069 * x s + 1234567) mod 2 ^ 64; y := xorshift (y s); z := z s; c := Z.shiftr (z s) 6 |}.
  split; [reflexivity |]. cbn [x y z c].
  split_and!; [done | done | lia |]. split; cbn [x y z c].
  - apply cast_uint. lia.
  - apply xor_shl_uint, xor_shr_uint, xor_shl_uint; [lia | done].
  - done.
  - lia.
Qed.

(** C39: the generator is the KISS recurrence.  From a state in range [rand]
    steps the congruential generator modulo 2^64, the xorshift generator by
    the shifts 13 (left), 17 (right) and 43 (left) on 64-bit words, so that a
    non-zero state of it stays non-zero, and, unless the carry is lost, the
    multiply-with-carry pair by the multiplier 2^58 + 1; it returns the sum
    modulo 2^64 and keeps the state in range.  When the carry is lost (carry
    2^58 and the low six bits of [z] set) a build with overflow checks
    panics; one without them does the same three steps, except that the new
    carry is one too small. *)
Theorem kiss_rand_spec {B : Build} (s : Kiss) :
  kiss_inv s →
  if decide (carry_lost s ∧ overflow_checks = true) then rand s = Panicked ArithOverflow
  else
    ∃ s', rand s = Done (s', (x s' + y s' + z s') mod 2 ^ 64)
      ∧ x s' = (6906969069 * x s + 1234567) mod 2 ^ 64
      ∧ (let a := Z.lxor (y s) (y s * 2 ^ 13 mod 2 ^ 64) in
         let b := Z.lxor a (a / 2 ^ 17) in
         y s' = Z.lxor b (b * 2 ^ 43 mod 2 ^ 64))
      ∧ (y s' = 0 ↔ y s = 0)
      ∧ z s' + 2 ^ 64 * (c s' + (if decide (carry_lost s) then 1 else 0)) = (2 ^ 58 + 1) * z s + c s
      ∧ kiss_inv s'.
Proof.
  intros Hs. case_decide as Hd; [by apply rand_panics |].
  assert (∃ s', rand s = Done (s', (x s' + y s' + z s') mod 2 ^ 64)
    ∧ x s' = (6906969069 * x s + 1234567) mod 2 ^ 64
    ∧ y s' = xorshift (y s)
    ∧ z s' + 2 ^ 64 * (c s' + (if decide (carry_lost s) then 1 else 0)) = (2 ^ 58 + 1) * z s + c s
    ∧ kiss_inv s') as (s' & Hr & Ex & Ey & Em & Hs').
  { case_decide as Hc.
    - apply rand_lost; [done.. |]. destruct overflow_checks; naive_solver.
    - destruct (rand_run s Hs Hc) as (s' & ?). exists s'. by rewrite Z.add_0_r. }
  exists s'. split; [exact Hr |]. split; [exact Ex |]. cbv zeta. rewrite <- xorshift_arith.
  split; [exact Ey |]. split; [| by split]. rewrite Ey. by apply xorshift_zero, Hs.
Qed.

(** The generator loses nothing.  Two states in range between which the next
    call cannot tell are the same state: the step is injective, so no two
    cycles of the generator ever merge. *)
Theorem kiss_rand_injective {B : Build} (s1 s2 s' : Kiss) (v1 v2 : Z) :
  kiss_inv s1 → kiss_inv s2 → ¬ carry_lost s1 → ¬ carry_lost s2 →
  rand s1 = Done (s', v1) → rand s2 = Done (s', v2) → s1 = s2.
Proof.
  intros H1 H2 L1 L2 R1 R2.
  destruct (rand_run s1 H1 L1) as (s1' & E1 & X1 & Y1 & Z1 & _).
  destruct (rand_run s2 H2 L2) as (s2' & E2 & X2 & Y2 & Z2 & _).
  rewrite R1 in E1. rewrite R2 in E2. injection E1 as -> _. injection E2 as -> _.
  rewrite Y1 in Y2. rewrite X1 in X2. rewrite Z1 in Z2.
  destruct H1 as [[? ?] Hy1 [? ?] ?], H2 as [[? ?] Hy2 [? ?] ?].
  apply xorshift_inj in Y2; [| done ..].
  destruct s1 as [x1 y1 z1 c1], s2 as [x2 y2 z2 c2]. cbn [x y z c] in *. subst y2.
  assert (z1 = z2 ∧ c1 = c2) as [-> ->].
  { change (2 ^ 58) with 288230376151711744 in *. change (2 ^ 64) with 18446744073709551616 in *. nia. }
  assert (x1 = x2) as ->; [| done].
  change (2 ^ 64) with 18446744073709551616 in *.
  (** the multiplier is odd, and this is its inverse modulo 2^64 *)
  assert (∀ a, 0 ≤ a < 18446744073709551616 →
    a = (8575357931815410149 * ((6906969069 * a + 1234567) mod 18446744073709551616 - 1234567)) mod 18446744073709551616) as Hinv.
  { intros a Ha. pose proof (Z.div_mod (6906969069 * a + 1234567) 18446744073709551616 ltac:(lia)) as E.
    apply Z.mod_unique_pos with
      (3210850205 * a - 8575357931815410149 * ((6906969069 * a + 1234567) / 18446744073709551616)); lia. }
  rewrite (Hinv x1), (Hinv x2), X2 by lia. done.
Qed.

Lemma boot_kiss_inv : kiss_inv boot_kiss.
Proof. by split; vm_compute. Qed.

(** The first two numbers after boot. *)
Example boot_rands :
  (a ← rand (B := debug_build); b ← rand (B := debug_build); mret [a; b]) boot_kiss
  = (s ← rand (B := release_build) boot_kiss; t ← rand (B := release_build) s.1; Done (t.1, [s.2; t.2])).
Proof. vm_compute. reflexivity. Qed.

Lemma kiss_rand_spec_witness :
  ∃ s', rand (B := debug_build) boot_kiss = Done (s', (x s' + y s' + z s') mod 2 ^ 64)
    ∧ x s' = (6906969069 * x boot_kiss + 1234567) mod 2 ^ 64
    ∧ (let a := Z.lxor (y boot_kiss) (y boot_kiss * 2 ^ 13 mod 2 ^ 64) in
       let b := Z.lxor a (a / 2 ^ 17) in
       y s' = Z.lxor b (b * 2 ^ 43 mod 2 ^ 64))
    ∧ (y s' = 0 ↔ y boot_kiss = 0)
    ∧ z s' + 2 ^ 64 * (c s' + 0) = (2 ^ 58 + 1) * z boot_kiss + c boot_kiss
    ∧ kiss_inv s'.
Proof. apply (kiss_rand_spec (B := debug_build) boot_kiss). apply boot_kiss_inv. Defined.

Lemma kiss_rand_injective_witness :
  match rand (B := debug_build) boot_kiss with
  | Done (s', v) => ∀ s v', kiss_inv s → ¬ carry_lost s → rand (B := debug_build) s = Done (s', v') → s = boot_kiss
  | _ => False
  end.
Proof.
  destruct (rand (B := debug_build) boot_kiss) as [[s' v] | |] eqn:E; [| vm_compute in E; discriminate ..].
  intros s v' Hs Hc Hr.
  apply (kiss_rand_injective (B := debug_build) s boot_kiss s' v' v);
    [done | apply boot_kiss_inv | done | vm_compute; intros [? ?]; discriminate | done | done].
Defined.
