(* ===== verification/Memory.v ===== *)
(** * Physical frames and the kernel heap

    [src/src/memory.rs]: the frame allocator over the bootloader's memory map;
    [src/src/hardware/allocator.rs]: mapping the pages of the kernel heap.

    The page table is the [x86_64] crate's: an interface ([PageTable]) with
    the documented behaviour of [Mapper::map_to], which may itself take frames
    for the tables it has to create.  The crate's checks on addresses
    ([PhysAddr::new]) are part of the model. *)

From stdpp Require Import base tactics list gmap numbers sorting.
From Stdlib Require Import ZArith Lia.
From S2P Require Import Prelude Queue.

Local Open Scope Z_scope.

(** ** The frame allocator *)

Inductive MemoryRegionKind := Usable | Bootloader | OtherKind (raw : Z).

#[export] Instance MemoryRegionKind_eq_dec : EqDecision MemoryRegionKind.
Proof. solve_decision. Defined.

Record MemoryRegion := { start : Z; end_ : Z; kind : MemoryRegionKind }.

Record BootInfoFrameAllocator := { memory_map : list MemoryRegion; next : Z }.

Definition allocator_init (memory_map : list MemoryRegion) : BootInfoFrameAllocator :=
  {| memory_map := memory_map; next := 0 |}.

(** [(a..b).step_by(s)] *)
Definition step_by (a b s : Z) : list Z :=
  map (λ i, a + s * Z.of_nat i) (seq 0 (Z.to_nat ((b - a + s - 1) / s))).

(** [PhysFrame::containing_address(PhysAddr::new(addr))], by the address at
    which the frame starts: [PhysAddr::new] refuses more than 52 bits. *)
Definition phys_frame (addr : Z) : outcome Z :=
  if addr <? 2 ^ 52 then Done (addr - addr mod 4096) else Panicked Explicit.

Definition frame_addresses (map : list MemoryRegion) : list Z :=
  mjoin ((λ r, step_by (start r) (end_ r) 4096) <$> filter (λ r, kind r = Usable) map).

(** [self.usable_frames().nth(n)]: the frames before the [n]-th are computed
    too. *)
Fixpoint nth_frame (addrs : list Z) (n : nat) : outcome (option Z) :=
  match addrs with
  | [] => Done None
  | a :: addrs =>
      f ← phys_frame a;
      match n with O => Done (Some f) | S n => nth_frame addrs n end
  end.

Definition allocate_frame {B : Build} : M BootInfoFrameAllocator (option Z) := fun s =>
  frame ← nth_frame (frame_addresses (memory_map s)) (Z.to_nat (next s));
  next' ← add_w 64 (next s) 1;
  Done ({| memory_map := memory_map s; next := next' |}, frame).

(** ** Which frames it hands out *)

(** Every region the bootloader calls usable is made of whole frames of
    physical memory, and no two of them overlap. *)
Definition aligned_region (r : MemoryRegion) : Prop :=
  start r mod 4096 = 0 ∧ end_ r mod 4096 = 0 ∧ 0 ≤ start r ∧ end_ r ≤ 2 ^ 52.

Definition disjoint_regions (r r' : MemoryRegion) : Prop :=
  end_ r ≤ start r' ∨ end_ r' ≤ start r.

Definition valid_map (map : list MemoryRegion) : Prop :=
  let usable := filter (λ r, kind r = Usable) map in
  Forall aligned_region usable ∧ ForallOrdPairs disjoint_regions usable.

(** The frame is one of a usable region. *)
Definition usable_frame (map : list MemoryRegion) (f : Z) : Prop :=
  ∃ r, r ∈ map ∧ kind r = Usable ∧ f mod 4096 = 0 ∧ start r ≤ f ∧ f + 4096 ≤ end_ r.

Lemma elem_of_step_by a b s v :
  0 < s → v ∈ step_by a b s ↔ ∃ i, v = a + s * i ∧ 0 ≤ i ∧ v < b.
Proof.
  intros Hs. unfold step_by. rewrite list_elem_of_fmap.
  pose proof (Z.div_mod (b - a + s - 1) s ltac:(lia)) as E.
  pose proof (Z.mod_pos_bound (b - a + s - 1) s Hs). set (n := (b - a + s - 1) / s) in *. split.
  - intros (i & -> & Hi). apply elem_of_seq in Hi. exists (Z.of_nat i).
    assert (Z.of_nat i + 1 ≤ n) by lia. split_and!; [lia | lia | nia].
  - intros (i & -> & H0 & Hb). exists (Z.to_nat i). rewrite Z2Nat.id by lia. split; [done |].
    apply elem_of_seq. assert (i < n) by nia. lia.
Qed.

Lemma NoDup_step_by a b s : 0 < s → NoDup (step_by a b s).
Proof.
  intros Hs. unfold step_by. apply NoDup_fmap_2; [| apply NoDup_seq]. intros i j E. nia.
Qed.

Lemma aligned_step r v :
  aligned_region r → v ∈ step_by (start r) (end_ r) 4096 ↔ v mod 4096 = 0 ∧ start r ≤ v ∧ v + 4096 ≤ end_ r.
Proof.
  intros (Hs & He & _ & _). rewrite elem_of_step_by by lia. split.
  - intros (i & -> & Hi & Hv). rewrite Z.add_mod, Hs, Z.mul_comm, Z.mod_mul by lia.
    split; [done |]. split; [lia |]. Z.to_euclidean_division_equations. lia.
  - intros (Hm & H1 & H2). exists ((v - start r) / 4096). Z.to_euclidean_division_equations. lia.
Qed.

Lemma elem_of_frame_addresses map f :
  valid_map map → f ∈ frame_addresses map ↔ usable_frame map f.
Proof.
  intros [Ha _]. unfold frame_addresses, usable_frame. rewrite Forall_forall in Ha.
  rewrite list_elem_of_join. setoid_rewrite list_elem_of_fmap. split.
  - intros (l & Hf & r & -> & Hr). pose proof (Ha r Hr) as Har. apply list_elem_of_filter in Hr as [Hk Hr].
    apply (aligned_step r f Har) in Hf. by exists r.
  - intros (r & Hr & Hk & Hf). exists (step_by (start r) (end_ r) 4096).
    assert (r ∈ filter (λ r, kind r = Usable) map) as Hin by by apply list_elem_of_filter.
    split; [by apply aligned_step; [apply Ha |] | by exists r].
Qed.

Lemma NoDup_frame_addresses map : valid_map map → NoDup (frame_addresses map).
Proof.
  intros [Ha Hd]. unfold frame_addresses. induction Hd as [| r rs Hr _ IH]; [constructor |].
  apply Forall_cons in Ha as [Har Hars]. cbn. apply NoDup_app.
  split_and!; [by apply NoDup_step_by | | by apply IH].
  intros v Hv Hin. apply (aligned_step r v Har) in Hv as (_ & H1 & H2).
  apply list_elem_of_join in Hin as (l & Hl & Hin). apply list_elem_of_fmap in Hin as (r' & -> & Hr').
  rewrite Forall_forall in Hr, Hars. apply (aligned_step r' v (Hars _ Hr')) in Hl as (_ & H3 & H4).
  destruct (Hr r' Hr'); lia.
Qed.

Lemma phys_frame_ok a : a mod 4096 = 0 → a < 2 ^ 52 → phys_frame a = Done a.
Proof. intros E Hb. unfold phys_frame. apply Z.ltb_lt in Hb as ->. by rewrite E, Z.sub_0_r. Qed.

Lemma nth_frame_ok addrs n :
  Forall (λ a, a mod 4096 = 0 ∧ a < 2 ^ 52) addrs → nth_frame addrs n = Done (addrs !! n).
Proof.
  intros HF. revert n. induction HF as [| a addrs [Ha Hb] _ IH]; intros n; [done |]. cbn [nth_frame].
  rewrite phys_frame_ok, bind_Done_l by done. destruct n; [done | apply IH].
Qed.

Lemma allocate_frame_run {B : Build} s :
  valid_map (memory_map s) → 0 ≤ next s < 2 ^ 64 - 1 →
  allocate_frame s = Done ({| memory_map := memory_map s; next := next s + 1 |},
                           frame_addresses (memory_map s) !! Z.to_nat (next s)).
Proof.
  intros Hv Hn. unfold allocate_frame. rewrite nth_frame_ok.
  - rewrite bind_Done_l. unfold add_w. by rewrite arith_in by (unfold uint; lia).
  - apply Forall_forall. intros a Ha. apply elem_of_frame_addresses in Ha as (r & Hr & Hk & Hm & H1 & H2); [| done].
    split; [done |]. destruct Hv as [Hal _]. rewrite Forall_forall in Hal.
    destruct (Hal r ltac:(by apply list_elem_of_filter)) as (_ & _ & _ & Hb). lia.
Qed.

(** [n] calls, and what they returned. *)
Fixpoint allocate_frames {B : Build} (n : nat) : M BootInfoFrameAllocator (list (option Z)) :=
  match n with
  | O => mret []
  | S n => f ← allocate_frame; fs ← allocate_frames n; mret (f :: fs)
  end.

Lemma allocate_frames_run {B : Build} n s :
  valid_map (memory_map s) → 0 ≤ next s → next s + Z.of_nat n < 2 ^ 64 →
  allocate_frames n s = Done ({| memory_map := memory_map s; next := next s + Z.of_nat n |},
    (λ i, frame_addresses (memory_map s) !! (Z.to_nat (next s) + i)%nat) <$> seq 0 n).
Proof.
  revert s. induction n as [| n IH]; intros s Hv H0 Hb; cbn [allocate_frames].
  - rewrite Z.add_0_r. by destruct s.
  - rewrite (M_bind_run _ _ _ _ _ (allocate_frame_run s Hv ltac:(lia))).
    rewrite (M_bind_run _ _ _ _ _ (IH {| memory_map := memory_map s; next := next s + 1 |} Hv
      ltac:(cbn; lia) ltac:(cbn; lia))). cbn.
    rewrite Nat.add_0_r, <- fmap_S_seq, <- list_fmap_compose.
    replace (next s + Z.of_nat (S n)) with (next s + 1 + Z.of_nat n) by lia.
    unfold mret, M_ret. do 3 f_equal. apply list_fmap_ext. intros _ i _. cbn. f_equal. lia.
Qed.

(** The frame allocator hands out every usable frame exactly once.  Over a
    valid memory map, [n] calls from the start return the first [n] entries of
    a list without repetitions that holds exactly the frames of the usable
    regions, and [None] for ever once it is used up. *)
Theorem allocate_frames_spec {B : Build} (map : list MemoryRegion) (n : nat) :
  valid_map map → Z.of_nat n < 2 ^ 64 →
  ∃ frames s', allocate_frames n (allocator_init map)
      = Done (s', (λ i, frames !! i) <$> seq 0 n)
    ∧ NoDup frames ∧ ∀ f, f ∈ frames ↔ usable_frame map f.
Proof.
  intros Hv Hn. exists (frame_addresses map). eexists. split; [| split].
  - by apply (allocate_frames_run n (allocator_init map)).
  - by apply NoDup_frame_addresses.
  - intros f. by apply elem_of_frame_addresses.
Qed.

(** ** The page table *)

Inductive MapToError :=
  | FrameAllocationFailed
  | ParentEntryHugePage
  | PageAlreadyMapped (frame : Z).

Definition PRESENT : Z := 1.
Definition WRITABLE : Z := 2.

(** The [x86_64] crate's mapper: what a page is mapped to (frame and flags),
    and [map_to], which takes the frames of new tables from the allocator it
    is given. *)
Class PageTable (P : Type) := {
  lookup_page : P → Z → option (Z * Z);
  map_to : ∀ {B : Build}, Z → Z → Z → M (P * BootInfoFrameAllocator) (result unit MapToError) }.

(** Frames the allocator has left. *)
Definition frames_left (a : BootInfoFrameAllocator) : Z :=
  len (frame_addresses (memory_map a)) - next a.

(** Mapping an unmapped page of a table without huge pages succeeds when three
    frames are left, the most it needs for new tables; it changes no other
    page. *)
Class PageTableLaws (P : Type) `{PageTable P} : Prop := map_to_ok : ∀ {B : Build} p a page frame flags,
  valid_map (memory_map a) → 0 ≤ next a → 3 ≤ frames_left a → lookup_page p page = None →
  ∃ p' a', map_to page frame flags (p, a) = Done ((p', a'), Ok tt)
    ∧ memory_map a' = memory_map a ∧ next a ≤ next a' ≤ next a + 3
    ∧ lookup_page p' page = Some (frame, flags)
    ∧ ∀ other, other ≠ page → lookup_page p' other = lookup_page p other.

(** ** The heap *)

Definition HEAP_START : Z := 0x444444440000.
Definition HEAP_SIZE : Z := 1024 * 1024.

(** [Page::containing_address], by the page's start. *)
Definition page_containing (addr : Z) : Z := addr - addr mod 4096.

(** [Page::range_inclusive] *)
Definition heap_pages : list Z :=
  let heap_start_page := page_containing HEAP_START in
  let heap_end_page := page_containing (HEAP_START + HEAP_SIZE - 1) in
  step_by heap_start_page (heap_end_page + 1) 4096.

Section heap.
Context {P : Type} `{PageTable P} {B : Build}.

(** The machine during start-up: the page table, the allocator of its frames,
    and the region the global allocator was initialised with. *)
Record Boot := { table : P; frames : BootInfoFrameAllocator; heap : option (Z * Z) }.

Definition boot_allocate : M Boot (option Z) := fun b =>
  '(a, f) ← allocate_frame (frames b); Done ({| table := table b; frames := a; heap := heap b |}, f).

Definition boot_map_to (page frame flags : Z) : M Boot (result unit MapToError) := fun b =>
  '(s, r) ← map_to page frame flags (table b, frames b);
  Done ({| table := s.1; frames := s.2; heap := heap b |}, r).

(** The loop over the pages, ended by the first error. *)
Fixpoint map_pages (pages : list Z) : M Boot (result unit MapToError) :=
  match pages with
  | [] => mret (Ok tt)
  | page :: pages =>
      frame ← boot_allocate;
      match frame with
      | None => mret (Err FrameAllocationFailed)
      | Some frame =>
          r ← boot_map_to page frame (Z.lor PRESENT WRITABLE);
          match r with Err e => mret (Err e) | Ok _ => map_pages pages end
      end
  end.

Definition init_heap : M Boot (result unit MapToError) :=
  r ← map_pages heap_pages;
  match r with
  | Err e => mret (Err e)
  | Ok _ =>
      _ ← modify (fun b => {| table := table b; frames := frames b; heap := Some (HEAP_START, HEAP_SIZE) |});
      mret (Ok tt)
  end.

(** ** Mapping the heap *)

Lemma len_lookup {A} (l : list A) n : 0 ≤ n < len l → is_Some (l !! Z.to_nat n).
Proof. intros Hn. apply lookup_lt_is_Some. unfold len in Hn. lia. Qed.

Lemma boot_allocate_run b :
  valid_map (memory_map (frames b)) → 0 ≤ next (frames b) < 2 ^ 64 - 1 →
  boot_allocate b
  = Done ({| table := table b; heap := heap b;
             frames := {| memory_map := memory_map (frames b); next := next (frames b) + 1 |} |},
          frame_addresses (memory_map (frames b)) !! Z.to_nat (next (frames b))).
Proof. intros Hv Hn. unfold boot_allocate. by rewrite allocate_frame_run. Qed.

(** The page is mapped to the [n]-th usable frame. *)
Definition mapped_to (b : Boot) (page : Z) (n : Z) : Prop :=
  ∃ f, frame_addresses (memory_map (frames b)) !! Z.to_nat n = Some f
    ∧ lookup_page (table b) page = Some (f, Z.lor PRESENT WRITABLE).

Context `{!PageTableLaws P}.

Lemma map_page_run b page :
  valid_map (memory_map (frames b)) → 0 ≤ next (frames b) → 4 ≤ frames_left (frames b) →
  len (frame_addresses (memory_map (frames b))) < 2 ^ 64 → lookup_page (table b) page = None →
  ∃ f b', boot_allocate b = Done ({| table := table b; heap := heap b;
             frames := {| memory_map := memory_map (frames b); next := next (frames b) + 1 |} |}, Some f)
    ∧ boot_map_to page f (Z.lor PRESENT WRITABLE)
        {| table := table b; heap := heap b;
           frames := {| memory_map := memory_map (frames b); next := next (frames b) + 1 |} |} = Done (b', Ok tt)
    ∧ heap b' = heap b ∧ memory_map (frames b') = memory_map (frames b)
    ∧ next (frames b) + 1 ≤ next (frames b') ≤ next (frames b) + 4
    ∧ mapped_to b' page (next (frames b))
    ∧ ∀ other, other ≠ page → lookup_page (table b') other = lookup_page (table b) other.
Proof.
  intros Hv H0 Hl Hb Hp. unfold frames_left in Hl.
  destruct (len_lookup (frame_addresses (memory_map (frames b))) (next (frames b)) ltac:(lia)) as [f Hf].
  exists f. rewrite boot_allocate_run, Hf by (done || lia).
  set (a := {| memory_map := memory_map (frames b); next := next (frames b) + 1 |}).
  destruct (map_to_ok (table b) a page f (Z.lor PRESENT WRITABLE)) as (p' & a' & Hm & Hmm & Hn & Hl' & Ho);
    [done | cbn; lia | unfold frames_left, a; cbn [memory_map next]; lia | done |].
  exists {| table := p'; frames := a'; heap := heap b |}. split; [done |]. split.
  { unfold boot_map_to. cbn [table frames]. by rewrite Hm. }
  cbn in *. split_and!; try done; try lia. exists f. cbn. by rewrite Hmm.
Qed.

Lemma map_pages_run pages b :
  NoDup pages → valid_map (memory_map (frames b)) → 0 ≤ next (frames b) →
  4 * len pages ≤ frames_left (frames b) → len (frame_addresses (memory_map (frames b))) < 2 ^ 64 →
  (∀ page, page ∈ pages → lookup_page (table b) page = None) →
  ∃ b' ns, map_pages pages b = Done (b', Ok tt) ∧ heap b' = heap b
    ∧ memory_map (frames b') = memory_map (frames b)
    ∧ Forall2 (mapped_to b') pages ns ∧ NoDup ns ∧ Forall (λ n, next (frames b) ≤ n) ns
    ∧ ∀ other, other ∉ pages → lookup_page (table b') other = lookup_page (table b) other.
Proof.
  revert b. induction pages as [| page pages IH]; intros b Hnd Hv H0 Hl Hb Hp; cbn [map_pages].
  { exists b, []. split_and!; try done; constructor. }
  apply NoDup_cons in Hnd as [Hnotin Hnd]. rewrite (len_app [page] pages : len (page :: pages) = _) in Hl.
  change (len [page]) with 1 in Hl. pose proof (len_nonneg pages).
  destruct (map_page_run b page Hv H0 ltac:(lia) Hb ltac:(apply Hp; left))
    as (f & b1 & Ha & Hm & Hh & Hmm & Hn & Hmp & Ho).
  rewrite (M_bind_run _ _ _ _ _ Ha), (M_bind_run _ _ _ _ _ Hm).
  destruct (IH b1 Hnd ltac:(by rewrite Hmm) ltac:(lia)) as (b2 & ns & Hr & Hh2 & Hmm2 & HF & Hns & Hge & Ho2).
  - unfold frames_left in *. rewrite Hmm. lia.
  - by rewrite Hmm.
  - intros q Hq. rewrite Ho; [apply Hp; by right |]. by intros ->.
  - exists b2, (next (frames b) :: ns). rewrite Hr, Hh2, Hmm2. split_and!; try done.
    + constructor; [| done]. destruct Hmp as (g & Hg & Hlk). exists g. rewrite Hmm2. split; [done |].
      by rewrite Ho2.
    + constructor; [| done]. intros Hin. rewrite Forall_forall in Hge. specialize (Hge _ Hin). cbn in Hge. lia.
    + constructor; [lia |]. eapply Forall_impl; [exact Hge |]. cbn. intros n Hle. lia.
    + intros other Hnin. apply not_elem_of_cons in Hnin as [? ?]. by rewrite Ho2, Ho.
Qed.

(** [init_heap] succeeds when the frames suffice. *)
Lemma init_heap_run (b : Boot) :
  valid_map (memory_map (frames b)) → 0 ≤ next (frames b) →
  4 * 256 ≤ frames_left (frames b) → len (frame_addresses (memory_map (frames b))) < 2 ^ 64 →
  (∀ page, page ∈ heap_pages → lookup_page (table b) page = None) →
  ∃ b' ns, init_heap b = Done (b', Ok tt) ∧ heap b' = Some (HEAP_START, HEAP_SIZE)
    ∧ memory_map (frames b') = memory_map (frames b) ∧ Forall2 (mapped_to b') heap_pages ns.
Proof.
  intros Hv H0 Hl Hb Hp.
  destruct (map_pages_run heap_pages b) as (b1 & ns & Hr & _ & Hmm & HF & _);
    [by apply NoDup_step_by | done | done | by vm_compute (len heap_pages) | done | done |].
  unfold init_heap. rewrite (M_bind_run _ _ _ _ _ Hr), (M_bind_run _ _ _ _ _ eq_refl).
  by eexists _, ns.
Qed.

(** C36: the heap is mapped.  With none of the heap's pages mapped and four frames
    left for each, [init_heap] succeeds, initialises the global allocator with
    the heap, maps every page from [HEAP_START] up to its end present and
    writable, to usable frames that are all different, and leaves every other
    page as it was. *)
Theorem init_heap_spec (b : Boot) :
  valid_map (memory_map (frames b)) → 0 ≤ next (frames b) →
  4 * 256 ≤ frames_left (frames b) → len (frame_addresses (memory_map (frames b))) < 2 ^ 64 →
  (∀ page, page ∈ heap_pages → lookup_page (table b) page = None) →
  ∃ b' fs, init_heap b = Done (b', Ok tt) ∧ heap b' = Some (HEAP_START, HEAP_SIZE)
    ∧ Forall2 (λ page f, lookup_page (table b') page = Some (f, Z.lor PRESENT WRITABLE)
                         ∧ usable_frame (memory_map (frames b)) f) heap_pages fs
    ∧ NoDup fs
    ∧ (∀ addr, HEAP_START ≤ addr < HEAP_START + HEAP_SIZE → page_containing addr ∈ heap_pages)
    ∧ (∀ other, other ∉ heap_pages → lookup_page (table b') other = lookup_page (table b) other).
Proof.
  intros Hv H0 Hl Hb Hp.
  destruct (map_pages_run heap_pages b) as (b1 & ns & Hr & Hh & Hmm & HF & Hnd & Hge & Ho);
    [by apply NoDup_step_by | done | done | by vm_compute (len heap_pages) | done | done |].
  unfold init_heap. rewrite (M_bind_run _ _ _ _ _ Hr), (M_bind_run _ _ _ _ _ eq_refl).
  set (L := frame_addresses (memory_map (frames b))) in *.
  eexists _, ((λ n, default 0 (L !! Z.to_nat n)) <$> ns). split; [reflexivity |]. cbn [heap table frames].
  split; [done |]. split_and!; [| | | done].
  - apply Forall2_fmap_r. eapply Forall2_impl; [done |]. intros page n (f & Hf & Hlk).
    rewrite Hmm in Hf. fold L in Hf. unfold compose. rewrite Hf. cbn. split; [done |].
    apply elem_of_frame_addresses; [done |]. by eapply list_elem_of_lookup_2.
  - assert (Forall (λ n, 0 ≤ n ∧ is_Some (L !! Z.to_nat n)) ns) as Hin.
    { apply Forall_forall. intros n Hn. apply list_elem_of_lookup in Hn as [i Hi].
      rewrite Forall_forall in Hge. split; [pose proof (Hge n ltac:(by eapply list_elem_of_lookup_2)); lia |].
      destruct (Forall2_lookup_r _ _ _ _ _ HF Hi) as (page & _ & f & Hf & _). rewrite Hmm in Hf. by exists f. }
    apply NoDup_fmap_2_strong; [| done]. intros n m Hn Hm E. rewrite Forall_forall in Hin.
    destruct (Hin _ Hn) as [? [f Hf]], (Hin _ Hm) as [? [g Hg]]. rewrite Hf, Hg in E. cbn in E. subst g.
    pose proof (NoDup_lookup _ _ _ _ (NoDup_frame_addresses _ Hv) Hf Hg). lia.
  - intros addr Ha. unfold heap_pages. apply elem_of_step_by; [lia |]. unfold page_containing, HEAP_START, HEAP_SIZE in *.
    exists ((addr - 0x444444440000) / 4096). change ((75076041998336 + 1024 * 1024 - 1) mod 4096) with 4095.
    change (75076041998336 mod 4096) with 0. Z.to_euclidean_division_equations. lia.
Qed.

End heap.

(** ** A page table that needs no tables of its own *)

Abbreviation flat_table := (gmap Z (Z * Z)).

#[export] Instance Flat_table : PageTable flat_table := {|
  lookup_page p page := p !! page;
  map_to B page frame flags s :=
    match s.1 !! page with
    | Some (f, _) => Done (s, Err (PageAlreadyMapped f))
    | None => Done ((<[page := (frame, flags)]> s.1, s.2), Ok tt)
    end |}.

#[export] Instance Flat_table_laws : PageTableLaws flat_table.
Proof.
  intros B p a page frame flags _ Hn _ Hp. cbn in *. rewrite Hp. eexists _, _. split; [reflexivity |].
  split_and!; [done | lia | lia | apply lookup_insert_eq |]. intros other Ho. by rewrite lookup_insert_ne.
Qed.

Module SampleMap.

(** 1039 frames in two usable regions around one of the bootloader's. *)
Definition sample_map : list MemoryRegion :=
  [ {| start := 0x1000; end_ := 0x10000; kind := Usable |};
    {| start := 0x10000; end_ := 0x40000; kind := Bootloader |};
    {| start := 0x100000; end_ := 0x500000; kind := Usable |} ].

Lemma sample_map_valid : valid_map sample_map.
Proof. split; repeat constructor; vm_compute; congruence. Qed.

Lemma allocate_frames_spec_witness :
  ∃ frames s', allocate_frames (B := debug_build) 20 (allocator_init sample_map)
      = Done (s', (λ i, frames !! i) <$> seq 0 20)
    ∧ NoDup frames ∧ ∀ f, f ∈ frames ↔ usable_frame sample_map f.
Proof. apply (allocate_frames_spec (B := debug_build) sample_map 20); [apply sample_map_valid | reflexivity]. Defined.

Definition sample_boot : Boot (P := flat_table) :=
  {| table := ∅; frames := allocator_init sample_map; heap := None |}.

Lemma init_heap_spec_witness :
  ∃ b' fs, init_heap (B := debug_build) sample_boot = Done (b', Ok tt) ∧ heap b' = Some (HEAP_START, HEAP_SIZE)
    ∧ Forall2 (λ page f, lookup_page (table b') page = Some (f, Z.lor PRESENT WRITABLE)
                         ∧ usable_frame sample_map f) heap_pages fs
    ∧ NoDup fs
    ∧ (∀ addr, HEAP_START ≤ addr < HEAP_START + HEAP_SIZE → page_containing addr ∈ heap_pages)
    ∧ (∀ other, other ∉ heap_pages → lookup_page (table b') other = lookup_page (∅ : flat_table) other).
Proof.
  apply (init_heap_spec (P := flat_table) (B := debug_build) sample_boot);
    [apply sample_map_valid | vm_compute; congruence | vm_compute; congruence | vm_compute; reflexivity |].
  intros page _. reflexivity.
Defined.

End SampleMap.
