(* ===== verification/Vga.v ===== *)
(** * The text screen

    [src/src/vga.rs]: the writer over the 80 by 25 text buffer, which prints on
    the bottom row and scrolls.  The screen is compared with a sheet of
    unbounded length on which lines are written below each other. *)

From stdpp Require Import base tactics list numbers.
From Stdlib Require Import ZArith Lia.
From S2P Require Import Prelude Queue.

Local Open Scope Z_scope.

Record ScreenChar := { ascii_character : Z; color_code : Z }.

Definition BUFFER_HEIGHT : nat := 25.
Definition BUFFER_WIDTH : nat := 80.

Inductive Color :=
  | Black | Blue | Green | Cyan | Red | Magenta | Brown | LightGray
  | DarkGray | LightBlue | LightGreen | LightCyan | LightRed | Pink | Yellow | White.

(** [color as u8] *)
Definition color_number (c : Color) : Z :=
  match c with
  | Black => 0 | Blue => 1 | Green => 2 | Cyan => 3 | Red => 4 | Magenta => 5 | Brown => 6 | LightGray => 7
  | DarkGray => 8 | LightBlue => 9 | LightGreen => 10 | LightCyan => 11 | LightRed => 12 | Pink => 13
  | Yellow => 14 | White => 15
  end.

(** [ColorCode::new] *)
Definition color_code_new (foreground background : Color) : Z :=
  Z.lor (shl_w 8 (color_number background) 4) (color_number foreground).

(** The two halves of the byte are the two colours. *)
Lemma color_code_halves foreground background :
  Z.land (color_code_new foreground background) 0x0f = color_number foreground
  ∧ Z.shiftr (color_code_new foreground background) 4 = color_number background.
Proof. by destruct foreground, background. Qed.

Record Writer := { column_position : nat; color : Z; chars : list (list ScreenChar) }.

(** The static writer, over what the text buffer holds. *)
Definition WRITER (buffer : list (list ScreenChar)) : Writer :=
  {| column_position := 0; color := color_code_new Yellow Black; chars := buffer |}.

Definition set_chars (w : Writer) (g : list (list ScreenChar)) : Writer :=
  {| column_position := column_position w; color := color w; chars := g |}.
Definition set_column (w : Writer) (n : nat) : Writer :=
  {| column_position := n; color := color w; chars := chars w |}.

(** [self.buffer.chars[row][col].read()] and [.write(..)] *)
Definition read_char (row col : nat) : M Writer ScreenChar := fun w =>
  match chars w !! row ≫= (.!! col) with
  | Some c => Done (w, c)
  | None => Panicked IndexOutOfBounds
  end.

Definition write_char (row col : nat) (c : ScreenChar) : M Writer unit := fun w =>
  match chars w !! row ≫= (.!! col) with
  | Some _ => Done (set_chars w (alter (<[col := c]>) row (chars w)), tt)
  | None => Panicked IndexOutOfBounds
  end.

Definition blank (w : Writer) : ScreenChar := {| ascii_character := 32; color_code := color w |}.

Definition clear_row (row : nat) : M Writer unit :=
  blank ← gets blank;
  for_each (λ col, write_char row col blank) (seq 0 BUFFER_WIDTH).

Definition copy_up (row : nat) : M Writer unit :=
  for_each (λ col, c ← read_char row col; write_char (row - 1) col c) (seq 0 BUFFER_WIDTH).

Definition new_line : M Writer unit :=
  _ ← for_each copy_up (seq 1 (BUFFER_HEIGHT - 1));
  _ ← clear_row (BUFFER_HEIGHT - 1);
  modify (λ w, set_column w 0).

Definition newline : Z := 10.

Definition write_byte (byte : Z) : M Writer unit :=
  if byte =? newline then new_line
  else
    column ← gets column_position;
    _ ← (if (BUFFER_WIDTH <=? column)%nat then new_line else mret tt);
    w ← gets (λ w, w);
    _ ← write_char (BUFFER_HEIGHT - 1) (column_position w)
          {| ascii_character := byte; color_code := color w |};
    modify (λ w, set_column w (column_position w + 1)).

(** The byte that is shown for a byte of the text. *)
Definition shown (byte : Z) : Z :=
  if ((0x20 <=? byte) && (byte <=? 0x7e)) || (byte =? newline) then byte else 0xfe.

(** [write_string], and [write_str] which always returns [Ok]. *)
Fixpoint write_string (s : list Z) : M Writer unit :=
  match s with
  | [] => mret tt
  | byte :: s => _ ← write_byte (shown byte); write_string s
  end.

(** [_print]: the formatter hands the pieces of its text to [write_str] one
    after the other, which never fails. *)
Definition print (pieces : list (list Z)) : M Writer unit := for_each write_string pieces.

(** ** Loops that write one cell per step *)

(** A loop that keeps [P j] up to the number of steps it made. *)
Lemma for_each_seq {S} (P : nat → S → Prop) (f : nat → M S unit) k n s :
  (∀ i s, (i < n)%nat → P i s → ∃ s', f (k + i)%nat s = Done (s', tt) ∧ P (i + 1)%nat s') →
  P 0%nat s → ∃ s', for_each f (seq k n) s = Done (s', tt) ∧ P n s'.
Proof.
  revert s. induction n as [| n IH]; intros s Hf H0; [by exists s |].
  destruct (IH s) as (s1 & Hr & H1); [intros; apply Hf; [lia | done] | done |].
  destruct (Hf n s1 ltac:(lia) H1) as (s2 & Hr2 & H2).
  exists s2. rewrite seq_S, for_each_app, (M_bind_run _ _ _ _ _ Hr). cbn.
  rewrite (M_bind_run _ _ _ _ _ Hr2). split; [done |]. by rewrite <- Nat.add_1_r.
Qed.

(** ** The operations on a whole screen *)

Definition row_ok (r : list ScreenChar) : Prop := length r = BUFFER_WIDTH.
Definition screen_ok (g : list (list ScreenChar)) : Prop := length g = BUFFER_HEIGHT ∧ Forall row_ok g.

Lemma screen_row g i : screen_ok g → (i < BUFFER_HEIGHT)%nat → ∃ r, g !! i = Some r ∧ row_ok r.
Proof.
  intros [Hl HF] Hi. destruct (lookup_lt_is_Some_2 g i ltac:(lia)) as [r Hr]. exists r.
  split; [done |]. by eapply Forall_lookup_1.
Qed.

Lemma read_char_run w i j r c :
  chars w !! i = Some r → r !! j = Some c → read_char i j w = Done (w, c).
Proof. intros Hr Hc. unfold read_char. rewrite Hr. cbn. by rewrite Hc. Qed.

Lemma write_char_run w i j r c :
  chars w !! i = Some r → (j < length r)%nat →
  write_char i j c w = Done (set_chars w (<[i := <[j := c]> r]> (chars w)), tt).
Proof.
  intros Hr Hj. unfold write_char. rewrite Hr. cbn.
  destruct (lookup_lt_is_Some_2 r j Hj) as [? ->]. by rewrite <- (insert_alter (<[j := c]>) _ _ r).
Qed.

(** Writing the cells of [src] over those of [dst] from the left. *)
Lemma insert_next {A} (src dst : list A) j c :
  (j < length dst)%nat → src !! j = Some c →
  <[j := c]> (take j src ++ drop j dst) = take (j + 1) src ++ drop (j + 1) dst.
Proof.
  intros Hl Hc. pose proof (lookup_lt_Some _ _ _ Hc).
  rewrite insert_app_r_alt by (rewrite length_take; lia).
  rewrite length_take, Nat.min_l, Nat.sub_diag by lia.
  destruct (drop j dst) as [| d ds] eqn:Ed; [apply (f_equal length) in Ed; rewrite length_drop in Ed; simpl in Ed; lia |].
  rewrite Nat.add_1_r, (take_S_r _ _ _ Hc), <- app_assoc. cbn.
  replace (drop (S j) dst) with ds; [done |]. by rewrite <- Nat.add_1_r, <- drop_drop, Ed.
Qed.

(** A loop that writes the cells of [src] into row [i], one by one. *)
Lemma write_row_run w i src dst (f : nat → M Writer unit) :
  chars w !! i = Some dst → row_ok src → row_ok dst →
  (∀ j c g, src !! j = Some c → (∀ i', i' ≠ i → g !! i' = chars w !! i') →
     f j (set_chars w g) = write_char i j c (set_chars w g)) →
  for_each f (seq 0 BUFFER_WIDTH) w = Done (set_chars w (<[i := src]> (chars w)), tt).
Proof.
  intros Hi Hs Hd Hf. unfold row_ok in *. pose proof (lookup_lt_Some _ _ _ Hi).
  destruct (for_each_seq (λ j w', w' = set_chars w (<[i := take j src ++ drop j dst]> (chars w)))
              f 0 BUFFER_WIDTH w) as (w' & Hr & ->).
  - intros j w' Hj ->. cbn [Nat.add].
    destruct (lookup_lt_is_Some_2 src j ltac:(lia)) as [c Hc].
    rewrite (Hf j c) by (done || (intros; by rewrite list_lookup_insert_ne)).
    eexists. split; [apply write_char_run |].
    + cbn. apply list_lookup_insert_eq. lia.
    + rewrite length_app, length_take, length_drop. lia.
    + cbn. rewrite list_insert_insert_eq. unfold set_chars. cbn. f_equal. f_equal. apply insert_next; [lia | done].
  - rewrite take_0, drop_0. cbn. rewrite list_insert_id by done. by destruct w.
  - rewrite Hr, take_ge, drop_ge, app_nil_r by lia. done.
Qed.

Lemma clear_row_run w row dst :
  chars w !! row = Some dst → row_ok dst →
  clear_row row w = Done (set_chars w (<[row := replicate BUFFER_WIDTH (blank w)]> (chars w)), tt).
Proof.
  intros Hr Hd. unfold clear_row. rewrite (M_bind_run _ _ _ _ _ eq_refl).
  apply (write_row_run w row (replicate BUFFER_WIDTH (blank w)) dst); [done | done | done |].
  intros j c g Hc _. by apply lookup_replicate in Hc as [-> _].
Qed.

Lemma copy_up_run w i src dst :
  chars w !! i = Some dst → chars w !! S i = Some src → row_ok src → row_ok dst →
  copy_up (S i) w = Done (set_chars w (<[i := src]> (chars w)), tt).
Proof.
  intros Hi Hsi Hs Hd. unfold copy_up. rewrite Nat.sub_succ, Nat.sub_0_r.
  apply (write_row_run w i src dst); try done. intros j c g Hc Hg.
  apply M_bind_run. apply read_char_run with src; [| done]. cbn. rewrite Hg by lia. done.
Qed.

Lemma scroll_run w :
  screen_ok (chars w) →
  for_each copy_up (seq 1 (BUFFER_HEIGHT - 1)) w
  = Done (set_chars w (take (BUFFER_HEIGHT - 1) (drop 1 (chars w)) ++ drop (BUFFER_HEIGHT - 1) (chars w)), tt).
Proof.
  intros Hg. destruct (for_each_seq (λ j w', w' = set_chars w (take j (drop 1 (chars w)) ++ drop j (chars w)))
    copy_up 1 (BUFFER_HEIGHT - 1) w) as (w' & Hr & ->); [| | done].
  - intros i w' Hi ->. unfold BUFFER_HEIGHT in Hi.
    destruct (screen_row _ i Hg ltac:(unfold BUFFER_HEIGHT; lia)) as (dst & Hd & Hdo).
    destruct (screen_row _ (S i) Hg ltac:(unfold BUFFER_HEIGHT; lia)) as (src & Hs & Hso).
    destruct Hg as [Hl _]. unfold BUFFER_HEIGHT in Hl.
    assert (length (take i (drop 1 (chars w))) = i) as Hti by (rewrite length_take, length_drop; lia).
    eexists. split; [apply (copy_up_run _ i src dst); try done; cbn |].
    + rewrite lookup_app_r by lia. rewrite Hti, Nat.sub_diag, lookup_drop, Nat.add_0_r. done.
    + rewrite lookup_app_r by lia. rewrite Hti, lookup_drop.
      replace (i + (S i - i))%nat with (S i) by lia. done.
    + cbn. unfold set_chars. cbn. f_equal. apply insert_next; [lia |].
      by rewrite lookup_drop.
  - cbn. by destruct w.
Qed.

Lemma new_line_run w :
  screen_ok (chars w) →
  new_line w = Done ({| column_position := 0; color := color w;
                        chars := drop 1 (chars w) ++ [replicate BUFFER_WIDTH (blank w)] |}, tt).
Proof.
  intros Hg. unfold new_line. rewrite (M_bind_run _ _ _ _ _ (scroll_run w Hg)).
  destruct (screen_row _ (BUFFER_HEIGHT - 1) Hg ltac:(unfold BUFFER_HEIGHT; lia)) as (r & Hr & Hro).
  destruct Hg as [Hl _].
  set (up := take (BUFFER_HEIGHT - 1) (drop 1 (chars w))).
  assert (up = drop 1 (chars w)) as Eup by (apply take_ge; rewrite length_drop; lia).
  assert (length up = BUFFER_HEIGHT - 1)%nat as Hlu by (rewrite Eup, length_drop; lia).
  assert (drop (BUFFER_HEIGHT - 1) (chars w) = [r]) as ->.
  { rewrite (drop_S _ r) by done. by rewrite drop_ge by (unfold BUFFER_HEIGHT in *; lia). }
  erewrite M_bind_run; last first.
  { apply (clear_row_run _ _ r); [| done]. cbn [chars set_chars].
    rewrite lookup_app_r by lia. by rewrite Hlu, Nat.sub_diag. }
  unfold modify, set_column, set_chars. cbn [chars column_position color].
  rewrite <- Hlu at 1. rewrite (insert_app_r_alt up) by lia. rewrite Nat.sub_diag. by rewrite Eup.
Qed.

Lemma new_line_ok w : screen_ok (chars w) → screen_ok (drop 1 (chars w) ++ [replicate BUFFER_WIDTH (blank w)]).
Proof.
  intros [Hl HF]. split.
  - rewrite length_app, length_drop, Hl. reflexivity.
  - apply Forall_app. split; [by apply Forall_drop |]. apply Forall_singleton, length_replicate.
Qed.

(** ** The sheet *)

(** The finished lines and the line being written. *)
Abbreviation sheet := (list (list Z) * list Z)%type.

Definition put (t : sheet) (byte : Z) : sheet :=
  let '(lines, current) := t in
  if byte =? newline then (lines ++ [current], [])
  else if (BUFFER_WIDTH <=? length current)%nat then (lines ++ [current], [byte])
  else (lines, current ++ [byte]).

(** A line in colour [k], on a row that held [base]. *)
Definition paint (k : Z) (base : list ScreenChar) (line : list Z) : list ScreenChar :=
  ((λ b, {| ascii_character := b; color_code := k |}) <$> line) ++ drop (length line) base.

Definition blank_row (k : Z) : list ScreenChar :=
  replicate BUFFER_WIDTH {| ascii_character := 32; color_code := k |}.

(** The first line is on the row the screen had at the bottom, the others on
    rows scrolled in. *)
Fixpoint paints (k : Z) (base : list ScreenChar) (lines : list (list Z)) : list (list ScreenChar) :=
  match lines with
  | [] => []
  | l :: lines => paint k base l :: paints k (blank_row k) lines
  end.

(** The screen shows the last 25 rows of the sheet below what it showed at
    first. *)
Definition shows (g0 : list (list ScreenChar)) (k : Z) (t : sheet) (w : Writer) : Prop :=
  let '(lines, current) := t in
  color w = k ∧ column_position w = length current ∧ (length current ≤ BUFFER_WIDTH)%nat
  ∧ Forall (λ l, (length l ≤ BUFFER_WIDTH)%nat) lines
  ∧ ∃ bottom, g0 !! (BUFFER_HEIGHT - 1)%nat = Some bottom
    ∧ chars w = drop (length lines) (take (BUFFER_HEIGHT - 1) g0 ++ paints k bottom (lines ++ [current])).

Lemma paints_snoc k base lines l :
  paints k base (lines ++ [l])
  = paints k base lines ++ [paint k (match lines with [] => base | _ => blank_row k end) l].
Proof.
  revert base. induction lines as [| l' lines IH]; intros base; [done |]. cbn. rewrite IH.
  by destruct lines.
Qed.

Lemma length_paints k base lines : length (paints k base lines) = length lines.
Proof. revert base. induction lines; intros base; cbn; congruence. Qed.

Lemma paint_ok k base l : row_ok base → (length l ≤ BUFFER_WIDTH)%nat → row_ok (paint k base l).
Proof. unfold row_ok, paint. intros. rewrite length_app, length_fmap, length_drop. lia. Qed.

Lemma paints_ok k base lines :
  row_ok base → Forall (λ l, (length l ≤ BUFFER_WIDTH)%nat) lines → Forall row_ok (paints k base lines).
Proof.
  intros Hb HF. revert base Hb. induction HF as [| l lines Hl _ IH]; intros base Hb; constructor.
  - by apply paint_ok.
  - by apply IH.
Qed.

(** The rows above the bottom one, and the bottom one. *)
Lemma shows_split g0 k lines current w :
  screen_ok g0 → shows g0 k (lines, current) w →
  ∃ above base, chars w = above ++ [paint k base current] ∧ length above = (BUFFER_HEIGHT - 1)%nat
    ∧ Forall row_ok above ∧ row_ok base
    ∧ ∀ l w', color w' = k → column_position w' = length l → (length l ≤ BUFFER_WIDTH)%nat →
        chars w' = above ++ [paint k base l] → shows g0 k (lines, l) w'.
Proof.
  intros [Hl HF] (Hk & Hc & Hle & HFl & bottom & Hb & Hg).
  pose proof (Forall_lookup_1 _ _ _ _ HF Hb) as Hbo.
  exists (drop (length lines) (take (BUFFER_HEIGHT - 1) g0 ++ paints k bottom lines)).
  exists (match lines with [] => bottom | _ => blank_row k end).
  assert (∀ l, drop (length lines) (take (BUFFER_HEIGHT - 1) g0 ++ paints k bottom (lines ++ [l]))
    = drop (length lines) (take (BUFFER_HEIGHT - 1) g0 ++ paints k bottom lines)
      ++ [paint k (match lines with [] => bottom | _ => blank_row k end) l]) as E.
  { intros l. rewrite paints_snoc, app_assoc, drop_app_le; [done |]. rewrite length_app, length_paints. lia. }
  split_and!.
  - by rewrite Hg, E.
  - rewrite length_drop, length_app, length_take, length_paints. lia.
  - apply Forall_drop, Forall_app. split; [by apply Forall_take | by apply paints_ok].
  - by destruct lines.
  - intros l w' Hk' Hc' Hle' Hg'. split_and!; try done. exists bottom. split; [done |]. by rewrite Hg', E.
Qed.

Lemma shows_screen g0 k t w : screen_ok g0 → shows g0 k t w → screen_ok (chars w).
Proof.
  intros Hg0 Hs. destruct t as [lines current].
  destruct (shows_split _ _ _ _ _ Hg0 Hs) as (above & base & -> & Hl & HF & Hb & _).
  destruct Hs as (_ & _ & Hle & _). split.
  - rewrite length_app, Hl. reflexivity.
  - apply Forall_app. split; [done |]. apply Forall_singleton. by apply paint_ok.
Qed.

Lemma new_line_shows g0 k lines current w :
  screen_ok g0 → shows g0 k (lines, current) w →
  ∃ w', new_line w = Done (w', tt) ∧ shows g0 k (lines ++ [current], []) w'.
Proof.
  intros Hg0 Hs. pose proof (shows_screen _ _ _ _ Hg0 Hs) as Hw. eexists. split; [by apply new_line_run |].
  destruct Hs as (Hk & Hc & Hle & HF & bottom & Hb & Hg). destruct Hg0 as [Hl _].
  split_and!; try done; [cbn; lia | | exists bottom; split; [done |]].
  - apply Forall_app. split; [done |]. by apply Forall_singleton.
  - cbn [chars]. rewrite (paints_snoc k bottom (lines ++ [current])), app_assoc, Hg, drop_drop.
    rewrite length_app. cbn [length].
    rewrite (drop_app_le (take (BUFFER_HEIGHT - 1) g0 ++ paints k bottom (lines ++ [current]))).
    + unfold blank. rewrite Hk. by destruct lines.
    + rewrite length_app, length_take, length_paints, length_app. cbn [length]. lia.
Qed.

Lemma write_cell_shows g0 k lines current w b :
  screen_ok g0 → shows g0 k (lines, current) w → (length current < BUFFER_WIDTH)%nat →
  ∃ w', (w ← gets (λ w, w);
         _ ← write_char (BUFFER_HEIGHT - 1) (column_position w) {| ascii_character := b; color_code := color w |};
         modify (λ w, set_column w (column_position w + 1))) w = Done (w', tt)
    ∧ shows g0 k (lines, current ++ [b]) w'.
Proof.
  intros Hg0 Hs Hlt. destruct (shows_split _ _ _ _ _ Hg0 Hs) as (above & base & Hg & Hl & _ & Hb & Hshow).
  destruct Hs as (Hk & Hc & _). unfold row_ok in Hb.
  rewrite (M_bind_run _ _ _ _ _ eq_refl). erewrite M_bind_run; last first.
  { apply write_char_run with (r := paint k base current).
    - rewrite Hg, lookup_app_r, Hl, Nat.sub_diag by lia. done.
    - unfold paint. rewrite length_app, length_fmap, length_drop. lia. }
  eexists. split; [reflexivity |]. apply Hshow; cbn [color column_position chars set_column set_chars].
  - done.
  - rewrite length_app, Hc. reflexivity.
  - rewrite length_app. cbn [length]. lia.
  - rewrite Hg, <- Hl, (insert_app_r_alt above), Nat.sub_diag by lia. cbn. f_equal. f_equal.
    unfold paint. rewrite Hc, Hk, fmap_app, length_app. rewrite insert_app_r_alt by (rewrite length_fmap; lia).
    rewrite length_fmap, Nat.sub_diag. destruct (drop (length current) base) as [| d ds] eqn:Ed.
    { apply (f_equal length) in Ed. rewrite length_drop in Ed. simpl in Ed. lia. }
    rewrite <- app_assoc. cbn. f_equal. f_equal. by rewrite <- drop_drop, Ed.
Qed.

Lemma write_byte_shows g0 k t w b :
  screen_ok g0 → shows g0 k t w → ∃ w', write_byte b w = Done (w', tt) ∧ shows g0 k (put t b) w'.
Proof.
  intros Hg0 Hs. destruct t as [lines current]. unfold write_byte, put.
  destruct (b =? newline); [by apply new_line_shows |].
  pose proof Hs as (_ & Hc & Hle & _). rewrite (M_bind_run _ _ _ _ _ eq_refl), Hc.
  destruct (Nat.leb_spec BUFFER_WIDTH (length current)).
  - destruct (new_line_shows _ _ _ _ _ Hg0 Hs) as (w1 & Hr & Hs1). rewrite (M_bind_run _ _ _ _ _ Hr).
    apply (write_cell_shows g0 k (lines ++ [current]) [] w1 b Hg0 Hs1). cbn. unfold BUFFER_WIDTH. lia.
  - rewrite (M_bind_run _ _ _ _ _ eq_refl). by apply write_cell_shows.
Qed.

(** C35: the screen is a window on an endless sheet.  Whatever the screen shows,
    writing a string never panics and appends its bytes to the sheet, lines
    broken at newlines and at the right margin and bytes that are not
    printable shown as 0xfe; the screen then shows the last 25 rows of the
    sheet, and the cursor is at the end of the last one. *)
Theorem write_string_shows (g0 : list (list ScreenChar)) (k : Z) (s : list Z) (t : sheet) (w : Writer) :
  screen_ok g0 → shows g0 k t w →
  ∃ w', write_string s w = Done (w', tt) ∧ shows g0 k (foldl put t (shown <$> s)) w' ∧ screen_ok (chars w').
Proof.
  intros Hg0. revert t w. induction s as [| b s IH]; intros t w Hs; cbn [write_string].
  - exists w. split_and!; try done. by eapply shows_screen.
  - destruct (write_byte_shows g0 k t w (shown b) Hg0 Hs) as (w1 & Hr & Hs1).
    rewrite (M_bind_run _ _ _ _ _ Hr). by apply IH.
Qed.

Lemma write_string_app s1 s2 w : write_string (s1 ++ s2) w = (_ ← write_string s1; write_string s2) w.
Proof.
  revert w. induction s1 as [| b s1 IH]; intros w; cbn [write_string app]; [done |].
  unfold mbind, M_bind in *. destruct (write_byte (shown b) w) as [[w1 []] | |]; [apply IH | done | done].
Qed.

(** Printing in pieces is printing the whole. *)
Lemma print_concat pieces w : print pieces w = write_string (concat pieces) w.
Proof.
  unfold print. revert w. induction pieces as [| p pieces IH]; intros w; cbn [for_each concat]; [done |].
  rewrite write_string_app. unfold mbind, M_bind. by destruct (write_string p w) as [[w1 []] | |].
Qed.

(** The screen at boot, whatever it holds, shows an empty sheet. *)
Lemma shows_boot (g0 : list (list ScreenChar)) k :
  screen_ok g0 → shows g0 k ([], []) {| column_position := 0; color := k; chars := g0 |}.
Proof.
  intros Hg. destruct (screen_row _ (BUFFER_HEIGHT - 1) Hg ltac:(unfold BUFFER_HEIGHT; lia)) as (r & Hr & Hro).
  destruct Hg as [Hl _]. split_and!; cbn; try done; [unfold BUFFER_WIDTH; lia |]. exists r. split; [done |].
  change (g0 = take (BUFFER_HEIGHT - 1) g0 ++ [r]). rewrite <- (take_S_r _ _ _ Hr). symmetry. apply take_ge.
  unfold BUFFER_HEIGHT in *. lia.
Qed.

(** Yellow on black, on a screen of blanks. *)
Definition boot_screen : list (list ScreenChar) := replicate BUFFER_HEIGHT (blank_row 0).

Lemma write_string_shows_witness :
  ∃ w', write_string [72; 105; 10; 7; 33]
          (WRITER boot_screen) = Done (w', tt)
    ∧ shows boot_screen (color_code_new Yellow Black) ([[72; 105]], [0xfe; 33]) w' ∧ screen_ok (chars w').
Proof.
  assert (screen_ok boot_screen) as Hg by (split; [reflexivity | by repeat constructor]).
  apply (write_string_shows boot_screen (color_code_new Yellow Black) [72; 105; 10; 7; 33] ([], [])); [done |].
  by apply shows_boot.
Defined.
