(* ===== verification/Acpi.v ===== *)
(** * ACPI tables

    [src/src/acpi.rs], [acpi/ptr.rs] and [acpi/acpi.rs]: physical pointers and
    their translation, the root table and the iterator over the tables it
    points to, and the iterator over the entries of the APIC table.

    Memory is a function from virtual addresses to bytes: what the firmware
    left there is a parameter.  The packed structures are read field by field
    at their offsets. *)

From stdpp Require Import base tactics list numbers.
From Stdlib Require Import ZArith Lia.
From S2P Require Import Prelude Queue.

Local Open Scope Z_scope.

(** ** Pointers *)

Class Mapper (Mp : Type) := map_addr : ∀ {B : Build}, Mp → Z → outcome Z.

Record OffsetMapper := { offset : Z }.

#[export] Instance Offset_mapper : Mapper OffsetMapper := fun B m physical => add_w 64 physical (offset m).

(** [PhysicalPtr::translate] and [add_raw]; a pointer is its address. *)
Definition translate {B : Build} {Mp} `{Mapper Mp} (ptr : Z) (mapping : Mp) : outcome Z := map_addr mapping ptr.
Definition ptr_add {B : Build} (ptr offset : Z) : outcome Z := add_w 64 ptr offset.

Section memory.
Context (mem : Z → Z).

(** [n] bytes from a virtual address, and the little-endian number they are. *)
Definition read_bytes (addr : Z) (n : nat) : list Z := map (λ i, mem (addr + Z.of_nat i)) (seq 0 n).
Definition from_le (bs : list Z) : Z := from_be (reverse bs).
Definition read_le (addr : Z) (n : nat) : Z := from_le (read_bytes addr n).

(** ** UTF-8, as [core::str::from_utf8] validates it *)

Definition within (lo hi b : Z) : bool := (lo <=? b) && (b <=? hi).
Definition cont (b : Z) : bool := within 0x80 0xbf b.

Fixpoint utf8_valid (fuel : nat) (s : list Z) : bool :=
  match fuel, s with
  | _, [] => true
  | O, _ => false
  | S fuel, a :: s =>
      if a <? 0x80 then utf8_valid fuel s
      else if within 0xc2 0xdf a then
        match s with b :: s => cont b && utf8_valid fuel s | _ => false end
      else if within 0xe0 0xef a then
        match s with
        | b :: c :: s =>
            within (if a =? 0xe0 then 0xa0 else 0x80) (if a =? 0xed then 0x9f else 0xbf) b
            && cont c && utf8_valid fuel s
        | _ => false
        end
      else if within 0xf0 0xf4 a then
        match s with
        | b :: c :: d :: s =>
            within (if a =? 0xf0 then 0x90 else 0x80) (if a =? 0xf4 then 0x8f else 0xbf) b
            && cont c && cont d && utf8_valid fuel s
        | _ => false
        end
      else false
  end.

(** [core::str::from_utf8(s).unwrap()]; a string is its bytes. *)
Definition from_utf8 (s : list Z) : outcome (list Z) :=
  if utf8_valid (length s) s then Done s else Panicked UnwrapFailed.

(** ** The root tables *)

Record RSDP := {
  rsdp_signature : list Z; rsdp_checksum : Z; rsdp_oemid : list Z; rsdp_revision : Z; rsdt_addr : Z }.

Record SDTHeader := {
  signature : list Z; length_ : Z; revision : Z; checksum : Z; oemid : list Z; oemtableid : list Z;
  oemrevision : Z; creatorid : Z; creatorrevision : Z }.

Definition size_of_SDTHeader : Z := 36.

Section tables.
Context {B : Build} {Mp : Type} `{Mapper Mp}.

Definition rsdp_load (physical_ptr : Z) (mapping : Mp) : outcome RSDP :=
  p ← translate physical_ptr mapping;
  mret {| rsdp_signature := read_bytes p 8; rsdp_checksum := mem (p + 8);
          rsdp_oemid := read_bytes (p + 9) 6; rsdp_revision := mem (p + 15);
          rsdt_addr := read_le (p + 16) 4 |}.

(** The packed header at a virtual address. *)
Definition header_at (p : Z) : SDTHeader :=
  {| signature := read_bytes p 4; length_ := read_le (p + 4) 4; revision := mem (p + 8);
     checksum := mem (p + 9); oemid := read_bytes (p + 10) 6; oemtableid := read_bytes (p + 16) 8;
     oemrevision := read_le (p + 24) 4; creatorid := read_le (p + 28) 4;
     creatorrevision := read_le (p + 32) 4 |}.

Definition header_load (ptr : Z) (mapping : Mp) : outcome SDTHeader :=
  p ← translate ptr mapping; mret (header_at p).

Record RSDTPointers := { ptrs_start : Z; ptrs_size : Z; ptrs_count : Z; ptrs_mapping : Mp }.
Record RSDT := { header : SDTHeader; others : RSDTPointers }.

Definition XSDT : list Z := [0x58; 0x53; 0x44; 0x54].

Definition rsdt_load (ptr : Z) (mapping : Mp) : outcome RSDT :=
  h ← header_load ptr mapping;
  signature_str ← from_utf8 (signature h);
  let ptr_size := if decide (signature_str = XSDT) then 8 else 4 in
  content ← sub_w 64 (length_ h) size_of_SDTHeader;
  let entries := content / ptr_size in
  start ← ptr_add ptr size_of_SDTHeader;
  mret {| header := h;
          others := {| ptrs_start := start; ptrs_size := ptr_size; ptrs_count := entries; ptrs_mapping := mapping |} |}.

(** [RSDP::load_rsdt] *)
Definition load_rsdt (r : RSDP) (mapping : Mp) : outcome RSDT := rsdt_load (rsdt_addr r) mapping.

Record RSDTIter := { it_ptr : Z; it_size : Z; it_left : Z; it_mapping : Mp }.

Definition rsdt_iter (t : RSDT) : RSDTIter :=
  {| it_ptr := ptrs_start (others t); it_size := ptrs_size (others t); it_left := ptrs_count (others t);
     it_mapping := ptrs_mapping (others t) |}.

Definition rsdt_next (it : RSDTIter) : outcome (RSDTIter * option (SDTHeader * Z)) :=
  if it_left it =? 0 then Done (it, None)
  else
    current ← translate (it_ptr it) (it_mapping it);
    let raw_header_ptr := if it_size it =? 4 then read_le current 4 else read_le current 8 in
    h ← header_load raw_header_ptr (it_mapping it);
    rest_ptr ← ptr_add raw_header_ptr size_of_SDTHeader;
    ptr' ← ptr_add (it_ptr it) (it_size it);
    left' ← sub_w 64 (it_left it) 1;
    mret ({| it_ptr := ptr'; it_size := it_size it; it_left := left'; it_mapping := it_mapping it |},
          Some (h, rest_ptr)).

(** Everything an iterator yields, within a number of calls. *)
Fixpoint collect {It A} (nxt : It → outcome (It * option A)) (fuel : nat) (it : It) : outcome (list A) :=
  match fuel with
  | O => OutOfFuel
  | S fuel =>
      r ← nxt it;
      match r.2 with
      | None => mret []
      | Some a => rest ← collect nxt fuel r.1; mret (a :: rest)
      end
  end.

(** ** The tables' entries *)

Record AcipApicEntry := { local_addr : Z; flags : Z; starting_addr : Z; remaining : Z }.

(** [FADT] keeps the bytes of the packed structure. *)
Inductive AcipEntry :=
  | Apic (e : AcipApicEntry)
  | FADT (raw : list Z)
  | HighPrecisionEventTimer (header : SDTHeader) (ptr : Z)
  | WindowsACPIEmulatedDevices (header : SDTHeader) (ptr : Z)
  | UnknownEntry (header : SDTHeader) (ptr : Z).

Definition size_of_FADT : nat := 208.

Definition APIC : list Z := [0x41; 0x50; 0x49; 0x43].
Definition FACP : list Z := [0x46; 0x41; 0x43; 0x50].
Definition HPET : list Z := [0x48; 0x50; 0x45; 0x54].
Definition WAET : list Z := [0x57; 0x41; 0x45; 0x54].

Definition entry_load (h : SDTHeader) (other : Z) (mapping : Mp) : outcome AcipEntry :=
  s ← from_utf8 (signature h);
  if decide (s = APIC) then
    ptr ← translate other mapping;
    ptr4 ← ptr_add ptr 4;
    start ← ptr_add other 8;
    left ← sub_w 32 (length_ h) 8;
    left ← sub_w 32 left size_of_SDTHeader;
    mret (Apic {| local_addr := read_le ptr 4; flags := read_le ptr4 4; starting_addr := start; remaining := left |})
  else if decide (s = FACP) then
    ptr ← translate other mapping;
    mret (FADT (read_bytes ptr size_of_FADT))
  else if decide (s = HPET) then mret (HighPrecisionEventTimer h other)
  else if decide (s = WAET) then mret (WindowsACPIEmulatedDevices h other)
  else mret (UnknownEntry h other).

Inductive APICEntry :=
  | ProcessLocal (processor_id apic_id flags : Z)
  | IOApic (id reserved address gsi_base : Z)
  | IOApicInterruptSourceOverride (bus_source irq_source gsi flags : Z)
  | LocalApicNonMaskableInterrupts (acpi_processor_id flags lint : Z)
  | UnknownApic (id : Z).

Record APICEntryIter := { apic_ptr : Z; remaining_size : Z; apic_mapping : Mp }.

Definition entries (e : AcipApicEntry) (mapper : Mp) : APICEntryIter :=
  {| apic_ptr := starting_addr e; remaining_size := remaining e; apic_mapping := mapper |}.

(** [ptr.add_raw(k).read::<T>()] *)
Definition read_at (ptr k : Z) (n : nat) : outcome Z := a ← ptr_add ptr k; mret (read_le a n).

Definition apic_next (it : APICEntryIter) : outcome (APICEntryIter * option APICEntry) :=
  if remaining_size it =? 0 then Done (it, None)
  else
    ptr ← translate (apic_ptr it) (apic_mapping it);
    let e_type := read_le ptr 1 in
    e_length ← read_at ptr 1 1;
    entry ←
      (if e_type =? 0 then
        processor_id ← read_at ptr 2 1; apic_id ← read_at ptr 3 1; flags ← read_at ptr 4 4;
        mret (ProcessLocal processor_id apic_id flags)
      else if e_type =? 1 then
        apic_id ← read_at ptr 2 1; reserved ← read_at ptr 3 1; address ← read_at ptr 4 4;
        gsi_base ← read_at ptr 8 4;
        mret (IOApic apic_id reserved address gsi_base)
      else if e_type =? 2 then
        bus_source ← read_at ptr 2 1; irq_source ← read_at ptr 3 1; gsi ← read_at ptr 4 4;
        flags ← read_at ptr 8 2;
        mret (IOApicInterruptSourceOverride bus_source irq_source gsi flags)
      else if e_type =? 4 then
        acpi_processor_id ← read_at ptr 2 1; flags ← read_at ptr 3 2; lint ← read_at ptr 5 1;
        mret (LocalApicNonMaskableInterrupts acpi_processor_id flags lint)
      else mret (UnknownApic e_type));
    ptr' ← ptr_add (apic_ptr it) e_length;
    left ← sub_w 32 (remaining_size it) e_length;
    mret ({| apic_ptr := ptr'; remaining_size := left; apic_mapping := apic_mapping it |}, Some entry).

End tables.
End memory.
