(* ===== verification/AcpiSpec.v ===== *)
(** * Walking the ACPI tables

    What the iterators of [Acpi] yield: the tables the root table points to,
    and the entries of an APIC table laid out as the ACPI specification says. *)

From stdpp Require Import base tactics list numbers.
From Stdlib Require Import ZArith Lia.
From S2P Require Import Prelude Queue Acpi.

Local Open Scope Z_scope.

Definition to_le (n : nat) (v : Z) : list Z := reverse (to_be n v).

Lemma from_le_to_le n v : uint (8 * Z.of_nat n) v → from_le (to_le n v) = v.
Proof. intros Hv. unfold from_le, to_le. rewrite reverse_involutive, from_be_to_be. by apply cast_small. Qed.

Lemma length_to_le n v : length (to_le n v) = n.
Proof. unfold to_le. by rewrite length_reverse, length_to_be. Qed.

Section walk.
Context (mem : Z → Z) {B : Build}.

(** Memory holds [bs] from [addr] on. *)
Definition holds (addr : Z) (bs : list Z) : Prop := read_bytes mem addr (length bs) = bs.

Lemma read_bytes_app addr n m :
  read_bytes mem addr (n + m) = read_bytes mem addr n ++ read_bytes mem (addr + Z.of_nat n) m.
Proof.
  unfold read_bytes. rewrite seq_app, map_app. f_equal. cbn [Nat.add].
  replace (seq n m) with (Nat.add n <$> seq 0 m) by (by rewrite fmap_add_seq, Nat.add_0_r).
  change (map ?f) with (fmap (M := list) f). rewrite <- list_fmap_compose. apply list_fmap_ext.
  intros _ i _. cbn. f_equal. lia.
Qed.

Lemma length_read_bytes addr n : length (read_bytes mem addr n) = n.
Proof. unfold read_bytes. by rewrite length_map, length_seq. Qed.

Lemma holds_app addr b1 b2 : holds addr (b1 ++ b2) ↔ holds addr b1 ∧ holds (addr + len b1) b2.
Proof.
  unfold holds, len. rewrite length_app, read_bytes_app. split.
  - intros E. apply app_inj_1 in E; [done | by rewrite length_read_bytes].
  - intros [-> ->]. done.
Qed.

Lemma read_le_holds addr bs k n :
  holds addr bs → (k + n ≤ length bs)%nat →
  read_le mem (addr + Z.of_nat k) n = from_le (take n (drop k bs)).
Proof.
  intros Hh Hl. unfold read_le. f_equal. unfold holds in Hh.
  replace (length bs) with (k + (n + (length bs - k - n)))%nat in Hh by lia.
  rewrite !read_bytes_app in Hh. rewrite <- Hh at 1.
  rewrite drop_app_length' by (by rewrite length_read_bytes).
  by rewrite take_app_length' by (by rewrite length_read_bytes).
Qed.

Lemma read_le_holds_0 addr bs n :
  holds addr bs → (n ≤ length bs)%nat → read_le mem addr n = from_le (take n bs).
Proof. intros Hh Hl. rewrite <- (Z.add_0_r addr). by apply (read_le_holds addr bs 0 n). Qed.

(** ** The root table *)

Context (off : Z).
Abbreviation mapper := {| offset := off |}.

Lemma translate_ok a : 0 ≤ a + off < 2 ^ 64 → translate a mapper = Done (a + off).
Proof. intros Ha. unfold translate, map_addr, Offset_mapper, add_w. cbn. by apply arith_in. Qed.

Lemma ptr_add_ok a k : 0 ≤ a + k < 2 ^ 64 → ptr_add a k = Done (a + k).
Proof. intros Ha. by apply arith_in. Qed.

(** The [i]-th pointer of a table of [size]-byte pointers at [start]. *)
Definition table_pointer (size start : Z) (i : nat) : Z :=
  read_le mem (start + size * Z.of_nat i + off) (Z.to_nat size).

Definition table_entry (size start : Z) (i : nat) : SDTHeader * Z :=
  let q := table_pointer size start i in (header_at mem (q + off), q + 36).

Lemma collect_some {It A} (nxt : It → outcome (It * option A)) fuel it it' a l :
  nxt it = Done (it', Some a) → collect nxt fuel it' = Done l → collect nxt (S fuel) it = Done (a :: l).
Proof. intros Hn Hc. cbn [collect]. rewrite Hn, bind_Done_l. cbn [fst snd]. by rewrite Hc. Qed.

Lemma rsdt_next_run size start (n : nat) :
  size = 4 ∨ size = 8 → 0 ≤ off → 0 ≤ start → start + size + off < 2 ^ 64 → Z.of_nat (S n) < 2 ^ 64 →
  0 ≤ table_pointer size start 0 → table_pointer size start 0 + 36 + off < 2 ^ 64 →
  rsdt_next mem {| it_ptr := start; it_size := size; it_left := Z.of_nat (S n); it_mapping := mapper |}
  = Done ({| it_ptr := start + size; it_size := size; it_left := Z.of_nat n; it_mapping := mapper |},
          Some (table_entry size start 0)).
Proof.
  intros Hsz Hoff Hs Hb Hn Hq0 Hq1. unfold rsdt_next. cbn [it_left it_ptr it_mapping it_size].
  replace (Z.of_nat (S n) =? 0) with false by (symmetry; apply Z.eqb_neq; lia).
  rewrite translate_ok, bind_Done_l by lia.
  assert ((if size =? 4 then read_le mem (start + off) 4 else read_le mem (start + off) 8)
          = table_pointer size start 0) as ->.
  { unfold table_pointer. rewrite Z.mul_0_r, Z.add_0_r. by destruct Hsz as [-> | ->]. }
  unfold header_load. rewrite translate_ok, bind_Done_l by lia. unfold mret, outcome_ret.
  rewrite bind_Done_l. unfold size_of_SDTHeader.
  rewrite (ptr_add_ok (table_pointer size start 0)), bind_Done_l by lia.
  rewrite (ptr_add_ok start), bind_Done_l by lia.
  unfold sub_w. rewrite arith_in, bind_Done_l by (unfold uint; lia).
  by replace (Z.of_nat (S n) - 1) with (Z.of_nat n) by lia.
Qed.

Lemma rsdt_walk size (n : nat) start :
  size = 4 ∨ size = 8 → 0 ≤ off → 0 ≤ start → start + size * Z.of_nat n + off < 2 ^ 64 →
  (∀ i, (i < n)%nat → 0 ≤ table_pointer size start i ∧ table_pointer size start i + 36 + off < 2 ^ 64) →
  collect (rsdt_next mem) (S n)
    {| it_ptr := start; it_size := size; it_left := Z.of_nat n; it_mapping := mapper |}
  = Done (table_entry size start <$> seq 0 n).
Proof.
  intros Hsz Hoff. revert start. induction n as [| n IH]; intros start Hs Hb Hq; [reflexivity |].
  assert (∀ i, table_pointer size (start + size) i = table_pointer size start (S i)) as Hshift.
  { intros i. unfold table_pointer. f_equal. lia. }
  destruct (Hq 0%nat ltac:(lia)).
  cbn [seq fmap list_fmap]. eapply collect_some; [apply rsdt_next_run; try done; lia |].
  rewrite IH; [| lia | lia |].
  - f_equal. rewrite <- fmap_S_seq, <- list_fmap_compose. apply list_fmap_ext. intros _ i _. cbn.
    unfold table_entry. by rewrite Hshift.
  - intros i Hi. rewrite Hshift. apply Hq. lia.
Qed.

(** C37: the root table is walked completely.  Loading a root table with a valid
    signature and at least a header succeeds, and its iterator then yields,
    in order, the header and the content address of exactly as many tables as
    whole pointers fit in the table: eight bytes each in an XSDT, four
    otherwise; then it ends. *)
Theorem rsdt_iter_spec (ptr : Z) :
  let h := header_at mem (ptr + off) in
  let size := if decide (signature h = XSDT) then 8 else 4 in
  let n := Z.to_nat ((length_ h - 36) / size) in
  utf8_valid 4 (signature h) = true → 36 ≤ length_ h →
  0 ≤ ptr → 0 ≤ off → ptr + length_ h + off < 2 ^ 64 →
  (∀ i, (i < n)%nat → 0 ≤ table_pointer size (ptr + 36) i
                      ∧ table_pointer size (ptr + 36) i + 36 + off < 2 ^ 64) →
  ∃ t, rsdt_load mem ptr mapper = Done t
    ∧ collect (rsdt_next mem) (S n) (rsdt_iter t) = Done (table_entry size (ptr + 36) <$> seq 0 n).
Proof.
  intros h size n Hu Hl Hp Ho Hb Hq. unfold rsdt_load, header_load.
  rewrite translate_ok, !bind_Done_l by lia. unfold mret, outcome_ret. fold h.
  unfold from_utf8. change (length (signature h)) with 4%nat. rewrite Hu, bind_Done_l. fold size.
  unfold sub_w, size_of_SDTHeader.
  rewrite arith_in, bind_Done_l by (unfold uint; lia). rewrite ptr_add_ok, bind_Done_l by lia.
  eexists. split; [reflexivity |]. unfold rsdt_iter. cbn [others ptrs_start ptrs_size ptrs_count ptrs_mapping].
  assert (size = 4 ∨ size = 8) as Hsz by (subst size; case_decide; auto).
  assert (0 ≤ (length_ h - 36) / size) by (apply Z.div_pos; lia).
  replace ((length_ h - 36) / size) with (Z.of_nat n) by (subst n; lia).
  apply rsdt_walk; try done; [lia |]. subst n. rewrite Z2Nat.id by done.
  pose proof (Z.mul_div_le (length_ h - 36) size ltac:(lia)). lia.
Qed.

(** ** The APIC table *)

(** An entry as the specification lays it out: type, length, fields, and any
    further bytes its length covers. *)
Definition entry_type (e : APICEntry) : Z :=
  match e with
  | ProcessLocal _ _ _ => 0
  | IOApic _ _ _ _ => 1
  | IOApicInterruptSourceOverride _ _ _ _ => 2
  | LocalApicNonMaskableInterrupts _ _ _ => 4
  | UnknownApic id => id
  end.

Definition entry_fields (e : APICEntry) : list Z :=
  match e with
  | ProcessLocal p a f => [p; a] ++ to_le 4 f
  | IOApic i r a g => [i; r] ++ to_le 4 a ++ to_le 4 g
  | IOApicInterruptSourceOverride b i g f => [b; i] ++ to_le 4 g ++ to_le 2 f
  | LocalApicNonMaskableInterrupts p f l => [p] ++ to_le 2 f ++ [l]
  | UnknownApic _ => []
  end.

Definition entry_ok (e : APICEntry) : Prop :=
  match e with
  | ProcessLocal p a f => byte p ∧ byte a ∧ uint 32 f
  | IOApic i r a g => byte i ∧ byte r ∧ uint 32 a ∧ uint 32 g
  | IOApicInterruptSourceOverride b i g f => byte b ∧ byte i ∧ uint 32 g ∧ uint 16 f
  | LocalApicNonMaskableInterrupts p f l => byte p ∧ uint 16 f ∧ byte l
  | UnknownApic id => byte id ∧ id ∉ [0; 1; 2; 4]
  end.

Definition entry_bytes (x : APICEntry * list Z) : list Z :=
  [entry_type x.1; 2 + len (entry_fields x.1 ++ x.2)] ++ entry_fields x.1 ++ x.2.

Definition encodable (x : APICEntry * list Z) : Prop := entry_ok x.1 ∧ len (entry_bytes x) < 256.

Lemma to_le_4 v : ∃ a b c d, to_le 4 v = [a; b; c; d] ∧ (uint 32 v → from_le [a; b; c; d] = v).
Proof. eexists _, _, _, _. split; [reflexivity |]. by apply (from_le_to_le 4). Qed.

Lemma to_le_2 v : ∃ a b, to_le 2 v = [a; b] ∧ (uint 16 v → from_le [a; b] = v).
Proof. eexists _, _. split; [reflexivity |]. by apply (from_le_to_le 2). Qed.

Lemma from_le_1 v : from_le [v] = v.
Proof. done. Qed.

Lemma read_le_1 addr : read_le mem addr 1 = mem addr.
Proof. unfold read_le, read_bytes. cbn. by rewrite Z.add_0_r. Qed.

Lemma read_at_holds addr bs k n :
  holds addr bs → (k + n ≤ length bs)%nat → 0 ≤ addr → addr + Z.of_nat k < 2 ^ 64 →
  ∀ k', k' = Z.of_nat k → read_at mem addr k' n = Done (from_le (take n (drop k bs))).
Proof.
  intros Hh Hl H0 Hb k' ->. unfold read_at. rewrite ptr_add_ok, bind_Done_l by lia.
  by rewrite (read_le_holds addr bs k n).
Qed.

(** Read the field at offset [k]. *)
Ltac read_field Hh k n :=
  let kz := eval vm_compute in (Z.of_nat k) in
  rewrite (read_at_holds _ _ k n Hh) with (k' := kz) by (cbn [length]; done || lia); rewrite bind_Done_l; cbn [take drop app]; rewrite ?take_0.

(** The entry at [ptr], read field by field. *)
Lemma apic_entry_read ptr x rest :
  encodable x → holds ptr (entry_bytes x ++ rest) → 0 ≤ ptr → ptr + 12 < 2 ^ 64 →
  read_le mem ptr 1 = entry_type x.1 ∧ read_at mem ptr 1 1 = Done (len (entry_bytes x)).
Proof.
  intros [_ Hl] Hh H0 Hb. split.
  - by rewrite (read_le_holds_0 _ _ 1 Hh) by (cbn [length entry_bytes app]; lia).
  - erewrite (read_at_holds _ _ 1 1 Hh) by (cbn [length entry_bytes app]; done || lia). cbn [entry_bytes app take drop].
    rewrite from_le_1. f_equal. unfold len. cbn [length]. lia.
Qed.

Lemma apic_next_run ptr left x rest :
  encodable x → holds (ptr + off) (entry_bytes x ++ rest) → left = len (entry_bytes x ++ rest) →
  0 ≤ ptr → 0 ≤ off → ptr + off + left + 12 < 2 ^ 64 → left < 2 ^ 32 →
  apic_next mem {| apic_ptr := ptr; remaining_size := left; apic_mapping := mapper |}
  = Done ({| apic_ptr := ptr + len (entry_bytes x); remaining_size := len rest; apic_mapping := mapper |}, Some x.1).
Proof.
  intros Hx Hh -> Hp Ho Hb Hl. rewrite len_app in *. unfold apic_next. cbn [apic_ptr remaining_size apic_mapping].
  pose proof (len_nonneg rest) as Hr.
  assert (2 ≤ len (entry_bytes x)) as H2 by (unfold len; cbn [entry_bytes app length]; lia).
  replace (len (entry_bytes x) + len rest =? 0) with false by (symmetry; apply Z.eqb_neq; lia).
  rewrite translate_ok, bind_Done_l by lia.
  destruct (apic_entry_read (ptr + off) x rest Hx Hh ltac:(lia) ltac:(lia)) as [-> ->]. rewrite bind_Done_l.
  match goal with |- (_ ← ?m; _) = _ => assert (m = Done x.1) as -> end.
  { assert (0 ≤ ptr + off ∧ ptr + off + 12 < 2 ^ 64) as [Hp0 Hp1] by lia. clear H2 Hr Hl Hb Hp. 
    destruct x as [e extra]. destruct Hx as [Hok _]. cbn [fst] in *.
    unfold entry_bytes in Hh. cbn [fst snd] in Hh. rewrite <- !app_assoc in Hh.
    set (tail := extra ++ rest) in *. clearbody tail. set (L := 2 + len (entry_fields e ++ extra)) in Hh.
    clearbody L. generalize dependent (ptr + off). intros p Hh Hp0 Hp1.
    destruct e as [pr ap fl | i r a g | b i g f | pr f l | id]; cbn [entry_type entry_fields entry_ok] in *.
    - cbn [Z.eqb Pos.eqb]. destruct Hok as (_ & _ & Hf). destruct (to_le_4 fl) as (a & b & c & d & E & Ef). rewrite E in Hh.
      cbn [app] in Hh. read_field Hh 2%nat 1%nat. read_field Hh 3%nat 1%nat. read_field Hh 4%nat 4%nat.
      by rewrite Ef.
    - cbn [Z.eqb Pos.eqb]. destruct Hok as (_ & _ & Ha & Hg). destruct (to_le_4 a) as (a0 & a1 & a2 & a3 & Ea & Va).
      destruct (to_le_4 g) as (g0 & g1 & g2 & g3 & Eg & Vg). rewrite Ea, Eg in Hh. cbn [app] in Hh.
      read_field Hh 2%nat 1%nat. read_field Hh 3%nat 1%nat. read_field Hh 4%nat 4%nat.
      read_field Hh 8%nat 4%nat. by rewrite Va, Vg.
    - cbn [Z.eqb Pos.eqb]. destruct Hok as (_ & _ & Hg & Hf). destruct (to_le_4 g) as (g0 & g1 & g2 & g3 & Eg & Vg).
      destruct (to_le_2 f) as (f0 & f1 & Ef & Vf). rewrite Eg, Ef in Hh. cbn [app] in Hh.
      read_field Hh 2%nat 1%nat. read_field Hh 3%nat 1%nat. read_field Hh 4%nat 4%nat.
      read_field Hh 8%nat 2%nat. by rewrite Vg, Vf.
    - cbn [Z.eqb Pos.eqb]. destruct Hok as (_ & Hf & _). destruct (to_le_2 f) as (f0 & f1 & Ef & Vf). rewrite Ef in Hh.
      cbn [app] in Hh. read_field Hh 2%nat 1%nat. read_field Hh 3%nat 2%nat. read_field Hh 5%nat 1%nat.
      by rewrite Vf.
    - destruct Hok as [_ Hid].
      rewrite !(proj2 (Z.eqb_neq id _)) by (intros ->; apply Hid; by repeat constructor). done. }
  rewrite bind_Done_l, ptr_add_ok, bind_Done_l by lia. unfold sub_w.
  rewrite arith_in, bind_Done_l by (unfold uint; lia). unfold mret, outcome_ret. do 3 f_equal. lia.
Qed.

(** C38: the APIC table decodes.  Over a table whose entries are laid out as the
    specification says, with entries of unknown types and trailing bytes
    anywhere, the iterator yields exactly the entries in order and then ends. *)
Theorem apic_entries_decode (e : AcipApicEntry) (es : list (APICEntry * list Z)) :
  let bs := concat (map entry_bytes es) in
  Forall encodable es → holds (starting_addr e + off) bs → remaining e = len bs →
  0 ≤ starting_addr e → 0 ≤ off → starting_addr e + off + len bs + 12 < 2 ^ 64 → len bs < 2 ^ 32 →
  collect (apic_next mem) (S (length es)) (entries e mapper) = Done (map fst es).
Proof.
  cbv zeta. intros Hes. unfold entries. generalize (starting_addr e), (remaining e). clear e.
  induction Hes as [| x es Hx _ IH]; intros ptr left Hh -> Hp Ho Hb Hl; [reflexivity |].
  cbn [map concat length] in *. eapply collect_some.
  - by apply (apic_next_run ptr _ x (concat (map entry_bytes es))).
  - apply holds_app in Hh as [_ Hh]. rewrite len_app in Hb, Hl. pose proof (len_nonneg (entry_bytes x)).
    pose proof (len_nonneg (concat (map entry_bytes es))).
    apply IH; try done; try lia. by replace (ptr + len (entry_bytes x) + off) with (ptr + off + len (entry_bytes x)) by lia.
Qed.

(** A malformed entry hangs the walk.  An entry whose length byte is zero is
    yielded again and again: no number of calls reaches the end of the
    iterator. *)
Theorem apic_zero_length_diverges (ptr left : Z) (fuel : nat) :
  mem (ptr + off + 1) = 0 → 0 < left < 2 ^ 32 → 0 ≤ ptr → 0 ≤ off → ptr + off + 12 < 2 ^ 64 →
  collect (apic_next mem) fuel {| apic_ptr := ptr; remaining_size := left; apic_mapping := mapper |} = OutOfFuel.
Proof.
  intros H0 Hl Hp Ho Hb.
  assert (∃ e, apic_next mem {| apic_ptr := ptr; remaining_size := left; apic_mapping := mapper |}
    = Done ({| apic_ptr := ptr; remaining_size := left; apic_mapping := mapper |}, Some e)) as [e Hn].
  { unfold apic_next. cbn [apic_ptr remaining_size apic_mapping].
    replace (left =? 0) with false by (symmetry; apply Z.eqb_neq; lia).
    rewrite translate_ok, bind_Done_l by lia.
    assert (∀ k n, 0 ≤ k ≤ 12 → read_at mem (ptr + off) k n = Done (read_le mem (ptr + off + k) n)) as Hr.
    { intros k n Hk. unfold read_at. by rewrite ptr_add_ok by lia. }
    rewrite (Hr 1), bind_Done_l by lia. rewrite read_le_1, H0.
    match goal with |- ∃ _, (_ ← ?m; _) = _ => assert (∃ e, m = Done e) as [e ->] end.
    { rewrite !Hr by lia. repeat case_match; eexists; reflexivity. }
    exists e. rewrite bind_Done_l, ptr_add_ok, bind_Done_l by lia. unfold sub_w.
    rewrite arith_in, bind_Done_l by (unfold uint; lia). by rewrite Z.add_0_r, Z.sub_0_r. }
  induction fuel as [| fuel IH]; [done |]. cbn [collect]. rewrite Hn, bind_Done_l. cbn [fst snd]. by rewrite IH.
Qed.

End walk.

(** ** A small firmware *)

Module SampleTables.

(** Bytes placed at an address, zeros elsewhere. *)
Definition place (base : Z) (bs : list Z) : Z → Z := λ a,
  if a <? base then 0 else default 0 (bs !! Z.to_nat (a - base)).

Definition sample_offset : Z := 0x10000.

(** An RSDT of two pointers at the physical address 0x1000. *)
Definition rsdt_memory : Z → Z :=
  place (0x1000 + sample_offset)
    ([0x52; 0x53; 0x44; 0x54] ++ to_le 4 44 ++ replicate 28 0 ++ to_le 4 0x1100 ++ to_le 4 0x1200).

Lemma rsdt_iter_spec_witness :
  ∃ t, rsdt_load (B := debug_build) rsdt_memory 0x1000 {| offset := sample_offset |} = Done t
    ∧ collect (rsdt_next (B := debug_build) rsdt_memory) 3 (rsdt_iter t)
      = Done (table_entry rsdt_memory sample_offset 4 0x1024 <$> seq 0 2).
Proof.
  apply (rsdt_iter_spec rsdt_memory (B := debug_build) sample_offset 0x1000);
    [vm_compute; congruence .. | reflexivity |].
  intros i Hi. assert (i = 0 ∨ i = 1)%nat as [-> | ->]; [| vm_compute; split; congruence ..].
  change (i < 2)%nat in Hi. lia.
Defined.

(** An APIC table with an entry of each type, one of them with trailing bytes. *)
Definition sample_entries : list (APICEntry * list Z) :=
  [ (ProcessLocal 0 0 1, []); (IOApic 1 0 0xfec00000 0, []);
    (IOApicInterruptSourceOverride 0 9 9 13, [0; 0]); (UnknownApic 9, [1; 2; 3; 4; 5; 6]);
    (LocalApicNonMaskableInterrupts 255 0 1, []) ].

Definition apic_memory : Z → Z :=
  place (0x2000 + sample_offset) (concat (map entry_bytes sample_entries)).

Definition sample_apic : AcipApicEntry :=
  {| local_addr := 0xfee00000; flags := 1; starting_addr := 0x2000; remaining := 46 |}.

Lemma apic_entries_decode_witness :
  collect (apic_next (B := debug_build) apic_memory) 6 (entries sample_apic {| offset := sample_offset |})
  = Done [ProcessLocal 0 0 1; IOApic 1 0 0xfec00000 0; IOApicInterruptSourceOverride 0 9 9 13;
          UnknownApic 9; LocalApicNonMaskableInterrupts 255 0 1].
Proof.
  apply (apic_entries_decode apic_memory (B := debug_build) sample_offset sample_apic sample_entries);
    [| vm_compute; reflexivity | vm_compute; reflexivity | vm_compute; congruence
     | vm_compute; congruence | vm_compute; reflexivity | vm_compute; reflexivity].
  repeat constructor; cbn; try (vm_compute; congruence).
  intros Hin. apply (bool_decide_pack _) in Hin. vm_compute in Hin. done.
Defined.

Lemma apic_zero_length_diverges_witness :
  collect (apic_next (B := debug_build) (λ _, 0)) 100
    {| apic_ptr := 0x2000; remaining_size := 8; apic_mapping := {| offset := sample_offset |} |} = OutOfFuel.
Proof.
  apply (apic_zero_length_diverges (λ _, 0) (B := debug_build) sample_offset 0x2000 8 100);
    [reflexivity | lia | lia | vm_compute; congruence | vm_compute; reflexivity].
Defined.

End SampleTables.
