(* ===== verification/Aml.v ===== *)
(** * The AML byte stream

    [src/src/acpi/acpi/aml.rs]: the beginnings of a parser for the ACPI
    machine language.  It prints what it recognises: package lengths, the
    scopes and the bytes in them.  Named scopes below the root end in
    [todo!].  What is printed is the state; a byte iterator is the list of
    the bytes it has left. *)

From stdpp Require Import base tactics list numbers.
From Stdlib Require Import ZArith Lia.
From S2P Require Import Prelude Queue.

Local Open Scope Z_scope.

Inductive Line :=
  | InitialLength (initial : Z)
  | NextBytes (next_bytes : Z)
  | HandleScopeOp
  | PackageLength (length : Z)
  | RootChar
  | LeadingNameByte (other : Z)
  | InnerByte (inner : Z)
  | UnknownLeadingOp (other : Z).

Definition print_line (l : Line) : M (list Line) unit := modify (λ out, out ++ [l]).

Section aml.
Context {B : Build}.

(** [parse_pkg_length]: the length without the bytes that hold it, and the
    bytes left. *)
Definition parse_pkg_length (iter : list Z) : M (list Line) (option Z * list Z) :=
  match iter with
  | [] => mret (None, [])
  | initial :: iter =>
      _ ← print_line (InitialLength initial);
      match Z.shiftr initial 6 with
      | 0 =>
          length ← lift (sub_w 64 (Z.land initial 0x1f) 1);
          mret (Some length, iter)
      | 1 =>
          match iter with
          | [] => mret (None, [])
          | next_bytes :: iter =>
              _ ← print_line (NextBytes next_bytes);
              let result := Z.lor (Z.shiftl next_bytes 4) (Z.land initial 0x0f) in
              length ← lift (sub_w 64 result 2);
              mret (Some length, iter)
          end
      | 2 => lift (Panicked Todo)
      | 3 => lift (Panicked Todo)
      | _ => lift (Panicked Unreachable)
      end
  end.

(** [parse_namepath]: every kind of path is a [todo!]. *)
Definition parse_namepath (iter : list Z) : M (list Line) unit :=
  initial ← lift (unwrap (head iter));
  match initial with
  | 0x2e => lift (Panicked Todo)
  | 0x2f => lift (Panicked Todo)
  | 0x00 => lift (Panicked Todo)
  | _ => lift (Panicked Todo)
  end.

Fixpoint print_inner (bytes : list Z) : M (list Line) unit :=
  match bytes with
  | [] => mret tt
  | b :: bytes => _ ← print_line (InnerByte b); print_inner bytes
  end.

(** [bytes.by_ref().take(length)] ends with the bytes. *)
Definition taken (length : Z) (bytes : list Z) : nat := Z.to_nat (Z.min length (len bytes)).

Definition scope_op (bytes : list Z) : M (list Line) (list Z) :=
  _ ← print_line HandleScopeOp;
  '(pkg_length, bytes) ← parse_pkg_length bytes;
  length ← lift (unwrap pkg_length);
  _ ← print_line (PackageLength length);
  let inner := take (taken length bytes) bytes in
  leading_name_byte ← lift (unwrap (head inner));
  _ ← (if leading_name_byte =? 0x5c then
         _ ← print_line RootChar;
         parse_namepath (tail inner)
       else
         _ ← print_line (LeadingNameByte leading_name_byte);
         print_inner inner);
  mret (drop (taken length bytes) bytes).

(** The loop of [parse]. *)
Fixpoint parse_loop (fuel : nat) (bytes : list Z) : M (list Line) unit :=
  match fuel with
  | O => fun _ => OutOfFuel
  | S fuel =>
      match bytes with
      | [] => mret tt
      | leading :: bytes =>
          if leading =? 0x10 then
            bytes ← scope_op bytes;
            parse_loop fuel bytes
          else
            _ ← print_line (UnknownLeadingOp leading);
            parse_loop fuel bytes
      end
  end.

(** [parse]: every round takes a byte, so this many rounds are enough. *)
Definition parse (content : list Z) : M (list Line) unit := parse_loop (S (length content)) content.

(** ** Termination *)

Definition halts {A} (m : M (list Line) A) : Prop := ∀ out, m out ≠ OutOfFuel.

Lemma halts_bind {A C} (m : M (list Line) A) (f : A → M (list Line) C) :
  halts m → (∀ a, halts (f a)) → halts (x ← m; f x).
Proof.
  intros Hm Hf out. unfold mbind, M_bind. specialize (Hm out).
  destruct (m out) as [[out' a] | |]; [apply Hf | done | done].
Qed.

Lemma halts_lift {A} (o : outcome A) : o ≠ OutOfFuel → halts (lift o).
Proof. intros Ho out. unfold lift. by destruct o. Qed.

Lemma halts_print l : halts (print_line l).
Proof. by intros out. Qed.

Lemma halts_ret {A} (a : A) : halts (mret a).
Proof. by intros out. Qed.

Lemma arith_halts w z : arith w z ≠ OutOfFuel.
Proof. unfold arith. by repeat case_match. Qed.

Lemma unwrap_halts {A} (o : option A) : unwrap o ≠ OutOfFuel.
Proof. by destruct o. Qed.

(** Follow the code down to its prints, returns and panics. *)
Ltac halt :=
  repeat first
    [ apply halts_bind; [| intros]
    | apply halts_lift; first [apply arith_halts | apply unwrap_halts | discriminate]
    | apply halts_print
    | apply halts_ret
    | progress case_match ].

Lemma parse_pkg_length_halts iter : halts (parse_pkg_length iter).
Proof. unfold parse_pkg_length. halt. Qed.

Lemma parse_namepath_halts iter : halts (parse_namepath iter).
Proof. unfold parse_namepath. halt. Qed.

Lemma print_inner_halts bytes : halts (print_inner bytes).
Proof. induction bytes; simpl; halt; done. Qed.

Lemma scope_op_halts bytes : halts (scope_op bytes).
Proof.
  unfold scope_op. halt; auto using parse_pkg_length_halts, parse_namepath_halts, print_inner_halts.
Qed.

Lemma parse_pkg_length_shrinks iter out out' l rest :
  parse_pkg_length iter out = Done (out', (l, rest)) → (length rest ≤ length iter)%nat.
Proof. unfold parse_pkg_length, print_line. intros Hr. m_cases; simpl; lia. Qed.

Lemma scope_op_shrinks bytes out out' rest :
  scope_op bytes out = Done (out', rest) → (length rest ≤ length bytes)%nat.
Proof.
  unfold scope_op. intros Hr. m_inv.
  match goal with Hp : parse_pkg_length _ _ = Done (_, ?r) |- _ => destruct r; apply parse_pkg_length_shrinks in Hp end.
  m_inv. rewrite length_drop. lia.
Qed.

Lemma parse_loop_halts fuel bytes : (length bytes < fuel)%nat → halts (parse_loop fuel bytes).
Proof.
  revert bytes. induction fuel as [| fuel IH]; intros bytes Hl out; [lia |].
  destruct bytes as [| leading bytes]; [done |]. simpl in *. case_match; [| apply IH; lia].
  unfold mbind, M_bind. destruct (scope_op bytes out) as [[out' rest] | |] eqn:Es; [| done |].
  - apply scope_op_shrinks in Es. apply IH. lia.
  - by destruct (scope_op_halts bytes out).
Qed.

(** Parsing always ends, by returning or with a panic. *)
Theorem aml_parse_ends (content : list Z) : halts (parse content).
Proof. apply parse_loop_halts. lia. Qed.

(** ** What is parsed *)

(** The package lengths of one and two bytes, as ACPI encodes them: a length
    below 64, or one below 4096 whose low four bits come first. *)
Definition pkg_length (two_bytes : bool) (v : Z) : list Z :=
  if two_bytes then [0x40 + v mod 16; v / 16] else [v].

Lemma nibbles_join v : Z.lor (Z.shiftl (v / 2 ^ 4) 4) (v mod 2 ^ 4) = v.
Proof.
  apply Z.bits_inj'. intros n Hn. rewrite Z.lor_spec, Z.shiftl_spec by lia.
  destruct (decide (n < 4)).
  - by rewrite Z.testbit_neg_r, Z.mod_pow2_bits_low by lia.
  - rewrite Z.mod_pow2_bits_high, Z.div_pow2_bits, orb_false_r by lia. f_equal. lia.
Qed.

Definition pkg_lines (two_bytes : bool) (v : Z) : list Line :=
  if two_bytes then [InitialLength (0x40 + v mod 16); NextBytes (v / 16)] else [InitialLength v].

(** Two bytes are decoded to the length without them.  Of a single byte only
    five of the six bits are looked at. *)
Lemma parse_pkg_length_run (two_bytes : bool) v rest out :
  (if two_bytes then 2 ≤ v < 4096 else 0 ≤ v < 64 ∧ v mod 32 ≠ 0) →
  parse_pkg_length (pkg_length two_bytes v ++ rest) out
    = Done (out ++ pkg_lines two_bytes v, (Some (if two_bytes then v - 2 else v mod 32 - 1), rest)).
Proof.
  destruct two_bytes; intros Hv; cbn [pkg_length app parse_pkg_length].
  - assert (0 ≤ v mod 16 < 16) by (apply Z.mod_pos_bound; lia).
    assert (0 ≤ v / 16 < 256) by (split; [apply Z.div_pos | apply Z.div_lt_upper_bound]; lia).
    replace (Z.shiftr (0x40 + v mod 16) 6) with 1
      by (rewrite Z.shiftr_div_pow2 by lia; change (2 ^ 6) with 64;
          apply (Z.div_unique _ _ _ (v mod 16)); lia).
    replace (Z.lor (Z.shiftl (v / 16) 4) (Z.land (0x40 + v mod 16) 0x0f)) with v.
    + unfold print_line, sub_w.
      rewrite !(M_bind_run _ _ _ _ tt eq_refl). rewrite arith_in by (unfold uint; lia).
      rewrite (M_bind_lift _ _ _ _ eq_refl). by rewrite <- app_assoc.
    + change 0x0f with (Z.ones 4). rewrite Z.land_ones, Z.add_mod, Z.mod_mod by lia.
      change (0x40 mod 2 ^ 4) with 0. rewrite Z.add_0_l, Z.mod_mod by lia. by rewrite nibbles_join.
  - assert (v mod 32 < 32 ∧ 0 ≤ v mod 32) by (split; apply Z.mod_pos_bound; lia).
    replace (Z.shiftr v 6) with 0
      by (rewrite Z.shiftr_div_pow2 by lia; symmetry; apply Z.div_small; lia).
    change 0x1f with (Z.ones 5). rewrite Z.land_ones by lia. change (2 ^ 5) with 32.
    unfold print_line, sub_w. rewrite (M_bind_run _ _ _ _ tt eq_refl).
    rewrite arith_in by (unfold uint; lia). by rewrite (M_bind_lift _ _ _ _ eq_refl).
Qed.

(** The part of the language the parser knows: scopes, and anything else byte
    by byte. *)
Inductive Item :=
  | Other (b : Z)
  | Scope (two_bytes : bool) (body : list Z).

Definition scope_length (two_bytes : bool) (body : list Z) : Z :=
  len body + (if two_bytes then 2 else 1).

Definition encode (i : Item) : list Z :=
  match i with
  | Other b => [b]
  | Scope two_bytes body => 0x10 :: pkg_length two_bytes (scope_length two_bytes body) ++ body
  end.

Definition shown (i : Item) : list Line :=
  match i with
  | Other b => [UnknownLeadingOp b]
  | Scope two_bytes body =>
      HandleScopeOp :: pkg_lines two_bytes (scope_length two_bytes body)
      ++ PackageLength (len body) :: LeadingNameByte (default 0 (head body)) :: map InnerByte body
  end.

(** A scope that is not below the root and whose length the parser reads. *)
Definition readable (i : Item) : Prop :=
  match i with
  | Other b => b ≠ 0x10
  | Scope two_bytes body =>
      body ≠ [] ∧ head body ≠ Some 0x5c ∧ scope_length two_bytes body < (if two_bytes then 4096 else 32)
  end.

Lemma print_inner_run bytes out : print_inner bytes out = Done (out ++ map InnerByte bytes, tt).
Proof.
  revert out. induction bytes as [| b bytes IH]; intros out; simpl; [by rewrite app_nil_r |].
  unfold print_line. rewrite (M_bind_run _ _ _ _ tt eq_refl), IH. by rewrite <- app_assoc.
Qed.

Lemma pkg_length_read (two_bytes : bool) body rest out :
  body ≠ [] → scope_length two_bytes body < (if two_bytes then 4096 else 32) →
  parse_pkg_length (pkg_length two_bytes (scope_length two_bytes body) ++ rest) out
  = Done (out ++ pkg_lines two_bytes (scope_length two_bytes body), (Some (len body), rest)).
Proof.
  intros Hb Hl. assert (0 < len body) by (destruct body; [done | unfold len; simpl; lia]).
  unfold scope_length in *. rewrite parse_pkg_length_run.
  - do 4 f_equal. destruct two_bytes; [lia |]. rewrite Z.mod_small; lia.
  - destruct two_bytes; [lia |]. rewrite Z.mod_small; lia.
Qed.

Lemma scope_op_run (two_bytes : bool) body rest out :
  readable (Scope two_bytes body) →
  scope_op (pkg_length two_bytes (scope_length two_bytes body) ++ body ++ rest) out
  = Done (out ++ shown (Scope two_bytes body), rest).
Proof.
  intros (Hb & Hh & Hl). unfold scope_op, print_line.
  rewrite (M_bind_run _ _ _ _ tt eq_refl), (M_bind_run _ _ _ _ _ (pkg_length_read _ _ _ _ Hb Hl)).
  cbn [unwrap]. rewrite (M_bind_lift _ _ _ _ eq_refl), (M_bind_run _ _ _ _ tt eq_refl). cbv zeta.
  replace (taken (len body) (body ++ rest)) with (length body)
    by (unfold taken, len; rewrite length_app; lia).
  rewrite take_app_length, drop_app_length. destruct body as [| b body]; [done |]. cbn [head unwrap].
  rewrite (M_bind_lift _ _ _ _ eq_refl). destruct (b =? 0x5c) eqn:Eb; [apply Z.eqb_eq in Eb; simpl in Hh; congruence |].
  rewrite (M_bind_run _ _ _ (out ++ shown (Scope two_bytes (b :: body))) tt); [done |].
  rewrite (M_bind_run _ _ _ _ tt eq_refl), print_inner_run. by rewrite <- !app_assoc.
Qed.

Lemma parse_item_run fuel i rest out :
  readable i → parse_loop (S fuel) (encode i ++ rest) out = parse_loop fuel rest (out ++ shown i).
Proof.
  destruct i as [b | two_bytes body]; intros Hi; cbn [encode app parse_loop].
  - by rewrite (proj2 (Z.eqb_neq _ _)).
  - cbn [Z.eqb Pos.eqb]. rewrite <- app_assoc. by rewrite (M_bind_run _ _ _ _ _ (scope_op_run _ _ _ _ Hi)).
Qed.

Lemma parse_items_run items fuel out :
  Forall readable items → (length items < fuel)%nat →
  parse_loop fuel (concat (map encode items)) out = Done (out ++ concat (map shown items), tt).
Proof.
  intros HF. revert fuel out. induction HF as [| i items Hi _ IH]; intros [| fuel] out Hl; simpl in Hl; try lia.
  - simpl. by rewrite app_nil_r.
  - cbn [map concat]. rewrite parse_item_run, IH by (done || lia). by rewrite <- app_assoc.
Qed.

(** A stream of readable items is read back item by item. *)
Theorem aml_parse_reads items out :
  Forall readable items →
  parse (concat (map encode items)) out = Done (out ++ concat (map shown items), tt).
Proof.
  intros HF. apply parse_items_run; [done |]. clear. induction items as [| i items IH]; simpl; [lia |].
  rewrite length_app. destruct i; simpl; lia.
Qed.

(** A scope below the root ends the parser, whatever it names. *)
Theorem aml_root_scope_panics (two_bytes : bool) body rest out :
  scope_length two_bytes (0x5c :: body) < (if two_bytes then 4096 else 32) →
  ∃ why, parse (encode (Scope two_bytes (0x5c :: body)) ++ rest) out = Panicked why.
Proof.
  intros Hl. unfold parse. cbn [encode app parse_loop length Z.eqb Pos.eqb]. rewrite <- app_assoc.
  assert (∃ why, scope_op (pkg_length two_bytes (scope_length two_bytes (0x5c :: body)) ++ (0x5c :: body) ++ rest) out
    = Panicked why) as [why Hs]; [| exists why; unfold mbind, M_bind; by rewrite Hs].
  unfold scope_op, print_line.
  rewrite (M_bind_run _ _ _ _ tt eq_refl), (M_bind_run _ _ _ _ _ (pkg_length_read two_bytes (0x5c :: body) _ _ ltac:(done) Hl)).
  cbn [unwrap]. rewrite (M_bind_lift _ _ _ _ eq_refl), (M_bind_run _ _ _ _ tt eq_refl). cbv zeta.
  replace (taken (len (0x5c :: body)) ((0x5c :: body) ++ rest)) with (length (0x5c :: body))
    by (unfold taken, len; rewrite length_app; lia).
  rewrite take_app_length. cbn [head tail unwrap]. rewrite (M_bind_lift _ _ _ _ eq_refl). cbn [Z.eqb Pos.eqb].
  assert (∀ out', ∃ why, parse_namepath body out' = Panicked why) as Hn.
  { intros out'. destruct body as [| b body]; [by eexists |]. exists Todo. unfold parse_namepath. cbn [head unwrap].
    rewrite (M_bind_lift _ _ _ _ eq_refl). by repeat case_match. }
  match goal with |- ∃ why, (_ ← (_ ← modify ?f; _); _) ?s = _ => destruct (Hn (f s)) as [why Hw] end.
  exists why. unfold mbind, M_bind at 1 2. cbn [modify]. by rewrite Hw.
Qed.

End aml.

Example aml_sample :
  parse (B := debug_build) [0x08; 0x10; 0x03; 0x41; 0x42] []
  = Done ([UnknownLeadingOp 8; HandleScopeOp; InitialLength 3; PackageLength 2; LeadingNameByte 0x41;
           InnerByte 0x41; InnerByte 0x42], tt).
Proof. reflexivity. Qed.
