(* ===== verification/Gdt.v ===== *)
(** * Segments and the stack of the double fault

    [src/src/gdt.rs]: the task state segment with the stack on which double
    faults are handled, the global descriptor table, and loading both.

    The two tables are types of the [x86_64] crate: [SegmentOps] is what the
    code uses of them and [SegmentLaws] their documented behaviour.  The
    address of the static [STACK] is the linker's.  Both tables are statics
    that do not change once they are built, so of the processor it is enough
    to know that the table was loaded and which selectors it uses. *)

From stdpp Require Import base tactics list numbers.
From Stdlib Require Import ZArith Lia.
From S2P Require Import Prelude Queue.

Local Open Scope Z_scope.

Definition DOUBLE_FAULT_IST_INDEX : Z := 0.
Definition STACK_SIZE : Z := 4096 * 5.

(** A segment of the table; that of the task points to its interrupt stacks. *)
Inductive Descriptor :=
  | KernelCode
  | KernelData
  | TssSegment (interrupt_stack_table : list Z).

Class SegmentOps := {
  STACK : Z;
  (** the interrupt stacks of [TaskStateSegment::new] *)
  tss_new : list Z;
  gdt_table : Type;
  gdt_new : gdt_table;
  add_entry : gdt_table → Descriptor → outcome (gdt_table * Z);
  (** what the processor finds at a selector *)
  gdt_entry : gdt_table → Z → option Descriptor;
  gdt_free : gdt_table → Z }.

(** [VirtAddr::new] refuses addresses that are not canonical. *)
Definition virt_addr_new (a : Z) : outcome Z :=
  if (a <? 2 ^ 47) || (2 ^ 64 - 2 ^ 47 <=? a) then Done a else Panicked Explicit.

Definition canonical (a : Z) : Prop := a < 2 ^ 47 ∨ 2 ^ 64 - 2 ^ 47 ≤ a.

(** A task has seven interrupt stacks.  An entry is kept under the selector
    that [add_entry] returns, as long as there is room: a segment of the kernel
    takes one place and that of a task two. *)
Class SegmentLaws `{SegmentOps} : Prop := {
  stack_linked : 0 ≤ STACK ∧ STACK + STACK_SIZE < 2 ^ 64 ∧ canonical STACK ∧ canonical (STACK + STACK_SIZE);
  tss_new_length : length tss_new = 7%nat;
  gdt_new_free : gdt_free gdt_new = 7;
  add_entry_spec g d :
    (match d with TssSegment _ => 2 | _ => 1 end) ≤ gdt_free g →
    ∃ g' sel, add_entry g d = Done (g', sel) ∧ gdt_entry g' sel = Some d
      ∧ gdt_free g' = gdt_free g - match d with TssSegment _ => 2 | _ => 1 end
      ∧ ∀ other, is_Some (gdt_entry g other) → gdt_entry g' other = gdt_entry g other }.

Record Selectors := { code_selector : Z; tss_selector : Z }.

(** The registers of the processor that name segments. *)
Record Segments := {
  gdt_loaded : bool;
  cs : Z;
  tr : Z }.

Section gdt.
Context `{SegmentOps} {B : Build}.

Definition TSS : outcome (list Z) :=
  stack_start ← virt_addr_new STACK;
  stack_end ← add_w 64 stack_start STACK_SIZE;
  stack_end ← virt_addr_new stack_end;
  write_at tss_new DOUBLE_FAULT_IST_INDEX stack_end.

Definition GDT : outcome (gdt_table * Selectors) :=
  r ← add_entry gdt_new KernelCode;
  let '(gdt, code_selector) := r in
  r ← add_entry gdt KernelData;
  let '(gdt, _) := r in
  tss ← TSS;
  r ← add_entry gdt (TssSegment tss);
  let '(gdt, tss_selector) := r in
  Done (gdt, {| code_selector := code_selector; tss_selector := tss_selector |}).

(** The static is built when it is first used, and [load] is its first use. *)
Definition init : M Segments unit :=
  gdt ← lift GDT;
  _ ← modify (λ s, {| gdt_loaded := true; cs := cs s; tr := tr s |});
  _ ← modify (λ s, {| gdt_loaded := gdt_loaded s; cs := code_selector gdt.2; tr := tr s |});
  modify (λ s, {| gdt_loaded := gdt_loaded s; cs := cs s; tr := tss_selector gdt.2 |}).

(** ** Loading them *)

(** The registers after [init]. *)
Definition flat_segments (s : Segments) : Prop :=
  ∃ gdt sel tss, GDT = Done (gdt, sel) ∧ s = {| gdt_loaded := true; cs := code_selector sel; tr := tss_selector sel |}
    ∧ gdt_entry gdt (cs s) = Some KernelCode ∧ gdt_entry gdt (tr s) = Some (TssSegment tss)
    ∧ tss !! Z.to_nat DOUBLE_FAULT_IST_INDEX = Some (STACK + STACK_SIZE).

Lemma virt_addr_ok a : canonical a → virt_addr_new a = Done a.
Proof.
  unfold canonical, virt_addr_new. intros [Ha | Ha].
  - by rewrite (proj2 (Z.ltb_lt _ _) Ha).
  - by rewrite (proj2 (Z.leb_le _ _) Ha), orb_true_r.
Qed.

Context `{!SegmentLaws}.

Lemma TSS_run : ∃ tss, TSS = Done tss ∧ tss !! 0%nat = Some (STACK + STACK_SIZE).
Proof.
  destruct stack_linked as (H0' & Hb & Hc & He). unfold TSS. rewrite (virt_addr_ok _ Hc), bind_Done_l.
  unfold add_w. rewrite arith_in, bind_Done_l by (unfold uint, STACK_SIZE in *; lia).
  rewrite (virt_addr_ok _ He), bind_Done_l. pose proof tss_new_length as Hl. unfold write_at, DOUBLE_FAULT_IST_INDEX.
  rewrite (proj2 (andb_true_iff _ _)) by (split; [done | apply Z.ltb_lt; unfold len; lia]).
  eexists. split; [reflexivity |]. apply list_lookup_insert_eq. lia.
Qed.

(** [init] runs on the kernel's own code segment and gives double faults the
    end of their own stack. *)
Lemma gdt_init_run : ∃ r, flat_segments r ∧ ∀ s, init s = Done (r, tt).
Proof.
  destruct (add_entry_spec gdt_new KernelCode) as (g1 & code & E1 & G1 & F1 & _); [rewrite gdt_new_free; lia |].
  destruct (add_entry_spec g1 KernelData) as (g2 & data & E2 & _ & F2 & K2); [rewrite F1, gdt_new_free; lia |].
  destruct TSS_run as (tss & Et & Hs).
  destruct (add_entry_spec g2 (TssSegment tss)) as (g3 & task & E3 & G3 & _ & K3); [rewrite F2, F1, gdt_new_free; lia |].
  assert (GDT = Done (g3, {| code_selector := code; tss_selector := task |})) as E.
  { unfold GDT. by rewrite E1, bind_Done_l, E2, bind_Done_l, Et, bind_Done_l, E3. }
  exists {| gdt_loaded := true; cs := code; tr := task |}. split.
  - exists g3, {| code_selector := code; tss_selector := task |}, tss. split_and!; try done. cbn.
    assert (gdt_entry g2 code = Some KernelCode) as Hc by (rewrite K2; [done | by rewrite G1]).
    rewrite K3; [done | by rewrite Hc].
  - intros s. unfold init. by rewrite (M_bind_lift _ _ _ _ E).
Qed.

End gdt.

(** ** A table as a list *)

Module ListTable.

(** The first entry is the null descriptor; a selector is eight times the
    place of its entry, and a task's descriptor takes a second place. *)
#[export] Instance List_segments : SegmentOps := {
  STACK := 0x200000;
  tss_new := replicate 7 0;
  gdt_table := list (option Descriptor);
  gdt_new := [None];
  add_entry g d :=
    let entry := match d with TssSegment _ => [Some d; None] | _ => [Some d] end in
    if (length g + length entry <=? 8)%nat then Done (g ++ entry, 8 * len g) else Panicked Explicit;
  gdt_entry g sel := mjoin (g !! Z.to_nat (sel / 8));
  gdt_free g := 8 - len g }.

#[export] Instance List_segments_laws : SegmentLaws.
Proof.
  split; cbn.
  - vm_compute. split_and!; [congruence | reflexivity | by left | by left].
  - done.
  - done.
  - intros g d Hd. set (entry := match d with TssSegment _ => [Some d; None] | _ => [Some d] end).
    assert (len entry = match d with TssSegment _ => 2 | _ => 1 end) as El by by destruct d.
    rewrite (proj2 (Nat.leb_le _ _)) by (unfold len in *; lia). eexists _, _. split; [reflexivity |].
    rewrite Z.mul_comm, Z.div_mul by done. unfold len. rewrite Nat2Z.id. split_and!.
    + rewrite lookup_app_r, Nat.sub_diag by lia. by destruct d.
    + rewrite length_app, <- El. unfold len. lia.
    + intros other [x Hx]. destruct (g !! Z.to_nat (other / 8)) as [y |] eqn:E; [| done].
      by rewrite (lookup_app_l_Some _ _ _ _ E).
Qed.

(** Code at the first place, the task at the third. *)
Example selectors :
  (r ← GDT (B := debug_build); Done r.2) = Done {| code_selector := 8; tss_selector := 24 |}.
Proof. reflexivity. Qed.

End ListTable.
