(* ===== verification/Interrupts.v ===== *)
(** * Interrupts

    [src/src/interrupts.rs]: replacing the interrupt descriptor table when a
    handler is installed, and the masks of the interrupt controllers; with
    [interrupts/keyboard.rs] and [interrupts/timer.rs].

    The descriptor table is the [x86_64] crate's: an interface ([Idt]) with the
    documented behaviour of indexing it.  Boxed tables live on a heap by
    address; the CPU uses whatever table was loaded last, so a freed table
    that is still loaded would be used after its end. *)

From stdpp Require Import base tactics list gmap sets numbers.
From Stdlib Require Import ZArith Lia.
From S2P Require Import Prelude Queue Gdt.

Local Open Scope Z_scope.

Definition PIC_1_OFFSET : Z := 0x20.
Definition PIC_2_OFFSET : Z := 0x28.

(** ** The timer *)

Definition FREQUENCY : Z := 100.
Definition MSTIME : Z := 1000 / FREQUENCY.
Definition DIVISOR : Z := cast 16 (1193182 / FREQUENCY).

(** The bytes [configure_pit] sends, with their ports. *)
Definition configure_pit : list (Z * Z) :=
  match to_be 2 DIVISOR with
  | [high; low] => [(0x43, 0x36); (0x40, low); (0x40, high)]
  | _ => []
  end.

(** The divisor the timer loads from the two bytes sent to its channel, low
    byte first. *)
Definition loaded_divisor (sent : list (Z * Z)) : Z :=
  match (λ x : Z * Z, x.2) <$> filter (λ x : Z * Z, x.1 = 0x40) sent with
  | [low; high] => low + 256 * high
  | _ => 0
  end.

(** The timer is set to its divisor, the largest whose frequency is not below
    the one the kernel counts with. *)
Lemma configure_pit_divisor :
  loaded_divisor configure_pit = DIVISOR
  ∧ 0 ≤ 1193182 - DIVISOR * FREQUENCY < FREQUENCY.
Proof. vm_compute. split; [reflexivity | split; congruence]. Qed.

(** ** The descriptor table *)

(** A handler is its address. *)
Class Idt (T : Type) := {
  idt_new : T;
  idt_get : T → Z → option Z;
  idt_stack : T → Z → option Z;
  idt_exception : T → Z → Z → option Z → T;
  idt_set : T → Z → Z → outcome T }.

(** [idt[line].set_handler_fn(f)]: every vector from 32 to 255 can be indexed.
    The fields of the exceptions hold a handler and may name a stack. *)
Class IdtLaws (T : Type) `{Idt T} : Prop := {
  idt_set_spec t line f :
    32 ≤ line < 256 →
    ∃ t', idt_set t line f = Done t' ∧ idt_get t' line = Some f
      ∧ (∀ other, other ≠ line → idt_get t' other = idt_get t other) ∧ (∀ v, idt_stack t' v = idt_stack t v);
  idt_new_spec v : idt_get idt_new v = None ∧ idt_stack idt_new v = None;
  idt_exception_spec t v f s w :
    idt_get (idt_exception t v f s) w = (if decide (w = v) then Some f else idt_get t w)
    ∧ idt_stack (idt_exception t v f s) w = (if decide (w = v) then s else idt_stack t w) }.

Inductive IDTStorage :=
  | Initial
  | Heaped (idt : Z).

#[export] Instance IDTStorage_eq_dec : EqDecision IDTStorage.
Proof. solve_decision. Defined.

Inductive InterruptIndex := Timer | Keyboard.

Definition as_u8 (i : InterruptIndex) : Z :=
  match i with Timer => PIC_1_OFFSET | Keyboard => PIC_1_OFFSET + 1 end.

(** The vectors of the exceptions that have a handler. *)
Definition BREAKPOINT : Z := 3.
Definition DOUBLE_FAULT : Z := 8.
Definition GENERAL_PROTECTION : Z := 13.
Definition PAGE_FAULT : Z := 14.

(** The addresses of the handlers. *)
Record Handlers := {
  breakpoint_handler : Z;
  double_fault_handler : Z;
  page_fault_handler : Z;
  general_protection_handler : Z;
  timer_interrupt_handler : Z;
  keyboard_interrupt_handler : Z }.

Section interrupts.
Context {T : Type} `{Idt T} {B : Build}.

Definition INITIAL_IDT (hs : Handlers) : outcome T :=
  let idt := idt_exception idt_new BREAKPOINT (breakpoint_handler hs) None in
  let idt := idt_exception idt DOUBLE_FAULT (double_fault_handler hs) (Some DOUBLE_FAULT_IST_INDEX) in
  let idt := idt_exception idt PAGE_FAULT (page_fault_handler hs) None in
  let idt := idt_exception idt GENERAL_PROTECTION (general_protection_handler hs) None in
  idt ← idt_set idt (as_u8 Timer) (timer_interrupt_handler hs);
  idt_set idt (as_u8 Keyboard) (keyboard_interrupt_handler hs).

(** [initial_idt] is the static table, [boxes] the heap, [storage] the value
    of the [IDT] lock, [loaded] what the CPU uses, [masks] what the two
    controllers hold, [pit] what was sent to the timer's ports. *)
Record Cpu := {
  initial_idt : T;
  boxes : gmap Z T;
  next_box : Z;
  storage : IDTStorage;
  loaded : IDTStorage;
  masks : Z * Z;
  pit : list (Z * Z) }.

Definition with_boxes (c : Cpu) (b : gmap Z T) (n : Z) : Cpu :=
  {| initial_idt := initial_idt c; boxes := b; next_box := n; storage := storage c; loaded := loaded c;
     masks := masks c; pit := pit c |}.
Definition with_storage (c : Cpu) (s : IDTStorage) : Cpu :=
  {| initial_idt := initial_idt c; boxes := boxes c; next_box := next_box c; storage := s; loaded := loaded c;
     masks := masks c; pit := pit c |}.
Definition with_loaded (c : Cpu) (s : IDTStorage) : Cpu :=
  {| initial_idt := initial_idt c; boxes := boxes c; next_box := next_box c; storage := storage c; loaded := s;
     masks := masks c; pit := pit c |}.
Definition with_masks (c : Cpu) (m : Z * Z) : Cpu :=
  {| initial_idt := initial_idt c; boxes := boxes c; next_box := next_box c; storage := storage c;
     loaded := loaded c; masks := m; pit := pit c |}.

Definition send_pit (c : Cpu) (sent : list (Z * Z)) : Cpu :=
  {| initial_idt := initial_idt c; boxes := boxes c; next_box := next_box c; storage := storage c;
     loaded := loaded c; masks := masks c; pit := pit c ++ sent |}.

(** The table a storage refers to; a box that is gone is not defined. *)
Definition table_of (c : Cpu) (s : IDTStorage) : option T :=
  match s with Initial => Some (initial_idt c) | Heaped p => boxes c !! p end.

(** [IDTStorage::idt] *)
Definition storage_idt (s : IDTStorage) : M Cpu T := fun c =>
  match table_of c s with Some t => Done (c, t) | None => Panicked Undefined end.

(** [IDTStorage::new] *)
Definition storage_new (t : T) : M Cpu IDTStorage := fun c =>
  Done (with_boxes c (<[next_box c := t]> (boxes c)) (next_box c + 1), Heaped (next_box c)).

(** [IDTStorage::load] *)
Definition storage_load (s : IDTStorage) : M Cpu unit := fun c =>
  match table_of c s with Some _ => Done (with_loaded c s, tt) | None => Panicked Undefined end.

(** [Drop for IDTStorage] *)
Definition storage_drop (s : IDTStorage) : M Cpu unit := fun c =>
  match s with
  | Initial => Done (c, tt)
  | Heaped p =>
      match boxes c !! p with
      | Some _ => Done (with_boxes c (delete p (boxes c)) (next_box c), tt)
      | None => Panicked Undefined
      end
  end.

(** The masks once [irq_line] is unmasked. *)
Definition unmask (m : Z * Z) (irq_line : Z) : Z * Z :=
  if irq_line <? 8 then (Z.land m.1 (not_w 8 (shl_w 8 1 irq_line)), m.2)
  else if irq_line <? 16 then (m.1, Z.land m.2 (not_w 8 (shl_w 8 1 (irq_line - 8))))
  else m.

Definition set_interrupt (line entry : Z) : M Cpu unit :=
  current ← gets storage;
  n_idt ← storage_idt current;
  n_idt ← lift (idt_set n_idt line entry);
  new_storage ← storage_new n_idt;
  old_idt ← gets storage;
  _ ← modify (λ c, with_storage c new_storage);
  _ ← storage_load new_storage;
  prev_mask ← gets masks;
  irq_line ← lift (sub_w 64 line PIC_1_OFFSET);
  _ ← modify (λ c, with_masks c (unmask prev_mask irq_line));
  storage_drop old_idt.

Definition init_idt : M Cpu unit :=
  current ← gets storage;
  _ ← storage_load current;
  modify (λ c, send_pit c configure_pit).

(** ** What the CPU uses *)

(** The table in use is live and the stored one; the heap holds nothing else. *)
Record cpu_inv (c : Cpu) : Prop := {
  ci_loaded : loaded c = storage c;
  ci_table : is_Some (table_of c (storage c));
  ci_boxes : ∀ p, is_Some (boxes c !! p) → storage c = Heaped p;
  ci_fresh : ∀ p, next_box c ≤ p → boxes c !! p = None;
  ci_masks : byte (masks c).1 ∧ byte (masks c).2 }.

(** The handler the CPU calls for a vector. *)
Definition active (c : Cpu) (line : Z) : option Z :=
  table_of c (loaded c) ≫= λ t, idt_get t line.

(** Whether the controllers let an interrupt line through. *)
Definition unmasked (c : Cpu) (irq : Z) : bool :=
  negb (if irq <? 8 then Z.testbit (masks c).1 irq else Z.testbit (masks c).2 (irq - 8)).

Lemma testbit_unset k i : 0 ≤ k < 8 → 0 ≤ i < 8 → Z.testbit (not_w 8 (shl_w 8 1 k)) i = negb (i =? k).
Proof.
  intros Hk Hi.
  assert (k = 0 ∨ k = 1 ∨ k = 2 ∨ k = 3 ∨ k = 4 ∨ k = 5 ∨ k = 6 ∨ k = 7) as HK by lia.
  assert (i = 0 ∨ i = 1 ∨ i = 2 ∨ i = 3 ∨ i = 4 ∨ i = 5 ∨ i = 6 ∨ i = 7) as HI by lia.
  repeat (destruct HK as [-> | HK]; [repeat (destruct HI as [-> | HI]; [reflexivity |]); subst; reflexivity |]).
  subst k. repeat (destruct HI as [-> | HI]; [reflexivity |]). by subst.
Qed.

Lemma unmask_uint m k : byte m.1 ∧ byte m.2 → byte (unmask m k).1 ∧ byte (unmask m k).2.
Proof.
  intros [H1 H2]. unfold unmask. destruct (k <? 8), (k <? 16); cbn; split; try done;
    rewrite Z.land_comm; by apply uint_land.
Qed.

Lemma unmask_spec c m irq i :
  masks c = unmask m irq → 0 ≤ irq < 16 → 0 ≤ i < 16 →
  ∀ c0, masks c0 = m → unmasked c i = (unmasked c0 i || (i =? irq))%bool.
Proof.
  intros Hc Hirq Hi c0 H0. unfold unmasked. rewrite Hc, H0. unfold unmask.
  destruct (Z.ltb_spec irq 8), (Z.ltb_spec i 8); cbn [fst snd]; [| | |].
  - rewrite Z.land_spec, testbit_unset by lia. by rewrite negb_andb, negb_involutive.
  - replace (i =? irq) with false by (symmetry; apply Z.eqb_neq; lia). by rewrite orb_false_r.
  - replace (irq <? 16) with true by (symmetry; apply Z.ltb_lt; lia). cbn [fst snd].
    replace (i =? irq) with false by (symmetry; apply Z.eqb_neq; lia). by rewrite orb_false_r.
  - replace (irq <? 16) with true by (symmetry; apply Z.ltb_lt; lia). cbn [fst snd].
    rewrite Z.land_spec, testbit_unset by lia. rewrite negb_andb, negb_involutive. f_equal.
    destruct (Z.eqb_spec (i - 8) (irq - 8)), (Z.eqb_spec i irq); lia || done.
Qed.

Context `{!IdtLaws T}.

Lemma storage_drop_run c s :
  (∀ p, s = Heaped p → is_Some (boxes c !! p)) →
  storage_drop s c = Done (match s with Initial => c | Heaped p => with_boxes c (delete p (boxes c)) (next_box c) end, tt).
Proof. intros Hs. destruct s as [| p]; [done |]. cbn. by destruct (Hs p eq_refl) as [? ->]. Qed.

(** The box of the table in use is not the next one to be allocated. *)
Lemma old_box c q : cpu_inv c → storage c = Heaped q → q ≠ next_box c ∧ is_Some (boxes c !! q).
Proof.
  intros [_ [t Ht] _ Hf _] E. unfold table_of in Ht. rewrite E in Ht. split; [| by eexists].
  intros ->. by rewrite (Hf (next_box c)) in Ht by lia.
Qed.

(** Replacing the table in use by a new one leaves that one alone. *)
Lemma new_box_only c (t : T) :
  cpu_inv c →
  match storage c with
  | Initial => <[next_box c := t]> (boxes c)
  | Heaped q => delete q (<[next_box c := t]> (boxes c))
  end = {[next_box c := t]}.
Proof.
  intros Hinv. pose proof Hinv as [_ _ Hb _ _]. destruct (storage c) as [| q] eqn:Es.
  - assert (boxes c = ∅) as ->; [| apply insert_empty]. apply map_empty. intros q.
    destruct (boxes c !! q) eqn:E; [| done]. by specialize (Hb q ltac:(by eexists)).
  - destruct (old_box c q Hinv Es) as [Hne _]. rewrite delete_insert_ne by done.
    assert (delete q (boxes c) = ∅) as ->; [| apply insert_empty]. apply map_empty. intros r.
    destruct (decide (r = q)) as [-> |]; [apply lookup_delete_eq |].
    rewrite lookup_delete_ne by done. destruct (boxes c !! r) eqn:E; [| done].
    specialize (Hb r ltac:(by eexists)). congruence.
Qed.

Lemma set_interrupt_run c line f :
  cpu_inv c → 32 ≤ line < 256 →
  ∃ c', set_interrupt line f c = Done (c', tt) ∧ cpu_inv c'
    ∧ active c' line = Some f ∧ (∀ other, other ≠ line → active c' other = active c other)
    ∧ masks c' = unmask (masks c) (line - 32) ∧ dom (boxes c') = {[next_box c]}.
Proof.
  intros Hinv Hline. pose proof Hinv as [Hl [t Ht] Hb Hf Hm].
  destruct (idt_set_spec t line f Hline) as (t' & Hset & Hget & Hother & _).
  assert (sub_w 64 line PIC_1_OFFSET = Done (line - 32)) as Hsub
    by (apply arith_in; unfold uint, PIC_1_OFFSET; lia).
  set (p := next_box c). pose proof (Hf p ltac:(lia)) as Hp.
  set (b1 := <[p := t']> (boxes c)).
  assert (∀ q, storage c = Heaped q → q ≠ p ∧ is_Some (b1 !! q)) as Hold.
  { intros q E. destruct (old_box c q Hinv E) as [Hne Hq]. unfold b1. by rewrite lookup_insert_ne. }
  set (b' := match storage c with Initial => b1 | Heaped q => delete q b1 end).
  pose proof (new_box_only c t' Hinv) as Eb. fold p b1 b' in Eb.
  exists {| initial_idt := initial_idt c; boxes := b'; next_box := p + 1; storage := Heaped p;
            loaded := Heaped p; masks := unmask (masks c) (line - 32);
            pit := pit c |}.
  split.
  { unfold set_interrupt. rewrite (M_bind_run _ _ _ _ _ eq_refl).
    erewrite M_bind_run; last (unfold storage_idt; by rewrite Ht).
    rewrite (M_bind_lift _ _ _ _ Hset), !(M_bind_run _ _ _ _ _ eq_refl).
    erewrite M_bind_run; last first.
    { unfold storage_load. cbn. fold p. rewrite lookup_insert_eq. reflexivity. }
    rewrite (M_bind_run _ _ _ _ _ eq_refl).
    rewrite (M_bind_lift _ _ _ _ Hsub), (M_bind_run _ _ _ _ _ eq_refl).
    cbn [storage with_boxes]. rewrite storage_drop_run.
    - unfold b', b1, p. destruct (storage c); reflexivity.
    - intros q E. cbn. by apply Hold. }
  rewrite Eb. split_and!.
  - split; cbn; try done.
    + rewrite lookup_singleton_eq. by eexists.
    + intros q [? Hq]. apply lookup_singleton_Some in Hq as [-> _]. done.
    + intros q Hq. apply lookup_singleton_ne. lia.
    + by apply unmask_uint.
  - unfold active. cbn. rewrite lookup_singleton_eq. cbn. done.
  - intros other Ho. unfold active. cbn. rewrite lookup_singleton_eq, Hl, Ht. cbn. by apply Hother.
  - done.
  - cbn. apply dom_singleton_L.
Qed.

(** The table the kernel starts with has exactly these six handlers, and only
    the double fault runs on a stack of its own. *)
Lemma initial_idt_spec (hs : Handlers) :
  ∃ t, INITIAL_IDT hs = Done t
    ∧ (∀ v, idt_get t v = ({[BREAKPOINT := breakpoint_handler hs; DOUBLE_FAULT := double_fault_handler hs;
         PAGE_FAULT := page_fault_handler hs; GENERAL_PROTECTION := general_protection_handler hs;
         0x20 := timer_interrupt_handler hs; 0x21 := keyboard_interrupt_handler hs]} : gmap Z Z) !! v)
    ∧ (∀ v, idt_stack t v = if decide (v = DOUBLE_FAULT) then Some 0 else None).
Proof.
  unfold INITIAL_IDT. set (t0 := idt_exception _ GENERAL_PROTECTION _ _).
  destruct (idt_set_spec t0 (as_u8 Timer) (timer_interrupt_handler hs) ltac:(unfold as_u8, PIC_1_OFFSET; lia)) as (t1 & -> & G1 & O1 & S1).
  cbn [mbind outcome_bind].
  destruct (idt_set_spec t1 (as_u8 Keyboard) (keyboard_interrupt_handler hs) ltac:(unfold as_u8, PIC_1_OFFSET; lia)) as (t2 & -> & G2 & O2 & S2).
  exists t2. split; [done |]. cbn [as_u8] in *. unfold PIC_1_OFFSET in *. split; intros v.
  - destruct (decide (v = 0x20 + 1)) as [-> | ?]; [by rewrite G2 |]. rewrite O2 by done.
    destruct (decide (v = 0x20)) as [-> | ?]; [by rewrite G1 |]. rewrite O1 by done.
    unfold t0. rewrite !(fun t v f s w => proj1 (idt_exception_spec t v f s w)), (proj1 (idt_new_spec v)).
    unfold BREAKPOINT, DOUBLE_FAULT, PAGE_FAULT, GENERAL_PROTECTION.
    rewrite !lookup_insert, lookup_singleton. repeat case_decide; done || lia.
  - rewrite S2, S1. unfold t0. rewrite !(fun t v f s w => proj2 (idt_exception_spec t v f s w)), (proj2 (idt_new_spec v)).
    unfold BREAKPOINT, DOUBLE_FAULT, PAGE_FAULT, GENERAL_PROTECTION. repeat case_decide; done || lia.
Qed.

(** Installing handlers one after the other. *)
Fixpoint set_interrupts (calls : list (Z * Z)) : M Cpu unit :=
  match calls with
  | [] => mret tt
  | (line, f) :: calls => _ ← set_interrupt line f; set_interrupts calls
  end.

(** The handler installed last for a line. *)
Fixpoint last_handler (calls : list (Z * Z)) (line : Z) : option Z :=
  match calls with
  | [] => None
  | (l, f) :: calls =>
      match last_handler calls line with
      | Some g => Some g
      | None => if decide (l = line) then Some f else None
      end
  end.

(** C29: handlers can be installed at any time.  From a consistent state, any
    sequence of handlers for controller lines can be installed: the CPU ends
    up with a live table in which each line has the handler installed for it
    last, all other vectors as before; exactly the lines installed are
    unmasked in addition; and one table at most is on the heap, the one in
    use. *)
Theorem set_interrupts_spec (c : Cpu) (calls : list (Z * Z)) :
  cpu_inv c → Forall (λ x, 32 ≤ x.1 < 48) calls →
  ∃ c', set_interrupts calls c = Done (c', tt) ∧ cpu_inv c' ∧ (size (boxes c') ≤ 1)%nat
    ∧ (∀ line, active c' line = match last_handler calls line with Some f => Some f | None => active c line end)
    ∧ (∀ irq, 0 ≤ irq < 16 → unmasked c' irq = (unmasked c irq || bool_decide (irq + 32 ∈ map fst calls))%bool).
Proof.
  intros Hc HF. revert c Hc. induction HF as [| [line f] calls Hline _ IH]; intros c Hc; cbn [set_interrupts].
  - exists c. split_and!; try done.
    + destruct (storage c) as [| p] eqn:Es.
      * assert (boxes c = ∅) as ->; [| rewrite map_size_empty; lia]. apply map_empty. intros q. destruct (boxes c !! q) eqn:E; [| done].
        pose proof (ci_boxes _ Hc q ltac:(by eexists)). congruence.
      * assert (dom (boxes c) ⊆ {[p]}) as Hd.
        { intros q Hq. apply elem_of_dom, (ci_boxes _ Hc) in Hq. apply elem_of_singleton. congruence. }
        rewrite <- size_dom. apply subseteq_size in Hd. by rewrite size_singleton in Hd.
    + intros irq _. by rewrite orb_false_r.
  - cbn [fst] in Hline. destruct (set_interrupt_run c line f Hc ltac:(lia)) as (c1 & Hr & Hc1 & Ha & Ho & Hm & _).
    destruct (IH c1 Hc1) as (c2 & Hr2 & Hc2 & Hs & Ha2 & Hu2).
    exists c2. rewrite (M_bind_run _ _ _ _ _ Hr). split_and!; try done.
    + intros l. rewrite Ha2. cbn [last_handler]. destruct (last_handler calls l); [done |].
      destruct (decide (line = l)) as [-> |]; [done |]. by apply Ho.
    + intros irq Hirq. rewrite (Hu2 irq Hirq), (unmask_spec c1 (masks c) (line - 32) irq Hm ltac:(lia) Hirq c eq_refl).
      rewrite <- orb_assoc. f_equal. cbn [map fst].
      destruct (Z.eqb_spec irq (line - 32)); cbn.
      * symmetry. apply bool_decide_eq_true, elem_of_cons. left. lia.
      * apply bool_decide_ext. rewrite elem_of_cons. split; [by right | intros [? | ?]; [lia | done]].
Qed.

End interrupts.

(** A table that can be indexed everywhere. *)
Abbreviation map_idt := (gmap Z (Z * option Z)).

#[export] Instance Map_idt : Idt map_idt := {|
  idt_new := ∅;
  idt_get t v := fst <$> t !! v;
  idt_stack t v := t !! v ≫= snd;
  idt_exception t v f s := <[v := (f, s)]> t;
  idt_set t line f := Done (<[line := (f, t !! line ≫= snd)]> t) |}.

#[export] Instance Map_idt_laws : IdtLaws map_idt.
Proof.
  split.
  - intros t line f _. eexists. split; [reflexivity |]. cbn. split; [by rewrite lookup_insert_eq |].
    split; [intros; by rewrite lookup_insert_ne |]. intros v. rewrite lookup_insert.
    case_decide; [by subst |]. done.
  - intros v. cbn. by rewrite lookup_empty.
  - intros t v f s w. cbn. rewrite lookup_insert. repeat case_decide; done || congruence.
Qed.

(** After [init_idt], with the timer and keyboard handlers and all lines
    masked. *)
Definition booted_cpu : Cpu (T := map_idt) :=
  {| initial_idt := {[0x20 := (0x1000, None); 0x21 := (0x2000, None)]}; boxes := ∅; next_box := 1; storage := Initial;
     loaded := Initial; masks := (255, 255); pit := configure_pit |}.

Lemma booted_cpu_inv : cpu_inv booted_cpu.
Proof. split; cbn; try done. - intros p [? Hp]. by apply lookup_empty_Some in Hp. Qed.

Lemma set_interrupts_spec_witness :
  ∃ c', set_interrupts (B := debug_build) [(0x2b, 0x3000); (0x21, 0x4000); (0x2b, 0x5000)] booted_cpu = Done (c', tt)
    ∧ cpu_inv c' ∧ (size (boxes c') ≤ 1)%nat
    ∧ (∀ line, active c' line = match last_handler [(0x2b, 0x3000); (0x21, 0x4000); (0x2b, 0x5000)] line with
                                | Some f => Some f | None => active booted_cpu line end)
    ∧ (∀ irq, 0 ≤ irq < 16 →
         unmasked c' irq = (unmasked booted_cpu irq || bool_decide (irq + 32 ∈ [0x2b; 0x21; 0x2b]))%bool).
Proof.
  apply (set_interrupts_spec (B := debug_build) booted_cpu [(0x2b, 0x3000); (0x21, 0x4000); (0x2b, 0x5000)]).
  - apply booted_cpu_inv.
  - repeat constructor; cbn; lia.
Defined.

(** ** The keyboard *)

Definition key_down (scancode : Z) : bool := Z.land scancode 0x80 =? 0.

(** The characters of the three rows of letters, from their first code. *)
Definition key_row (first : Z) (row : list Z) (code : Z) : option Z :=
  if (first <=? code) && (code <? first + len row) then row !! Z.to_nat (code - first) else None.

(** The key of a scancode, as the handler computes it: by the low four bits. *)
Definition key (scancode : Z) : option Z :=
  let code := Z.land scancode 0x0f in
  match key_row 2 [49; 50; 51; 52; 53; 54; 55; 56; 57; 48] code with
  | Some c => Some c
  | None =>
      match key_row 16 [113; 119; 101; 114; 116; 122; 117; 105; 111; 112] code with
      | Some c => Some c
      | None =>
          match key_row 30 [97; 115; 100; 102; 103; 104; 106; 107; 108] code with
          | Some c => Some c
          | None => key_row 44 (replicate 7 121) code
          end
      end
  end.

(** No key is ever a letter: of every scancode only the low four bits count,
    and they select a digit or nothing. *)
Lemma keyboard_digits_only scancode c : key scancode = Some c → 48 ≤ c ≤ 57.
Proof.
  unfold key. assert (0 ≤ Z.land scancode 0x0f < 16) as Hc.
  { change 15 with (Z.ones 4). rewrite Z.land_ones by lia. apply Z.mod_pos_bound. lia. }
  generalize dependent (Z.land scancode 0x0f). intros code Hc Hk.
  assert (∀ first row, 16 ≤ first → key_row first row code = None) as Hnone.
  { intros first row Hf. unfold key_row. by replace (first <=? code) with false by (symmetry; apply Z.leb_gt; lia). }
  rewrite (Hnone 16), (Hnone 30), (Hnone 44) in Hk by lia. destruct (key_row 2 _ code) eqn:E; [| done]. injection Hk as ->.
  unfold key_row in E. destruct (_ && _); [| done]. apply list_elem_of_lookup_2 in E.
  rewrite !elem_of_cons, elem_of_nil in E. lia.
Qed.

(** ** The general protection fault *)

(** External, table and index, as the handler prints them from the error code. *)
Definition gp_fields (error_code : Z) : bool * Z * Z :=
  (negb (Z.land error_code 1 =? 0), Z.shiftr (Z.land error_code 3) 1, Z.shiftr (Z.land error_code 0xfff8) 3).

(** A selector error code: whether the cause was external, the two bits of the
    table and the index in it. *)
Definition selector_error_code (external : bool) (tbl index : Z) : Z :=
  Z.b2z external + 2 * tbl + 8 * index.

(** The external flag and the index are right; of the table only the low bit
    is shown. *)
Lemma gp_fields_spec (external : bool) (tbl index : Z) :
  uint 2 tbl → uint 13 index →
  gp_fields (selector_error_code external tbl index) = (external, tbl mod 2, index).
Proof.
  intros Ht Hi. unfold gp_fields, selector_error_code, uint in *.
  assert (0xfff8 = Z.shiftl (Z.ones 13) 3) as -> by reflexivity.
  change 1 with (Z.ones 1) at 1. change 3 with (Z.ones 2) at 1. rewrite !Z.land_ones by lia.
  rewrite Z.shiftr_land, Z.shiftr_shiftl_l, Z.sub_diag, Z.shiftl_0_r, Z.land_ones by lia.
  rewrite !Z.shiftr_div_pow2 by lia.
  change (2 ^ 1) with 2 in *. change (2 ^ 2) with 4 in *. change (2 ^ 3) with 8. change (2 ^ 13) with 8192 in *.
  assert (Z.b2z external = 0 ∨ Z.b2z external = 1) as Hb by (destruct external; auto).
  f_equal; [f_equal |].
  - destruct (Z.eqb_spec ((Z.b2z external + 2 * tbl + 8 * index) mod 2) 0);
      destruct external; cbn [Z.b2z negb] in *; try done; Z.to_euclidean_division_equations; lia.
  - Z.to_euclidean_division_equations. lia.
  - Z.to_euclidean_division_equations. lia.
Qed.
