(* ===== verification/Logging.v ===== *)
(** * Logging

    [src/src/extensions/logging.rs] and [logging/level.rs]: the levels and
    their order, the subscriber that turns tracing calls into messages, and
    the task that writes them out with the name of the current span.

    The two halves meet in a queue.  The [tracing] crate decides when the
    subscriber is called: it asks [enabled] before it makes a span or reports
    an event, and a thread leaves the spans it entered in the reverse order. *)

From stdpp Require Import base tactics list gmap strings numbers.
From Stdlib Require Import ZArith Lia.
From S2P Require Import Prelude Queue.

Local Open Scope Z_scope.

(** ** Levels *)

Inductive LogLevel := Debug | Trace | Info | Warn | Error.

#[export] Instance LogLevel_eq_dec : EqDecision LogLevel.
Proof. solve_decision. Defined.

(** [PartialOrd::partial_cmp], its arms in order. *)
Definition partial_cmp (a b : LogLevel) : option comparison :=
  if decide (a = b) then Some Eq
  else
    match a, b with
    | Trace, _ => Some Lt
    | Debug, Trace => Some Gt
    | Debug, _ => Some Lt
    | Info, Trace => Some Gt
    | Info, Debug => Some Gt
    | Info, _ => Some Lt
    | Warn, Trace => Some Gt
    | Warn, Debug => Some Gt
    | Warn, Info => Some Gt
    | Warn, _ => Some Lt
    | Error, Trace => Some Gt
    | Error, Debug => Some Gt
    | Error, Info => Some Gt
    | Error, Warn => Some Gt
    | Error, _ => Some Lt
    end.

(** [a >= b] *)
Definition level_ge (a b : LogLevel) : bool :=
  match partial_cmp a b with Some Gt | Some Eq => true | _ => false end.

(** [Display] *)
Definition level_letter (l : LogLevel) : string :=
  match l with Debug => "D" | Trace => "T" | Info => "I" | Warn => "W" | Error => "E" end.

(** How serious a level is. *)
Definition severity (l : LogLevel) : Z :=
  match l with Trace => 0 | Debug => 1 | Info => 2 | Warn => 3 | Error => 4 end.

(** The comparison is the order of severity, so it is total. *)
Lemma partial_cmp_severity a b : partial_cmp a b = Some (severity a ?= severity b).
Proof. by destruct a, b. Qed.

Lemma level_ge_severity a b : level_ge a b = (severity b <=? severity a).
Proof. by destruct a, b. Qed.

(** ** The subscriber *)

Inductive SubscriberMessage :=
  | NewSpan (id : Z) (name : string)
  | Enter (id : Z)
  | Exit (id : Z)
  | Event (content : string) (level : LogLevel).

Section logging.
Context {Q : Type → Type} `{QueueLaws Q} `{!UnboundedQueue Q}.

Record SerialSubscriber := {
  writer : Q SubscriberMessage;
  id_counter : Z;
  level : LogLevel }.

Definition send (m : SubscriberMessage) : M SerialSubscriber unit := fun s =>
  let '(q, r) := q_try_enqueue (writer s) m in
  match r with
  | Ok _ => Done ({| writer := q; id_counter := id_counter s; level := level s |}, tt)
  | Err _ => Panicked UnwrapFailed
  end.

Definition enabled (s : SerialSubscriber) (m_level : LogLevel) : bool := level_ge m_level (level s).

(** [tracing::span::Id::from_u64] refuses zero. *)
Definition id_from_u64 (v : Z) : outcome Z := if v =? 0 then Panicked UnwrapFailed else Done v.

Definition new_span (name : string) : M SerialSubscriber Z :=
  v ← (fun s => Done ({| writer := writer s; id_counter := (id_counter s + 1) mod 2 ^ 64; level := level s |},
                      id_counter s));
  id ← lift (id_from_u64 v);
  _ ← send (NewSpan id name);
  mret id.

Definition event (content : string) (l : LogLevel) : M SerialSubscriber unit := send (Event content l).
Definition enter (span : Z) : M SerialSubscriber unit := send (Enter span).
Definition exit (span : Z) : M SerialSubscriber unit := send (Exit span).

(** [serial], given the queue *)
Definition serial (q : Q SubscriberMessage) (l : LogLevel) : SerialSubscriber :=
  {| writer := q; id_counter := 1; level := l |}.

(** ** The writer *)

Record Logger := {
  span_names : gmap Z string;
  current_name : list string;   (** the vector, its last element first *)
  printed : list string }.

Definition logger_new : Logger := {| span_names := ∅; current_name := []; printed := [] |}.

Definition format_line (l : LogLevel) (name content : string) : string :=
  "[" +:+ level_letter l +:+ "][" +:+ name +:+ "] " +:+ content.

(** One turn of the loop of [logger]. *)
Definition log_entry (entry : SubscriberMessage) (g : Logger) : Logger :=
  match entry with
  | NewSpan id name =>
      {| span_names := <[id := name]> (span_names g); current_name := current_name g; printed := printed g |}
  | Enter id =>
      match span_names g !! id with
      | Some name =>
          {| span_names := span_names g; current_name := name :: current_name g; printed := printed g |}
      | None => g
      end
  | Exit id =>
      match span_names g !! id with
      | None => g
      | Some exit_name =>
          match current_name g with
          | last :: rest =>
              if decide (last = exit_name)
              then {| span_names := span_names g; current_name := rest; printed := printed g |}
              else g
          | [] => g
          end
      end
  | Event content l =>
      let name := match current_name g with last :: _ => last | [] => "" end in
      {| span_names := span_names g; current_name := current_name g;
         printed := printed g ++ [format_line l name content] |}
  end.

Definition logger (entries : list SubscriberMessage) (g : Logger) : Logger := foldl (λ g e, log_entry e g) g entries.

(** ** What a program logs *)

(** A program names its spans by their position among those it has made.  A
    span whose level is not enabled gets no id: [tracing] asks [enabled] before
    it makes one, and entering or leaving a span without an id does nothing. *)
Inductive Action :=
  | MakeSpan (l : LogLevel) (name : string)
  | InSpan (span : nat)
  | OutSpan (span : nat)
  | Log (l : LogLevel) (content : string).

Record Program := {
  subscriber : SerialSubscriber;
  spans : list (option Z) }.

Definition on_subscriber {A} (k : M SerialSubscriber A) : M Program A :=
  zoom subscriber (λ s p, {| subscriber := s; spans := spans p |}) k.

Definition add_span (id : option Z) : M Program unit :=
  modify (λ p, {| subscriber := subscriber p; spans := spans p ++ [id] |}).

Definition with_span (span : nat) (k : Z → M SerialSubscriber unit) : M Program unit := fun p =>
  match spans p !! span with
  | Some (Some id) => on_subscriber (k id) p
  | _ => Done (p, tt)
  end.

Definition perform (a : Action) : M Program unit := fun p =>
  match a with
  | MakeSpan l name =>
      if enabled (subscriber p) l then (id ← on_subscriber (new_span name); add_span (Some id)) p
      else add_span None p
  | InSpan span => with_span span enter p
  | OutSpan span => with_span span exit p
  | Log l content =>
      if enabled (subscriber p) l then on_subscriber (event content l) p else Done (p, tt)
  end.

Fixpoint perform_all (l : list Action) : M Program unit :=
  match l with
  | [] => mret tt
  | a :: l => _ ← perform a; perform_all l
  end.

(** The lines a program should print: each event that is serious enough, with
    the innermost open span that is.  [names] are the spans made so far, a
    name for those that are enabled; [None] when the program leaves a span it
    is not in, or uses one that was never made. *)
Definition open_names (names : list (option string)) (open : list nat) : list string :=
  omap (λ k, mjoin (names !! k)) open.

Fixpoint expected (min : LogLevel) (names : list (option string)) (open : list nat) (l : list Action) :
    option (list string) :=
  match l with
  | [] => Some []
  | MakeSpan lv name :: l =>
      expected min (names ++ [if severity min <=? severity lv then Some name else None]) open l
  | InSpan k :: l =>
      match names !! k with Some _ => expected min names (k :: open) l | None => None end
  | OutSpan k :: l =>
      match open with
      | top :: open => if (k =? top)%nat then expected min names open l else None
      | [] => None
      end
  | Log lv content :: l =>
      let name := match open_names names open with [] => "" | name :: _ => name end in
      match expected min names open l with
      | Some lines =>
          Some (if severity min <=? severity lv then format_line lv name content :: lines else lines)
      | None => None
      end
  end.

(** ** The two halves together *)

Lemma send_run s m :
  q_is_closed (writer s) = false →
  ∃ s', send m s = Done (s', tt) ∧ q_items (writer s') = q_items (writer s) ++ [m]
    ∧ q_is_closed (writer s') = false ∧ id_counter s' = id_counter s ∧ level s' = level s.
Proof.
  intros Ho. unfold send. destruct (enqueue_ok _ (writer s) m Ho (always_room _ _)) as (Hr & Hi & Hc).
  destruct (q_try_enqueue (writer s) m) as [q r]. simpl in *. subst r. by eexists.
Qed.

(** The id of a span stands for its name, in the writer. *)
Definition stands_for (s : SerialSubscriber) (g : Logger) (id : option Z) (name : option string) : Prop :=
  match id, name with
  | Some id, Some name => 1 ≤ id < id_counter s ∧ span_names g !! id = Some name
  | None, None => True
  | _, _ => False
  end.

(** The writer has read everything the subscriber sent and knows the spans. *)
Record in_step (p : Program) (g : Logger) (names : list (option string)) (open : list nat) : Prop := {
  is_open : q_is_closed (writer (subscriber p)) = false;
  is_count : 1 ≤ id_counter (subscriber p) ≤ len names + 1;
  is_spans : Forall2 (stands_for (subscriber p) g) (spans p) names;
  is_made : Forall (λ k, is_Some (names !! k)) open;
  is_current : current_name g = open_names names open }.

(** A message is sent, if at all, and the writer handles it. *)
Definition logs (k : M Program unit) (p : Program) (g : Logger) (names' : list (option string)) (open' : list nat)
    (lines : list string) : Prop :=
  ∃ p' ms, k p = Done (p', tt) ∧ q_items (writer (subscriber p')) = q_items (writer (subscriber p)) ++ ms
    ∧ in_step p' (logger ms g) names' open' ∧ printed (logger ms g) = printed g ++ lines
    ∧ level (subscriber p') = level (subscriber p).

Lemma logs_nothing k p g names open :
  k p = Done (p, tt) → in_step p g names open → logs k p g names open [].
Proof. intros Hk Hp. exists p, []. split_and!; [done | by rewrite app_nil_r | done | by rewrite app_nil_r | done]. Qed.

(** A message that makes no span. *)
Lemma logs_message p g names open m open' lines :
  in_step p g names open → span_names (log_entry m g) = span_names g →
  Forall (λ k, is_Some (names !! k)) open' → current_name (log_entry m g) = open_names names open' →
  printed (log_entry m g) = printed g ++ lines →
  logs (on_subscriber (send m)) p g names open' lines.
Proof.
  intros [Ho Hc Hs Hm Hcur] Hsn Hm' Hcur' Hpr. destruct (send_run _ m Ho) as (s' & Hr & Hq & Hcl & Hid & Hl).
  exists {| subscriber := s'; spans := spans p |}, [m]. split; [unfold on_subscriber, zoom; by rewrite Hr |].
  change (logger [m] g) with (log_entry m g). split_and!; try done.
  split; cbn [subscriber spans]; try done; [by rewrite Hid |]. eapply Forall2_impl; [| exact Hs].
  intros [id |] [name |]; cbn [stands_for]; try done. by rewrite Hid, Hsn.
Qed.

Lemma lookup_made (names : list (option string)) k x :
  is_Some (names !! k) → (names ++ [x]) !! k = names !! k.
Proof. intros Hk%lookup_lt_is_Some. by apply lookup_app_l. Qed.

(** A new span does not change those there are. *)
Lemma open_names_new names x open :
  Forall (λ k, is_Some (names !! k)) open →
  open_names (names ++ [x]) open = open_names names open ∧ Forall (λ k, is_Some ((names ++ [x]) !! k)) open.
Proof.
  unfold open_names. induction 1 as [| k open Hk _ [IH1 IH2]]; [done |]. cbn. rewrite IH1, lookup_made by done.
  split; [done |]. constructor; [by rewrite lookup_made | done].
Qed.

Lemma make_span_logs p g names open l name :
  in_step p g names open → len names + 2 < 2 ^ 64 →
  logs (perform (MakeSpan l name)) p g
    (names ++ [if severity (level (subscriber p)) <=? severity l then Some name else None]) open [].
Proof.
  intros [Ho Hc Hs Hm Hcur] Hb. unfold logs, perform, enabled. rewrite level_ge_severity.
  destruct (open_names_new names (if severity (level (subscriber p)) <=? severity l then Some name else None) open Hm)
    as [Hn Hm']. pose proof (len_app names [if severity (level (subscriber p)) <=? severity l then Some name else None]) as Hlen.
  change (len [_]) with 1 in Hlen. destruct (severity _ <=? severity l) eqn:Esev; last first.
  { exists {| subscriber := subscriber p; spans := spans p ++ [None] |}, [].
    split_and!; [done | by rewrite app_nil_r | | by rewrite app_nil_r | done].
    split; cbn [subscriber spans]; try done; [lia | by apply Forall2_app; [| constructor] | by rewrite Hn]. }
  set (s := subscriber p) in *. set (s1 := {| writer := writer s; id_counter := (id_counter s + 1) mod 2 ^ 64; level := level s |}).
  assert (id_counter s1 = id_counter s + 1) as Hc1 by (cbn; rewrite Z.mod_small; lia).
  destruct (send_run s1 (NewSpan (id_counter s) name) Ho) as (s' & Hr & Hq & Hcl & Hid & Hl).
  exists {| subscriber := s'; spans := spans p ++ [Some (id_counter s)] |}, [NewSpan (id_counter s) name].
  assert (new_span name s = Done (s', id_counter s)) as Hnew.
  { unfold new_span. rewrite (M_bind_run _ _ _ _ _ eq_refl). fold s1. unfold id_from_u64.
    replace (id_counter s =? 0) with false by (symmetry; apply Z.eqb_neq; lia).
    rewrite (M_bind_lift _ _ _ _ eq_refl). by rewrite (M_bind_run _ _ _ _ _ Hr). }
  split_and!; [| done | | by rewrite app_nil_r | done].
  { rewrite (M_bind_run _ _ _ {| subscriber := s'; spans := spans p |} (id_counter s)); [done |].
    unfold on_subscriber, zoom. fold s. by rewrite Hnew. }
  split; cbn [subscriber spans]; try done; [lia | | by rewrite Hn].
  apply Forall2_app.
  - eapply Forall2_impl; [| exact Hs]. intros [id |] [n |]; cbn [stands_for]; try done. intros [Hi Hlk].
    cbn. rewrite lookup_insert_ne by lia. split; [lia | done].
  - constructor; [| done]. cbn. rewrite lookup_insert_eq. split; [lia | done].
Qed.

(** The id a span has, and the name the writer has for it. *)
Lemma span_of p g names open k name :
  in_step p g names open → names !! k = Some name →
  match name with
  | Some name => ∃ id, spans p !! k = Some (Some id) ∧ span_names g !! id = Some name
  | None => spans p !! k = Some None
  end.
Proof.
  intros Hp Hk. destruct (Forall2_lookup_r _ _ _ _ _ (is_spans _ _ _ _ Hp) Hk) as (h & Hh & Hst).
  destruct h as [id |], name as [name |]; cbn [stands_for] in Hst; try done. destruct Hst. by exists id.
Qed.

Lemma in_span_logs p g names open k name :
  in_step p g names open → names !! k = Some name → logs (perform (InSpan k)) p g names (k :: open) [].
Proof.
  intros Hp Hk. pose proof (span_of p g names open k name Hp Hk) as Hs.
  assert (Forall (λ k, is_Some (names !! k)) (k :: open)) as Hm by (constructor; [by eexists | apply Hp]).
  assert (perform (InSpan k) p = with_span k enter p) as Hperf by done.
  unfold logs. rewrite Hperf. unfold with_span. destruct name as [name |].
  - destruct Hs as (id & -> & Hid). apply (logs_message p g names open (Enter id)); try done; cbn [log_entry]; rewrite Hid; try done.
    + cbn. unfold open_names. cbn. rewrite Hk. cbn. f_equal. apply (is_current _ _ _ _ Hp).
    + cbn. by rewrite app_nil_r.
  - rewrite Hs. apply (logs_nothing (λ p, Done (p, tt))); [done |]. destruct Hp as [? ? ? ? Hcur]. split; try done.
    rewrite Hcur. unfold open_names. cbn. by rewrite Hk.
Qed.

Lemma out_span_logs p g names open k :
  in_step p g names (k :: open) → logs (perform (OutSpan k)) p g names open [].
Proof.
  intros Hp. destruct (Forall_cons_1 _ _ _ (is_made _ _ _ _ Hp)) as [[name Hk] Hm].
  pose proof (span_of p g names (k :: open) k name Hp Hk) as Hs. pose proof (is_current _ _ _ _ Hp) as Hcur.
  unfold open_names in Hcur. cbn in Hcur. rewrite Hk in Hcur. fold (open_names names open) in Hcur.
  assert (perform (OutSpan k) p = with_span k exit p) as Hperf by done.
  unfold logs. rewrite Hperf. unfold with_span. destruct name as [name |]; cbn in Hcur.
  - destruct Hs as (id & -> & Hid).
    assert (log_entry (Exit id) g
      = {| span_names := span_names g; current_name := open_names names open; printed := printed g |}) as Hx.
    { cbn [log_entry]. rewrite Hid, Hcur. by rewrite decide_True. }
    apply (logs_message p g names (k :: open) (Exit id)); rewrite ?Hx; try done. cbn. by rewrite app_nil_r.
  - rewrite Hs. apply (logs_nothing (λ p, Done (p, tt))); [done |]. destruct Hp. split; done.
Qed.

Lemma log_logs p g names open l content :
  in_step p g names open →
  logs (perform (Log l content)) p g names open
    (if severity (level (subscriber p)) <=? severity l
     then [format_line l (match open_names names open with [] => "" | name :: _ => name end) content] else []).
Proof.
  intros Hp. assert (perform (Log l content) p
    = if severity (level (subscriber p)) <=? severity l then on_subscriber (event content l) p else Done (p, tt)) as Hperf.
  { unfold perform, enabled. by rewrite level_ge_severity. }
  unfold logs. rewrite Hperf. destruct (severity _ <=? _); [| by apply (logs_nothing (λ p, Done (p, tt)))].
  pose proof Hp as [_ _ _ Hm Hcur]. apply (logs_message p g names open (Event content l)); try done.
  cbn. by rewrite Hcur.
Qed.

Lemma perform_all_logs l : ∀ p g names open lines,
  in_step p g names open → len names + 1 + len l < 2 ^ 64 →
  expected (level (subscriber p)) names open l = Some lines →
  ∃ p' ms, perform_all l p = Done (p', tt)
    ∧ q_items (writer (subscriber p')) = q_items (writer (subscriber p)) ++ ms
    ∧ printed (logger ms g) = printed g ++ lines.
Proof.
  induction l as [| a l IH]; intros p g names open lines Hp Hb He.
  { exists p, []. cbn in He. injection He as <-. by rewrite !app_nil_r. }
  rewrite (len_app [a] l : len (a :: l) = _) in Hb. change (len [a]) with 1 in Hb. pose proof (len_nonneg l).
  assert (∀ names1 open1 line1 lines1, logs (perform a) p g names1 open1 line1 → len names1 ≤ len names + 1 →
    expected (level (subscriber p)) names1 open1 l = Some lines1 → lines = line1 ++ lines1 →
    ∃ p' ms, perform_all (a :: l) p = Done (p', tt)
      ∧ q_items (writer (subscriber p')) = q_items (writer (subscriber p)) ++ ms
      ∧ printed (logger ms g) = printed g ++ lines) as Hstep.
  { intros names1 open1 line1 lines1 (p1 & m & Hr & Hq & Hp1 & Hpr & Hl) Hn He1 ->. rewrite <- Hl in He1.
    destruct (IH p1 (logger m g) names1 open1 lines1 Hp1 ltac:(lia) He1) as (p' & ms & Hr' & Hq' & Hpr').
    exists p', (m ++ ms). cbn [perform_all]. rewrite (M_bind_run _ _ _ _ _ Hr), Hr', Hq', Hq, app_assoc.
    split_and!; try done. unfold logger in *. by rewrite foldl_app, Hpr', Hpr, app_assoc. }
  destruct a as [lv name | k | k | lv content]; cbn [expected] in He.
  - eapply (Hstep _ open []); [apply make_span_logs; [done | lia] | rewrite len_app; done | done | done].
  - destruct (names !! k) as [name |] eqn:En; [| done].
    eapply (Hstep names (k :: open) []); [by eapply in_span_logs | lia | done | done].
  - destruct open as [| top open]; [done |]. destruct (Nat.eqb_spec k top) as [-> |]; [| done].
    eapply (Hstep names open []); [by apply out_span_logs | lia | done | done].
  - destruct (expected _ names open l) as [lines1 |] eqn:Ee; [| done]. injection He as <-.
    eapply (Hstep names open); [by apply log_logs | lia | done |]. by destruct (severity _ <=? _).
Qed.

(** C30: the log names the right span.  Whatever a program that enters and leaves
    its spans in a nested way does with [tracing], no call panics, and the
    task that reads the messages prints exactly the events of at least the
    subscriber's level, in order, each with the name of the innermost span of
    at least that level that was open when it happened. *)
Theorem logging_spec (q : Q SubscriberMessage) (min : LogLevel) (l : list Action) (lines : list string) :
  q_items q = [] → q_is_closed q = false → len l + 1 < 2 ^ 64 → expected min [] [] l = Some lines →
  ∃ p, perform_all l {| subscriber := serial q min; spans := [] |} = Done (p, tt)
    ∧ printed (logger (q_items (writer (subscriber p))) logger_new) = lines.
Proof.
  intros Hi Ho Hb He.
  destruct (perform_all_logs l {| subscriber := serial q min; spans := [] |} logger_new [] [] lines)
    as (p & ms & Hr & Hq & Hp); try done.
  { change (len []) with 0. lia. }
  exists p. split; [done |]. rewrite Hq. cbn [subscriber writer serial]. by rewrite Hi.
Qed.

End logging.

(** A task's span that is entered twice, with others inside, one of which is
    below the level. *)
Definition sample_actions : list Action :=
  [ Log Info "boot"; MakeSpan Info "network_handler"; MakeSpan Trace "details"; MakeSpan Info "ping"; InSpan 0;
    Log Debug "Raw-Packet"; InSpan 1; Log Warn "odd"; OutSpan 1;
    InSpan 2; Log Trace "hidden"; Log Info "Received Ping"; OutSpan 2; Log Warn "late"; OutSpan 0;
    InSpan 2; Log Error "gone" ].

Lemma logging_spec_witness :
  ∃ p, perform_all sample_actions {| subscriber := serial (mk_jiffy [] false) Debug; spans := [] |} = Done (p, tt)
    ∧ printed (logger (q_items (writer (subscriber p))) logger_new)
      = ["[I][] boot"; "[D][network_handler] Raw-Packet"; "[W][network_handler] odd"; "[I][ping] Received Ping";
         "[W][network_handler] late"; "[E][ping] gone"].
Proof.
  apply (logging_spec (Q := jiffy_queue) (mk_jiffy [] false) Debug sample_actions); reflexivity.
Defined.
