(* ===== verification/Video.v ===== *)
(** * The frame buffer

    [src/src/video.rs]: drawing a pixel into the frame buffer the bootloader
    set up.  The buffer and its description are the bootloader's. *)

From stdpp Require Import base tactics list numbers.
From Stdlib Require Import ZArith Lia.
From S2P Require Import Prelude Queue.

Local Open Scope Z_scope.

Record FrameBufferInfo := { byte_len : Z; horizontal_resolution : Z; bytes_per_pixel : Z }.

Record Color := { red : Z; green : Z; blue : Z }.

(** The two [Once] cells. *)
Record Video := { INFO : option FrameBufferInfo; BUFFER : option (list Z) }.

(** [call_once] keeps the first value. *)
Definition call_once {A} (cell : option A) (a : A) : option A := match cell with Some b => Some b | None => Some a end.

Definition video_init (info : FrameBufferInfo) (buffer : list Z) : M Video unit :=
  modify (λ v, {| INFO := call_once (INFO v) info; BUFFER := call_once (BUFFER v) buffer |}).

(** [*(locked.get_mut(i).unwrap()) = b] *)
Definition store_byte (buffer : list Z) (i b : Z) : outcome (list Z) :=
  match buffer !! Z.to_nat i with
  | Some _ => Done (<[Z.to_nat i := b]> buffer)
  | None => Panicked UnwrapFailed
  end.

Definition draw {B : Build} (px py : Z) (color : Color) : M Video unit := fun v =>
  match BUFFER v with
  | None => Done (v, tt)
  | Some raw_buffer =>
      info ← unwrap (INFO v);
      row ← mul_w 64 py (horizontal_resolution info);
      row ← mul_w 64 row (bytes_per_pixel info);
      column ← mul_w 64 px (bytes_per_pixel info);
      start ← add_w 64 row column;
      end_ ← add_w 64 start (bytes_per_pixel info);
      if byte_len info <=? end_ then Done (v, tt)
      else
        b ← store_byte raw_buffer start (red color);
        i ← add_w 64 start 1;
        b ← store_byte b i (green color);
        i ← add_w 64 start 2;
        b ← store_byte b i (blue color);
        Done ({| INFO := INFO v; BUFFER := Some b |}, tt)
  end.

(** ** Where a pixel goes *)

Definition pixel_start (info : FrameBufferInfo) (px py : Z) : Z :=
  (py * horizontal_resolution info + px) * bytes_per_pixel info.

(** The buffer has the length its description gives, in pixels of at least
    three bytes. *)
Record video_ok (v : Video) (info : FrameBufferInfo) (buffer : list Z) : Prop := {
  vo_info : INFO v = Some info;
  vo_buffer : BUFFER v = Some buffer;
  vo_len : len buffer = byte_len info;
  vo_bpp : 3 ≤ bytes_per_pixel info;
  vo_res : 0 ≤ horizontal_resolution info }.

Lemma store_byte_ok buffer i b : 0 ≤ i < len buffer → store_byte buffer i b = Done (<[Z.to_nat i := b]> buffer).
Proof.
  intros Hi. unfold store_byte. destruct (lookup_lt_is_Some_2 buffer (Z.to_nat i)) as [? ->]; [| done].
  unfold len in Hi. lia.
Qed.

Lemma len_insert (buffer : list Z) i b : len (<[i := b]> buffer) = len buffer.
Proof. unfold len. by rewrite length_insert. Qed.

Lemma draw_run {B : Build} (v : Video) (info : FrameBufferInfo) (buffer : list Z) (px py : Z) (color : Color) :
  video_ok v info buffer → 0 ≤ px → 0 ≤ py →
  pixel_start info px py + bytes_per_pixel info < 2 ^ 64 →
  let start := pixel_start info px py in
  ∃ buffer', draw px py color v = Done ({| INFO := Some info; BUFFER := Some buffer' |}, tt)
    ∧ len buffer' = len buffer
    ∧ if decide (start + bytes_per_pixel info < byte_len info)
      then buffer' = <[Z.to_nat (start + 2) := blue color]>
                       (<[Z.to_nat (start + 1) := green color]> (<[Z.to_nat start := red color]> buffer))
      else buffer' = buffer.
Proof.
  intros [Hi Hb Hl H3 Hr] Hx Hy Hs start. unfold start, pixel_start in *. unfold draw. rewrite Hb, Hi.
  cbn [unwrap]. rewrite bind_Done_l.
  set (h := horizontal_resolution info) in *. set (p := bytes_per_pixel info) in *.
  assert (0 ≤ py * h) by nia. assert (0 ≤ px * p) by nia. assert (0 ≤ py * h * p) by nia.
  assert ((py * h + px) * p = py * h * p + px * p) as E by lia. rewrite E in *.
  assert (py * h ≤ py * h * p) by nia.
  unfold mul_w, add_w. rewrite (arith_in 64 (py * h)), bind_Done_l by (unfold uint; lia).
  rewrite (arith_in 64 (py * h * p)), bind_Done_l by (unfold uint; lia).
  rewrite (arith_in 64 (px * p)), bind_Done_l by (unfold uint; lia).
  rewrite (arith_in 64 (py * h * p + px * p)), bind_Done_l by (unfold uint; lia).
  rewrite (arith_in 64 (py * h * p + px * p + p)), bind_Done_l by (unfold uint; lia).
  set (a := py * h * p + px * p) in *.
  destruct (Z.leb_spec (byte_len info) (a + p)) as [Hle | Hlt].
  - exists buffer. rewrite decide_False by lia. destruct v. cbn in *. by subst.
  - rewrite store_byte_ok, bind_Done_l by lia.
    rewrite (arith_in 64 (a + 1)), bind_Done_l by (unfold uint; lia).
    rewrite store_byte_ok, bind_Done_l by (rewrite len_insert; lia).
    rewrite (arith_in 64 (a + 2)), bind_Done_l by (unfold uint; lia).
    rewrite store_byte_ok, bind_Done_l by (rewrite !len_insert; lia).
    eexists. split; [reflexivity |]. rewrite decide_True by lia. by rewrite !len_insert.
Qed.

(** C31: drawing stays inside the frame buffer.  For coordinates whose byte
    offset fits a machine word, [draw] never panics: a pixel that ends before
    the end of the buffer gets its three colour bytes and nothing else
    changes; any other, the very last pixel of the buffer among them, is not
    drawn. *)
Theorem draw_spec {B : Build} (v : Video) (info : FrameBufferInfo) (buffer : list Z) (px py : Z) (color : Color) :
  video_ok v info buffer → 0 ≤ px → 0 ≤ py →
  pixel_start info px py + bytes_per_pixel info < 2 ^ 64 →
  let start := pixel_start info px py in
  ∃ buffer', draw px py color v = Done ({| INFO := Some info; BUFFER := Some buffer' |}, tt)
    ∧ len buffer' = len buffer
    ∧ if decide (start + bytes_per_pixel info < byte_len info)
      then buffer' = <[Z.to_nat (start + 2) := blue color]>
                       (<[Z.to_nat (start + 1) := green color]> (<[Z.to_nat start := red color]> buffer))
      else buffer' = buffer.
Proof. apply draw_run. Qed.

(** Four pixels of four bytes, two to a row. *)
Definition sample_info : FrameBufferInfo := {| byte_len := 16; horizontal_resolution := 2; bytes_per_pixel := 4 |}.
Definition sample_video : Video := {| INFO := Some sample_info; BUFFER := Some (replicate 16 0) |}.

Lemma draw_spec_witness :
  let start := pixel_start sample_info 0 1 in
  ∃ buffer', draw (B := debug_build) 0 1 {| red := 1; green := 2; blue := 3 |} sample_video
      = Done ({| INFO := Some sample_info; BUFFER := Some buffer' |}, tt)
    ∧ len buffer' = len (replicate 16 0)
    ∧ if decide (start + 4 < 16)
      then buffer' = <[Z.to_nat (start + 2) := 3]>
                       (<[Z.to_nat (start + 1) := 2]> (<[Z.to_nat start := 1]> (replicate 16 0)))
      else buffer' = replicate 16 0.
Proof.
  apply (draw_spec (B := debug_build) sample_video sample_info (replicate 16 0) 0 1 {| red := 1; green := 2; blue := 3 |});
    [split; vm_compute; try reflexivity; congruence | lia | lia | vm_compute; reflexivity].
Defined.

(** The last pixel is never drawn. *)
Example last_pixel_refused :
  draw (B := debug_build) 1 1 {| red := 1; green := 2; blue := 3 |} sample_video = Done (sample_video, tt).
Proof. reflexivity. Qed.
