(* ===== verification/NetApi.v ===== *)
(** * The networking API

    [src/src/extensions/networking/api.rs]: resolving an address ([get_mac])
    and the future of a ping ([PingFuture]), composed with the handler's task
    through the queue between them ([HANDLE_QUEUE] of [networking.rs]).

    A future is its state and a [poll].  A waker is identified with what it
    wakes, so a clone of it is the same waker.  The queue of a [get_mac] call
    is the [nolock] crate's, given empty; once the call returns, its receiver
    is gone and so is the queue. *)

From stdpp Require Import base tactics list gmap numbers.
From Stdlib Require Import ZArith Lia.
From S2P Require Import Prelude Queue Checksum Buffer Ethernet Arp Ipv4 Udp Icmp Dhcp Device Handler HandlerSpec.

Local Open Scope Z_scope.

Inductive Poll (A : Type) := Ready (a : A) | Pending.
Arguments Ready {A} _.
Arguments Pending {A}.

Section api.
Context (Q J : Type → Type) `{QueueOps Q} `{QueueOps J} {B : Build}.

Record Net := {
  world : World Q;
  HANDLE_QUEUE : option (J HandlerMessage);
  next_queue : Z }.

Definition set_world (n : Net) (w : World Q) : Net :=
  {| world := w; HANDLE_QUEUE := HANDLE_QUEUE n; next_queue := next_queue n |}.
Definition set_inbox (n : Net) (q : J HandlerMessage) : Net :=
  {| world := world n; HANDLE_QUEUE := Some q; next_queue := next_queue n |}.

(** [HANDLE_QUEUE.get().expect("")] and [enqueue] *)
Definition send_message (m : HandlerMessage) : M Net (result unit unit) := fun n =>
  match HANDLE_QUEUE n with
  | None => Panicked UnwrapFailed
  | Some q => let '(q, r) := q_try_enqueue q m in Done (set_inbox n q, r)
  end.

(** ** [get_mac] *)

Inductive GetMac :=
  | GmStart (ip : list Z)
  | GmWaiting (recv : Z)
  | GmDone.

Context (new_mac_queue : Q (list Z)).

(** [async_queue(2)], by the identity of the queue. *)
Definition async_queue : M Net Z := fun n =>
  Done ({| world := set_mac_queues Q <[next_queue n := new_mac_queue]> (world n);
           HANDLE_QUEUE := HANDLE_QUEUE n; next_queue := next_queue n + 1 |}, next_queue n).

Definition drop_receiver (q : Z) : M Net unit :=
  modify (λ n, set_world n (set_mac_queues Q (delete q) (world n))).

(** [recv.dequeue().await.ok()] *)
Definition poll_recv (q : Z) : M Net (GetMac * Poll (option (list Z))) := fun n =>
  match mac_queues Q (world n) !! q with
  | None => Panicked Undefined
  | Some s =>
      match q_try_dequeue s with
      | (_, Ok mac) => (_ ← drop_receiver q; mret (GmDone, Ready (Some mac))) n
      | (_, Err Closed) => (_ ← drop_receiver q; mret (GmDone, Ready None)) n
      | (s, Err Empty) => Done (set_world n (set_mac_queues Q <[q := s]> (world n)), (GmWaiting q, Pending))
      end
  end.

Definition poll_get_mac (g : GetMac) : M Net (GetMac * Poll (option (list Z))) :=
  match g with
  | GmStart ip =>
      _ ← (fun n => match HANDLE_QUEUE n with None => Panicked UnwrapFailed | Some _ => Done (n, tt) end);
      q ← async_queue;
      r ← send_message (Action (SendArpRequest ip q));
      match r with
      | Err _ => _ ← drop_receiver q; mret (GmDone, Ready None)
      | Ok _ => poll_recv q
      end
  | GmWaiting q => poll_recv q
  | GmDone => fun _ => Panicked Explicit
  end.

(** ** [PingFuture] *)

Record PingFuture := {
  pf_ip : option (list Z);
  pf_mac : option (list Z);
  pf_send : bool;
  pf_returned : Z }.

Definition raw_ping (ip mac : list Z) : M Net PingFuture := fun n =>
  '(w, c) ← new_cell Q false (world n);
  Done (set_world n w, {| pf_ip := Some ip; pf_mac := Some mac; pf_send := false; pf_returned := c |}).

(** [returned.load]; the future holds the cell, so it exists. *)
Definition load (c : Z) (n : Net) : bool := default false (cells Q (world n) !! c).

Definition poll_ping (f : PingFuture) (waker : Z) : M Net (PingFuture * Poll unit) := fun n =>
  if load (pf_returned f) n then Done (n, (f, Ready tt))
  else if pf_send f then Done (n, (f, Pending))
  else
    match HANDLE_QUEUE n with
    | None => Panicked UnwrapFailed
    | Some _ =>
        (mac ← lift (unwrap (pf_mac f));
         ip ← lift (unwrap (pf_ip f));
         _ ← send_message (Action (PingRequest waker ip mac (pf_returned f)));
         mret ({| pf_ip := None; pf_mac := None; pf_send := true; pf_returned := pf_returned f |}, Pending)) n
    end.

(** ** The handler's side *)

(** The interrupt handler hands over a received packet. *)
Definition deliver (raw : RawPacket) : M Net (result unit unit) := send_message (Packet raw).

(** One turn of the loop of [network_handler]; an empty queue keeps it
    waiting, a closed one ends it. *)
Definition handler_turn (h : Handler J) : M Net (Handler J) := fun n =>
  match HANDLE_QUEUE n with
  | None => Done (n, h)
  | Some q =>
      match q_try_dequeue q with
      | (q, Ok m) =>
          match handle_message Q m h (world n) with
          | Done (w, h) => Done (set_world (set_inbox n q) w, h)
          | Panicked why => Panicked why
          | OutOfFuel => OutOfFuel
          end
      | (q, Err _) => Done (set_inbox n q, h)
      end
  end.

(** ** The parts together *)

Context `{!QueueLaws Q} `{!QueueLaws J} `{!UnboundedQueue J}.

(** The inbox is open and holds [ms]. *)
Definition inbox (n : Net) (ms : list HandlerMessage) : Prop :=
  ∃ q, HANDLE_QUEUE n = Some q ∧ q_is_closed q = false ∧ q_items q = ms.

Lemma send_message_run n m ms :
  inbox n ms → ∃ q, send_message m n = Done (set_inbox n q, Ok tt) ∧ inbox (set_inbox n q) (ms ++ [m]).
Proof.
  intros (q & Hq & Ho & Hi). unfold send_message. rewrite Hq.
  destruct (enqueue_ok _ q m Ho (always_room _ _)) as (Hr & Hi' & Hc).
  destruct (q_try_enqueue q m) as [q' r]. simpl in *. subst r. exists q'. split; [done |].
  exists q'. by rewrite Hi', Hi.
Qed.

Lemma handler_turn_run n m ms h w h' :
  inbox n (m :: ms) → handle_message Q m h (world n) = Done (w, h') →
  ∃ n', handler_turn h n = Done (n', h') ∧ inbox n' ms ∧ world n' = w ∧ next_queue n' = next_queue n.
Proof.
  intros (q & Hq & Ho & Hi) Hm. unfold handler_turn. rewrite Hq.
  destruct (dequeue_some _ q m ms Hi) as (Hr & Hi' & Hc).
  destruct (q_try_dequeue q) as [q' r]. simpl in *. subst r. rewrite Hm. eexists. split; [done |].
  split; [| done]. exists q'. by rewrite Hc.
Qed.

(** A packet is delivered and handled. *)
Lemma deliver_turn n raw h w h' :
  inbox n [] → handle_message Q (Packet raw) h (world n) = Done (w, h') →
  ∃ n', (_ ← deliver raw; handler_turn h) n = Done (n', h') ∧ inbox n' [] ∧ world n' = w.
Proof.
  intros Hn Hm. destruct (send_message_run n (Packet raw) [] Hn) as (q & Hs & Hq).
  destruct (handler_turn_run (set_inbox n q) (Packet raw) [] h w h' Hq Hm) as (n' & Hr & Hn' & Hw & _).
  exists n'. unfold deliver. by rewrite (M_bind_run _ _ _ _ _ Hs).
Qed.

(** ** Pinging *)

Definition device_ok (d : NetworkDevice J) : Prop :=
  wf_mac (mac (metadata d)) ∧ ∀ a, ip (metadata d) = Some a → Arp.wf_ip a.

Lemma own_ip_ok d : device_ok d → Arp.wf_ip (own_ip_or_zero d).
Proof.
  intros [_ Hip]. unfold own_ip_or_zero. destruct (ip (metadata d)); [by apply Hip |].
  split; [done |]. repeat constructor; by vm_compute.
Qed.

(** The single carry of the header checksum suffices for a ping to [target]. *)
Definition pingable (target : list Z) (d : NetworkDevice J) : Prop :=
  device_ok d ∧ fold_once (Ipv4.raw_sum (builder_header (ping_ip d target []) 28)) < 65536.

(** An echo request to the target, and a device that has queued one. *)
Definition echo_request (target mac : list Z) (e : Ethernet.Packet) : Prop :=
  destination_mac e = Done mac
  ∧ (∃ hdr, Ipv4.header (Ipv4.packet_new e) = Done hdr ∧ Ipv4.destination_ip hdr = target)
  ∧ Icmp.get_type (Icmp.packet_new (Ipv4.packet_new e)) = Done (Icmp.EchoRequest 0x1234 0x2345).

Definition pinged (target mac : list Z) (d d' : NetworkDevice J) : Prop :=
  ∃ e, d' = with_queue d (sender_enqueue (packet_queue d) e) ∧ echo_request target mac e.

Lemma ping_ip_wf d target m :
  device_ok d → Arp.wf_ip target → wf_mac m → wf_dst (ping_ip d target m).
Proof.
  intros Hd Ht Hm. pose proof (own_ip_ok d Hd) as [? ?]. destruct Hd as [Hmac _], Ht.
  split_and!; try done; by vm_compute.
Qed.

Lemma send_ping_run target m d w :
  pingable target d → Arp.wf_ip target → wf_mac m →
  ∃ d', send_ping Q target m d w = Done (add_event Q (Notified (notify (packet_queue d))) w, d')
    ∧ pinged target m d d'.
Proof.
  intros [Hd Hck] Ht Hm.
  destruct (icmp_finish_reads (Icmp.EchoRequest 0x1234 0x2345) (ping_ip d target m) no_payload 0
    (replicate 1458 0) (Ok 0) (ping_ip_wf d target m Hd Ht Hm) ltac:(by vm_compute) eq_refl _
    ltac:(lia) Hck eq_refl ltac:(by vm_compute)) as (e & Hfin & Hdst & (c & Hh) & Hty & _).
  unfold send_ping. rewrite Hfin. eexists. split; [reflexivity |]. exists e. split; [done |].
  split; [exact Hdst |]. split; [| exact Hty]. eexists. split; [exact Hh | done].
Qed.

Lemma for_ping_run target m ds w :
  Forall (pingable target) ds → Arp.wf_ip target → wf_mac m →
  ∃ w' ds', for_mut (send_ping Q target m) ds w = Done (w', ds') ∧ cells Q w' = cells Q w
    ∧ next_cell Q w' = next_cell Q w ∧ Forall2 (pinged target m) ds ds'.
Proof.
  intros HF Ht Hm. revert w. induction HF as [| d ds Hd _ IH]; intros w; cbn [for_mut]; [by exists w, [] |].
  destruct (send_ping_run target m d w Hd Ht Hm) as (d1 & Hr & Hp).
  destruct (IH (add_event Q (Notified (notify (packet_queue d))) w)) as (w2 & ds2 & Hr2 & Hc & Hn & Hps).
  rewrite (M_bind_run _ _ _ _ _ Hr), (M_bind_run _ _ _ _ _ Hr2). exists w2, (d1 :: ds2).
  split; [done |]. split; [by rewrite Hc |]. split; [by rewrite Hn | by constructor].
Qed.

(** The handler sends an echo request on every device and remembers who waits. *)
Lemma ping_request_run h w waker target m c :
  Forall (pingable target) (devices h) → Arp.wf_ip target → wf_mac m →
  ∃ w' h', handle_message Q (Action (PingRequest waker target m c)) h w = Done (w', h')
    ∧ cells Q w' = cells Q w ∧ next_cell Q w' = next_cell Q w
    ∧ ping (bindings h') !! target = Some (waker, c)
    ∧ Forall2 (pinged target m) (devices h) (devices h').
Proof.
  intros HF Ht Hm. destruct (for_ping_run target m (devices h) w HF Ht Hm) as (w' & ds & Hr & Hc & Hn & Hp).
  eexists w', _. cbn [handle_message handle_action]. rewrite (M_bind_run _ _ _ _ _ Hr).
  split; [reflexivity |]. cbn. by rewrite lookup_insert_eq.
Qed.

(** A new ping whose cell [c] is fresh: its first poll queues the request. *)
Definition waiting (c : Z) : PingFuture :=
  {| pf_ip := None; pf_mac := None; pf_send := true; pf_returned := c |}.

Lemma ping_first_poll n target m waker ms :
  inbox n ms →
  let c := next_cell Q (world n) in
  ∃ n1 f q, raw_ping target m n = Done (n1, f)
    ∧ poll_ping f waker n1 = Done (set_inbox n1 q, (waiting c, Pending))
    ∧ inbox (set_inbox n1 q) (ms ++ [Action (PingRequest waker target m c)])
    ∧ cells Q (world n1) = <[c := false]> (cells Q (world n))
    ∧ next_cell Q (world n1) = c + 1.
Proof.
  intros Hn c.
  set (w1 := {| cells := <[c := false]> (cells Q (world n)); next_cell := c + 1;
                mac_queues := mac_queues Q (world n); udp_queues := udp_queues Q (world n);
                ips := ips Q (world n); trace := trace Q (world n) |} : World Q).
  set (n1 := set_world n w1). assert (inbox n1 ms) as Hn1 by exact Hn.
  destruct (send_message_run n1 (Action (PingRequest waker target m c)) ms Hn1) as (q & Hs & Hq).
  exists n1, {| pf_ip := Some target; pf_mac := Some m; pf_send := false; pf_returned := c |}, q.
  split; [reflexivity |]. split; [| done].
  assert (load c n1 = false) as Hload by (unfold load; cbn; by rewrite lookup_insert_eq).
  unfold poll_ping. cbn [pf_returned pf_send pf_mac pf_ip]. rewrite Hload.
  destruct Hn1 as (q0 & -> & _). cbn [unwrap].
  rewrite !(M_bind_lift _ _ _ _ eq_refl). by rewrite (M_bind_run _ _ _ _ _ Hs).
Qed.

(** Later polls only look at the cell. *)
Lemma ping_later_poll (n : Net) (c waker : Z) (b : bool) :
  cells Q (world n) !! c = Some b →
  poll_ping (waiting c) waker n = Done (n, (waiting c, if b then Ready tt else Pending)).
Proof. intros Hc. unfold poll_ping, load. cbn. rewrite Hc. by destruct b. Qed.

(** C8: a ping reaches its target and comes back.  The first poll of a new ping
    queues exactly one request and waits; the handler sends an echo request to
    the target on every device, without panicking, and polls keep waiting
    without sending again; and when an echo reply of the target arrives, the
    handler wakes the caller, and the next poll is ready. *)
Theorem ping_end_to_end (n : Net) (h : Handler J) (target mac : list Z) (waker : Z) :
  inbox n [] → Forall (pingable target) (devices h) → Arp.wf_ip target → wf_mac mac →
  ∃ n1 f n2 f1 n3 h3, raw_ping target mac n = Done (n1, f) ∧ poll_ping f waker n1 = Done (n2, (f1, Pending))
    ∧ inbox n2 [Action (PingRequest waker target mac (pf_returned f))]
    ∧ handler_turn h n2 = Done (n3, h3) ∧ inbox n3 []
    ∧ Forall2 (pinged target mac) (devices h) (devices h3)
    ∧ (∀ waker', poll_ping f1 waker' n3 = Done (n3, (f1, Pending)))
    ∧ ∀ raw i d hdr, found raw h3 i d → addressed d (raw_buffer raw) →
        echo_reply_received (raw_buffer raw) hdr → Ipv4.source_ip hdr = target →
        ∃ n4 h4, (_ ← deliver raw; handler_turn h3) n3 = Done (n4, h4)
          ∧ trace Q (world n4) = trace Q (world n3) ++ [Woken waker]
          ∧ ∀ waker', poll_ping f1 waker' n4 = Done (n4, (f1, Ready tt)).
Proof.
  intros Hn HF Ht Hm.
  destruct (ping_first_poll n target mac waker [] Hn) as (n1 & f & q & Hraw & Hpoll & Hq & Hc1 & _).
  set (c := next_cell Q (world n)) in *. set (n2 := set_inbox n1 q) in *.
  assert (pf_returned f = c) as Hf by (by injection Hraw as _ <-).
  destruct (ping_request_run h (world n2) waker target mac c HF Ht Hm) as (w3 & h3 & Hmsg & Hc3 & _ & Hb & Hp).
  destruct (handler_turn_run n2 _ [] h w3 h3 Hq Hmsg) as (n3 & Hr3 & Hn3 & Hw3 & _).
  exists n1, f, n2, (waiting c), n3, h3. rewrite Hf. split_and!; try done.
  { intros waker'. apply (ping_later_poll n3 c waker' false).
    rewrite Hw3, Hc3. cbn [world n2 set_inbox]. rewrite Hc1. apply lookup_insert_eq. }
  intros raw i d hdr Hfd Ha He Hsrc.
  edestruct (deliver_turn n3 raw h3) as (n4 & Hr4 & Hn4 & Hw4); [done | |].
  { erewrite echo_reply_run by done. rewrite Hsrc, Hb. reflexivity. }
  eexists n4, _. split; [exact Hr4 |]. split; [by rewrite Hw4 |].
  intros waker'. apply (ping_later_poll n4 c waker' true). rewrite Hw4. apply lookup_insert_eq.
Qed.

(** ** Resolving an address *)

(** A device that has queued a request for [target]. *)
Definition arp_question (target : list Z) (d : NetworkDevice J) : Arp.OperationState :=
  Arp.set_operation
    (Arp.destination (Arp.sender (mac (metadata d)) (own_ip_or_zero d)) broadcast target) Arp.Request.

Definition asked (target : list Z) (d d' : NetworkDevice J) : Prop :=
  ∃ e, d' = with_queue d (sender_enqueue (packet_queue d) e) ∧ arp_frame (arp_question target d) e.

Lemma send_arp_request_run target d w :
  device_ok d → Arp.wf_ip target →
  ∃ d', send_arp_request Q target d w = Done (add_event Q (Notified (notify (packet_queue d))) w, d')
    ∧ asked target d d'.
Proof.
  intros Hd Ht. destruct (arp_finish_reads (arp_question target d)) as (e & He & Hf).
  { destruct (own_ip_ok d Hd), Hd as [[? ?] _], Ht. split_and!; try done. repeat constructor; by vm_compute. }
  unfold send_arp_request, arp_question in *. rewrite He. eexists. split; [reflexivity |]. by exists e.
Qed.

Lemma for_arp_request_run target ds w :
  Forall device_ok ds → Arp.wf_ip target →
  ∃ w' ds', for_mut (send_arp_request Q target) ds w = Done (w', ds')
    ∧ mac_queues Q w' = mac_queues Q w ∧ ips Q w' = ips Q w ∧ Forall2 (asked target) ds ds'.
Proof.
  intros HF Ht. revert w. induction HF as [| d ds Hd _ IH]; intros w; cbn [for_mut]; [by exists w, [] |].
  destruct (send_arp_request_run target d w Hd Ht) as (d1 & Hr & Ha).
  destruct (IH (add_event Q (Notified (notify (packet_queue d))) w)) as (w2 & ds2 & Hr2 & Hq2 & Hi2 & Has).
  rewrite (M_bind_run _ _ _ _ _ Hr), (M_bind_run _ _ _ _ _ Hr2). exists w2, (d1 :: ds2).
  rewrite Hq2, Hi2. split_and!; try done. by constructor.
Qed.

(** The handler sends the request on every device and remembers who asked. *)
Lemma arp_request_run h w target q s :
  Forall device_ok (devices h) → Arp.wf_ip target → mac_queues Q w !! q = Some s →
  (∀ a q', arp (bindings h) !! a = Some q' → q' ≠ q) →
  ∃ w' h', handle_message Q (Action (SendArpRequest target q)) h w = Done (w', h')
    ∧ arp (bindings h') !! target = Some q ∧ mac_queues Q w' !! q = Some s ∧ ips Q w' = ips Q w
    ∧ Forall2 (asked target) (devices h) (devices h').
Proof.
  intros Hds Ht Hq Hfresh. cbn [handle_message handle_action].
  assert (∃ w1, insert_arp Q (bindings h) target q w
      = Done (w1, {| udp := udp (bindings h); arp := <[target := q]> (arp (bindings h));
                     ping := ping (bindings h) |})
    ∧ mac_queues Q w1 !! q = Some s ∧ ips Q w1 = ips Q w) as (w1 & Hr1 & Hq1 & Hi1).
  { unfold insert_arp. destruct (arp (bindings h) !! target) as [old |] eqn:Eo.
    - eexists. split; [reflexivity |]. split; [| done]. cbn. rewrite lookup_alter_ne; [done |]. by eapply Hfresh.
    - eexists. split; [reflexivity |]. done. }
  rewrite (M_bind_run _ _ _ _ _ Hr1).
  destruct (for_arp_request_run target (devices h) w1 Hds Ht) as (w2 & ds & Hr2 & Hq2 & Hi2 & Has).
  rewrite (M_bind_run _ _ _ _ _ Hr2). eexists _, _. split; [reflexivity |].
  rewrite Hq2, Hi2. split; [| done]. cbn. apply lookup_insert_eq.
Qed.

(** An open queue without a value keeps the caller waiting. *)
Definition unanswered (q : Z) (n : Net) : Prop := mac_queues Q (world n) !! q = Some new_mac_queue.

Context (new_empty : q_items new_mac_queue = []) (new_open : q_is_closed new_mac_queue = false)
        (new_room : q_has_room new_mac_queue = true).

Lemma poll_recv_waits (n : Net) q :
  unanswered q n →
  ∃ n', poll_recv q n = Done (n', (GmWaiting q, Pending)) ∧ unanswered q n'
    ∧ HANDLE_QUEUE n' = HANDLE_QUEUE n ∧ ips Q (world n') = ips Q (world n).
Proof.
  intros Hq. unfold poll_recv, unanswered in *. rewrite Hq, (dequeue_none _ _ new_empty), new_open.
  eexists. split; [reflexivity |]. split; [apply lookup_insert_eq | done].
Qed.

Lemma get_mac_first_poll (n : Net) target :
  inbox n [] →
  ∃ n1, poll_get_mac (GmStart target) n = Done (n1, (GmWaiting (next_queue n), Pending))
    ∧ inbox n1 [Action (SendArpRequest target (next_queue n))] ∧ unanswered (next_queue n) n1
    ∧ ips Q (world n1) = ips Q (world n).
Proof.
  intros Hn. set (q := next_queue n).
  set (n0 := {| world := set_mac_queues Q <[q := new_mac_queue]> (world n); HANDLE_QUEUE := HANDLE_QUEUE n;
                next_queue := q + 1 |}).
  destruct (send_message_run n0 (Action (SendArpRequest target q)) [] Hn) as (iq & Hs & Hiq).
  destruct (poll_recv_waits (set_inbox n0 iq) q) as (n1 & Hr & Hq & Hin & Hi); [apply lookup_insert_eq |].
  exists n1. split_and!; try done; [| by unfold inbox; rewrite Hin].
  cbn [poll_get_mac]. destruct Hn as (q0 & Eq0 & _). erewrite M_bind_run; last (by rewrite Eq0).
  rewrite (M_bind_run _ _ _ _ _ eq_refl). by erewrite M_bind_run; last exact Hs.
Qed.

(** The handler's answer reaches the caller. *)
Lemma get_mac_answered (n : Net) h raw i d p known q :
  inbox n [] → unanswered q n → arp (bindings h) !! Arp.src_ip p = Some q → ips Q (world n) = Some known →
  found raw h i d → addressed d (raw_buffer raw) → arp_received (raw_buffer raw) p →
  Arp.get_operation p = Arp.Response →
  ∃ n3 h3 n4, (_ ← deliver raw; handler_turn h) n = Done (n3, h3)
    ∧ ips Q (world n3) = Some (<[Arp.src_ip p := Arp.src_mac p]> known)
    ∧ poll_get_mac (GmWaiting q) n3 = Done (n4, (GmDone, Ready (Some (Arp.src_mac p))))
    ∧ inbox n4 [] ∧ devices h3 = devices h.
Proof.
  intros Hn Hq Hb Hi Hf Ha Hp Hop.
  edestruct (deliver_turn n raw h) as (n3 & Hr3 & Hn3 & Hw3); [done | |].
  { by apply (arp_response_run raw h i d (world n) p known q new_mac_queue). }
  destruct (enqueue_ok _ new_mac_queue (Arp.src_mac p) new_open new_room) as (_ & Hit & _).
  destruct (close_spec _ (q_try_enqueue new_mac_queue (Arp.src_mac p)).1) as [Hci _].
  rewrite Hit, new_empty in Hci. cbn in Hci. destruct (dequeue_some _ _ _ _ Hci) as (Hd & _).
  eexists n3, _, _. split; [exact Hr3 |]. split; [by rewrite Hw3 |]. split.
  { cbn [poll_get_mac]. unfold poll_recv. rewrite Hw3. cbn [mac_queues set_mac_queues set_ips].
    rewrite lookup_alter_eq, lookup_insert_eq. cbn [fmap option_fmap option_map].
    destruct (q_try_dequeue (q_close _)) as [s' r]. cbn in Hd. subst r. reflexivity. }
  split; [exact Hn3 |]. by apply found_insert in Hf.
Qed.

(** C7: an address is resolved.  The first poll of [get_mac] queues one ARP
    request and waits; the handler then sends a request for the address on
    every device, without panicking, and polls keep waiting; when a response
    from the address arrives, the handler passes on its MAC and records it,
    and the next poll returns it. *)
Theorem get_mac_end_to_end (n : Net) (h : Handler J) (target : list Z) (known : IpMap) :
  inbox n [] → Forall device_ok (devices h) → Arp.wf_ip target →
  (∀ a q, arp (bindings h) !! a = Some q → q < next_queue n) → ips Q (world n) = Some known →
  ∃ n1 q n2 h2, poll_get_mac (GmStart target) n = Done (n1, (GmWaiting q, Pending))
    ∧ inbox n1 [Action (SendArpRequest target q)]
    ∧ handler_turn h n1 = Done (n2, h2) ∧ inbox n2 []
    ∧ Forall2 (asked target) (devices h) (devices h2)
    ∧ (∃ n2', poll_get_mac (GmWaiting q) n2 = Done (n2', (GmWaiting q, Pending)))
    ∧ ∀ raw i d p, found raw h2 i d → addressed d (raw_buffer raw) → arp_received (raw_buffer raw) p →
        Arp.get_operation p = Arp.Response → Arp.src_ip p = target →
        ∃ n3 h3 n4, (_ ← deliver raw; handler_turn h2) n2 = Done (n3, h3)
          ∧ ips Q (world n3) = Some (<[target := Arp.src_mac p]> known)
          ∧ poll_get_mac (GmWaiting q) n3 = Done (n4, (GmDone, Ready (Some (Arp.src_mac p)))).
Proof.
  intros Hn Hds Ht Hfresh Hips.
  destruct (get_mac_first_poll n target Hn) as (n1 & Hr1 & Hn1 & Hq1 & Hi1). set (q := next_queue n) in *.
  destruct (arp_request_run h (world n1) target q new_mac_queue Hds Ht Hq1) as (w2 & h2 & Hm & Hb & Hq2 & Hi2 & Has).
  { intros a q' Ha. specialize (Hfresh a q' Ha). lia. }
  destruct (handler_turn_run n1 _ [] h w2 h2 Hn1 Hm) as (n2 & Hr2 & Hn2 & Hw2 & _).
  assert (unanswered q n2) as Hun by (unfold unanswered; by rewrite Hw2).
  exists n1, q, n2, h2. split_and!; try done.
  - destruct (poll_recv_waits n2 q Hun) as (n2' & Hw & _). by exists n2'.
  - intros raw i d p Hf Ha Hp Hop Hsrc.
    destruct (get_mac_answered n2 h2 raw i d p known q) as (n3 & h3 & n4 & H1 & H2 & H3 & _); try done.
    + by rewrite Hsrc.
    + rewrite Hw2, Hi2, Hi1. exact Hips.
    + exists n3, h3, n4. by rewrite <- Hsrc.
Qed.

End api.

(** ** A run *)

Module ApiSample.

Definition net : Net list_queue jiffy_queue :=
  {| world := Sample.world; HANDLE_QUEUE := Some (mk_jiffy [] false); next_queue := 10 |}.

Definition new_queue : list_queue (list Z) := mk_queue [] (Some 2%nat) false.

Abbreviation debug_turn := (handler_turn list_queue jiffy_queue (B := debug_build)).

(** Resolving the peer's address, and pinging it. *)
Definition resolve_and_ping : M (Net list_queue jiffy_queue) (Poll (option (list Z)) * Poll unit) :=
  '(g, _) ← poll_get_mac list_queue jiffy_queue new_queue (GmStart Sample.peer_addr);
  h ← debug_turn Sample.leased_handler;
  _ ← deliver list_queue jiffy_queue (Sample.raw (Sample.arp Arp.Response Sample.own_mac));
  h ← debug_turn h;
  '(_, mac) ← poll_get_mac list_queue jiffy_queue new_queue g;
  f ← raw_ping list_queue jiffy_queue Sample.peer_addr Sample.peer_mac;
  '(f, _) ← poll_ping list_queue jiffy_queue f 77;
  h ← debug_turn h;
  _ ← deliver list_queue jiffy_queue (Sample.raw (Sample.icmp (Icmp.EchoReply 0x1234 0x2345)));
  h ← debug_turn h;
  '(_, r) ← poll_ping list_queue jiffy_queue f 77;
  mret (mac, r).

Example resolve_and_ping_run :
  match resolve_and_ping net with
  | Done (_, r) => r = (Ready (Some Sample.peer_mac), Ready tt)
  | _ => False
  end.
Proof. vm_compute. reflexivity. Qed.

Lemma net_inbox : inbox list_queue jiffy_queue net [].
Proof. by eexists. Qed.

Lemma leased_device_ok : Forall (device_ok jiffy_queue) (devices Sample.leased_handler).
Proof.
  apply Forall_cons_2; [| apply Forall_nil_2]. split; [exact Sample.wf_own_mac |].
  intros a [= <-]. split; [done |]. repeat constructor; by vm_compute.
Qed.

Lemma leased_pingable : Forall (pingable jiffy_queue Sample.peer_addr) (devices Sample.leased_handler).
Proof.
  apply Forall_cons_2; [| apply Forall_nil_2].
  split; [exact (Forall_inv leased_device_ok) | by vm_compute].
Qed.

Lemma wf_peer_addr : Arp.wf_ip Sample.peer_addr.
Proof. split; [done | repeat constructor; by vm_compute]. Qed.

Lemma wf_peer_mac : wf_mac Sample.peer_mac.
Proof. split; [done | repeat constructor; by vm_compute]. Qed.

Lemma ping_end_to_end_witness :
  ∃ n1 f n2 f1 n3 h3, raw_ping list_queue jiffy_queue Sample.peer_addr Sample.peer_mac net = Done (n1, f)
    ∧ poll_ping list_queue jiffy_queue f 77 n1 = Done (n2, (f1, Pending))
    ∧ debug_turn Sample.leased_handler n2 = Done (n3, h3).
Proof.
  destruct (ping_end_to_end list_queue jiffy_queue (B := debug_build) net Sample.leased_handler
    Sample.peer_addr Sample.peer_mac 77 net_inbox leased_pingable wf_peer_addr wf_peer_mac)
    as (n1 & f & n2 & f1 & n3 & h3 & H1 & H2 & _ & H3 & _).
  exists n1, f, n2, f1, n3, h3. split; [exact H1 |]. split; [exact H2 | exact H3].
Defined.

Lemma get_mac_end_to_end_witness :
  ∃ n1 q n2 h2, poll_get_mac list_queue jiffy_queue new_queue (GmStart Sample.peer_addr) net
      = Done (n1, (GmWaiting q, Pending))
    ∧ debug_turn Sample.leased_handler n1 = Done (n2, h2).
Proof.
  destruct (get_mac_end_to_end list_queue jiffy_queue (B := debug_build) new_queue
    ltac:(done) ltac:(done) ltac:(done) net
    Sample.leased_handler Sample.peer_addr ∅ net_inbox leased_device_ok wf_peer_addr
    ltac:(intros a q Hq; cbn in Hq; by rewrite lookup_empty in Hq) eq_refl)
    as (n1 & q & n2 & h2 & H1 & _ & H3 & _).
  by exists n1, q, n2, h2.
Defined.

End ApiSample.
