(* ===== verification/PingTask.v ===== *)
(** * The ping task

    [ping] of [src/src/main.rs], the task the kernel starts with: it resolves
    the hardware address of its target and then pings it for ever, one ping
    at a time.  An [async fn] is the state it waits in and a [poll]; the
    futures it awaits are [get_mac] and [PingFuture] of the networking API
    and [yield_now] of the [rucoon] crate. *)

From stdpp Require Import base tactics list gmap numbers relations.
From Stdlib Require Import ZArith Lia.
From S2P Require Import Prelude Queue Checksum Buffer Ethernet Arp Ipv4 Udp Icmp Dhcp Device Handler HandlerSpec NetApi.

Local Open Scope Z_scope.

(** [rucoon::futures::yield_now] and the [poll] of its future. *)
Class Yield (Y N : Type) := {
  yield_now : Y;
  poll_yield : Y → Z → M N (Y * Poll unit) }.

(** It gives way once: the first poll wakes the task and waits, the next is
    ready. *)
Class YieldLaws {Y N} `{Yield Y N} (wake : N → Z → N) : Prop := {
  yields waker n : ∃ y, poll_yield yield_now waker n = Done (wake n waker, (y, Pending))
    ∧ ∀ waker' n', ∃ y', poll_yield y waker' n' = Done (n', (y', Ready tt)) }.

Section task.
Context (Q J : Type → Type) {Y : Type} {HQ : QueueOps Q} {HJ : QueueOps J} {B : Build}.
Context (new_mac_queue : Q (list Z)).
Context {HY : Yield Y (Net Q J)}.

(** What the task reports. *)
Inductive Info :=
  | TargetMac (mac : list Z)
  | ReceivedPing.

Record TaskState := {
  net : Net Q J;
  infos : list Info }.

Definition on_net {A} (k : M (Net Q J) A) : M TaskState A := fun s =>
  match k (net s) with
  | Done (n, a) => Done ({| net := n; infos := infos s |}, a)
  | Panicked why => Panicked why
  | OutOfFuel => OutOfFuel
  end.

Definition info (i : Info) : M TaskState unit :=
  modify (λ s, {| net := net s; infos := infos s ++ [i] |}).

(** Where the task stands: not polled yet, or at one of its three [await]s. *)
Inductive PingTask :=
  | PtStart (target_ip : list Z)
  | PtMac (target_ip : list Z) (g : GetMac)
  | PtPing (target_ip mac : list Z) (f : PingFuture)
  | PtYield (target_ip mac : list Z) (y : Y).

(** [poll] of the task; every round of the recursion reaches another [await]. *)
Fixpoint poll_task (fuel : nat) (t : PingTask) (waker : Z) : M TaskState PingTask :=
  match fuel with
  | O => fun _ => OutOfFuel
  | S fuel =>
      match t with
      | PtStart ip => poll_task fuel (PtMac ip (GmStart ip)) waker
      | PtMac ip g =>
          '(g, r) ← on_net (poll_get_mac Q J new_mac_queue g);
          match r with
          | Pending => mret (PtMac ip g)
          | Ready r =>
              mac ← lift (unwrap r);
              _ ← info (TargetMac mac);
              f ← on_net (raw_ping Q J ip mac);
              poll_task fuel (PtPing ip mac f) waker
          end
      | PtPing ip mac f =>
          '(f, r) ← on_net (poll_ping Q J f waker);
          match r with
          | Pending => mret (PtPing ip mac f)
          | Ready _ =>
              _ ← info ReceivedPing;
              poll_task fuel (PtYield ip mac yield_now) waker
          end
      | PtYield ip mac y =>
          '(y, r) ← on_net (poll_yield y waker);
          match r with
          | Pending => mret (PtYield ip mac y)
          | Ready _ =>
              f ← on_net (raw_ping Q J ip mac);
              poll_task fuel (PtPing ip mac f) waker
          end
      end
  end.

(** Three rounds: a poll that finds a ping answered reaches the first poll of
    [yield_now], which waits; one that resumes from any other [await] reaches
    the first poll of a new ping, which waits. *)
Definition poll (t : PingTask) (waker : Z) : M TaskState PingTask := poll_task 3 t waker.

(** ** The task among the parts of the network *)

(** The handler sends what the task queued, the card delivers an answer, and
    the handler hands it out. *)
Definition exchange (raw : RawPacket) (h : Handler J) : M TaskState (Handler J) :=
  h ← on_net (handler_turn Q J h);
  on_net (_ ← deliver Q J raw; handler_turn Q J h).

(** A round of pinging: the task is polled when the reply wakes it, and again
    when [yield_now] has woken it. *)
Fixpoint ping_rounds (replies : list RawPacket) (t : PingTask) (h : Handler J) (waker : Z) :
    M TaskState (PingTask * Handler J) :=
  match replies with
  | [] => mret (t, h)
  | raw :: replies =>
      h ← exchange raw h;
      t ← poll t waker;
      t ← poll t waker;
      ping_rounds replies t h waker
  end.

Definition ping_run (target_ip : list Z) (answer : RawPacket) (replies : list RawPacket) (h : Handler J)
    (waker : Z) : M TaskState (PingTask * Handler J) :=
  t ← poll (PtStart target_ip) waker;
  h ← exchange answer h;
  t ← poll t waker;
  ping_rounds replies t h waker.

(** ** What the task does *)

Context `{!QueueLaws Q} `{!QueueLaws J} `{!UnboundedQueue J}.

(** Waking a task leaves a trace in the world. *)
Definition wake (n : Net Q J) (waker : Z) : Net Q J :=
  set_world Q J n (add_event Q (Woken waker) (world Q J n)).

Context `{!YieldLaws wake}.

Lemma on_net_run {A} (k : M (Net Q J) A) s n a :
  k (net s) = Done (n, a) → on_net k s = Done ({| net := n; infos := infos s |}, a).
Proof. intros Hk. unfold on_net. by rewrite Hk. Qed.

(** What a device keeps while it sends. *)
Definition same_meta (d d' : NetworkDevice J) : Prop := id d' = id d ∧ metadata d' = metadata d.

Lemma found_same_meta raw (h h' : Handler J) i d :
  Forall2 same_meta (devices h) (devices h') → found raw h i d →
  ∃ d', found raw h' i d' ∧ same_meta d d'.
Proof.
  intros HF (Hi & Hid & Hb)%list_find_Some.
  destruct (Forall2_lookup_l _ _ _ _ _ HF Hi) as (d' & Hi' & Hs). exists d'. split; [| done].
  apply list_find_Some. split_and!; [done | by rewrite (proj1 Hs) |].
  intros j e' Hj Hlt. destruct (Forall2_lookup_r _ _ _ _ _ HF Hj) as (e & He & Hs').
  rewrite (proj1 Hs'). by eapply Hb.
Qed.

Lemma pingable_same_meta target d d' : same_meta d d' → pingable J target d → pingable J target d'.
Proof.
  intros [_ Hm]. unfold pingable, device_ok, ping_ip, own_ip_or_zero. by rewrite Hm.
Qed.

Section target.
Context (target mac : list Z) (waker : Z) (wf_target : Arp.wf_ip target) (wf_target_mac : wf_mac mac).

(** An echo reply of the target, for one of the devices. *)
Definition reply (h : Handler J) (raw : RawPacket) : Prop :=
  ∃ i d hdr, found raw h i d ∧ addressed d (raw_buffer raw)
    ∧ echo_reply_received (raw_buffer raw) hdr ∧ Ipv4.source_ip hdr = target.

Lemma reply_same_meta h h' raw :
  Forall2 same_meta (devices h) (devices h') → reply h raw → reply h' raw.
Proof.
  intros HF (i & d & hdr & Hf & Ha & Hr). destruct (found_same_meta _ _ _ _ _ HF Hf) as (d' & Hf' & _ & Hm).
  exists i, d', hdr. split_and!; try done; try apply Hr. unfold addressed. by rewrite Hm.
Qed.

Lemma pinged_same_meta d d' : pinged J target mac d d' → same_meta d d'.
Proof. by intros (e & -> & _). Qed.

(** The task waits for its one ping, which the handler has not seen yet. *)
Definition pinging (s : TaskState) (h : Handler J) (c : Z) : Prop :=
  inbox Q J (net s) [Action (PingRequest waker target mac c)]
  ∧ cells Q (world Q J (net s)) !! c = Some false ∧ Forall (pingable J target) (devices h).

Lemma new_ping fuel s :
  inbox Q J (net s) [] →
  ∃ n c, (f ← on_net (raw_ping Q J target mac); poll_task (S fuel) (PtPing target mac f) waker) s
      = Done ({| net := n; infos := infos s |}, PtPing target mac (waiting c))
    ∧ inbox Q J n [Action (PingRequest waker target mac c)] ∧ cells Q (world Q J n) !! c = Some false.
Proof.
  intros Hn. destruct (ping_first_poll Q J (net s) target mac waker [] Hn) as (n1 & f & q & Hr & Hp & Hq & Hc & _).
  exists (set_inbox Q J n1 q), (next_cell Q (world Q J (net s))).
  rewrite (M_bind_run _ _ _ _ _ (on_net_run _ _ _ _ Hr)). cbn [poll_task].
  rewrite (M_bind_run _ _ _ _ _ (on_net_run _ {| net := n1; infos := infos s |} _ _ Hp)).
  split; [done |]. split; [done |]. cbn [world set_inbox]. rewrite Hc. apply lookup_insert_eq.
Qed.

(** The reply to the ping arrives and the task has its ping answered. *)
Lemma ping_exchange s h c raw :
  pinging s h c → reply h raw →
  ∃ n h', exchange raw h s = Done ({| net := n; infos := infos s |}, h')
    ∧ inbox Q J n [] ∧ cells Q (world Q J n) !! c = Some true
    ∧ Forall2 (pinged J target mac) (devices h) (devices h').
Proof.
  intros (Hn & Hc & HF) Hrep.
  destruct (ping_request_run Q J h (world Q J (net s)) waker target mac c HF wf_target wf_target_mac)
    as (w1 & h1 & Hm & _ & _ & Hb & Hp).
  destruct (handler_turn_run Q J (net s) _ [] h w1 h1 Hn Hm) as (n1 & Hr1 & Hn1 & _ & _).
  destruct (reply_same_meta h h1 raw) as (i & d & hdr & Hf & Ha & He & Hsrc);
    [eapply Forall2_impl; [exact Hp | exact pinged_same_meta] | done |].
  edestruct (deliver_turn Q J n1 raw h1) as (n2 & Hr2 & Hn2 & Hw2); [done | |].
  { erewrite echo_reply_run by done. rewrite Hsrc, Hb. reflexivity. }
  exists n2. eexists. unfold exchange. rewrite (M_bind_run _ _ _ _ _ (on_net_run _ _ _ _ Hr1)).
  rewrite (on_net_run _ {| net := n1; infos := infos s |} _ _ Hr2). split; [reflexivity |].
  split; [done |]. rewrite Hw2. split; [apply lookup_insert_eq |].
  cbn [with_device devices]. by rewrite (found_insert _ _ _ _ Hf).
Qed.

(** An answered task reports it, gives way, and pings again. *)
Lemma ping_again s c :
  inbox Q J (net s) [] → cells Q (world Q J (net s)) !! c = Some true →
  ∃ n c', (t ← poll (PtPing target mac (waiting c)) waker; poll t waker) s
      = Done ({| net := n; infos := infos s ++ [ReceivedPing] |}, PtPing target mac (waiting c'))
    ∧ inbox Q J n [Action (PingRequest waker target mac c')] ∧ cells Q (world Q J n) !! c' = Some false.
Proof.
  intros Hn Hc. destruct (yields waker (net s)) as (y & Hy & Hy').
  destruct (Hy' waker (wake (net s) waker)) as (y' & Hy2). clear Hy'.
  set (s1 := {| net := net s; infos := infos s ++ [ReceivedPing] |}).
  set (s2 := {| net := wake (net s) waker; infos := infos s ++ [ReceivedPing] |}).
  assert (poll (PtPing target mac (waiting c)) waker s = Done (s2, PtYield target mac y)) as H1.
  { unfold poll. cbn [poll_task].
    rewrite (M_bind_run _ _ _ _ _ (on_net_run _ _ _ _ (ping_later_poll Q J (net s) c waker true Hc))).
    cbn beta iota. rewrite (M_bind_run (info ReceivedPing) _ {| net := net s; infos := infos s |} s1 tt eq_refl). cbn [poll_task].
    by rewrite (M_bind_run _ _ _ _ _ (on_net_run _ s1 _ _ Hy)). }
  rewrite (M_bind_run _ _ _ _ _ H1). unfold poll. cbn [poll_task].
  rewrite (M_bind_run _ _ _ _ _ (on_net_run _ s2 _ _ Hy2)). by apply (new_ping 1 s2).
Qed.

Lemma ping_rounds_run replies s h c :
  pinging s h c → Forall (reply h) replies →
  ∃ s' h' c', ping_rounds replies (PtPing target mac (waiting c)) h waker s
      = Done (s', (PtPing target mac (waiting c'), h'))
    ∧ infos s' = infos s ++ replicate (length replies) ReceivedPing
    ∧ pinging s' h' c'
    ∧ Forall2 (nsteps (pinged J target mac) (length replies)) (devices h) (devices h').
Proof.
  revert s h c. induction replies as [| raw replies IH]; intros s h c Hs Hr; cbn [ping_rounds].
  { exists s, h, c. rewrite app_nil_r. split_and!; try done; try apply Hs.
    apply Forall_Forall2_diag, Forall_forall. constructor. }
  apply Forall_cons_1 in Hr as [Hraw Hr].
  destruct (ping_exchange s h c raw Hs Hraw) as (n1 & h1 & H1 & Hn1 & Hc1 & Hp).
  destruct (ping_again {| net := n1; infos := infos s |} c Hn1 Hc1) as (n2 & c2 & H2 & Hn2 & Hc2).
  apply M_bind_done in H2 as (s1 & t1 & H2 & H3).
  assert (Forall2 same_meta (devices h) (devices h1)) as Hsm
    by (eapply Forall2_impl; [exact Hp | exact pinged_same_meta]).
  destruct (IH {| net := n2; infos := infos s ++ [ReceivedPing] |} h1 c2) as (s' & h' & c' & H4 & Hi & Hs' & Hps).
  - split_and!; try done. eapply Forall2_Forall_r; [exact Hsm |].
    eapply Forall_impl; [apply Hs |]. intros d Hd d' Hdd. by eapply pingable_same_meta.
  - eapply Forall_impl; [exact Hr |]. intros r. by apply reply_same_meta.
  - exists s', h', c'. rewrite (M_bind_run _ _ _ _ _ H1), (M_bind_run _ _ _ _ _ H2), (M_bind_run _ _ _ _ _ H3).
    split_and!; try done; try apply Hs'; [rewrite Hi; cbn [infos]; by rewrite <- app_assoc |].
    eapply Forall2_trans; [| exact Hp | exact Hps]. intros d d1 d2. apply nsteps_l.
Qed.

End target.

Lemma asked_same_meta target d d' : asked J target d d' → same_meta d d'.
Proof. by intros (e & -> & _). Qed.

Context (new_empty : q_items new_mac_queue = []) (new_open : q_is_closed new_mac_queue = false)
        (new_room : q_has_room new_mac_queue = true).

(** The task asks for the hardware address of its target. *)
Lemma ping_task_starts s target waker :
  inbox Q J (net s) [] →
  ∃ n, poll (PtStart target) waker s
      = Done ({| net := n; infos := infos s |}, PtMac target (GmWaiting (next_queue Q J (net s))))
    ∧ inbox Q J n [Action (SendArpRequest target (next_queue Q J (net s)))]
    ∧ unanswered Q J new_mac_queue (next_queue Q J (net s)) n ∧ ips Q (world Q J n) = ips Q (world Q J (net s)).
Proof.
  intros Hn. destruct (get_mac_first_poll Q J new_mac_queue new_empty new_open (net s) target Hn) as (n & Hr & Hn').
  exists n. split; [| done]. unfold poll. cbn [poll_task]. by rewrite (M_bind_run _ _ _ _ _ (on_net_run _ _ _ _ Hr)).
Qed.

(** The answer arrives, the task reports it and sends its first ping. *)
Lemma ping_task_resolves s (h : Handler J) target waker known answer i d p :
  inbox Q J (net s) [] → Forall (pingable J target) (devices h) → Arp.wf_ip target →
  (∀ a q, arp (bindings h) !! a = Some q → q < next_queue Q J (net s)) →
  ips Q (world Q J (net s)) = Some known →
  found answer h i d → addressed d (raw_buffer answer) → arp_received (raw_buffer answer) p →
  Arp.get_operation p = Arp.Response → Arp.src_ip p = target →
  ∃ s1 t1 s2 h2 s3 c, poll (PtStart target) waker s = Done (s1, t1) ∧ exchange answer h s1 = Done (s2, h2)
    ∧ poll t1 waker s2 = Done (s3, PtPing target (Arp.src_mac p) (waiting c))
    ∧ pinging target (Arp.src_mac p) waker s3 h2 c
    ∧ infos s3 = infos s ++ [TargetMac (Arp.src_mac p)] ∧ Forall2 (asked J target) (devices h) (devices h2).
Proof.
  intros Hn HF Ht Hfresh Hips Hfd Had Hp Hop Hsrc.
  destruct (ping_task_starts s target waker Hn) as (n1 & Hr1 & Hn1 & Hq1 & Hi1).
  set (q := next_queue Q J (net s)) in *.
  destruct (arp_request_run Q J h (world Q J n1) target q new_mac_queue) as (w2 & h2 & Hm & Hb & Hq2 & Hi2 & Has);
    [by eapply Forall_impl; [exact HF | intros ? []] | done | done | |].
  { intros a q' Ha. specialize (Hfresh a q' Ha). lia. }
  destruct (handler_turn_run Q J n1 _ [] h w2 h2 Hn1 Hm) as (n2 & Hr2 & Hn2 & Hw2 & _).
  assert (Forall2 same_meta (devices h) (devices h2)) as Hsm
    by (eapply Forall2_impl; [exact Has | apply asked_same_meta]).
  destruct (found_same_meta _ _ _ _ _ Hsm Hfd) as (d2 & Hfd2 & _ & Hmeta).
  destruct (get_mac_answered Q J new_mac_queue new_empty new_open new_room n2 h2 answer i d2 p known q)
    as (n3 & h3 & n4 & Hr3 & _ & Hr4 & Hn4 & Hds); try done.
  { unfold unanswered. by rewrite Hw2. }
  { by rewrite Hsrc. }
  { rewrite Hw2, Hi2, Hi1. exact Hips. }
  { unfold addressed. by rewrite Hmeta. }
  destruct (new_ping target (Arp.src_mac p) waker 1
    {| net := n4; infos := infos s ++ [TargetMac (Arp.src_mac p)] |} Hn4) as (n5 & c & Hr5 & Hn5 & Hc5).
  eexists _, _, {| net := n3; infos := infos s |}, h3, _, c. split; [exact Hr1 |]. split.
  { unfold exchange. rewrite (M_bind_run _ _ _ _ _ (on_net_run _ {| net := n1; infos := infos s |} _ _ Hr2)).
    exact (on_net_run _ {| net := n2; infos := infos s |} _ _ Hr3). }
  split. { unfold poll. cbn [poll_task].
    rewrite (M_bind_run _ _ _ _ _ (on_net_run _ {| net := n3; infos := infos s |} _ _ Hr4)). exact Hr5. }
  split; [| by rewrite Hds]. split; [done |]. split; [done |]. rewrite Hds.
  eapply Forall2_Forall_r; [exact Hsm |].
  eapply Forall_impl; [exact HF |]. intros e He e' Hee. by eapply pingable_same_meta.
Qed.

(** C9: the ping task pings for ever.  It asks for the hardware address of its
    target once; when the answer arrives it reports the address and sends a
    ping, and after each reply it reports the reply, gives way and sends the
    next ping.  So after any number of replies it has reported the address
    and each reply, every device has sent one address request and that many
    echo requests to the target, and exactly one more ping is under way. *)
Theorem ping_task_runs s (h : Handler J) target waker known answer i d p replies :
  inbox Q J (net s) [] → Forall (pingable J target) (devices h) → Arp.wf_ip target →
  (∀ a q, arp (bindings h) !! a = Some q → q < next_queue Q J (net s)) →
  ips Q (world Q J (net s)) = Some known →
  found answer h i d → addressed d (raw_buffer answer) → arp_received (raw_buffer answer) p →
  Arp.get_operation p = Arp.Response → Arp.src_ip p = target → Forall (reply target h) replies →
  ∃ s' h' c, ping_run target answer replies h waker s
      = Done (s', (PtPing target (Arp.src_mac p) (waiting c), h'))
    ∧ infos s' = infos s ++ TargetMac (Arp.src_mac p) :: replicate (length replies) ReceivedPing
    ∧ Forall2 (λ d d', ∃ d1, asked J target d d1 ∧ nsteps (pinged J target (Arp.src_mac p)) (length replies) d1 d')
        (devices h) (devices h')
    ∧ inbox Q J (net s') [Action (PingRequest waker target (Arp.src_mac p) c)].
Proof.
  intros Hn HF Ht Hfresh Hips Hfd Had Hp Hop Hsrc Hrep.
  destruct (ping_task_resolves s h target waker known answer i d p)
    as (s1 & t1 & s2 & h2 & s3 & c & Hr1 & Hr2 & Hr3 & Hpin & Hi & Has); try done.
  destruct (ping_rounds_run target (Arp.src_mac p) waker Ht (proj1 (proj2 (proj2 Hp))) replies s3 h2 c)
    as (s' & h' & c' & Hr4 & Hi4 & Hs' & Hps); [done | |].
  { eapply Forall_impl; [exact Hrep |]. intros raw. apply reply_same_meta.
    eapply Forall2_impl; [exact Has | apply asked_same_meta]. }
  exists s', h', c'. unfold ping_run.
  rewrite (M_bind_run _ _ _ _ _ Hr1), (M_bind_run _ _ _ _ _ Hr2), (M_bind_run _ _ _ _ _ Hr3).
  split; [exact Hr4 |]. split; [by rewrite Hi4, Hi, <- app_assoc |]. split; [| apply Hs'].
  eapply Forall2_trans; [| exact Has | exact Hps]. eauto.
Qed.

End task.

(** ** A run *)

Module TaskSample.

(** A [yield_now] that remembers whether it has given way. *)
#[global] Instance flag_yield : Yield bool (Net list_queue jiffy_queue) := {|
  yield_now := false;
  poll_yield y waker n :=
    if y then Done (n, (true, Ready tt))
    else Done (wake list_queue jiffy_queue n waker, (true, Pending)) |}.

#[global] Instance flag_yield_laws : YieldLaws (wake list_queue jiffy_queue).
Proof. split. intros waker n. exists true. split; [done |]. intros. by exists true. Qed.

Definition start : TaskState list_queue jiffy_queue := {| net := ApiSample.net; infos := [] |}.

Definition answer : RawPacket := Sample.raw (Sample.arp Arp.Response Sample.own_mac).
Definition echo : RawPacket := Sample.raw (Sample.icmp (Icmp.EchoReply 0x1234 0x2345)).

Lemma echo_is_reply : reply jiffy_queue Sample.peer_addr Sample.leased_handler echo.
Proof.
  exists 0%nat, (Sample.device (Some Sample.own_addr) Done_). eexists.
  split; [by vm_compute |]. split; [right; by vm_compute |].
  split; [split; [by vm_compute |]; split; [vm_compute; reflexivity |] |]; [| by vm_compute].
  split; [by vm_compute |]. exists 0x1234, 0x2345. by vm_compute.
Qed.

Lemma ping_task_runs_witness :
  ∃ s' h' c, ping_run (B := debug_build) list_queue jiffy_queue ApiSample.new_queue Sample.peer_addr
      answer [echo; echo; echo] Sample.leased_handler 77 start
      = Done (s', (PtPing Sample.peer_addr Sample.peer_mac (waiting c), h'))
    ∧ infos list_queue jiffy_queue s'
      = [TargetMac Sample.peer_mac; ReceivedPing; ReceivedPing; ReceivedPing].
Proof.
  destruct (ping_task_runs (B := debug_build) list_queue jiffy_queue ApiSample.new_queue
    ltac:(done) ltac:(done) ltac:(done) start Sample.leased_handler Sample.peer_addr 77 ∅ answer 0%nat
    (Sample.device (Some Sample.own_addr) Done_) (Sample.arp_packet Arp.Response Sample.own_mac)
    [echo; echo; echo] ApiSample.net_inbox ApiSample.leased_pingable ApiSample.wf_peer_addr
    ltac:(intros a q Hq; cbn in Hq; by rewrite lookup_empty in Hq) eq_refl
    ltac:(by vm_compute) ltac:(right; by vm_compute)
    ltac:(apply Sample.arp_is_received; [exact Sample.wf_own_mac | by vm_compute])
    eq_refl eq_refl ltac:(repeat apply Forall_cons_2; [exact echo_is_reply.. | apply Forall_nil_2]))
    as (s' & h' & c & Hr & Hi & _).
  exists s', h', c. split; [exact Hr | exact Hi].
Defined.

End TaskSample.
