(* ===== verification/Tetris.v ===== *)
(** * The tetris task

    [tetris] of [src/src/main.rs], with [sleep_ms] of [src/src/futures.rs]: a
    task that fills the left of the screen with horizontal bands, five rows at
    a time and a little brighter each time, and sleeps in between.  The
    sleeping future is the [rucoon] crate's. *)

From stdpp Require Import base tactics list numbers strings.
From Stdlib Require Import ZArith Lia.
From S2P Require Import Prelude Queue Handler NetApi Video.

Local Open Scope Z_scope.

(** [rucoon::extensions::time::sleep] on the kernel's timer. *)
Class Sleep (Sl N : Type) := {
  sleep_ms : Z → Sl;
  poll_sleep : Sl → Z → M N (Sl * Poll unit) }.

(** Its first poll waits; a later one is ready once its time has come. *)
Class SleepLaws (Sl N : Type) `{Sleep Sl N} := {
  expired : Sl → N → bool;
  sleep_first : ∀ d w n, ∃ sl n', poll_sleep (sleep_ms d) w n = Done (n', (sl, Pending));
  sleep_later : ∀ sl w n, ∃ sl' n',
    poll_sleep sl w n = Done (n', (sl', if expired sl n then Ready tt else Pending)) }.

Section tetris.
Context {Sl N : Type} `{Sleep Sl N} {B : Build}.

Record Screen := {
  video : Video;
  clock : N;
  infos : list string }.

Definition on_video {A} (k : M Video A) : M Screen A :=
  zoom video (λ v s, {| video := v; clock := clock s; infos := infos s |}) k.
Definition on_clock {A} (k : M N A) : M Screen A :=
  zoom clock (λ n s, {| video := video s; clock := n; infos := infos s |}) k.

Definition y_steps : Z := 5.
Definition color_steps : Z := 2.

(** [for y_pos in y..y + y_steps] with the loop in it *)
Definition draw_band (y color : Z) : M Video unit :=
  last ← lift (add_w 64 y y_steps);
  for_each (λ y_pos,
    for_each (λ x, draw x y_pos {| red := color; green := color; blue := color |}) (seqZ 0 100)) (seqZ y (last - y)).

Inductive Tetris :=
  | TtStart
  | TtSleep (y color : Z) (sleeping : Sl).

(** The loop, up to a poll of its sleep that waits; a sleep that is ready at its
    first poll goes on with the next round, and [fuel] bounds these. *)
Fixpoint frame (fuel : nat) (y color waker : Z) : M Screen Tetris :=
  match fuel with
  | O => fun _ => OutOfFuel
  | S fuel =>
      _ ← on_video (draw_band y color);
      y ← lift (add_w 64 y y_steps);
      let color := cast 8 (color + color_steps) in
      r ← on_clock (poll_sleep (sleep_ms 10) waker);
      match r.2 with
      | Pending => mret (TtSleep y color r.1)
      | Ready _ => frame fuel y color waker
      end
  end.

(** [poll] *)
Definition poll_tetris (fuel : nat) (t : Tetris) (waker : Z) : M Screen Tetris :=
  match t with
  | TtStart =>
      _ ← modify (λ s, {| video := video s; clock := clock s; infos := infos s ++ ["Starting Tetris"] |});
      frame fuel 0 0 waker
  | TtSleep y color sleeping =>
      r ← on_clock (poll_sleep sleeping waker);
      match r.2 with
      | Pending => mret (TtSleep y color r.1)
      | Ready _ => frame fuel y color waker
      end
  end.

(** ** What the screen shows *)

Definition gray (c : Z) : Color := {| red := c; green := c; blue := c |}.

(** Byte [i] of the buffer is one of the three colour bytes of a pixel that
    [draw] does not refuse. *)
Definition covers (info : FrameBufferInfo) (i : Z) (q : Z * Z) : Prop :=
  pixel_start info q.1 q.2 ≤ i < pixel_start info q.1 q.2 + 3
  ∧ pixel_start info q.1 q.2 + bytes_per_pixel info < byte_len info.

#[global] Instance covers_dec info i q : Decision (covers info i q).
Proof. unfold covers. apply _. Defined.

(** The colour the first [k] bands give byte [i]: that of the band of its
    row, when it is a colour byte of one of the hundred pixels on the left and
    not part of the last pixel of the buffer. *)
Definition band_color (info : FrameBufferInfo) (k i : Z) : option Z :=
  let pixel := i / bytes_per_pixel info in
  let x := pixel mod horizontal_resolution info in
  let y := pixel / horizontal_resolution info in
  if decide (i mod bytes_per_pixel info < 3 ∧ x < 100 ∧ y < y_steps * k
             ∧ (pixel + 1) * bytes_per_pixel info < byte_len info)
  then Some ((color_steps * (y / y_steps)) mod 256) else None.

(** The screen was [start] and now shows the first [k] bands. *)
Definition shows (info : FrameBufferInfo) (start : list Z) (k : Z) (v : Video) : Prop :=
  ∃ buffer, video_ok v info buffer ∧ len buffer = len start
    ∧ ∀ i : nat, (i < length start)%nat →
        buffer !! i = match band_color info k (Z.of_nat i) with Some c => Some c | None => start !! i end.

(** The task has drawn [k] bands. *)
Definition drawn (info : FrameBufferInfo) (start : list Z) (k : Z) (t : Tetris) (s : Screen) : Prop :=
  shows info start k (video s)
  ∧ match t with
    | TtStart => k = 0
    | TtSleep y color _ => 1 ≤ k ∧ y = y_steps * k ∧ color = (color_steps * k) mod 256
    end.

(** A poll draws: it is the first, or the sleep is over. *)
Definition awake `{!SleepLaws Sl N} (t : Tetris) (s : Screen) : bool :=
  match t with TtStart => true | TtSleep _ _ sleeping => expired sleeping (clock s) end.

(** ** Drawing a band *)

Lemma draw_gray (info : FrameBufferInfo) (b : list Z) (v : Video) (q : Z * Z) (c : Z) :
  video_ok v info b → 0 ≤ q.1 → 0 ≤ q.2 → pixel_start info q.1 q.2 + bytes_per_pixel info < 2 ^ 64 →
  ∃ v' b', draw q.1 q.2 (gray c) v = Done (v', tt) ∧ video_ok v' info b' ∧ len b' = len b
    ∧ ∀ i : nat, (i < length b)%nat → b' !! i = if decide (covers info (Z.of_nat i) q) then Some c else b !! i.
Proof.
  intros Hv Hx Hy Hb. destruct (draw_run v info b q.1 q.2 (gray c) Hv Hx Hy Hb) as (b' & Hd & Hl & Hs).
  destruct Hv as [_ _ Hlen Hp Hh]. exists {| INFO := Some info; BUFFER := Some b' |}, b'.
  split; [done |]. split; [split; cbn; try done; lia |]. split; [done |]. intros i Hi.
  assert (0 ≤ pixel_start info q.1 q.2) as H0' by (unfold pixel_start; nia).
  unfold covers. set (a := pixel_start info q.1 q.2) in *. unfold len in *.
  case_decide as Hlt; subst b'; cbn [gray red green blue] in *; last (case_decide; [lia | done]).
  case_decide as Hc.
  - assert (i = Z.to_nat a ∨ i = Z.to_nat (a + 1) ∨ i = Z.to_nat (a + 2)) as Hi' by lia.
    rewrite !list_lookup_insert, !length_insert. repeat case_decide; try done; lia.
  - rewrite !list_lookup_insert_ne by lia. done.
Qed.

Lemma draw_pixels (info : FrameBufferInfo) (c : Z) (qs : list (Z * Z)) (b : list Z) (v : Video) :
  video_ok v info b →
  Forall (λ q, 0 ≤ q.1 ∧ 0 ≤ q.2 ∧ pixel_start info q.1 q.2 + bytes_per_pixel info < 2 ^ 64) qs →
  ∃ v' b', for_each (λ q, draw q.1 q.2 (gray c)) qs v = Done (v', tt) ∧ video_ok v' info b' ∧ len b' = len b
    ∧ ∀ i : nat, (i < length b)%nat → b' !! i = if decide (Exists (covers info (Z.of_nat i)) qs) then Some c else b !! i.
Proof.
  intros Hv Hq. revert v b Hv. induction Hq as [| q qs (Hx & Hy & Hb) _ IH]; intros v b Hv; cbn [for_each].
  { exists v, b. do 3 (split; [done |]). intros i _. case_decide as He; [by apply Exists_nil in He | done]. }
  destruct (draw_gray info b v q c Hv Hx Hy Hb) as (v1 & b1 & Hd & Hv1 & Hl1 & Hb1).
  destruct (IH v1 b1 Hv1) as (v2 & b2 & Hf & Hv2 & Hl2 & Hb2). exists v2, b2.
  rewrite (M_bind_run _ _ _ _ _ Hd). do 2 (split; [done |]). split; [congruence |]. intros i Hi.
  unfold len in *. rewrite Hb2, Hb1 by lia.
  repeat case_decide; try done; rewrite Exists_cons in *; tauto.
Qed.

(** The pixels of a band, in the order of the loops. *)
Definition band_pixels (y : Z) : list (Z * Z) := y' ← seqZ y y_steps; (λ x, (x, y')) <$> seqZ 0 100.

Lemma elem_of_band_pixels q y : q ∈ band_pixels y ↔ 0 ≤ q.1 < 100 ∧ y ≤ q.2 < y + y_steps.
Proof.
  unfold band_pixels. destruct q as [x y']. rewrite list_elem_of_bind. cbn [fst snd]. split.
  - intros (y0 & (x0 & [= -> ->] & Hx)%list_elem_of_fmap & Hy). apply elem_of_seqZ in Hx, Hy. lia.
  - intros [Hx Hy]. exists y'. rewrite list_elem_of_fmap, elem_of_seqZ. split; [| lia].
    exists x. rewrite elem_of_seqZ. split; [done | lia].
Qed.

(** The pixel of a byte. *)
Lemma covers_band (info : FrameBufferInfo) (i y : Z) :
  3 ≤ bytes_per_pixel info → 100 ≤ horizontal_resolution info → 0 ≤ i → 0 ≤ y →
  Exists (covers info i) (band_pixels y) ↔
  let pixel := i / bytes_per_pixel info in
  i mod bytes_per_pixel info < 3 ∧ pixel mod horizontal_resolution info < 100
  ∧ y ≤ pixel / horizontal_resolution info < y + y_steps ∧ (pixel + 1) * bytes_per_pixel info < byte_len info.
Proof.
  intros Hp Hh Hi Hy. cbv zeta. rewrite list.Exists_exists. setoid_rewrite elem_of_band_pixels. unfold covers, pixel_start.
  set (p := bytes_per_pixel info) in *. set (h := horizontal_resolution info) in *.
  pose proof (Z.div_mod i p ltac:(lia)) as Ei. pose proof (Z.mod_pos_bound i p ltac:(lia)) as Bi.
  pose proof (Z.div_mod (i / p) h ltac:(lia)) as Ep. pose proof (Z.mod_pos_bound (i / p) h ltac:(lia)) as Bp.
  split.
  - intros ([x y'] & (Hx & Hy') & Hc & Hl). cbn [fst snd] in *.
    assert (i / p = y' * h + x) as E1 by (symmetry; apply (Z.div_unique_pos _ _ _ (i - (y' * h + x) * p)); lia).
    assert (i / p / h = y') as E2 by (symmetry; apply (Z.div_unique_pos _ _ _ x); lia).
    rewrite E1 in *. rewrite E2 in *. lia.
  - intros (Hm & Hx & Hy' & Hl). exists ((i / p) mod h, i / p / h). cbn [fst snd].
    assert ((i / p / h * h + (i / p) mod h) = i / p) as -> by lia. lia.
Qed.

Lemma band_color_next (info : FrameBufferInfo) (k i : Z) :
  3 ≤ bytes_per_pixel info → 100 ≤ horizontal_resolution info → 0 ≤ i → 0 ≤ k →
  band_color info (k + 1) i
  = if decide (Exists (covers info i) (band_pixels (y_steps * k)))
    then Some ((color_steps * k) mod 256) else band_color info k i.
Proof.
  intros Hp Hh Hi Hk. unfold band_color. set (y := i / bytes_per_pixel info / horizontal_resolution info).
  assert (0 ≤ y) by (unfold y; repeat apply Z.div_pos; lia).
  destruct (decide (Exists _ _)) as [He | He]; rewrite covers_band in He by (unfold y_steps; lia); fold y in He; unfold y_steps in *.
  - rewrite decide_True by lia. do 3 f_equal. symmetry. apply (Z.div_unique_pos _ _ _ (y - 5 * k)); lia.
  - repeat case_decide; try done; exfalso; lia.
Qed.

(** The machine words of the next band do not overflow. *)
Definition fits (info : FrameBufferInfo) (k : Z) : Prop :=
  pixel_start info 100 (y_steps * (k + 1)) + bytes_per_pixel info < 2 ^ 64.

Lemma draw_band_shows (info : FrameBufferInfo) (start : list Z) (k : Z) (v : Video) :
  100 ≤ horizontal_resolution info → 0 ≤ k → fits info k → shows info start k v →
  ∃ v', draw_band (y_steps * k) ((color_steps * k) mod 256) v = Done (v', tt) ∧ shows info start (k + 1) v'.
Proof.
  intros Hh Hk Hf (b & Hv & Hl & Hb). pose proof (vo_bpp _ _ _ Hv) as Hp. unfold fits, pixel_start in Hf.
  assert (y_steps * k + y_steps < 2 ^ 64) as Hw by (unfold y_steps in *; nia).
  unfold draw_band. rewrite (M_bind_lift _ (y_steps * k + y_steps)) by (apply arith_in; unfold uint, y_steps in *; lia).
  replace (y_steps * k + y_steps - y_steps * k) with y_steps by lia.
  rewrite <- (for_each_nested (λ q, draw q.1 q.2 (gray ((color_steps * k) mod 256)))).
  destruct (draw_pixels info ((color_steps * k) mod 256) (band_pixels (y_steps * k)) b v Hv)
    as (v' & b' & Hr & Hv' & Hl' & Hb').
  { apply list.Forall_forall. intros q Hq%elem_of_band_pixels. unfold pixel_start, y_steps in *. nia. }
  exists v'. split; [exact Hr |]. exists b'. split; [done |]. split; [congruence |]. intros i Hi. unfold len in *.
  rewrite Hb', Hb, band_color_next by lia. by repeat case_decide.
Qed.

(** Before the first band the screen is as it was. *)
Lemma shows_nothing (info : FrameBufferInfo) (start : list Z) (v : Video) :
  1 ≤ horizontal_resolution info → video_ok v info start → shows info start 0 v.
Proof.
  intros Hh Hv. exists start. do 2 (split; [done |]). intros i _. pose proof (vo_bpp _ _ _ Hv).
  unfold band_color. rewrite decide_False; [done |].
  assert (0 ≤ Z.of_nat i / bytes_per_pixel info / horizontal_resolution info) by (repeat apply Z.div_pos; lia).
  unfold y_steps. lia.
Qed.

Context `{!SleepLaws Sl N}.

(** C32: the tetris task paints band after band.  On a screen at least a hundred
    pixels wide, and while the machine words fit, a poll of the task returns,
    after one round of its loop at most; if its sleep is not over it draws
    nothing, and otherwise exactly the next band: the screen then shows, on
    what it showed at the start, the bands so far and nothing else, each five
    rows of a hundred pixels and two shades brighter than the one above,
    modulo 256. *)
Theorem tetris_bands (info : FrameBufferInfo) (start : list Z) (k waker : Z) (t : Tetris) (s : Screen) (fuel : nat) :
  100 ≤ horizontal_resolution info → fits info k → drawn info start k t s →
  ∃ s' t', poll_tetris (S fuel) t waker s = Done (s', t')
    ∧ drawn info start (if awake t s then k + 1 else k) t' s'.
Proof.
  intros Hh Hf [Hs Ht].
  assert (∀ s, shows info start k (video s) → 0 ≤ k → ∃ s' t',
    frame (S fuel) (y_steps * k) ((color_steps * k) mod 256) waker s = Done (s', t') ∧ drawn info start (k + 1) t' s') as Hframe.
  { clear s Hs Ht. intros s Hs Hk. destruct (draw_band_shows info start k (video s) Hh Hk Hf Hs) as (v' & Hd & Hs').
    assert (y_steps * k + y_steps < 2 ^ 64) as Hw.
    { destruct Hs as (b & Hv & _). pose proof (vo_bpp _ _ _ Hv). unfold fits, pixel_start, y_steps in *. nia. }
    cbn [frame]. unfold on_video. erewrite M_bind_run by (apply zoom_run; exact Hd).
    rewrite (M_bind_lift _ (y_steps * k + y_steps)) by (apply arith_in; unfold uint, y_steps in *; lia).
    destruct (sleep_first 10 waker (clock s)) as (sl & n & Hn).
    unfold on_clock. erewrite M_bind_run by (apply zoom_run; exact Hn). eexists _, _. split; [reflexivity |].
    split; [exact Hs' |]. unfold y_steps, color_steps, cast. rewrite Zplus_mod_idemp_l. 
    split; [lia |]. split; [lia |]. f_equal; lia. }
  destruct t as [| y color sl]; cbn [poll_tetris awake].
  - subst k. rewrite (M_bind_run _ _ _ _ _ eq_refl). by apply Hframe.
  - destruct Ht as (Hk & -> & ->). destruct (sleep_later sl waker (clock s)) as (sl' & n & Hn).
    unfold on_clock. erewrite M_bind_run by (apply zoom_run; exact Hn). cbn [fst snd].
    destruct (expired sl (clock s)); [apply Hframe; [exact Hs | lia] |].
    eexists _, _. split; [reflexivity |]. split; [exact Hs | done].
Qed.

End tetris.

(** ** A timer that counts ticks *)

Module Ticking.

(** A sleep before its first poll, and one that waits for a tick. *)
Inductive Ticks := Asleep (duration : Z) | Until (tick : Z).

#[global] Instance Ticks_sleep : Sleep Ticks Z := {
  sleep_ms := Asleep;
  poll_sleep sl _ := fun now =>
    match sl with
    | Asleep d => Done (now, (Until (now + d / 10), Pending))
    | Until tick => Done (now, (sl, if tick <=? now then Ready tt else Pending))
    end }.

#[global] Instance Ticks_laws : SleepLaws Ticks Z.
Proof.
  refine {| expired := λ sl now, match sl with Asleep _ => false | Until tick => tick <=? now end |}.
  - intros d w n. by exists (Until (n + d / 10)), n.
  - intros [d | tick] w n; eexists _, _; reflexivity.
Defined.

(** Six rows of a hundred pixels of three bytes. *)
Definition info : FrameBufferInfo := {| byte_len := 1800; horizontal_resolution := 100; bytes_per_pixel := 3 |}.
Definition blank : list Z := replicate 1800 7.
Definition screen : Screen (N := Z) :=
  {| video := {| INFO := Some info; BUFFER := Some blank |}; clock := 0; infos := [] |}.

Lemma drawn_blank : drawn (Sl := Ticks) info blank 0 TtStart screen.
Proof. split; [| done]. apply shows_nothing; [cbn; lia |]. split; vm_compute; congruence. Qed.

Lemma tetris_bands_witness :
  ∃ s' t', poll_tetris (B := debug_build) 1 (TtStart (Sl := Ticks)) 0 screen = Done (s', t') ∧ drawn info blank 1 t' s'.
Proof.
  apply (tetris_bands (B := debug_build) info blank 0 0 TtStart screen 0);
    [vm_compute; congruence | vm_compute; reflexivity | exact drawn_blank].
Defined.

(** A poll draws the first band, a second one too early nothing, and the next
    band starts one shade step brighter. *)
Example two_bands :
  (t ← poll_tetris (B := debug_build) 1 (TtStart (Sl := Ticks)) 0;
   t ← poll_tetris (B := debug_build) 1 t 0;
   _ ← on_clock (modify (λ now, now + 1));
   _ ← poll_tetris (B := debug_build) 1 t 0;
   v ← gets video;
   mret ((λ b : list Z, (b !! 0%nat, b !! 1499%nat, b !! 1500%nat, b !! 1799%nat)) <$> BUFFER v)) screen
  = Done ({| video := {| INFO := Some info; BUFFER := Some (replicate 1500 0 ++ replicate 297 2 ++ [7; 7; 7]) |};
             clock := 1; infos := ["Starting Tetris"] |},
          Some (Some 0, Some 0, Some 2, Some 7)).
Proof. vm_compute. reflexivity. Qed.

End Ticking.
