(* ===== verification/NetSetup.v ===== *)
(** * Setting up networking

    [E1000Driver::new] of [src/src/hardware/device.rs], the set-up of the
    network extension ([NetworkExtension::setup] of
    [src/src/extensions/networking.rs]) and the dispatch of its interrupt
    ([network_interrupt], and [handle_interrupt] of [networking/interrupt.rs]).

    All cards share the machine's memory and registers; each has rings of its
    own, so a boxed device is a card together with its rings, which are put
    in place while it runs.  The statics of the extension are [Once] cells. *)

From stdpp Require Import base tactics list gmap numbers.
From Stdlib Require Import ZArith Lia.
From S2P Require Import Prelude Queue Buffer Ethernet Interrupts Device Handler Regs Pci E1000.

Local Open Scope Z_scope.

Section setup.
Context (Q : Type → Type) {H T : Type} `{QueueOps Q} `{PortOps H} `{Mmio H} `{Idt T} {B : Build}.
Context (translate_addr : Z → option Z).
(** [jiffy::queue()] and [jiffy::async_queue()] *)
Context (jiffy : ∀ A, Q A).
(** A bound on the reads of one EEPROM access. *)
Context (fuel : nat).
(** The address of [network_interrupt]. *)
Context (network_interrupt_fn : Z).

(** ** Devices *)

Record Nic := {
  nic_card : E1000Card Q;
  nic_rx : list RxDesc;
  nic_tx : list TxDesc }.

(** The machine with the rings of a card in place, and back. *)
Definition view (n : Nic) (m : Machine Q (H := H)) : Machine Q (H := H) :=
  set_tx_ring Q (set_rx_ring Q m (nic_rx n)) (nic_tx n).
Definition nic_of (c : E1000Card Q) (m : Machine Q (H := H)) : Nic :=
  {| nic_card := c; nic_rx := rx_ring Q m; nic_tx := tx_ring Q m |}.

(** [E1000Driver::new].  The notification closure is identified by its card. *)
Definition driver_new (id : Z) (device : Pci.Device) (offset : Z) :
    M (Machine Q (H := H)) (result (Nic * NetworkingMetadata * PacketQueueSender Q) unit) :=
  _ ← on_hw Q (enable_bus_mastering device);
  match header_type device with
  | Generic base_addresses _ _ =>
      bar ← lift (index base_addresses 0);
      let queue := jiffy Ethernet.Packet in
      card ← init Q translate_addr id bar offset queue;
      let sender := {| sender_queue := queue; notify := id |} in
      _ ← enable_interrupts Q card;
      mac ← on_hw Q (read_mac_address Q fuel card);
      let meta := {| mac := mac; ip := None; dhcp := Device.Initial |} in
      nic ← gets (nic_of card);
      mret (Ok (nic, meta, sender))
  | UnknownHeader _ => mret (Err tt)
  end.

(** ** The extension *)

Definition is_e1000 (header : Pci.Device) : bool :=
  (hdr_id (generic header) =? 0x100E) && (vendor_id (generic header) =? 0x8086).

(** The closure of [filter_map]. *)
Definition setup_device (offset id : Z) (header : Pci.Device) :
    M (Machine Q (H := H)) (option (NetworkDevice Q * Nic)) :=
  if is_e1000 header then
    r ← driver_new id header offset;
    match r with
    | Ok (nic, meta, n_queue) =>
        mac ← on_hw Q (read_mac_address Q fuel (nic_card nic));
        mret (Some ({| id := card_id Q (nic_card nic); dev_mac := mac; packet_queue := n_queue;
                       metadata := meta; udp_bindings := ∅ |}, nic))
    | Err _ => mret None
    end
  else mret None.

(** [pci_devices().enumerate().filter_map(..).unzip()]: the scan is lazy, so a
    device is set up before the next slot is looked at. *)
Fixpoint setup_devices (offset next : Z) (l : list (Z * Z)) :
    M (Machine Q (H := H)) (list (NetworkDevice Q * Nic)) :=
  match l with
  | [] => mret []
  | (b, s) :: l =>
      d ← on_hw Q (load_device b s);
      match d with
      | None => setup_devices offset next l
      | Some header =>
          r ← setup_device offset next header;
          rest ← setup_devices offset (next + 1) l;
          mret (match r with Some x => x :: rest | None => rest end)
      end
  end.

(** [int_locked] tells whether the lock of [INT_DEVICES] is held; the queue of
    [HANDLE_QUEUE], once it is there, is the machine's [handler_queue]; [eois]
    are the interrupts whose end the controllers were told. *)
Record NetState := {
  machine : Machine Q (H := H);
  cpu : Cpu (T := T);
  INT_DEVICES : option (list Nic);
  int_locked : bool;
  DEVICE_QUEUES : option (gmap Z (PacketQueueSender Q));
  HANDLE_QUEUE : bool;
  IPS : option IpMap;
  eois : list Z }.

Definition on_machine {A} (k : M (Machine Q (H := H)) A) : M NetState A := fun s =>
  match k (machine s) with
  | Done (m, a) =>
      Done ({| machine := m; cpu := cpu s; INT_DEVICES := INT_DEVICES s; int_locked := int_locked s;
               DEVICE_QUEUES := DEVICE_QUEUES s; HANDLE_QUEUE := HANDLE_QUEUE s; IPS := IPS s; eois := eois s |}, a)
  | Panicked why => Panicked why
  | OutOfFuel => OutOfFuel
  end.

Definition on_cpu {A} (k : M (Cpu (T := T)) A) : M NetState A := fun s =>
  match k (cpu s) with
  | Done (c, a) =>
      Done ({| machine := machine s; cpu := c; INT_DEVICES := INT_DEVICES s; int_locked := int_locked s;
               DEVICE_QUEUES := DEVICE_QUEUES s; HANDLE_QUEUE := HANDLE_QUEUE s; IPS := IPS s; eois := eois s |}, a)
  | Panicked why => Panicked why
  | OutOfFuel => OutOfFuel
  end.

(** [init_devices] and the three other [call_once]s: a cell keeps its first
    value. *)
Definition init_statics (devices : list Nic) (network_devices : list (NetworkDevice Q)) (s : NetState) : NetState :=
  {| machine :=
       if HANDLE_QUEUE s then machine s else set_handler_queue Q (machine s) (jiffy HandlerMessage);
     cpu := cpu s;
     INT_DEVICES := match INT_DEVICES s with Some l => Some l | None => Some devices end;
     int_locked := int_locked s;
     DEVICE_QUEUES :=
       match DEVICE_QUEUES s with
       | Some q => Some q
       | None => Some (foldl (λ q d, <[id d := packet_queue d]> q) ∅ network_devices)
       end;
     HANDLE_QUEUE := true;
     IPS := match IPS s with Some i => Some i | None => Some ipmap_new end;
     eois := eois s |}.

(** [NetworkExtension::setup]: the devices its task starts with, or [None]
    for a task that only reports the missing memory mapping. *)
Definition setup (memory_offset : option Z) : M NetState (option (list (NetworkDevice Q))) :=
  match memory_offset with
  | None => mret None
  | Some offset =>
      pairs ← on_machine (setup_devices offset 0 slots);
      let network_devices := map fst pairs in
      let devices := map snd pairs in
      _ ← modify (init_statics devices network_devices);
      _ ← on_cpu (set_interrupt (PIC_1_OFFSET + 0xb) network_interrupt_fn);
      mret (Some network_devices)
  end.

(** [NetworkHandle::obtain] *)
Definition obtain (s : NetState) : option (gmap Z (PacketQueueSender Q)) := DEVICE_QUEUES s.

(** ** Interrupts *)

(** One round of the loop of [interrupt::handle_interrupt]. *)
Definition run_nic (n : Nic) : M (Machine Q (H := H)) Nic := fun m =>
  if handles_interrupt Q (nic_card n) 0xb then
    match E1000.handle_interrupt Q translate_addr (nic_card n) (view n m) with
    | Done (m, c) => Done (m, nic_of c m)
    | Panicked why => Panicked why
    | OutOfFuel => OutOfFuel
    end
  else Done (m, n).

(** [interrupt::handle_interrupt] *)
Definition dispatch : M NetState unit := fun s =>
  if HANDLE_QUEUE s then
    match INT_DEVICES s with
    | None => Panicked UnwrapFailed
    | Some devices =>
        if int_locked s then Done (s, tt)
        else
          match for_mut run_nic devices (machine s) with
          | Done (m, devices) =>
              Done ({| machine := m; cpu := cpu s; INT_DEVICES := Some devices; int_locked := int_locked s;
                       DEVICE_QUEUES := DEVICE_QUEUES s; HANDLE_QUEUE := HANDLE_QUEUE s; IPS := IPS s;
                       eois := eois s |}, tt)
          | Panicked why => Panicked why
          | OutOfFuel => OutOfFuel
          end
    end
  else Done (s, tt).

(** [PICS.lock().notify_end_of_interrupt(id)] *)
Definition end_of_interrupt (id : Z) : M NetState unit :=
  modify (λ s, {| machine := machine s; cpu := cpu s; INT_DEVICES := INT_DEVICES s; int_locked := int_locked s;
                  DEVICE_QUEUES := DEVICE_QUEUES s; HANDLE_QUEUE := HANDLE_QUEUE s; IPS := IPS s;
                  eois := eois s ++ [id] |}).

(** [network_interrupt] *)
Definition network_interrupt : M NetState unit :=
  _ ← dispatch;
  end_of_interrupt (PIC_1_OFFSET + 0xb).

End setup.

Arguments nic_card {Q} _.
Arguments nic_rx {Q} _.
Arguments nic_tx {Q} _.
Arguments view {Q H} _ _.
Arguments nic_of {Q H} _ _.
Arguments machine {Q H T} _.
Arguments cpu {Q H T} _.
Arguments INT_DEVICES {Q H T} _.
Arguments int_locked {Q H T} _.
Arguments DEVICE_QUEUES {Q H T} _.
Arguments HANDLE_QUEUE {Q H T} _.
Arguments IPS {Q H T} _.
Arguments eois {Q H T} _.
