(* ===== verification/NetCards.v ===== *)
(** * Several cards

    The interrupt dispatch of [NetSetup] with any number of cards: the
    invariant of each ([E1000Safe]) is kept by the work of the others, because
    their registers and boxes are separate. *)

From stdpp Require Import base tactics list gmap numbers relations.
From Stdlib Require Import ZArith Lia.
From S2P Require Import Prelude Queue Buffer Ethernet Interrupts Device Handler Regs Pci E1000 E1000Rx E1000Tx E1000Init E1000Frame E1000Safe NetSetup.

Local Open Scope Z_scope.

Section cards.
Context {Q : Type → Type} {H : Type} `{QueueLaws Q} `{!UnboundedQueue Q} `{Mmio H} `{!RegLaws H}.
Context {B : Build} (translate : Z → option Z) (Hmapped : ∀ p, is_Some (translate p)).

Implicit Types (n : Nic Q) (ns : list (Nic Q)) (m : Machine Q (H := H)) (c : E1000Card Q).

Record nic_inv n m : Prop := {
  ni_tx : tx_inv (nic_card n) (view n m);
  ni_rx : rx_ok (nic_card n) (view n m);
  ni_below : ∀ i p, rx_buffers Q (nic_card n) !! i = Some p → p < next_box Q m }.

(** No register and no box in common. *)
Definition separated n n' : Prop :=
  (∀ a, card_reg (com Q (nic_card n)) a → ¬ card_reg (com Q (nic_card n')) a)
  ∧ (∀ i j p, tx_buffers Q (nic_card n) !! i = Some p → p ≠ 0 → tx_buffers Q (nic_card n') !! j ≠ Some p).

Record nics_inv ns m : Prop := {
  ns_all : ∀ i n, ns !! i = Some n → nic_inv n m;
  ns_separated : ∀ i j n n', i ≠ j → ns !! i = Some n → ns !! j = Some n' → separated n n';
  ns_boxes : ∀ p, is_Some (boxes Q m !! p) → p < next_box Q m;
  ns_next : 0 < next_box Q m;
  ns_open : q_is_closed (handler_queue Q m) = false }.

(** What a card relies on from the rest of the machine. *)
Record undisturbed n m m' : Prop := {
  un_reg : ∀ a, stores a = true → card_reg (com Q (nic_card n)) a → reg (hw Q m') a = reg (hw Q m) a;
  un_boxes : ∀ i p, tx_buffers Q (nic_card n) !! i = Some p → p ≠ 0 → boxes Q m' !! p = boxes Q m !! p;
  un_memory : ∀ p data, p < next_box Q m → rx_memory Q m !! p = Some data → length data = 2064%nat →
    ∃ data', rx_memory Q m' !! p = Some data' ∧ length data' = 2064%nat;
  un_next : next_box Q m ≤ next_box Q m';
  un_range : ∀ p, is_Some (boxes Q m' !! p) → p < next_box Q m';
  un_open : q_is_closed (handler_queue Q m') = false }.

Lemma nic_inv_undisturbed n m m' : nic_inv n m → undisturbed n m m' → nic_inv n m'.
Proof.
  intros [[[Hcom Hcur Hlr Hlb] Hlast Hst Hhead Htail [Hlive Hdis] Hrange Hnext Hsent Hpend] Hrx Hbelow] [Hreg Hbox Hmem Hle Hr Ho].
  assert (∀ r, r ∈ ring_regs → reg (hw Q m') (reg_address (com Q (nic_card n)) r)
    = reg (hw Q m) (reg_address (com Q (nic_card n)) r)) as Hring.
  { intros r Hin. apply Hreg; [by apply Hst |]. apply card_reg_address; [done |].
    by apply ring_regs_bounds. }
  assert (head (nic_card n) (view n m') = head (nic_card n) (view n m)) as Eh by (apply Hring; in_ring).
  assert (tail (nic_card n) (view n m') = tail (nic_card n) (view n m)) as Et by (apply Hring; in_ring).
  split.
  - split; rewrite ?Eh, ?Et; try done; [split | cbn in *; lia].
    + intros k p Hk Hp. cbn. rewrite (Hbox k p Hk Hp). by apply (Hlive k).
    + intros k j p Hk Hj Hp. by apply (Hdis k j p).
  - destruct Hrx as [Hcom' Hcur' Hlr' Hlb' Hlive' Hlen' Hopen']. split; try done. intros i p Hi.
    destruct (Hlive' i p Hi) as (data & Hd & Hl). apply (Hmem p data); [by apply (Hbelow i) | done | done].
  - intros i p Hi. specialize (Hbelow i p Hi). lia.
Qed.

(** The work of one card does not disturb another. *)
Lemma leaves_undisturbed n n2 m c' m' :
  separated n n2 → nic_inv n2 m → leaves (nic_card n) (view n m) c' m' →
  (∀ p, is_Some (boxes Q m' !! p) → p < next_box Q m') → q_is_closed (handler_queue Q m') = false →
  undisturbed n2 m m'.
Proof.
  intros [Hsr Hsb] [[_ _ _ _ _ [Hlive _] Hrange _ _ _] _ _] [Hreg _ _ _ Hmem Hle Hbox _] Hr Ho. split; try done.
  - intros a Ha Hc. apply Hreg; [done |]. intros Hc'. by apply (Hsr a).
  - intros i p Hi Hp. apply Hbox; [done | |].
    + apply Hrange. by eapply Hlive.
    + intros j Hj. by apply (Hsb j i p).
  - intros p data _. apply Hmem.
Qed.

Lemma leaves_separated n n2 m c' m' :
  separated n n2 → nic_inv n2 m → leaves (nic_card n) (view n m) c' m' →
  separated (nic_of c' m') n2 ∧ separated n2 (nic_of c' m').
Proof.
  intros [Hsr Hsb] [[_ _ _ _ _ [Hlive _] Hrange _ _ _] _ _] [_ Hcom _ _ _ _ _ Hbufs]. cbn in *.
  assert (∀ i j p, tx_buffers Q c' !! i = Some p → p ≠ 0 → tx_buffers Q (nic_card n2) !! j ≠ Some p) as Hdis.
  { intros i j p Hi Hp Hj. destruct (Hbufs i p Hi Hp) as [[k Hk] | Hge]; [by apply (Hsb k j p) |].
    specialize (Hrange p (Hlive j p Hj Hp)). lia. }
  split; split; cbn [nic_card nic_of]; rewrite ?Hcom.
  - done.
  - done.
  - intros a H2a H1a. by apply (Hsr a).
  - intros i j p Hi Hp Hj. by apply (Hdis j i p).
Qed.

(** One card works. *)
Lemma nics_update ns i n m c' m' :
  nics_inv ns m → ns !! i = Some n → leaves (nic_card n) (view n m) c' m' → tx_inv c' m' → rx_ok c' m' →
  nics_inv (<[i := nic_of c' m']> ns) m'.
Proof.
  intros [Hall Hsep Hb Hnx Ho] Hi Hlv Htx Hrx. pose proof (Hall i n Hi) as [Htx0 _ Hbelow].
  assert (view (nic_of c' m') m' = m') as Ev by by destruct m'.
  pose proof (ti_range _ _ Htx) as Hr'. pose proof (rx_open _ _ Hrx) as Ho'. pose proof (ti_next _ _ Htx) as Hn'.
  split; try done.
  - intros j n2 Hj. apply list_lookup_insert_Some in Hj as [(<- & <- & _) | [Hne Hj]].
    + split; rewrite ?Ev; try done. cbn [nic_card nic_of]. rewrite (lv_rx _ _ _ _ Hlv). intros k p Hk.
      specialize (Hbelow k p Hk). pose proof (lv_next _ _ _ _ Hlv) as Hle. cbn in Hle. lia.
    + eapply nic_inv_undisturbed; [by eapply Hall |].
      eapply leaves_undisturbed; [by eapply (Hsep i j) | by eapply Hall | done | done | done].
  - intros j k n1 n2 Hjk Hj Hk.
    apply list_lookup_insert_Some in Hj as [(<- & <- & _) | [Hne Hj]];
      apply list_lookup_insert_Some in Hk as [(<- & <- & _) | [Hne' Hk]]; try done; [| | by eapply (Hsep j k)].
    + by apply (leaves_separated n n2 m); [eapply (Hsep i k) | eapply Hall |].
    + by apply (leaves_separated n n1 m); [eapply (Hsep i j) | eapply Hall |].
Qed.

(** ** Dispatching an interrupt *)

(** Every card's interrupt handler has run, once, in the order of the list,
    each with its own rings on the machine the one before it left. *)
Inductive served : list (Nic Q) → Machine Q (H := H) → list (Nic Q) → Machine Q (H := H) → Prop :=
  | served_none m : served [] m [] m
  | served_card n ns m c m1 ns' m' :
      E1000.handle_interrupt Q translate (nic_card n) (view n m) = Done (m1, c) →
      served ns m1 ns' m' →
      served (n :: ns) m (nic_of c m1 :: ns') m'.

(** One card's handler returns and keeps the invariant of all. *)
Lemma serve_card ns i n m :
  nics_inv ns m → ns !! i = Some n →
  ∃ c m', E1000.handle_interrupt Q translate (nic_card n) (view n m) = Done (m', c)
    ∧ nics_inv (<[i := nic_of c m']> ns) m' ∧ card_id Q c = card_id Q (nic_card n).
Proof.
  intros Hns Hi. destruct (ns_all _ _ Hns i n Hi) as [Htx Hrx _].
  destruct (interrupt_inv translate Hmapped _ _ Htx Hrx) as (c' & m' & Hr & Htx' & Hrx' & Hlv).
  exists c', m'. split; [done |]. split; [by eapply nics_update | apply (lv_id _ _ _ _ Hlv)].
Qed.

(** The dispatch serves the cards. *)
Lemma run_nics pre todo m :
  nics_inv (pre ++ todo) m →
  ∃ todo' m', for_mut (run_nic Q translate) todo m = Done (m', todo') ∧ served todo m todo' m'
    ∧ nics_inv (pre ++ todo') m'
    ∧ map (λ n, card_id Q (nic_card n)) todo' = map (λ n, card_id Q (nic_card n)) todo.
Proof.
  revert pre m. induction todo as [| n todo IH]; intros pre m Hns; cbn [for_mut].
  { exists [], m. split; [done |]. split; [constructor | done]. }
  destruct (serve_card (pre ++ n :: todo) (length pre) n m Hns) as (c & m1 & Hr & Hns1 & Hid).
  { apply list_lookup_middle. done. }
  erewrite M_bind_run by (unfold run_nic, handles_interrupt; cbn [Z.eqb Pos.eqb]; rewrite Hr; reflexivity).
  rewrite insert_app_r_alt, Nat.sub_diag in Hns1 by lia. cbn in Hns1.
  rewrite cons_middle, app_assoc in Hns1. destruct (IH _ _ Hns1) as (todo' & m' & Hr' & Hs' & Hns' & Hids).
  rewrite (M_bind_run _ _ _ _ _ Hr'). exists (nic_of c m1 :: todo'), m'. split; [done |].
  split; [by econstructor |]. rewrite <- app_assoc in Hns'. cbn. by rewrite Hid, Hids.
Qed.

Lemma served_det ns m ns1 m1 ns2 m2 : served ns m ns1 m1 → served ns m ns2 m2 → ns1 = ns2 ∧ m1 = m2.
Proof.
  intros Hs. revert ns2 m2. induction Hs as [m | n ns m c m1 ns' m' Hr _ IH]; intros ns2 m2 Hs2; inversion Hs2; subst; [done |].
  match goal with He : E1000.handle_interrupt _ _ _ _ = Done _ |- _ => rewrite Hr in He; injection He as <- <- end.
  match goal with Ht : served ns _ _ _ |- _ => by destruct (IH _ _ Ht) as [-> ->] end.
Qed.

Lemma served_inv ns m ns' m' : served ns m ns' m' → nics_inv ns m → nics_inv ns' m'.
Proof.
  intros Hs Hns. destruct (run_nics [] ns m Hns) as (ns1 & m1 & _ & Hs1 & Hns1 & _).
  by destruct (served_det _ _ _ _ _ _ Hs Hs1) as [-> ->].
Qed.

(** ** Any course of events *)

(** The cards get an interrupt, one after the other; or something happens at
    one card, which only it notices. *)
Inductive net_step : list (Nic Q) * Machine Q (H := H) → list (Nic Q) * Machine Q (H := H) → Prop :=
  | net_interrupt ns m ns' m' :
      served ns m ns' m' → net_step (ns, m) (ns', m')
  | net_card ns m i n c' m' :
      ns !! i = Some n → step translate (nic_card n, view n m) (c', m') →
      (∀ a, stores a = true → ¬ card_reg (com Q (nic_card n)) a → reg (hw Q m') a = reg (hw Q m) a) →
      net_step (ns, m) (<[i := nic_of c' m']> ns, m').

Lemma net_step_inv s s' : net_step s s' → nics_inv s.1 s.2 → nics_inv s'.1 s'.2.
Proof.
  intros Hs Hns. destruct Hs as [ns m ns' m' Hr | ns m i n c' m' Hi Hst Hregs]; cbn [fst snd] in *.
  - by eapply served_inv.
  - destruct (ns_all _ _ Hns i n Hi) as [Htx Hrx _].
    destruct (driver_step_inv translate Hmapped _ _ Hst (conj Htx Hrx)) as [Htx' Hrx'].
    pose proof (step_leaves translate Hmapped _ _ Hst Htx Hrx Hregs) as Hlv. by eapply nics_update.
Qed.

Lemma net_steps_inv s s' : rtc net_step s s' → nics_inv s.1 s.2 → nics_inv s'.1 s'.2.
Proof. induction 1; eauto using net_step_inv. Qed.

End cards.
