(* ===== verification/NetSetupSpec.v ===== *)
(** * Networking from power-on

    The set-up of [NetSetup] on a board: the cards it finds, the addresses
    they report, the bus mastering it enables, and the state in which
    interrupts can come in any order ([NetCards]).

    The hardware is a board ([Board]): a configuration space behind ports
    ([PciHost]), registers that store ([RegLaws]) and an EEPROM per card. *)

From stdpp Require Import base tactics list gmap numbers relations.
From Stdlib Require Import ZArith Lia.
From S2P Require Import Prelude Queue Buffer Ethernet Interrupts Device Handler Regs Pci E1000 E1000Rx E1000Tx E1000Init E1000Frame E1000Safe NetSetup NetCards Board.

Local Open Scope Z_scope.

(** ** One card *)

Section setup.
Context {Q : Type → Type} {H : Type} `{QueueLaws Q} `{!UnboundedQueue Q} `{Board H} {B : Build}.
Context (translate : Z → option Z) (Hmapped : ∀ p, is_Some (translate p)).
Context (jiffy : ∀ A, Q A) (fuel : nat).
(** A new queue is empty and open; EEPROM reads end in time. *)
Context (Hjiffy : ∀ A, q_items (jiffy A) = [] ∧ q_is_closed (jiffy A) = false).
Context (Hdelay : (eeprom_delay < 1000)%nat) (Hfuel : (eeprom_delay < fuel)%nat).

Implicit Types (m : Machine Q (H := H)) (d : Pci.Device).

Definition command_address d : Z := address (bus d) (slot d) (func d) PCI_COMMAND.

(** The registers of a device's card: its first base address. *)
Definition coms_of (offset : Z) d : Coms :=
  {| com_bar := match header_type d with Generic (bar :: _) _ _ => bar | _ => IOSpace 0 end; com_offset := offset |}.

Definition generic_header d : bool := match header_type d with Generic _ _ _ => true | UnknownHeader _ => false end.

(** A card whose registers are in memory, with a working EEPROM. *)
Definition works (offset : Z) d : Prop :=
  com_ok (coms_of offset d) ∧ regs_store (coms_of offset d) ∧ eerd (eerd_of (coms_of offset d)) = true.

(** Setting a card up adds to the machine and changes nothing else. *)
Record added (c : Coms) m m' : Prop := {
  ad_reg : ∀ a, stores a = true → ¬ card_reg c a → reg (hw Q m') a = reg (hw Q m) a;
  ad_words : ∀ a k, eeprom_word (hw Q m') a k = eeprom_word (hw Q m) a k;
  ad_boxes : boxes Q m' = boxes Q m;
  ad_queue : handler_queue Q m' = handler_queue Q m;
  ad_next : next_box Q m ≤ next_box Q m';
  ad_memory : ∀ p, p < next_box Q m → rx_memory Q m' !! p = rx_memory Q m !! p }.

Definition mastered d (cfg cfg' : Z → Z) : Prop :=
  cfg' (command_address d) = Z.lor (cfg (command_address d)) 4 ∧ ∀ a, a ≠ command_address d → cfg' a = cfg a.

(** The state of the machine a card can be set up in. *)
Record sane m : Prop := {
  sn_open : q_is_closed (handler_queue Q m) = false;
  sn_next : 0 < next_box Q m;
  sn_boxes : ∀ p, is_Some (boxes Q m !! p) → p < next_box Q m }.

Lemma bus_mastering_run d m :
  ∃ h, on_hw Q (enable_bus_mastering d) m = Done (set_hw Q m h, tt)
    ∧ mastered d (config (hw Q m)) (config h) ∧ ports_only (hw Q m) h.
Proof.
  destruct (enable_bus_mastering_spec d (hw Q m)) as (h & Hr & Hc). exists h. unfold on_hw. rewrite Hr.
  split; [done |]. split; [done |]. by eapply keeps_regs_bus_mastering.
Qed.

(** What a new card looks like. *)
Record fresh_nic (id : Z) (c : Coms) (n : Nic Q) : Prop := {
  fn_id : card_id Q (nic_card n) = id;
  fn_com : com Q (nic_card n) = c;
  fn_queue : card_queue Q (nic_card n) = jiffy Ethernet.Packet;
  fn_eeprom : has_eeprom Q (nic_card n) = true;
  fn_bufs : Forall (eq 0) (tx_buffers Q (nic_card n)) }.

(** The probe finds the EEPROM. *)
Lemma eeprom_detected c (h : H) :
  com_ok c → eerd (eerd_of c) = true →
  ∃ h', any_eeprom 1000 c (mmio_write h (eerd_of c) 1) = Done (h', true).
Proof.
  intros Hc He. destruct (eeprom_start h (eerd_of c) 0 He ltac:(lia)) as (d & Hd & Hbusy).
  exact (any_eeprom_found 1000 c _ 0 d Hc He Hbusy ltac:(lia)).
Qed.


(** The card's part: from [init] to the reading of its address. *)
Lemma card_run id c m :
  com_ok c → regs_store c → eerd (eerd_of c) = true → sane m →
  ∃ n m', (card ← init Q translate id (com_bar c) (com_offset c) (jiffy Ethernet.Packet);
           _ ← enable_interrupts Q card;
           mac ← on_hw Q (read_mac_address Q fuel card);
           nic ← gets (nic_of card);
           mret (nic, mac)) m = Done (m', (n, eeprom_mac (hw Q m) c))
    ∧ nic_inv n m' ∧ fresh_nic id c n ∧ added c m m' ∧ config (hw Q m') = config (hw Q m).
Proof.
  intros Hc Hs He [Ho Hn Hb].
  assert ({| com_bar := com_bar c; com_offset := com_offset c |} = c) as Ec by by destruct c.
  destruct (init_run translate Hmapped id (com_bar c) (com_offset c) (jiffy Ethernet.Packet) m)
    as (card & m2 & rx & tx & Hr & Hid & Hq & Hcom & _ & _ & _ & _ & _ & _ & Hbufs & _ & _ & _ & h0 & Hany & Hrxb & Hnx);
    rewrite ?Ec; try done. rewrite Ec in Hcom, Hany.
  destruct (init_inv translate Hmapped id (com_bar c) (com_offset c) (jiffy Ethernet.Packet) m m2 card)
    as [Htx Hrx]; rewrite ?Ec; try done.
  destruct (keeps_init c translate id (jiffy Ethernet.Packet) m m2 card Hr) as [Hacc Hbx Hhq Hnxt Hmem].
  assert (has_eeprom Q card = true) as Hee.
  { destruct (eeprom_detected c (mmio_read (hw Q m) (reg_address c REG_STATUS)).1 Hc He) as [h1 Hany'].
    unfold eerd_of in Hany'. congruence. }
  rewrite (M_bind_run _ _ _ _ _ Hr). rewrite <- Hcom in Hc, Hs, He.
  destruct (enable_interrupts_run card m2 Hc Hs) as (h3 & Hr3 & Hsame3 & Hreg3 & Hw3).
  rewrite (M_bind_run _ _ _ _ _ Hr3).
  destruct (read_mac_run fuel card h3 Hc He Hee Hfuel) as (h4 & Hr4 & Hreg4 & Hw4).
  assert (on_hw Q (read_mac_address Q fuel card) (set_hw Q m2 h3)
    = Done (set_hw Q m2 h4, eeprom_mac h3 (com Q card))) as Hr4' by (unfold on_hw; cbn [hw set_hw]; by rewrite Hr4).
  rewrite (M_bind_run _ _ _ _ _ Hr4'), (M_bind_run _ _ _ _ _ eq_refl).
  assert (∀ r, r ∈ ring_regs → reg_address (com Q card) r ≠ eerd_of (com Q card)) as Hring.
  { intros r Hin. apply Z.eqb_neq. unfold eerd_of. rewrite reg_address_eqb by done.
    by apply ring_regs_bounds. }
  assert (same_ring card (hw Q m2) h4) as Hsame4.
  { destruct Hsame3 as [S1 S2]. split; rewrite Hreg4, ?S1, ?S2; try done; (apply Hs || apply Hring); in_ring. }
  assert (∀ a k, eeprom_word h3 a k = eeprom_word (hw Q m) a k) as Hwords.
  { intros a k. rewrite Hw3. by eapply accessed_words. }
  eexists (nic_of card (set_hw Q m2 h4)), _. split.
  { unfold mret, M_ret, eeprom_mac. rewrite Hcom. cbn [flat_map app]. by rewrite !Hwords. }
  split_and!.
  - split.
    + change (view _ (set_hw Q m2 h4)) with (set_hw Q m2 h4). by apply tx_inv_hw.
    + change (view _ (set_hw Q m2 h4)) with (set_hw Q m2 h4). by apply rx_ok_hw.
    + cbn. rewrite Hrxb, Hnx. intros i p Hp. apply lookup_seqZ in Hp. lia.
  - by split.
  - split; cbn; try done.
    + intros a Ha Hna. rewrite Hreg4, Hreg3; [by eapply accessed_reg | done | by rewrite Hcom | done |].
      intros ->. apply Hna. rewrite <- Hcom. apply card_reg_address; [done | reg_bound].
    + intros a k. by rewrite Hw4, Hwords.
  - cbn. assert (accessed c h3 h4) as Hacc4 by (eapply (keeps_read_mac c fuel card); done).
    assert (grows c m2 (set_hw Q m2 h3)) as [Hacc3 _ _ _ _] by (eapply (keeps_enable_interrupts c card); done).
    by rewrite (accessed_config c _ _ Hacc4), (accessed_config c _ _ Hacc3), (accessed_config c _ _ Hacc).
Qed.

(** The device the handler gets for a card. *)
Definition new_device (id : Z) (mac : list Z) : NetworkDevice Q :=
  {| id := id; dev_mac := mac; packet_queue := {| sender_queue := jiffy Ethernet.Packet; notify := id |};
     metadata := {| mac := mac; ip := None; dhcp := Device.Initial |}; udp_bindings := ∅ |}.

Lemma added_trans c m1 m2 m3 : added c m1 m2 → added c m2 m3 → added c m1 m3.
Proof.
  intros [R1 W1 B1 Q1 N1 M1] [R2 W2 B2 Q2 N2 M2]. split; [| | congruence | congruence | lia |].
  - intros a Ha Hna. by rewrite R2, R1.
  - intros a k. by rewrite W2, W1.
  - intros p Hp. rewrite M2, M1 by lia. done.
Qed.

Lemma added_ports c m h : ports_only (hw Q m) h → added c m (set_hw Q m h).
Proof. intros [Hr Hw]. split; cbn; try done; lia. Qed.

Lemma sane_added c m m' : sane m → added c m m' → sane m'.
Proof.
  intros [Ho Hn Hb] [_ _ Bx Qu Nx _]. split; [by rewrite Qu | lia |]. intros p. rewrite Bx. intros Hp.
  specialize (Hb p Hp). lia.
Qed.

Lemma mac_words h h' c : (∀ a k, eeprom_word h' a k = eeprom_word h a k) → eeprom_mac h' c = eeprom_mac h c.
Proof. intros Hw. unfold eeprom_mac. cbn [flat_map app]. by rewrite !Hw. Qed.

Lemma setup_device_run offset id d m :
  is_e1000 d = true → generic_header d = true → works offset d → sane m →
  ∃ n m', setup_device Q translate jiffy fuel offset id d m
      = Done (m', Some (new_device id (eeprom_mac (hw Q m) (coms_of offset d)), n))
    ∧ nic_inv n m' ∧ fresh_nic id (coms_of offset d) n ∧ added (coms_of offset d) m m'
    ∧ mastered d (config (hw Q m)) (config (hw Q m')).
Proof.
  intros He Hg (Hc & Hs & Hee) Hm. set (c := coms_of offset d) in *. unfold setup_device, driver_new. rewrite He.
  destruct (bus_mastering_run d m) as (h1 & Hr1 & Hma & Hpo).
  pose proof (added_ports c m h1 Hpo) as Ha1. pose proof (sane_added c _ _ Hm Ha1) as Hm1.
  destruct (card_run id c (set_hw Q m h1) Hc Hs Hee Hm1) as (n & m2 & Hr2 & Hinv & Hfr & Ha2 & Hcfg).
  assert (∃ bar bars x y, header_type d = Generic (bar :: bars) x y ∧ com_bar c = bar) as (bar & bars & x & y & Hh & Hbar).
  { unfold generic_header in Hg. unfold c, coms_of, com_ok in *. destruct (header_type d) as [[| bar bars] x y |]; try done.
    by exists bar, bars, x, y. }
  apply M_bind_done in Hr2 as (ma & card & Hri & Hr2). apply M_bind_done in Hr2 as (mb & [] & Hre & Hr2).
  apply M_bind_done in Hr2 as (mc & macs & Hrm & Hr2). rewrite (M_bind_run _ _ _ _ _ eq_refl) in Hr2.
  injection Hr2 as <- <- Emac.
  erewrite M_bind_run; last first.
  { rewrite (M_bind_run _ _ _ _ _ Hr1), Hh. rewrite (M_bind_lift _ bar _ _ eq_refl), <- Hbar. cbn zeta.
    change offset with (com_offset c).
    rewrite (M_bind_run _ _ _ _ _ Hri), (M_bind_run _ _ _ _ _ Hre), (M_bind_run _ _ _ _ _ Hrm).
    rewrite (M_bind_run _ _ _ _ _ eq_refl). reflexivity. }
  cbn beta iota. pose proof Hfr as [Hid Hcom Hq Hep Hbf]. cbn [nic_card nic_of] in *. rewrite <- Hcom in Hc, Hs, Hee.
  destruct (read_mac_run fuel card (hw Q mc) Hc Hee Hep Hfuel) as (h4 & Hr4 & Hreg4 & Hw4).
  assert (on_hw Q (read_mac_address Q fuel card) mc = Done (set_hw Q mc h4, eeprom_mac (hw Q mc) (com Q card))) as Hr4'
    by (unfold on_hw; by rewrite Hr4).
  rewrite (M_bind_run _ _ _ _ _ Hr4'). exists (nic_of card mc), (set_hw Q mc h4).
  pose proof (added_trans c _ _ _ Ha1 Ha2) as Ha.
  assert (macs = eeprom_mac (hw Q m) c) as Em1 by (rewrite Emac; apply mac_words, (ad_words _ _ _ Ha1)).
  assert (eeprom_mac (hw Q mc) (com Q card) = eeprom_mac (hw Q m) c) as Em2
    by (rewrite Hcom; apply mac_words, (ad_words _ _ _ Ha)).
  split; [unfold mret, M_ret, new_device; by rewrite Em1, Em2, Hid |].
  assert (added c mc (set_hw Q mc h4)) as Ha4.
  { split; cbn; try done. intros a Hst Hna. apply Hreg4; [done |]. intros ->. apply Hna. rewrite <- Hcom.
    apply card_reg_address; [done | reg_bound]. }
  split_and!; [| done | by eapply added_trans |].
  - assert (view (nic_of card mc) mc = mc) as Ev by by destruct mc.
    destruct Hinv as [Htx Hrx Hbelow]. rewrite Ev in Htx, Hrx. split; [| | done].
    + change (view _ _) with (set_hw Q mc h4). apply (tx_inv_hw (nic_card (nic_of card mc))); [exact Htx |].
      split; apply Hreg4; cbn [nic_card nic_of]; try (apply Hs; in_ring);
        apply Z.eqb_neq; unfold eerd_of; rewrite reg_address_eqb by done; reflexivity.
    + change (view _ _) with (set_hw Q mc h4). by apply (rx_ok_hw (nic_card (nic_of card mc))).
  - cbn. assert (accessed c (hw Q mc) h4) as Hacc by (eapply (keeps_read_mac c fuel card); done).
    rewrite (accessed_config c _ _ Hacc). by rewrite Hcfg.
Qed.

(** An E1000 whose header is not of the generic type is given up, after bus
    mastering was enabled for it. *)
Lemma setup_device_refused offset id d m :
  is_e1000 d = true → generic_header d = false →
  ∃ h, setup_device Q translate jiffy fuel offset id d m = Done (set_hw Q m h, None)
    ∧ mastered d (config (hw Q m)) (config h) ∧ ports_only (hw Q m) h.
Proof.
  intros He Hg. destruct (bus_mastering_run d m) as (h & Hr & Hma & Hpo). exists h. split; [| done].
  unfold setup_device, driver_new. rewrite He. unfold generic_header in Hg. destruct (header_type d); [done |].
  erewrite M_bind_run; last (by rewrite (M_bind_run _ _ _ _ _ Hr)). reflexivity.
Qed.

(** ** The scan *)

Definition regs_disjoint (c c' : Coms) : Prop := ∀ a, card_reg c a → ¬ card_reg c' a.

Lemma nics_kept c ns m m' :
  nics_inv ns m → added c m m' → (∀ i n, ns !! i = Some n → regs_disjoint (com Q (nic_card n)) c) → nics_inv ns m'.
Proof.
  intros [Hall Hsep Hb Hn Ho] Ha Hd.
  destruct (sane_added c m m' ltac:(by split) Ha) as [Ho' Hn' Hb']. destruct Ha as [Hr _ Hbx _ Hnx Hmem].
  split; try done. intros i n Hi. eapply nic_inv_undisturbed; [by eapply Hall |]. split; try done.
  - intros a Hst Hc. apply Hr; [done |]. by eapply Hd.
  - intros. by rewrite Hbx.
  - intros p data Hp Hd' Hl. exists data. by rewrite Hmem.
Qed.

Lemma nics_add id c ns n m m' :
  nics_inv ns m → added c m m' → (∀ i n, ns !! i = Some n → regs_disjoint (com Q (nic_card n)) c) →
  nic_inv n m' → fresh_nic id c n → nics_inv (ns ++ [n]) m'.
Proof.
  intros Hns Ha Hd Hn [_ Hcom _ _ Hz]. destruct (nics_kept c ns m m' Hns Ha Hd) as [Hall Hsep Hb Hnx Ho].
  assert (∀ i p, tx_buffers Q (nic_card n) !! i = Some p → p = 0) as Hzero.
  { intros i p Hi. eapply Forall_lookup_1 in Hz; [| exact Hi]. done. }
  split; try done.
  - intros i n2 [Hi | [_ Hi]]%lookup_app_Some; [by eapply Hall |].
    apply list_lookup_singleton_Some in Hi as [_ <-]. done.
  - intros i j n1 n2 Hij [Hi | [Hli Hi]]%lookup_app_Some [Hj | [Hlj Hj]]%lookup_app_Some.
    + by eapply (Hsep i j).
    + apply list_lookup_singleton_Some in Hj as [_ <-]. split; [rewrite Hcom; by eapply Hd |].
      intros k k' p _ Hp Hk. by apply Hp, (Hzero k').
    + apply list_lookup_singleton_Some in Hi as [_ <-]. split; [| intros k k' p Hk Hp; by apply Hzero in Hk].
      rewrite Hcom. intros a H1a H2a. by eapply (Hd j).
    + apply list_lookup_singleton_Some in Hi as [Ei _], Hj as [Ej _]. lia.
Qed.

(** The devices at some slots, their numbers, and the cards among them. *)
Definition found (cfg : Z → Z) (l : list (Z * Z)) : list Pci.Device := omap (λ '(b, s), device_at cfg b s) l.

Fixpoint numbered (next : Z) (ds : list Pci.Device) : list (Z * Pci.Device) :=
  match ds with [] => [] | d :: ds => (next, d) :: numbered (next + 1) ds end.

Definition cards (x : Z * Pci.Device) : Prop := is_e1000 x.2 = true ∧ generic_header x.2 = true.
#[local] Instance cards_dec x : Decision (cards x).
Proof. unfold cards. apply _. Defined.

Definition expected (cfg : Z → Z) (next : Z) (l : list (Z * Z)) : list (Z * Pci.Device) :=
  filter cards (numbered next (found cfg l)).

(** The command registers of the devices that are E1000s. *)
Definition commands (cfg : Z → Z) (l : list (Z * Z)) : list Z :=
  map command_address (filter (λ d, is_e1000 d = true) (found cfg l)).

Definition slot_ok (x : Z * Z) : Prop := 0 ≤ x.1 < 255 ∧ 0 ≤ x.2 < 32.

Lemma device_at_ext (cfg cfg' : Z → Z) b s :
  (∀ off, uint 8 off → cfg' (address b s 0 off) = cfg (address b s 0 off)) → device_at cfg' b s = device_at cfg b s.
Proof.
  intros Hext. unfold device_at, cfg_word, cfg_byte, cfg_dword. cbn [map]. unfold cfg_bar, cfg_dword.
  by rewrite !Hext by (by vm_compute).
Qed.

Lemma device_at_slot (cfg : Z → Z) b s d : device_at cfg b s = Some d → command_address d = address b s 0 4.
Proof. unfold device_at. case_match; [done |]. by intros [= <-]. Qed.

Lemma address_slot b s b' s' off off' :
  slot_ok (b, s) → slot_ok (b', s') → uint 8 off → uint 8 off' →
  address b s 0 off = address b' s' 0 off' → (b, s) = (b', s').
Proof.
  intros [Hb Hs] [Hb' Hs'] Ho Ho' E. cbn in *. unfold uint in *.
  rewrite !address_sum in E by (unfold uint; lia). change (2 ^ 8) with 256 in *.
  change (2 ^ 16) with 65536 in *. change (2 ^ 11) with 2048 in *.
  assert (b = b' ∧ s = s') as [-> ->]; [| done]. Z.to_euclidean_division_equations. lia.
Qed.

Lemma device_at_mastered (cfg cfg' : Z → Z) d b s b' s' :
  slot_ok (b, s) → slot_ok (b', s') → (b, s) ≠ (b', s') → command_address d = address b s 0 4 →
  mastered d cfg cfg' → device_at cfg' b' s' = device_at cfg b' s'.
Proof.
  intros Hs Hs' Hne Hd [_ Hm]. apply device_at_ext. intros off Ho. apply Hm. rewrite Hd. intros E.
  apply Hne. symmetry. by apply (address_slot b' s' b s off 4).
Qed.

Lemma found_mastered (cfg cfg' : Z → Z) d b s l :
  slot_ok (b, s) → Forall slot_ok l → (b, s) ∉ l → command_address d = address b s 0 4 →
  mastered d cfg cfg' → found cfg' l = found cfg l.
Proof.
  intros Hs HF Hn Hd Hm. unfold found. induction l as [| [b' s'] l IH]; [done |]. cbn.
  apply Forall_cons_1 in HF as [Hs' HF]. apply not_elem_of_cons in Hn as [Hne Hn].
  rewrite (device_at_mastered cfg cfg' d b s b' s'), IH by done. done.
Qed.

Lemma command_not_in (cfg : Z → Z) b s l :
  slot_ok (b, s) → Forall slot_ok l → (b, s) ∉ l → address b s 0 4 ∉ commands cfg l.
Proof.
  intros Hs HF Hn Hin. unfold commands in Hin. apply list_elem_of_fmap in Hin as (d & E & Hd).
  apply list_elem_of_filter in Hd as [_ Hd]. unfold found in Hd. apply list_elem_of_omap in Hd as ([b' s'] & Hin & Hd).
  apply device_at_slot in Hd. apply Hn. rewrite List.Forall_forall in HF. rewrite Hd in E.
  assert ((b, s) = (b', s')) as ->; [| done]. apply (address_slot b s b' s' 4 4); try done. by apply HF, list_elem_of_In.
Qed.

(** What a slot's device becomes. *)
Definition outcome_of (offset next : Z) (h : H) d (r : option (NetworkDevice Q * Nic Q)) : Prop :=
  match r with
  | Some (dev, n) => cards (next, d) ∧ dev = new_device next (eeprom_mac h (coms_of offset d))
                     ∧ fresh_nic next (coms_of offset d) n
  | None => ¬ cards (next, d)
  end.

Definition no_card : Coms := {| com_bar := IOSpace 0; com_offset := 0 |}.

Lemma no_card_disjoint c : regs_disjoint c no_card.
Proof. intros a _ (p & _ & Hp). done. Qed.

Lemma slot_run offset next d pre m :
  nics_inv pre m →
  (cards (next, d) → works offset d ∧ ∀ i n, pre !! i = Some n → regs_disjoint (com Q (nic_card n)) (coms_of offset d)) →
  ∃ r m1, setup_device Q translate jiffy fuel offset next d m = Done (m1, r)
    ∧ nics_inv (pre ++ map snd (option_list r)) m1 ∧ outcome_of offset next (hw Q m) d r
    ∧ (if is_e1000 d then mastered d (config (hw Q m)) (config (hw Q m1)) else config (hw Q m1) = config (hw Q m))
    ∧ ∀ a k, eeprom_word (hw Q m1) a k = eeprom_word (hw Q m) a k.
Proof.
  intros Hns Hgood. destruct (is_e1000 d) eqn:He; [destruct (generic_header d) eqn:Hg |].
  - assert (cards (next, d)) as Hcard by done. destruct (Hgood Hcard) as [Hw Hd].
    assert (sane m) as Hm by (destruct Hns; by split).
    destruct (setup_device_run offset next d m He Hg Hw Hm) as (n & m1 & Hr & Hinv & Hfr & Ha & Hma).
    eexists _, m1. split; [exact Hr |]. split_and!; try done; [by eapply nics_add | apply (ad_words _ _ _ Ha)].
  - destruct (setup_device_refused offset next d m He Hg) as (h & Hr & Hma & Hpo).
    exists None, (set_hw Q m h). split; [exact Hr |]. split_and!; try done; [| | apply Hpo].
    + cbn. rewrite app_nil_r. eapply (nics_kept no_card); [done | by apply added_ports |]. intros. apply no_card_disjoint.
    + intros [_ Hg']. cbn in Hg'. congruence.
  - exists None, m. unfold setup_device. rewrite He. split; [done |]. cbn. rewrite app_nil_r. split_and!; try done.
    intros [He' _]. cbn in He'. congruence.
Qed.

Lemma load_run b s m :
  ∃ h, on_hw Q (load_device b s) m = Done (set_hw Q m h, device_at (config (hw Q m)) b s)
    ∧ config h = config (hw Q m) ∧ ports_only (hw Q m) h.
Proof.
  destruct (load_device_run b s (hw Q m)) as (h & Hr & Hc). exists h. unfold on_hw. rewrite Hr.
  split_and!; [done | done |]. by eapply keeps_regs_load_device.
Qed.

(** The devices and cards the scan returns. *)
Definition returned (offset : Z) (h : H) (x : Z * Pci.Device) (y : NetworkDevice Q * Nic Q) : Prop :=
  y.1 = new_device x.1 (eeprom_mac h (coms_of offset x.2)) ∧ fresh_nic x.1 (coms_of offset x.2) y.2.

(** All cards among these devices work, apart from each other and from those
    there are. *)
Record all_work (offset : Z) (pre : list (Nic Q)) (es : list (Z * Pci.Device)) : Prop := {
  aw_works : ∀ i x, es !! i = Some x → works offset x.2;
  aw_apart : ∀ i j x y, i ≠ j → es !! i = Some x → es !! j = Some y → regs_disjoint (coms_of offset x.2) (coms_of offset y.2);
  aw_old : ∀ i j n x, pre !! i = Some n → es !! j = Some x → regs_disjoint (com Q (nic_card n)) (coms_of offset x.2) }.

Lemma all_work_tail offset pre x es n :
  all_work offset pre (x :: es) → com Q (nic_card n) = coms_of offset x.2 → all_work offset (pre ++ [n]) es.
Proof.
  intros [Hw Ha Ho] Hn. split.
  - intros i y Hy. by apply (Hw (S i)).
  - intros i j y z Hij Hy Hz. apply (Ha (S i) (S j)); [lia | done | done].
  - intros i j n' y [Hi | [_ Hi]]%lookup_app_Some Hy; [by eapply (Ho i (S j)) |].
    apply list_lookup_singleton_Some in Hi as [_ <-]. rewrite Hn. by apply (Ha 0%nat (S j)).
Qed.

Lemma expected_cons (cfg : Z → Z) next b s l :
  expected cfg next ((b, s) :: l)
  = match device_at cfg b s with
    | Some d => if decide (cards (next, d)) then (next, d) :: expected cfg (next + 1) l else expected cfg (next + 1) l
    | None => expected cfg next l
    end.
Proof.
  unfold expected, found. cbn. destruct (device_at cfg b s); [| done]. cbn [numbered]. by rewrite filter_cons.
Qed.

Lemma commands_cons (cfg : Z → Z) b s l :
  commands cfg ((b, s) :: l)
  = match device_at cfg b s with
    | Some d => if is_e1000 d then command_address d :: commands cfg l else commands cfg l
    | None => commands cfg l
    end.
Proof.
  unfold commands, found. cbn. destruct (device_at cfg b s); [| done]. rewrite filter_cons.
  by destruct (is_e1000 _).
Qed.

Lemma found_eq (cfg cfg' : Z → Z) next l :
  found cfg' l = found cfg l → expected cfg' next l = expected cfg next l ∧ commands cfg' l = commands cfg l.
Proof. unfold expected, commands. by intros ->. Qed.

Lemma all_work_next offset pre next d r (es : list (Z * Pci.Device)) (h : H) :
  all_work offset pre (if decide (cards (next, d)) then (next, d) :: es else es) → outcome_of offset next h d r →
  all_work offset (pre ++ map snd (option_list r)) es.
Proof.
  intros Hall Hout. destruct r as [[dev n] |]; cbn in Hout |- *.
  - destruct Hout as (Hc & _ & Hf). rewrite decide_True in Hall by done. eapply all_work_tail; [done |]. apply Hf.
  - rewrite decide_False in Hall by done. by rewrite app_nil_r.
Qed.

(** The configuration after a device and the ones behind it were set up. *)
Lemma mastered_commands (cfg cfg1 cfg2 : Z → Z) d b s l :
  slot_ok (b, s) → Forall slot_ok l → (b, s) ∉ l → command_address d = address b s 0 4 →
  (if is_e1000 d then mastered d cfg cfg1 else cfg1 = cfg) →
  (∀ a, cfg2 a = if bool_decide (a ∈ commands cfg l) then Z.lor (cfg1 a) 4 else cfg1 a) →
  ∀ a, cfg2 a = if bool_decide (a ∈ if is_e1000 d then command_address d :: commands cfg l else commands cfg l)
                then Z.lor (cfg a) 4 else cfg a.
Proof.
  intros Hs HF Hnin Hcmd Hm H2' a. rewrite H2'. destruct (is_e1000 d); [| by subst cfg1].
  destruct Hm as [Hm1 Hm2]. destruct (decide (a = command_address d)) as [-> | Hne].
  - rewrite (bool_decide_eq_false_2 (_ ∈ commands cfg l)), bool_decide_eq_true_2; [done | apply elem_of_cons; by left |].
    rewrite Hcmd. by apply command_not_in.
  - rewrite (Hm2 a Hne). erewrite (bool_decide_ext (a ∈ _ :: _)); [reflexivity |]. rewrite elem_of_cons. naive_solver.
Qed.

Lemma setup_devices_run offset l next pre m :
  NoDup l → Forall slot_ok l → nics_inv pre m →
  let cfg := config (hw Q m) in
  all_work offset pre (expected cfg next l) →
  ∃ m' pairs, setup_devices Q translate jiffy fuel offset next l m = Done (m', pairs)
    ∧ nics_inv (pre ++ map snd pairs) m'
    ∧ Forall2 (returned offset (hw Q m)) (expected cfg next l) pairs
    ∧ ∀ a, config (hw Q m') a = if bool_decide (a ∈ commands cfg l) then Z.lor (cfg a) 4 else cfg a.
Proof.
  revert next pre m. induction l as [| [b s] l IH]; intros next pre m Hnd HF Hns cfg Hall; cbn [setup_devices].
  { exists m, []. split_and!; try done. by rewrite app_nil_r. }
  apply NoDup_cons in Hnd as [Hnin Hnd]. apply Forall_cons_1 in HF as [Hs HF].
  destruct (load_run b s m) as (h & Hr & Hcfg & Hpo). rewrite (M_bind_run _ _ _ _ _ Hr). fold cfg in Hcfg |- *.
  assert (nics_inv pre (set_hw Q m h)) as Hns1.
  { eapply (nics_kept no_card); [done | by apply added_ports |]. intros. apply no_card_disjoint. }
  assert (∀ h2 es pairs, (∀ a k, eeprom_word h2 a k = eeprom_word h a k) →
    Forall2 (returned offset h2) es pairs → Forall2 (returned offset (hw Q m)) es pairs) as Hret.
  { intros h2 es pairs Hw HF2. induction HF2 as [| x y es pairs [E Hf] _ IHF]; constructor; [| done].
    split; [| done]. rewrite E. f_equal. apply mac_words. intros. by rewrite Hw, (proj2 Hpo). }
  rewrite expected_cons in Hall. rewrite expected_cons, commands_cons. destruct (device_at cfg b s) as [d |] eqn:Hd.
  2: { destruct (IH next pre (set_hw Q m h) Hnd HF Hns1) as (m' & pairs & Hr' & Hns' & Hret' & Hcfg');
         cbn [hw set_hw] in *; rewrite Hcfg in *; [done |]. exists m', pairs. split_and!; eauto. }
  pose proof (device_at_slot _ _ _ _ Hd) as Hcmd.
  destruct (slot_run offset next d pre (set_hw Q m h) Hns1) as (r & m1 & Hr1 & Hns2 & Hout & Hma & Hw1).
  { intros Hc. rewrite decide_True in Hall by done. split; [by apply (aw_works _ _ _ Hall 0%nat (next, d)) |].
    intros i n Hi. by apply (aw_old _ _ _ Hall i 0%nat n (next, d)). }
  cbn [hw set_hw] in Hma, Hw1, Hout. rewrite Hcfg in Hma. rewrite (M_bind_run _ _ _ _ _ Hr1).
  assert (found (config (hw Q m1)) l = found cfg l) as Hfound.
  { destruct (is_e1000 d); [by eapply (found_mastered cfg _ d b s) | by rewrite Hma]. }
  destruct (found_eq cfg _ (next + 1) l Hfound) as [Eexp Ecmd].
  destruct (IH (next + 1) (pre ++ map snd (option_list r)) m1 Hnd HF Hns2) as (m' & pairs & Hr' & Hns' & Hret' & Hcfg').
  { rewrite Eexp. by eapply all_work_next. }
  rewrite (M_bind_run _ _ _ _ _ Hr'). rewrite Eexp in Hret'. rewrite Ecmd in Hcfg'.
  pose proof (mastered_commands cfg _ _ d b s l Hs HF Hnin Hcmd Hma Hcfg') as Hfinal.
  destruct r as [[dev n] |]; cbn [option_list map snd outcome_of] in *; eexists m', _; (split; [reflexivity |]).
  - destruct Hout as (Hc & -> & Hf). rewrite decide_True by done. rewrite <- app_assoc in Hns'. split_and!; try done.
    constructor; [| by eapply Hret]. split; [| done]. cbn. f_equal. apply mac_words, Hpo.
  - rewrite decide_False by done. rewrite app_nil_r in Hns'. split_and!; eauto.
Qed.

(** ** The extension *)

Lemma slots_NoDup : NoDup slots.
Proof.
  apply (NoDup_fmap_1 (λ x : Z * Z, x.1 * 32 + x.2)).
  assert ((λ x : Z * Z, x.1 * 32 + x.2) <$> slots = seqZ 0 8160) as -> by (vm_compute; reflexivity).
  apply NoDup_seqZ.
Qed.

Lemma slots_ok : Forall slot_ok slots.
Proof. apply List.Forall_forall. intros [b s] Hin. by apply elem_of_slots, list_elem_of_In. Qed.

Lemma nics_queue ns m q : nics_inv ns m → q_is_closed q = false → nics_inv ns (set_handler_queue Q m q).
Proof.
  intros [Hall Hsep Hb Hn Ho] Hq. split; try done. intros i n Hi. eapply nic_inv_undisturbed; [by eapply Hall |].
  split; try done; eauto.
Qed.

Context {T : Type} `{IdtLaws T} (fn : Z).

Implicit Types (s : NetState Q (H := H) (T := T)).

(** The state before the extension is set up: its statics are not there yet
    and the processor's table is in order. *)
Record booted s : Prop := {
  bt_sane : sane (machine s);
  bt_devices : INT_DEVICES s = None;
  bt_queues : DEVICE_QUEUES s = None;
  bt_handle : HANDLE_QUEUE s = false;
  bt_ips : IPS s = None;
  bt_cpu : cpu_inv (cpu s) }.

Definition queues_of (devs : list (NetworkDevice Q)) : gmap Z (PacketQueueSender Q) :=
  foldl (λ q dev, <[id dev := packet_queue dev]> q) ∅ devs.

Lemma numbered_fst next ds : map fst (numbered next ds) = seqZ next (Z.of_nat (length ds)).
Proof.
  revert next. induction ds as [| d ds IH]; intros next; [done |]. cbn [numbered map fst length].
  rewrite IH, (seqZ_cons next) by lia. f_equal. f_equal; lia.
Qed.

Lemma expected_NoDup (cfg : Z → Z) next l : NoDup (map fst (expected cfg next l)).
Proof.
  unfold expected. assert (NoDup (map fst (numbered next (found cfg l)))) as Hn by (rewrite numbered_fst; apply NoDup_seqZ).
  revert Hn. generalize (numbered next (found cfg l)). intros xs. induction xs as [| x xs IH]; [done |].
  cbn [map]. intros [Hx Hn]%NoDup_cons. rewrite filter_cons. destruct (decide (cards x)); [| auto]. cbn [map].
  constructor; [| auto].
  intros Hin. apply Hx. apply list_elem_of_fmap in Hin as (y & E & Hy). apply list_elem_of_filter in Hy as [_ Hy].
  apply list_elem_of_fmap. by exists y.
Qed.

Lemma queues_of_lookup (devs : list (NetworkDevice Q)) (d : NetworkDevice Q) :
  NoDup (map id devs) → d ∈ devs → queues_of devs !! id d = Some (packet_queue d).
Proof.
  unfold queues_of. generalize (∅ : gmap Z (PacketQueueSender Q)). induction devs as [| x devs IH]; intros q Hn Hd; [by apply elem_of_nil in Hd |].
  cbn in *. apply NoDup_cons in Hn as [Hx Hn]. apply elem_of_cons in Hd as [-> | Hd]; [| by apply IH].
  clear IH. assert (<[id x := packet_queue x]> q !! id x = Some (packet_queue x)) as Hq by apply lookup_insert_eq.
  revert Hq. generalize (<[id x := packet_queue x]> q). induction devs as [| y devs IH]; intros q' Hq; [done |].
  cbn in *. apply not_elem_of_cons in Hx as [Hne Hx]. apply NoDup_cons in Hn as [_ Hn].
  apply (IH Hx Hn). by rewrite lookup_insert_ne.
Qed.

(** The devices the handler's task gets, in the order of the bus. *)
Definition network_devices (offset : Z) (h : H) : list (NetworkDevice Q) :=
  map (λ x, new_device x.1 (eeprom_mac h (coms_of offset x.2))) (expected (config h) 0 slots).

(** What the extension leaves behind. *)
Record set_up (offset : Z) s s' (nics : list (Nic Q)) : Prop := {
  su_nics : Forall2 (λ x n, fresh_nic x.1 (coms_of offset x.2) n) (expected (config (hw Q (machine s))) 0 slots) nics;
  su_devices : INT_DEVICES s' = Some nics;
  su_queues : DEVICE_QUEUES s' = Some (queues_of (network_devices offset (hw Q (machine s))));
  su_handle : HANDLE_QUEUE s' = true ∧ handler_queue Q (machine s') = jiffy HandlerMessage;
  su_ips : IPS s' = Some ipmap_new;
  su_config : ∀ a, config (hw Q (machine s')) a
    = if bool_decide (a ∈ commands (config (hw Q (machine s))) slots) then Z.lor (config (hw Q (machine s)) a) 4
      else config (hw Q (machine s)) a;
  su_cpu : cpu_inv (cpu s');
  su_active : ∀ line, active (cpu s') line = if decide (line = 0x2b) then Some fn else active (cpu s) line;
  su_unmasked : ∀ irq, 0 ≤ irq < 16 → unmasked (cpu s') irq = (unmasked (cpu s) irq || (irq =? 0xb))%bool }.

Lemma setup_run s offset :
  booted s → all_work offset [] (expected (config (hw Q (machine s))) 0 slots) →
  ∃ s' nics, setup Q translate jiffy fuel fn (Some offset) s
      = Done (s', Some (network_devices offset (hw Q (machine s))))
    ∧ set_up offset s s' nics ∧ nics_inv nics (machine s').
Proof.
  intros [[Ho Hn Hb] Hd Hq Hh Hi Hc] Hall. set (h := hw Q (machine s)) in *.
  destruct (setup_devices_run offset slots 0 [] (machine s) slots_NoDup slots_ok) as (m' & pairs & Hr & Hns & Hret & Hcfg).
  { by split. } { done. }
  assert (map fst pairs = network_devices offset h) as Hdevs.
  { unfold network_devices. fold h in Hret. clear -Hret. induction Hret as [| x y es pairs [E _] _ IH]; [done |].
    cbn [map]. by rewrite E, IH. }
  set (s1 := init_statics Q jiffy (map snd pairs) (network_devices offset h)
    {| machine := m'; cpu := cpu s; INT_DEVICES := INT_DEVICES s; int_locked := int_locked s;
       DEVICE_QUEUES := DEVICE_QUEUES s; HANDLE_QUEUE := HANDLE_QUEUE s; IPS := IPS s; eois := eois s |}).
  destruct (set_interrupt_run (cpu s) 0x2b fn Hc ltac:(lia)) as (c' & Hrc & Hc' & Ha & Hoth & Hm & _).
  unfold setup. erewrite M_bind_run by (unfold on_machine; rewrite Hr; reflexivity).
  rewrite (M_bind_run _ _ _ _ _ eq_refl), Hdevs. fold s1.
  erewrite M_bind_run; last first.
  { unfold on_cpu. change (cpu s1) with (cpu s). change (PIC_1_OFFSET + 0xb) with 0x2b. rewrite Hrc. reflexivity. }
  eexists _, (map snd pairs). split; [reflexivity |]. split.
  - split; cbn -[slots queues_of network_devices]; rewrite ?Hd, ?Hq, ?Hh, ?Hi; try done.
    + clear -Hret. induction Hret as [| x y es pairs [_ Hf] _ IH]; constructor; done.
    + intros line. destruct (decide (line = 0x2b)) as [-> | Hne]; [exact Ha | by apply Hoth].
    + intros irq Hirq. apply (unmask_spec c' (masks (cpu s)) 0xb irq); [exact Hm | lia | done | done].
  - cbn -[slots]. rewrite Hh. apply nics_queue; [done |]. apply Hjiffy.
Qed.

(** C11: the network extension finds and starts its cards.  On a board whose E1000
    cards work, set-up returns: the handler's task gets one device per E1000
    of generic type, in bus order, numbered by its position among all PCI
    devices, with the address of its EEPROM, no IP address and an empty
    queue; the same cards serve interrupts and the same queues can be
    obtained; bus mastering is enabled for every E1000 and no other
    configuration register changes; and line 11 of the interrupt controllers,
    and no other in addition, is let through to the handler. *)
Theorem network_setup_spec s offset :
  booted s → all_work offset [] (expected (config (hw Q (machine s))) 0 slots) →
  let devs := network_devices offset (hw Q (machine s)) in
  ∃ s' nics, setup Q translate jiffy fuel fn (Some offset) s = Done (s', Some devs)
    ∧ set_up offset s s' nics
    ∧ Forall (λ dev, wf_mac (mac (metadata dev)) ∧ ip (metadata dev) = None) devs
    ∧ map (λ n, card_id Q (nic_card n)) nics = map id devs
    ∧ ∀ dev, dev ∈ devs → obtain Q s' ≫= (λ q, q !! id dev) = Some (packet_queue dev).
Proof.
  intros Hb Hall devs. destruct (setup_run s offset Hb Hall) as (s' & nics & Hr & Hsu & _).
  exists s', nics. split; [exact Hr |]. split; [exact Hsu |].
  assert (map id devs = map fst (expected (config (hw Q (machine s))) 0 slots)) as Hids.
  { unfold devs, network_devices. rewrite map_map. done. }
  split_and!.
  - unfold devs, network_devices. apply List.Forall_forall. intros dev (x & <- & _)%in_map_iff.
    split; [apply eeprom_mac_wf | done].
  - rewrite Hids. pose proof (su_nics _ _ _ _ Hsu) as Hn. clear -Hn.
    induction Hn as [| x n es nics Hf _ IH]; [done |]. cbn [map]. rewrite IH. f_equal. apply Hf.
  - intros dev Hd. unfold obtain. rewrite (su_queues _ _ _ _ Hsu). cbn [mbind option_bind].
    apply queues_of_lookup; [| done]. fold devs; rewrite Hids. apply expected_NoDup.
Qed.

(** The state with its cards and machine as they are later. *)
Definition later s (ns : list (Nic Q)) m (locked : bool) (e : list Z) : NetState Q (H := H) (T := T) :=
  {| machine := m; cpu := cpu s; INT_DEVICES := Some ns; int_locked := locked; DEVICE_QUEUES := DEVICE_QUEUES s;
     HANDLE_QUEUE := HANDLE_QUEUE s; IPS := IPS s; eois := e |}.

(** C12: network interrupts are served safely.  After set-up, whatever course of
    interrupts, queued packets and events at any of the cards came before, a
    network interrupt returns: the interrupt handler of every card has run,
    once and in the order of the cards, each on the machine the one before it
    left, without freeing anything that is not a live box of its own; the
    cards keep their ids and the invariant of their rings and buffers; the new
    state of each is written back; and the end of the interrupt is reported
    once.  While the cards are locked it is reported too and nothing else
    happens. *)
Theorem network_interrupt_safe s offset s1 devs nics ns m (e : list Z) :
  booted s → all_work offset [] (expected (config (hw Q (machine s))) 0 slots) →
  setup Q translate jiffy fuel fn (Some offset) s = Done (s1, Some devs) → INT_DEVICES s1 = Some nics →
  rtc (net_step translate) (nics, machine s1) (ns, m) →
  (∃ ns' m', network_interrupt Q translate (later s1 ns m false e) = Done (later s1 ns' m' false (e ++ [0x2b]), tt)
    ∧ served translate ns m ns' m' ∧ nics_inv ns' m'
    ∧ map (λ n, card_id Q (nic_card n)) ns' = map (λ n, card_id Q (nic_card n)) ns)
  ∧ network_interrupt Q translate (later s1 ns m true e) = Done (later s1 ns m true (e ++ [0x2b]), tt).
Proof.
  intros Hb Hall Hr Hd Hsteps. destruct (setup_run s offset Hb Hall) as (s' & nics' & Hr' & Hsu & Hns).
  rewrite Hr in Hr'. injection Hr' as <- _. rewrite (su_devices _ _ _ _ Hsu) in Hd. injection Hd as ->.
  pose proof (net_steps_inv translate Hmapped _ _ Hsteps Hns) as Hns'. cbn [fst snd] in Hns'.
  destruct (su_handle _ _ _ _ Hsu) as [Hh _]. unfold network_interrupt, dispatch. split.
  - destruct (run_nics translate Hmapped [] ns m Hns') as (ns' & m' & Hrun & Hserved & Hinv & Hids). exists ns', m'.
    erewrite M_bind_run; last (cbn [HANDLE_QUEUE INT_DEVICES int_locked later machine]; by rewrite Hh, Hrun).
    split_and!; [by rewrite <- Hh | done | done | done].
  - erewrite M_bind_run; last (cbn [HANDLE_QUEUE INT_DEVICES int_locked later machine]; by rewrite Hh). done.
Qed.

End setup.

(** ** A board *)

Module BoardSample.

(** One card, whose EEPROM answers at the third read. *)
Definition offset : Z := 0x8000000000.
Definition card_eerd : Z := 0xfebc0000 + 0x14 + offset.
Definition word (k : Z) : Z := if k =? 0 then 0x5452 else if k =? 1 then 0x1200 else if k =? 2 then 0x5634 else 0.

Record sim := {
  sim_selected : Z;
  sim_config : gmap Z Z;
  sim_regs : gmap Z Z;
  sim_busy : option (Z * nat) }.

#[global] Instance sim_ports : PortOps sim := {|
  port_write h p v :=
    if p =? CONFIG_ADDRESS then
      {| sim_selected := v; sim_config := sim_config h; sim_regs := sim_regs h; sim_busy := sim_busy h |}
    else if p =? CONFIG_DATA then
      {| sim_selected := sim_selected h; sim_config := <[sim_selected h := v]> (sim_config h); sim_regs := sim_regs h;
         sim_busy := sim_busy h |}
    else h;
  port_read h p := (h, default 0xffffffff (sim_config h !! sim_selected h) mod 2 ^ 32) |}.

#[global] Instance sim_pci : PciHost sim.
Proof.
  refine {| config := λ h a, default 0xffffffff (sim_config h !! a) mod 2 ^ 32; selected := sim_selected |}.
  - done.
  - done.
  - intros h v a Hv. simpl. rewrite lookup_insert. destruct (Z.eqb_spec a (sim_selected h)) as [-> |].
    + rewrite decide_True by done. simpl. by apply cast_small.
    + by rewrite decide_False by done.
  - intros h a. apply cast_uint. lia.
Defined.

#[global] Instance sim_mmio : Mmio sim := {|
  mmio_write h a v :=
    if a =? card_eerd then
      {| sim_selected := sim_selected h; sim_config := sim_config h; sim_regs := sim_regs h;
         sim_busy := Some (v / 256 mod 256, 2%nat) |}
    else
      {| sim_selected := sim_selected h; sim_config := sim_config h; sim_regs := <[a := v]> (sim_regs h);
         sim_busy := sim_busy h |};
  mmio_read h a :=
    if a =? card_eerd then
      match sim_busy h with
      | None => (h, 0)
      | Some (k, O) => (h, word k * 65536 + 0x10)
      | Some (k, S d) =>
          ({| sim_selected := sim_selected h; sim_config := sim_config h; sim_regs := sim_regs h;
              sim_busy := Some (k, d) |}, 0)
      end
    else (h, default 0 (sim_regs h !! a)) |}.

Lemma sim_read_other h a : sim_config (mmio_read h a).1 = sim_config h ∧ sim_regs (mmio_read h a).1 = sim_regs h.
Proof. cbn. destruct (a =? card_eerd); [| done]. by destruct (sim_busy h) as [[k [| d]] |]. Qed.

Lemma sim_write_config h a v : sim_config (mmio_write h a v) = sim_config h.
Proof. cbn. by destruct (a =? card_eerd). Qed.

#[global] Instance sim_reg_laws : RegLaws sim.
Proof.
  refine {| stores := λ a, negb (a =? card_eerd); reg h a := default 0 (sim_regs h !! a) |}.
  - intros h a v a' Ha. cbn. destruct (Z.eqb_spec a card_eerd) as [-> |]; cbn.
    + by destruct (a' =? card_eerd).
    + destruct (Z.eqb_spec a' a) as [-> |]; [by rewrite lookup_insert_eq | by rewrite lookup_insert_ne].
  - intros h a a' _. by rewrite (proj2 (sim_read_other h a)).
  - intros h a Ha. cbn. by destruct (a =? card_eerd).
Defined.

#[global] Instance sim_eeprom : Eeprom sim.
Proof.
  refine {| eerd := λ a, a =? card_eerd; eeprom_word _ _ k := word k; eeprom_busy h _ := sim_busy h; eeprom_delay := 2%nat |}.
  - intros h a k Ha Hk. exists 2%nat. split; [lia |]. cbn. rewrite Ha. cbn. do 2 f_equal.
    rewrite Z.lor_comm. change 256 with (2 ^ 8) at 1. rewrite lor_add by lia.
    Z.to_euclidean_division_equations. lia.
  - intros h a k d Ha Hb. cbn. rewrite Ha, Hb. done.
  - intros h a k Ha Hb. cbn. rewrite Ha, Hb. cbn. unfold word.
    destruct (k =? 0), (k =? 1), (k =? 2); split; vm_compute; reflexivity.
  - done.
  - done.
  - intros h a k. unfold word. destruct (k =? 0), (k =? 1), (k =? 2); by vm_compute.
Defined.

#[global] Instance sim_board : Board sim.
Proof.
  split; cbn -[mmio_read mmio_write]; try done.
  - intros h a v. by rewrite sim_write_config.
  - intros h a. by rewrite (proj1 (sim_read_other h a)).
  - intros h p v a. cbn. by destruct (p =? CONFIG_ADDRESS), (p =? CONFIG_DATA).
Qed.

(** An E1000 on bus 0, slot 3. *)
Definition board : sim :=
  {| sim_selected := 0; sim_config := sample_space.2; sim_regs := ∅; sim_busy := None |}.

Definition state : NetState jiffy_queue (H := sim) (T := map_idt) :=
  {| machine := {| hw := board; rx_ring := []; tx_ring := []; rx_memory := ∅; boxes := ∅; next_box := 1;
                   handler_queue := mk_jiffy [] false |};
     cpu := booted_cpu; INT_DEVICES := None; int_locked := false; DEVICE_QUEUES := None; HANDLE_QUEUE := false;
     IPS := None; eois := [] |}.

Definition new_jiffy (A : Type) : jiffy_queue A := mk_jiffy [] false.
Definition identity_map (p : Z) : option Z := Some p.

Lemma new_jiffy_open A : q_items (new_jiffy A) = [] ∧ q_is_closed (new_jiffy A) = false.
Proof. done. Qed.

Lemma sim_delay_probe : (eeprom_delay (H := sim) < 1000)%nat.
Proof. cbn. lia. Qed.

Lemma sim_delay_fuel : (eeprom_delay (H := sim) < 10)%nat.
Proof. cbn. lia. Qed.

Lemma state_booted : booted state.
Proof.
  split; try done; [| apply booted_cpu_inv]. split; try done.
  intros p [x Hp]. cbn in Hp. by rewrite lookup_empty in Hp.
Qed.

Lemma board_cards : expected (config board) 0 slots = [(0, sample_device)].
Proof. vm_compute. reflexivity. Qed.

Lemma cards_work : all_work offset (Q := jiffy_queue) (B := debug_build) [] (expected (config board) 0 slots).
Proof.
  rewrite board_cards. split.
  - intros [| i] x Hx; [| by destruct i]. injection Hx as <-. split_and!; [by vm_compute | | by vm_compute].
    intros r [_ Hr]%ring_regs_bounds. cbn -[reg_address]. change card_eerd with (reg_address (coms_of offset sample_device) REG_EEPROM).
    rewrite reg_address_eqb by by vm_compute. by rewrite Hr.
  - intros [| i] [| j] x y Hij Hx Hy; try done; by destruct i || by destruct j.
  - done.
Qed.

Abbreviation sample_setup :=
  (setup jiffy_queue identity_map new_jiffy 10 0x3000 (B := debug_build) (Some offset) state).

Lemma network_setup_spec_witness :
  let devs := network_devices new_jiffy offset board in
  ∃ s', sample_setup = Done (s', Some devs)
    ∧ map (λ d, (id d, mac (metadata d))) devs = [(0, [0x52; 0x54; 0x00; 0x12; 0x34; 0x56])].
Proof.
  destruct (network_setup_spec (B := debug_build) identity_map (λ p, ex_intro _ p eq_refl) new_jiffy 10
    new_jiffy_open sim_delay_probe sim_delay_fuel 0x3000 state offset state_booted cards_work)
    as (s' & nics & Hr & _).
  exists s'. split; [exact Hr |]. unfold network_devices. rewrite board_cards. vm_compute. reflexivity.
Defined.

Lemma network_interrupt_safe_witness :
  ∃ s1 devs nics ns' m', sample_setup = Done (s1, Some devs) ∧ INT_DEVICES s1 = Some nics
    ∧ network_interrupt jiffy_queue identity_map (B := debug_build) (later s1 nics (machine s1) false [])
      = Done (later s1 ns' m' false [0x2b], tt).
Proof.
  destruct (setup_run (B := debug_build) identity_map (λ p, ex_intro _ p eq_refl) new_jiffy 10
    new_jiffy_open sim_delay_probe sim_delay_fuel 0x3000 state offset state_booted cards_work)
    as (s1 & nics & Hr & Hsu & _).
  destruct (network_interrupt_safe (B := debug_build) identity_map (λ p, ex_intro _ p eq_refl) new_jiffy 10
    new_jiffy_open sim_delay_probe sim_delay_fuel 0x3000 state offset s1 _ nics nics (machine s1) []
    state_booted cards_work Hr (su_devices _ _ _ _ _ _ Hsu) (rtc_refl _ _))
    as [(ns' & m' & Hi & _) _].
  eexists s1, _, nics, ns', m'. split; [exact Hr |]. split; [exact (su_devices _ _ _ _ _ _ Hsu) | exact Hi].
Defined.

End BoardSample.
