(* ===== verification/Hardware.v ===== *)
(** * The hardware facade

    [src/src/hardware.rs]: bringing the machine up ([Hardware::init], with the
    steps it is made of) and the queries the rest of the kernel makes.

    The processor, the screen, the page tables and the ports are the states of
    the components that use them; the bootloader's information is a record.
    [without_interrupts] around an uncontended lock is the plain access. *)

From stdpp Require Import base tactics list gmap numbers strings.
From Stdlib Require Import ZArith Lia.
From S2P Require Import Prelude Queue Buffer Ethernet Acpi Memory Video Rng Gdt Interrupts Device Pci.

Local Open Scope Z_scope.

(** Lines printed while the machine is brought up; of the device printed with
    [{:?}] the value is kept. *)
Inductive BootLine :=
  | Said (text : string)
  | UnknownPciDevice (d : Pci.Device).

(** ** Devices *)

Section facade.
Context (Q : Type → Type) {H T P : Type} `{QueueOps Q} `{PortOps H} `{Idt T} `{PageTable P} `{SegmentOps} {B : Build}.
(** Memory as the firmware left it, by virtual address. *)
Context (mem : Z → Z).

Inductive Device :=
  | Network (d : NetworkDevice Q)
  | Graphics.

Record NetworkingDeviceHandle := {
  handle_mac : list Z;
  handle_ip : option (list Z);
  p_queue : PacketQueueSender Q }.

Inductive DeviceHandle :=
  | NetworkHandle (h : NetworkingDeviceHandle)
  | GraphicsHandle.

Record Hardware := {
  rsdt : option (RSDT (Mp := OffsetMapper) * OffsetMapper);
  memory_offset : option Z;
  devices : list Device;
  rng : Kiss }.

(** ** Bringing the machine up *)

Record BootInfo := {
  rsdp_addr : option Z;
  physical_memory_offset : option Z;
  framebuffer : option (FrameBufferInfo * list Z);
  memory_regions : list MemoryRegion }.

(** [active_table] is the page table the processor uses; [KERNEL_INSTANCE] and
    [MEMORY_MAPPING] are the statics. *)
Record Sys := {
  cpu : Cpu (T := T);
  segments : Segments;
  interrupts_enabled : bool;
  pics_initialized : bool;
  video : Video;
  active_table : P;
  heap_region : option (Z * Z);
  ports : H;
  MEMORY_MAPPING : bool;
  KERNEL_INSTANCE : option Hardware;
  boot_lines : list BootLine }.

Definition set_cpu (c : Cpu (T := T)) (s : Sys) : Sys :=
  {| cpu := c; segments := segments s; interrupts_enabled := interrupts_enabled s; pics_initialized := pics_initialized s; video := video s;
     active_table := active_table s; heap_region := heap_region s; ports := ports s;
     MEMORY_MAPPING := MEMORY_MAPPING s; KERNEL_INSTANCE := KERNEL_INSTANCE s; boot_lines := boot_lines s |}.
Definition set_segments (g : Segments) (s : Sys) : Sys :=
  {| cpu := cpu s; segments := g; interrupts_enabled := interrupts_enabled s; pics_initialized := pics_initialized s; video := video s;
     active_table := active_table s; heap_region := heap_region s; ports := ports s;
     MEMORY_MAPPING := MEMORY_MAPPING s; KERNEL_INSTANCE := KERNEL_INSTANCE s; boot_lines := boot_lines s |}.
Definition set_interrupts_enabled (b : bool) (s : Sys) : Sys :=
  {| cpu := cpu s; segments := segments s; interrupts_enabled := b; pics_initialized := pics_initialized s; video := video s;
     active_table := active_table s; heap_region := heap_region s; ports := ports s;
     MEMORY_MAPPING := MEMORY_MAPPING s; KERNEL_INSTANCE := KERNEL_INSTANCE s; boot_lines := boot_lines s |}.
Definition set_pics (s : Sys) : Sys :=
  {| cpu := cpu s; segments := segments s; interrupts_enabled := interrupts_enabled s; pics_initialized := true; video := video s;
     active_table := active_table s; heap_region := heap_region s; ports := ports s;
     MEMORY_MAPPING := MEMORY_MAPPING s; KERNEL_INSTANCE := KERNEL_INSTANCE s; boot_lines := boot_lines s |}.
Definition set_video (v : Video) (s : Sys) : Sys :=
  {| cpu := cpu s; segments := segments s; interrupts_enabled := interrupts_enabled s; pics_initialized := pics_initialized s; video := v;
     active_table := active_table s; heap_region := heap_region s; ports := ports s;
     MEMORY_MAPPING := MEMORY_MAPPING s; KERNEL_INSTANCE := KERNEL_INSTANCE s; boot_lines := boot_lines s |}.
Definition set_memory (t : P) (h : option (Z * Z)) (s : Sys) : Sys :=
  {| cpu := cpu s; segments := segments s; interrupts_enabled := interrupts_enabled s; pics_initialized := pics_initialized s; video := video s;
     active_table := t; heap_region := h; ports := ports s;
     MEMORY_MAPPING := MEMORY_MAPPING s; KERNEL_INSTANCE := KERNEL_INSTANCE s; boot_lines := boot_lines s |}.
Definition set_ports (p : H) (s : Sys) : Sys :=
  {| cpu := cpu s; segments := segments s; interrupts_enabled := interrupts_enabled s; pics_initialized := pics_initialized s; video := video s;
     active_table := active_table s; heap_region := heap_region s; ports := p;
     MEMORY_MAPPING := MEMORY_MAPPING s; KERNEL_INSTANCE := KERNEL_INSTANCE s; boot_lines := boot_lines s |}.
Definition set_statics (m : bool) (k : option Hardware) (s : Sys) : Sys :=
  {| cpu := cpu s; segments := segments s; interrupts_enabled := interrupts_enabled s; pics_initialized := pics_initialized s; video := video s;
     active_table := active_table s; heap_region := heap_region s; ports := ports s;
     MEMORY_MAPPING := m; KERNEL_INSTANCE := k; boot_lines := boot_lines s |}.
Definition add_lines (l : list BootLine) (s : Sys) : Sys :=
  {| cpu := cpu s; segments := segments s; interrupts_enabled := interrupts_enabled s; pics_initialized := pics_initialized s; video := video s;
     active_table := active_table s; heap_region := heap_region s; ports := ports s;
     MEMORY_MAPPING := MEMORY_MAPPING s; KERNEL_INSTANCE := KERNEL_INSTANCE s; boot_lines := boot_lines s ++ l |}.

(** [println!] *)
Definition say (text : string) : M Sys unit := modify (add_lines [Said text]).

(** A component's operation on its part of the machine. *)
Definition focus {S A} (get : Sys → S) (put : S → Sys → Sys) (k : M S A) : M Sys A := fun s =>
  match k (get s) with
  | Done (t, a) => Done (put t s, a)
  | Panicked why => Panicked why
  | OutOfFuel => OutOfFuel
  end.

Definition basic_init : M Sys unit :=
  _ ← modify (set_interrupts_enabled false);
  _ ← focus segments set_segments Gdt.init;
  _ ← focus cpu set_cpu init_idt;
  _ ← modify set_pics;
  modify (set_interrupts_enabled true).

Definition video_init_ (buffer : option (FrameBufferInfo * list Z)) : M Sys unit :=
  match buffer with
  | Some (info, bytes) =>
      _ ← say "Initializing Video...";
      _ ← focus video set_video (video_init info bytes);
      say "Initialized Video"
  | None => mret tt
  end.

Definition rsdp_acip_setup (rsdp_addr physical_memory_offset : option Z) :
    outcome (option (RSDT (Mp := OffsetMapper) * OffsetMapper)) :=
  match rsdp_addr with
  | Some raw_addr =>
      match physical_memory_offset with
      | Some o =>
          let offset_mapper := {| offset := o |} in
          rsdp ← rsdp_load mem raw_addr offset_mapper;
          rsdt ← load_rsdt mem rsdp offset_mapper;
          mret (Some (rsdt, offset_mapper))
      | None => Panicked Explicit
      end
  | None => mret None
  end.

Definition memory_setup (physical_memory_offset : option Z) (memory_regions : list MemoryRegion) : M Sys unit :=
  _ ← say "Initialize Memory and Allocator...";
  mem_offsets ← lift (unwrap physical_memory_offset);
  _ ← lift (virt_addr_new mem_offsets);
  _ ← (fun s =>
    match init_heap {| table := active_table s; frames := allocator_init memory_regions; heap := heap_region s |} with
    | Done (b, Ok _) => Done (set_memory (table b) (heap b) s, tt)
    | Done (_, Err _) => Panicked UnwrapFailed
    | Panicked why => Panicked why
    | OutOfFuel => OutOfFuel
    end) : M Sys unit;
  say "Initialized Memory and Allocator".

Definition is_ethernet (d : Pci.Device) : bool :=
  match class (generic d) with NetworkController NetEthernet => true | _ => false end.

Definition setup_pci (physical_memory_offset : option Z) : M Sys (list Device) :=
  match physical_memory_offset with
  | None => mret []
  | Some _ =>
      device_header ← focus ports set_ports bruteforce;
      let found := filter (λ d, is_ethernet d = true) device_header in
      _ ← modify (add_lines (map UnknownPciDevice found));
      mret (omap (λ _, None) found)
  end.

Definition init (boot_info : BootInfo) : M Sys Hardware :=
  _ ← say "Initializing Kernel...";
  _ ← basic_init;
  rsdt ← lift (rsdp_acip_setup (rsdp_addr boot_info) (physical_memory_offset boot_info));
  _ ← video_init_ (framebuffer boot_info);
  _ ← memory_setup (physical_memory_offset boot_info) (memory_regions boot_info);
  _ ← modify (λ s, set_statics true (KERNEL_INSTANCE s) s);
  devices ← setup_pci (physical_memory_offset boot_info);
  _ ← say "Initialized Kernel";
  rng ← lift (unwrap_result (kiss_new 239812446 1837621879 512893 123873267123));
  let instance := {| rsdt := rsdt; memory_offset := physical_memory_offset boot_info; devices := devices; rng := rng |} in
  (fun s =>
    match KERNEL_INSTANCE s with
    | Some k => Done (s, k)
    | None => Done (set_statics (MEMORY_MAPPING s) (Some instance) s, instance)
    end) : M Sys Hardware.

(** ** Queries *)

(** [try_get] *)
Definition try_get (s : Sys) : option Hardware := KERNEL_INSTANCE s.

(** One step of the iterator of [get_rsdt_entries]. *)
Definition entries_next (mapper : OffsetMapper) (it : RSDTIter (Mp := OffsetMapper)) :
    outcome (RSDTIter (Mp := OffsetMapper) * option AcipEntry) :=
  r ← rsdt_next mem it;
  match r.2 with
  | None => mret (r.1, None)
  | Some (header, ptr) => e ← entry_load mem header ptr mapper; mret (r.1, Some e)
  end.

Definition get_rsdt_entries (hw : Hardware) (fuel : nat) : outcome (option (list AcipEntry)) :=
  match rsdt hw with
  | None => mret None
  | Some (t, mapper) => l ← collect (entries_next mapper) fuel (rsdt_iter t); mret (Some l)
  end.

(** [func] may change the device and the rest of the world. *)
Definition with_networking_device {W} (func : NetworkDevice Q → M W (NetworkDevice Q)) (hw : Hardware) : M W Hardware :=
  ds ← for_mut (λ d, match d with
                     | Network dev => dev ← func dev; mret (Network dev)
                     | Graphics => mret Graphics
                     end) (devices hw);
  mret {| rsdt := rsdt hw; memory_offset := memory_offset hw; devices := ds; rng := rng hw |}.

Definition find_device_handle (predicate : Device → bool) (hw : Hardware) : option DeviceHandle :=
  match list_find (λ d, predicate d = true) (devices hw) with
  | None => None
  | Some (_, Network net_dev) =>
      Some (NetworkHandle {| handle_mac := mac (metadata net_dev); handle_ip := ip (metadata net_dev);
                             p_queue := packet_queue net_dev |})
  | Some (_, Graphics) => Some GraphicsHandle
  end.

Definition find_apply_device {R} (find : Device → bool) (apply : Device → R) (hw : Hardware) : option R :=
  match list_find (λ d, find d = true) (devices hw) with
  | None => None
  | Some (_, found_device) => Some (apply found_device)
  end.

Definition get_rand : M Hardware Z := fun hw =>
  '(k, v) ← rand (rng hw);
  Done ({| rsdt := rsdt hw; memory_offset := memory_offset hw; devices := devices hw; rng := k |}, v).

(** ** What is brought up *)

Context `{!PciHost H} `{!PageTableLaws P} `{!SegmentLaws}.

(** The state the bootloader leaves: nothing of the kernel is there, its
    static descriptor table is, and the heap's pages are free. *)
Record fresh (s : Sys) : Prop := {
  fr_instance : KERNEL_INSTANCE s = None;
  fr_table : is_Some (table_of (cpu s) (storage (cpu s)));
  fr_heap : ∀ page, page ∈ heap_pages → lookup_page (active_table s) page = None }.

(** Usable memory for the heap and its tables. *)
Definition enough_memory (regions : list MemoryRegion) : Prop :=
  valid_map regions ∧ 4 * 256 ≤ len (frame_addresses regions) ∧ len (frame_addresses regions) < 2 ^ 64.

Lemma basic_init_run (s : Sys) :
  is_Some (table_of (cpu s) (storage (cpu s))) →
  ∃ g, flat_segments g ∧ basic_init s
  = Done (set_interrupts_enabled true (set_pics (set_cpu (send_pit (with_loaded (cpu s) (storage (cpu s))) configure_pit)
            (set_segments g (set_interrupts_enabled false s)))), tt).
Proof.
  intros [t Ht]. destruct gdt_init_run as (g & Hg & Hi). exists g. split; [done |]. unfold basic_init.
  rewrite (M_bind_run _ _ _ _ _ eq_refl). erewrite M_bind_run; last (unfold focus; by rewrite Hi).
  erewrite M_bind_run; last first.
  { unfold focus, init_idt. cbn [cpu set_interrupts_enabled set_segments]. rewrite (M_bind_run _ _ _ _ _ eq_refl).
    erewrite M_bind_run; last (unfold storage_load; by rewrite Ht). reflexivity. }
  by rewrite (M_bind_run _ _ _ _ _ eq_refl).
Qed.

Lemma memory_setup_run (s : Sys) o regions :
  canonical o → enough_memory regions → (∀ page, page ∈ heap_pages → lookup_page (active_table s) page = None) →
  ∃ t, memory_setup (Some o) regions s
      = Done (add_lines [Said "Initialized Memory and Allocator"]
                (set_memory t (Some (HEAP_START, HEAP_SIZE))
                   (add_lines [Said "Initialize Memory and Allocator..."] s)), tt)
    ∧ ∀ page, page ∈ heap_pages → ∃ f, f ∈ frame_addresses regions ∧ lookup_page t page = Some (f, Z.lor PRESENT WRITABLE).
Proof.
  intros Ho (Hv & Hfr & Hb) Hp. unfold memory_setup. rewrite (M_bind_run _ _ _ _ _ eq_refl). cbn [unwrap].
  rewrite (M_bind_lift _ _ _ _ eq_refl).
  rewrite (M_bind_lift _ _ _ _ (virt_addr_ok o Ho)).
  set (b := {| table := active_table s; frames := allocator_init regions; heap := heap_region s |}).
  destruct (init_heap_run b) as (b' & ns & Hr & Hh & Hm & HF); try done.
  { unfold frames_left. cbn [frames b allocator_init memory_map next]. lia. }
  exists (table b'). split.
  { erewrite M_bind_run; [reflexivity |]. change (active_table (add_lines _ s)) with (active_table s).
    change (heap_region (add_lines _ s)) with (heap_region s). fold b. by rewrite Hr, Hh. }
  intros page Hpage.
  apply list_elem_of_lookup in Hpage as [i Hi]. destruct (Forall2_lookup_l _ _ _ _ _ HF Hi) as (n & _ & f & Hf & Hl).
  exists f. split; [| done]. rewrite Hm in Hf. by eapply list_elem_of_lookup_2.
Qed.

Lemma omap_none {X Y} (l : list X) : omap (λ _, None : option Y) l = [].
Proof. by induction l. Qed.

(** Every device is printed and filtered out. *)
Lemma setup_pci_run (s : Sys) (o : Z) :
  ∃ h ds, setup_pci (Some o) s
      = Done (add_lines (map UnknownPciDevice (filter (λ d, is_ethernet d = true) ds)) (set_ports h s), []) ∧ bruteforce (ports s) = Done (h, ds)
    ∧ config h = config (ports s).
Proof.
  destruct (load_all_run slots (ports s)) as (h & Hr & Hc). unfold bruteforce, setup_pci. eexists h, _. split; [| split; [exact Hr | exact Hc]].
  erewrite M_bind_run; last (unfold focus, bruteforce; by rewrite Hr). cbn zeta.
  rewrite (M_bind_run _ _ _ _ _ eq_refl). by rewrite omap_none.
Qed.

Lemma setup_pci_empty (s s' : Sys) o ds : setup_pci o s = Done (s', ds) → ds = [] ∧ KERNEL_INSTANCE s' = KERNEL_INSTANCE s.
Proof.
  destruct o as [o |]; [| by intros [= <- <-]]. destruct (setup_pci_run s o) as (h & ? & Hp & _). rewrite Hp.
  by intros [= <- <-].
Qed.

Definition video_lines (buffer : option (FrameBufferInfo * list Z)) : list BootLine :=
  match buffer with Some _ => [Said "Initializing Video..."; Said "Initialized Video"] | None => [] end.

Lemma video_init_run buffer (s : Sys) :
  ∃ v, video_init_ buffer s = Done (add_lines (video_lines buffer) (set_video v s), tt).
Proof.
  destruct buffer as [[info bytes] |].
  - eexists. cbn [video_init_]. rewrite (M_bind_run _ _ _ _ _ eq_refl). erewrite M_bind_run by reflexivity.
    unfold say, modify, add_lines. cbn. by rewrite <- app_assoc.
  - exists (video s). unfold add_lines. cbn. rewrite app_nil_r. by destruct s.
Qed.

(** No step before the last touches the instance. *)
Lemma focus_instance {S A} (get : Sys → S) (put : S → Sys → Sys) (k : M S A) s s' a :
  (∀ t s, KERNEL_INSTANCE (put t s) = KERNEL_INSTANCE s) → focus get put k s = Done (s', a) →
  KERNEL_INSTANCE s' = KERNEL_INSTANCE s.
Proof. unfold focus. intros Hput Hr. destruct (k (get s)) as [[t b] | |]; simplify_eq. apply Hput. Qed.

Lemma basic_init_instance s s' a : basic_init s = Done (s', a) → KERNEL_INSTANCE s' = KERNEL_INSTANCE s.
Proof.
  unfold basic_init. intros Hr. m_inv. cbn.
  repeat match goal with Hf : focus _ _ _ _ = _ |- _ => apply focus_instance in Hf; [| done] end.
  cbn in *. congruence.
Qed.

Lemma video_init_instance buffer s s' a : video_init_ buffer s = Done (s', a) → KERNEL_INSTANCE s' = KERNEL_INSTANCE s.
Proof. destruct (video_init_run buffer s) as [v Hv]. rewrite Hv. by intros [= <- _]. Qed.

Lemma memory_setup_instance o regions s s' a :
  memory_setup o regions s = Done (s', a) → KERNEL_INSTANCE s' = KERNEL_INSTANCE s.
Proof.
  unfold memory_setup, say. intros Hr. m_inv.
  match goal with Hm : match init_heap _ with _ => _ end = Done _ |- _ => by repeat case_match; simplify_eq end.
Qed.

(** The instance there is after start-up. *)
Definition instance_of (boot_info : BootInfo) (r : option (RSDT (Mp := OffsetMapper) * OffsetMapper)) : Hardware :=
  {| rsdt := r; memory_offset := physical_memory_offset boot_info; devices := []; rng := boot_kiss |}.

(** The machine once it is up. *)
Definition brought_up (g : Segments) (v : Video) (t : P) (h : H) (instance : Hardware) (ls : list BootLine) (s : Sys) : Sys :=
  {| cpu := send_pit (with_loaded (cpu s) (storage (cpu s))) configure_pit; segments := g; interrupts_enabled := true;
     pics_initialized := true; video := v; active_table := t; heap_region := Some (HEAP_START, HEAP_SIZE); ports := h;
     MEMORY_MAPPING := true; KERNEL_INSTANCE := Some instance; boot_lines := boot_lines s ++ ls |}.

(** What is printed on the way, when the scan of the bus finds [ds]. *)
Definition init_lines (boot_info : BootInfo) (ds : list Pci.Device) : list BootLine :=
  [Said "Initializing Kernel..."] ++ video_lines (framebuffer boot_info)
  ++ [Said "Initialize Memory and Allocator..."; Said "Initialized Memory and Allocator"]
  ++ map UnknownPciDevice (filter (λ d, is_ethernet d = true) ds) ++ [Said "Initialized Kernel"].

Lemma hardware_init_run (boot_info : BootInfo) (s : Sys) (o : Z)
    (r : option (RSDT (Mp := OffsetMapper) * OffsetMapper)) :
  fresh s → physical_memory_offset boot_info = Some o → canonical o → enough_memory (memory_regions boot_info) →
  rsdp_acip_setup (rsdp_addr boot_info) (Some o) = Done r →
  ∃ g v t h ds, init boot_info s
      = Done (brought_up g v t h (instance_of boot_info r) (init_lines boot_info ds) s, instance_of boot_info r)
    ∧ (∀ page, page ∈ heap_pages → ∃ f, f ∈ frame_addresses (memory_regions boot_info)
         ∧ lookup_page t page = Some (f, Z.lor PRESENT WRITABLE))
    ∧ bruteforce (ports s) = Done (h, ds) ∧ config h = config (ports s) ∧ flat_segments g.
Proof.
  intros [Hi Ht Hh] Ho Hc Hm Hr. unfold init. rewrite (M_bind_run _ _ _ _ _ eq_refl).
  destruct (basic_init_run (add_lines [Said "Initializing Kernel..."] s) Ht) as (g & Hg & Hbi).
  rewrite (M_bind_run _ _ _ _ _ Hbi), Ho.
  rewrite (M_bind_lift _ _ _ _ Hr). set (s1 := set_interrupts_enabled true _).
  destruct (video_init_run (framebuffer boot_info) s1) as [v Hv]. rewrite (M_bind_run _ _ _ _ _ Hv).
  destruct (memory_setup_run (add_lines (video_lines (framebuffer boot_info)) (set_video v s1)) o
    (memory_regions boot_info) Hc Hm Hh) as (t & Hms & Hpages).
  rewrite (M_bind_run _ _ _ _ _ Hms), (M_bind_run _ _ _ _ _ eq_refl).
  set (s2 := set_statics true _ _). destruct (setup_pci_run s2 o) as (h & ds & Hp & Hb & Hcf).
  rewrite (M_bind_run _ _ _ _ _ Hp), (M_bind_run _ _ _ _ _ eq_refl), (M_bind_lift _ boot_kiss _ _ eq_refl). cbn zeta.
  set (s3 := add_lines [Said "Initialized Kernel"] _).
  assert (KERNEL_INSTANCE s3 = None) as -> by exact Hi.
  exists g, v, t, h, ds. unfold instance_of. rewrite Ho. split; [| done].
  assert (boot_lines s3 = boot_lines s ++ init_lines boot_info ds) as Hl.
  { cbn. unfold init_lines. by rewrite <- !app_assoc. }
  unfold set_statics, brought_up. rewrite Hl. reflexivity.
Qed.

(** C33: the machine comes up.  Given the memory mapping's offset, enough usable
    memory and readable ACPI tables, [Hardware::init] returns the one
    instance, with the root table, the offset, the seeded generator and no
    devices; the processor uses the kernel's segments and descriptor table,
    with a stack of its own for double faults, the timer is configured,
    interrupts are enabled, the heap is mapped to usable frames, the
    configuration space is as it was, and the console has the lines of the
    steps, with one for each Ethernet device on the bus. *)
Theorem hardware_init_spec (boot_info : BootInfo) (s : Sys) (o : Z)
    (r : option (RSDT (Mp := OffsetMapper) * OffsetMapper)) :
  fresh s → physical_memory_offset boot_info = Some o → canonical o → enough_memory (memory_regions boot_info) →
  rsdp_acip_setup (rsdp_addr boot_info) (Some o) = Done r →
  ∃ s', init boot_info s = Done (s', instance_of boot_info r) ∧ try_get s' = Some (instance_of boot_info r)
    ∧ interrupts_enabled s' = true ∧ pics_initialized s' = true ∧ MEMORY_MAPPING s' = true
    ∧ flat_segments (segments s') ∧ loaded (cpu s') = storage (cpu s') ∧ is_Some (table_of (cpu s') (loaded (cpu s')))
    ∧ pit (cpu s') = pit (cpu s) ++ configure_pit
    ∧ heap_region s' = Some (HEAP_START, HEAP_SIZE)
    ∧ (∀ page, page ∈ heap_pages → ∃ f, f ∈ frame_addresses (memory_regions boot_info)
         ∧ lookup_page (active_table s') page = Some (f, Z.lor PRESENT WRITABLE))
    ∧ config (ports s') = config (ports s)
    ∧ ∃ ds, bruteforce (ports s) = Done (ports s', ds) ∧ boot_lines s' = boot_lines s ++ init_lines boot_info ds.
Proof.
  intros Hf Ho Hc Hm Hr. destruct (hardware_init_run boot_info s o r Hf Ho Hc Hm Hr) as (g & v & t & h & ds & Hi & Hp & Hb & Hcfg & Hg).
  eexists. split; [exact Hi |]. split_and!; try done; [apply Hf | by exists ds].
Qed.

(** C34: the kernel does not start without the memory mapping.  When the
    bootloader gives no offset, [Hardware::init] panics: at the ACPI tables if
    there are any, at the heap otherwise. *)
Theorem hardware_needs_offset (boot_info : BootInfo) (s : Sys) :
  is_Some (table_of (cpu s) (storage (cpu s))) → physical_memory_offset boot_info = None →
  init boot_info s = Panicked (if rsdp_addr boot_info then Explicit else UnwrapFailed).
Proof.
  intros Ht Ho. unfold init. rewrite (M_bind_run _ _ _ _ _ eq_refl).
  destruct (basic_init_run (add_lines [Said "Initializing Kernel..."] s) Ht) as (g & _ & Hbi).
  rewrite (M_bind_run _ _ _ _ _ Hbi), Ho. unfold rsdp_acip_setup.
  destruct (rsdp_addr boot_info); [done |]. rewrite (M_bind_lift _ _ _ _ eq_refl).
  set (s1 := set_interrupts_enabled true _).
  destruct (video_init_run (framebuffer boot_info) s1) as [v Hv]. by rewrite (M_bind_run _ _ _ _ _ Hv).
Qed.

(** The instance never has devices.  Whatever [Hardware::init] returned on a
    fresh machine, [with_networking_device] calls its function for no device,
    and no device can be found: the cards belong to the network extension. *)
Theorem hardware_without_devices {W R : Type} (boot_info : BootInfo) (s s' : Sys) (hw : Hardware)
    (func : NetworkDevice Q → M W (NetworkDevice Q)) (p : Device → bool) (apply : Device → R) (w : W) :
  KERNEL_INSTANCE s = None → init boot_info s = Done (s', hw) →
  devices hw = [] ∧ with_networking_device func hw w = Done (w, hw)
  ∧ find_device_handle p hw = None ∧ find_apply_device p apply hw = None.
Proof.
  intros Hi Hr. assert (devices hw = []) as Hd.
  { unfold init in Hr. apply M_bind_done in Hr as (s0 & ? & [= <- _] & Hr). apply M_bind_done in Hr as (s1 & ? & H1' & Hr). apply M_bind_done in Hr as (s2 & r & H2' & Hr).
    apply M_bind_done in Hr as (s3 & ? & H3' & Hr). apply M_bind_done in Hr as (s4 & ? & H4' & Hr).
    apply M_bind_done in Hr as (s5 & ? & H5' & Hr). apply M_bind_done in Hr as (s6 & ds & H6' & Hr).
    apply setup_pci_empty in H6' as [-> H6']. rewrite (M_bind_run _ _ _ _ _ eq_refl) in Hr. rewrite (M_bind_lift _ boot_kiss _ _ eq_refl) in Hr. cbn zeta in Hr.
    assert (KERNEL_INSTANCE s6 = None) as Ek; [rewrite H6' | cbn in Hr; rewrite Ek in Hr; by simplify_eq].
    injection H5' as <-. cbn. rewrite (memory_setup_instance _ _ _ _ _ H4'), (video_init_instance _ _ _ _ H3').
    apply lift_done in H2' as [_ ->]. by rewrite (basic_init_instance _ _ _ H1'). }
  unfold with_networking_device, find_device_handle, find_apply_device. rewrite Hd. split_and!; try done.
  cbn. unfold mret, M_ret. rewrite <- Hd. by destruct hw.
Qed.

(** The tables of the ACPI root, each loaded as it is reached. *)
Lemma entries_collect (mapper : OffsetMapper) fuel it l es :
  collect (rsdt_next mem) fuel it = Done l →
  Forall2 (λ x e, entry_load mem x.1 x.2 mapper = Done e) l es → collect (entries_next mapper) fuel it = Done es.
Proof.
  revert it l es. induction fuel as [| fuel IH]; intros it l es; cbn [collect]; [done |].
  destruct (rsdt_next mem it) as [[it' [[h p] |]] | |] eqn:En; cbn [mbind outcome_bind fst snd]; try done.
  - intros Hr HF. apply bind_done in Hr as (rest & Hr & [= <-]). inversion HF as [| ? e ? es' He HF']; subst.
    assert (entries_next mapper it = Done (it', Some e)) as ->.
    { unfold entries_next. rewrite En. cbn [mbind outcome_bind fst snd] in *. by rewrite He. }
    rewrite bind_Done_l. cbn [fst snd]. by rewrite (IH it' rest es' Hr HF').
  - intros [= <-] HF. inversion HF; subst. assert (entries_next mapper it = Done (it', None)) as ->; [| done].
    unfold entries_next. by rewrite En.
Qed.

End facade.

(** ** A machine *)

Module SampleMachine.

Import Gdt.ListTable.

(** The root pointer at 0x100 and the root table, with one entry, at 0x200. *)
Definition table_bytes : list Z :=
  replicate 16 0 ++ [0x00; 0x02; 0; 0] ++ replicate 236 0 ++ [0x52; 0x53; 0x44; 0x54; 40; 0; 0; 0].
Definition mem (a : Z) : Z := default 0 (table_bytes !! Z.to_nat (a - 0x10100)).

Definition boot_info : BootInfo :=
  {| rsdp_addr := Some 0x100; physical_memory_offset := Some 0x10000; framebuffer := None;
     memory_regions := SampleMap.sample_map |}.

Definition powered_on : Sys jiffy_queue (H := sample_host) (T := map_idt) (P := flat_table) :=
  {| cpu := booted_cpu; segments := {| gdt_loaded := false; cs := 0; tr := 0 |}; interrupts_enabled := true; pics_initialized := false; video := {| INFO := None; BUFFER := None |};
     active_table := ∅; heap_region := None; ports := sample_space; MEMORY_MAPPING := false; KERNEL_INSTANCE := None; boot_lines := [] |}.

Definition root : option (RSDT (Mp := OffsetMapper) * OffsetMapper) :=
  match rsdp_acip_setup (B := debug_build) mem (Some 0x100) (Some 0x10000) with Done r => r | _ => None end.

Lemma sample_memory : enough_memory SampleMap.sample_map.
Proof. split; [apply SampleMap.sample_map_valid |]. vm_compute. split; [congruence | reflexivity]. Qed.

Lemma powered_on_fresh : fresh jiffy_queue powered_on.
Proof. split; [done | by eexists | done]. Qed.

Lemma hardware_init_spec_witness :
  ∃ s', init jiffy_queue (B := debug_build) mem boot_info powered_on = Done (s', instance_of jiffy_queue boot_info root)
    ∧ try_get jiffy_queue s' = Some (instance_of jiffy_queue boot_info root) ∧ is_Some root.
Proof.
  destruct (hardware_init_spec jiffy_queue (B := debug_build) mem boot_info powered_on 0x10000 root)
    as (s' & Hr & Hg & _).
  - apply powered_on_fresh.
  - reflexivity.
  - left. reflexivity.
  - apply sample_memory.
  - vm_compute. reflexivity.
  - exists s'. split; [exact Hr |]. split; [exact Hg |]. vm_compute. by eexists.
Defined.

Lemma hardware_needs_offset_witness :
  init jiffy_queue (B := debug_build) mem
    {| rsdp_addr := Some 0x100; physical_memory_offset := None; framebuffer := None; memory_regions := [] |} powered_on
  = Panicked Explicit.
Proof. apply (hardware_needs_offset jiffy_queue (B := debug_build) mem); [by eexists | reflexivity]. Defined.

End SampleMachine.
