(* ===== verification/Entry.v ===== *)
(** * The library's entry points

    [src/src/lib.rs]: [init], leaving the emulator, and the runner of the
    kernel's tests. *)

From stdpp Require Import base tactics list gmap strings pretty numbers.
From Stdlib Require Import ZArith Lia.
From S2P Require Import Prelude Queue Pci Memory Video Gdt Interrupts Hardware.

Local Open Scope Z_scope.

Inductive QemuExitCode := Success | Failed.

(** [exit_code as u32] *)
Definition exit_code (c : QemuExitCode) : Z := match c with Success => 0x10 | Failed => 0x11 end.

Section entry.
Context (J : Type → Type) {H T P : Type} `{PortOps H} `{Idt T} `{SegmentOps} {B : Build}.

(** The machine and the pieces of text sent to the serial port. *)
Record Lib := {
  machine : Sys J (H := H) (T := T) (P := P);
  serial : list string }.

Definition on_machine {A} (k : M (Sys J (H := H) (T := T) (P := P)) A) : M Lib A :=
  zoom machine (λ m s, {| machine := m; serial := serial s |}) k.

Definition serial_print (text : string) : M Lib unit :=
  modify (λ s, {| machine := machine s; serial := serial s ++ [text] |}).

Definition init : M Lib unit :=
  _ ← on_machine (modify (set_interrupts_enabled J false));
  _ ← on_machine (focus J (segments J) (set_segments J) Gdt.init);
  _ ← on_machine (focus J (cpu J) (set_cpu J) init_idt);
  _ ← on_machine (modify (set_pics J));
  on_machine (modify (set_interrupts_enabled J true)).

Definition exit_qemu (c : QemuExitCode) : M Lib unit :=
  on_machine (focus J (ports J) (set_ports J) (outport 0xf4 (exit_code c))).

(** ** Tests *)

(** A test is a function with its name. *)
Definition Test : Type := string * M Lib unit.

Definition tab : string := String (Ascii.ascii_of_nat 9) "".
Definition newline : string := String (Ascii.ascii_of_nat 10) "".

(** [Testable::run] *)
Definition test_run (t : Test) : M Lib unit :=
  _ ← serial_print (t.1 +:+ "..." +:+ tab);
  _ ← t.2;
  serial_print ("[ok]" +:+ newline).

Fixpoint run_tests (tests : list Test) : M Lib unit :=
  match tests with
  | [] => mret tt
  | t :: tests => _ ← test_run t; run_tests tests
  end.

Definition test_runner (tests : list Test) : M Lib unit :=
  _ ← serial_print ("Running " +:+ pretty (length tests) +:+ " tests" +:+ newline);
  _ ← run_tests tests;
  exit_qemu Success.

(** What the panic handler of the tests does before it halts. *)
Definition test_panic_handler (info : string) : M Lib unit :=
  _ ← serial_print ("[failed]" +:+ newline +:+ newline);
  _ ← serial_print ("Error: " +:+ info +:+ newline +:+ newline);
  exit_qemu Failed.

(** [test_kernel_main] before it halts; [test_main] calls the runner with the
    tests of the crate. *)
Definition test_kernel_main (tests : list Test) : M Lib unit :=
  _ ← init;
  test_runner tests.

(** ** Starting *)

(** [init] does what [Hardware::basic_init] does. *)
Lemma init_is_basic_init s : init s = on_machine (basic_init J) s.
Proof.
  unfold init, basic_init, on_machine, zoom, mbind, M_bind, modify. cbn [machine].
  set (m1 := set_interrupts_enabled J false (machine s)).
  destruct (focus J (segments J) (set_segments J) Gdt.init m1) as [[m2 []] | |]; [| done | done]. cbn [machine].
  by destruct (focus J (cpu J) (set_cpu J) init_idt m2) as [[m3 []] | |].
Qed.

(** ** What the runner reports *)

(** A test that passes, on any machine, and prints nothing itself. *)
Definition passes (t : Test) : Prop := ∀ s, ∃ m, t.2 s = Done ({| machine := m; serial := serial s |}, tt).

Definition report (t : Test) : list string := [t.1 +:+ "..." +:+ tab; "[ok]" +:+ newline].

Lemma run_tests_pass tests s :
  Forall passes tests →
  ∃ m, run_tests tests s = Done ({| machine := m; serial := serial s ++ flat_map report tests |}, tt).
Proof.
  intros Hp. revert s. induction Hp as [| t tests Ht _ IH]; intros s; cbn [run_tests].
  { exists (machine s). rewrite app_nil_r. by destruct s. }
  destruct (Ht {| machine := machine s; serial := serial s ++ [t.1 +:+ "..." +:+ tab] |}) as [m Hm].
  erewrite M_bind_run; last first.
  { unfold test_run. rewrite (M_bind_run _ _ _ _ _ eq_refl), (M_bind_run _ _ _ _ _ Hm). reflexivity. }
  destruct (IH {| machine := m; serial := serial s ++ report t |}) as [m' Hr]. exists m'. cbn [serial] in Hr.
  cbn [flat_map serial machine]. rewrite (app_assoc (serial s) (report t)), <- Hr.
  unfold report. by rewrite <- (app_assoc (serial s)).
Qed.

(** The runner announces the tests, reports each that passed in order, and
    leaves the emulator with the code of success, as the last thing it does. *)
Lemma test_runner_passes tests s :
  Forall passes tests →
  ∃ m, test_runner tests s
    = Done ({| machine := set_ports J (port_write (ports J m) 0xf4 0x10) m;
               serial := serial s ++ ("Running " +:+ pretty (length tests) +:+ " tests" +:+ newline) :: flat_map report tests |}, tt).
Proof.
  intros Hp. unfold test_runner. rewrite (M_bind_run _ _ _ _ _ eq_refl).
  set (s1 := {| machine := machine s |}). destruct (run_tests_pass tests s1 Hp) as [m Hr]. exists m.
  rewrite (M_bind_run _ _ _ _ _ Hr). cbn. by rewrite <- app_assoc.
Qed.

(** A test that panics keeps the runner from reporting success. *)
Lemma test_runner_panics tests t rest s why :
  Forall passes tests → (∀ s, t.2 s = Panicked why) → test_runner (tests ++ t :: rest) s = Panicked why.
Proof.
  intros Hp Ht. unfold test_runner. rewrite (M_bind_run _ _ _ _ _ eq_refl). set (s1 := {| machine := machine s |}).
  assert (run_tests (tests ++ t :: rest) s1 = Panicked why) as E; [| unfold mbind, M_bind; by rewrite E].
  clearbody s1. revert s1. clear s. induction Hp as [| t' tests Ht' _ IH]; intros s; cbn [run_tests app].
  - unfold test_run, mbind, M_bind. cbn. by rewrite Ht.
  - destruct (Ht' {| machine := machine s; serial := serial s ++ [t'.1 +:+ "..." +:+ tab] |}) as [m Hm].
    erewrite M_bind_run; [apply IH |]. unfold test_run.
    rewrite (M_bind_run _ _ _ _ _ eq_refl), (M_bind_run _ _ _ _ _ Hm). reflexivity.
Qed.

End entry.
