(* ===== verification/Os.v ===== *)
(** * The operating system

    [kernel_main] of [src/src/main.rs] and the tasks the kernel runs: the
    logger ([logging.rs]), the network handler ([networking/handler.rs]) and
    [ping], each as a future on the kernel's run loop; with
    [LogExtension::setup], and the network interrupt between two rounds.

    The components keep the states their own files give them.  [Os] holds them
    side by side, and what two of them share is held once: the processor and
    the ports are those of the hardware facade, the ARP table is the network
    extension's, and the packet queue between a device and its card is in
    [packet_queues].  A computation of one component runs on its view of the
    whole and what it changed is put back.

    A waker is the id of the task it wakes; its boxes are the subject of
    [Kernel].  An asynchronous queue keeps the waker of the receiver that
    found it empty in a cell ([WakerCell]) and wakes it at the next enqueue.
    What the components ask for while they run (notifications, wake-ups,
    tracing) is done when they return. *)

From stdpp Require Import base tactics list gmap strings pretty numbers.
From Stdlib Require Import ZArith Lia.
From S2P Require Import Prelude Queue Buffer Ethernet Ipv4 Udp Device Handler Pci E1000 Kernel Rng Memory Video Acpi Gdt Interrupts Logging NetApi PingTask NetSetup Hardware.

Local Open Scope Z_scope.

(** The cell in which an asynchronous queue keeps the waker of its receiver. *)
Class WakerCell (C : Type) := {
  wc_new : C;
  wc_parked : C → option Z;
  wc_park : C → Z → C;
  wc_take : C → C }.

Class WakerCellLaws (C : Type) `{WakerCell C} : Prop := {
  wc_new_spec : wc_parked wc_new = None;
  wc_park_spec c w : wc_parked (wc_park c w) = Some w;
  wc_take_spec c : wc_parked (wc_take c) = None }.

#[export] Instance Option_cell : WakerCell (option Z) := {|
  wc_new := None; wc_parked c := c; wc_park _ w := Some w; wc_take _ := None |}.

#[export] Instance Option_cell_laws : WakerCellLaws (option Z).
Proof. done. Qed.

(** [rucoon::extensions::time::Timer]: an update wakes the tasks whose time has
    come. *)
Class TimerOps (Tm : Type) := timer_update : Tm → Tm * list Z.

(** A timer as the tasks that sleep and the ticks they have left. *)
Definition sleepers : Type := list (Z * nat).

#[export] Instance Sleepers : TimerOps sleepers := λ l,
  (omap (λ x, match x.2 with S (S n) => Some (x.1, S n) | _ => None end) l,
   omap (λ x, match x.2 with S (S n) => None | _ => Some x.1 end) l).

(** Lines of the console; of what is printed with [{:?}] the value is kept. *)
Inductive Line :=
  | Text (s : string)
  | FromHardware (l : BootLine)
  | UnknownTable (signature : list Z)
  | DeviceIp (ip : option (list Z))
  | FromHandler (what : Printed)
  | AccessedAddress (a : Z)
  | ErrorCode (code : Z)
  | RawCode (code : Z)
  | Selector (external : bool) (tbl index : Z).

(** [{:?}] of an array of bytes *)
Definition debug_bytes (l : list Z) : string :=
  "[" +:+ String.concat ", " (map pretty l) +:+ "]".

Section os.
Context {Q J : Type → Type} {H T P C Tm Y : Type}.
Context {HQ : QueueOps Q} {HJ : QueueOps J} `{PortOps H} `{Mmio H} `{Idt T} `{PageTable P} `{WakerCell C} `{TimerOps Tm} `{SegmentOps} {B : Build}.
Context {HY : Yield Y (Net Q J)}.
(** Memory as the firmware left it, and [translate_addr]. *)
Context (mem : Z → Z) (translate_addr : Z → option Z).
(** New queues of [nolock]. *)
Context (jiffy : ∀ A, J A) (new_mac_queue : Q (list Z)).
(** A bound on the reads of one EEPROM access and on the ACPI tables. *)
Context (fuel : nat).
Context (network_interrupt_fn : Z).

(** ** The state *)

Record Os := {
  sys : Sys J (H := H) (T := T) (P := P);
  net : NetState J (H := H) (T := T);
  packet_queues : gmap Z (J Ethernet.Packet);
  world : World Q;
  next_queue : Z;
  (** [tracing]'s global default *)
  subscriber : option (SerialSubscriber (Q := J));
  inbox_cell : C;
  log_cell : C;
  mac_cells : gmap Z C;
  (** [TIMER] *)
  timer : Tm;
  (** what was printed on the serial port *)
  console : list Line }.

Definition set_sys (x : Sys J (H := H) (T := T) (P := P)) (os : Os) : Os :=
  {| sys := x; net := net os; packet_queues := packet_queues os; world := world os; next_queue := next_queue os;
     subscriber := subscriber os; inbox_cell := inbox_cell os; log_cell := log_cell os; mac_cells := mac_cells os; timer := timer os; console := console os |}.
Definition set_subscriber (x : option (SerialSubscriber (Q := J))) (os : Os) : Os :=
  {| sys := sys os; net := net os; packet_queues := packet_queues os; world := world os; next_queue := next_queue os;
     subscriber := x; inbox_cell := inbox_cell os; log_cell := log_cell os; mac_cells := mac_cells os; timer := timer os; console := console os |}.
Definition set_inbox_cell (x : C) (os : Os) : Os :=
  {| sys := sys os; net := net os; packet_queues := packet_queues os; world := world os; next_queue := next_queue os;
     subscriber := subscriber os; inbox_cell := x; log_cell := log_cell os; mac_cells := mac_cells os; timer := timer os; console := console os |}.
Definition set_log_cell (x : C) (os : Os) : Os :=
  {| sys := sys os; net := net os; packet_queues := packet_queues os; world := world os; next_queue := next_queue os;
     subscriber := subscriber os; inbox_cell := inbox_cell os; log_cell := x; mac_cells := mac_cells os; timer := timer os; console := console os |}.
Definition set_net (x : NetState J (H := H) (T := T)) (os : Os) : Os :=
  {| sys := sys os; net := x; packet_queues := packet_queues os; world := world os; next_queue := next_queue os;
     subscriber := subscriber os; inbox_cell := inbox_cell os; log_cell := log_cell os; mac_cells := mac_cells os;
     timer := timer os; console := console os |}.
Definition set_timer (x : Tm) (os : Os) : Os :=
  {| sys := sys os; net := net os; packet_queues := packet_queues os; world := world os; next_queue := next_queue os;
     subscriber := subscriber os; inbox_cell := inbox_cell os; log_cell := log_cell os; mac_cells := mac_cells os;
     timer := x; console := console os |}.
Definition println (ls : list Line) (os : Os) : Os :=
  {| sys := sys os; net := net os; packet_queues := packet_queues os; world := world os; next_queue := next_queue os;
     subscriber := subscriber os; inbox_cell := inbox_cell os; log_cell := log_cell os; mac_cells := mac_cells os;
     timer := timer os; console := console os ++ ls |}.
Definition set_mac_cells (x : gmap Z C) (os : Os) : Os :=
  {| sys := sys os; net := net os; packet_queues := packet_queues os; world := world os; next_queue := next_queue os;
     subscriber := subscriber os; inbox_cell := inbox_cell os; log_cell := log_cell os; mac_cells := x; timer := timer os; console := console os |}.

(** ** Views *)

(** The queue of messages to the network handler. *)
Definition inbox (os : Os) : J HandlerMessage := handler_queue J (machine (net os)).

Definition attach_card (qs : gmap Z (J Ethernet.Packet)) (n : Nic J) : Nic J :=
  {| nic_card := with_card_queue J (nic_card n) (default (card_queue J (nic_card n)) (qs !! card_id J (nic_card n)));
     nic_rx := nic_rx n; nic_tx := nic_tx n |}.

Definition store_card (qs : gmap Z (J Ethernet.Packet)) (n : Nic J) : gmap Z (J Ethernet.Packet) :=
  <[card_id J (nic_card n) := card_queue J (nic_card n)]> qs.

(** The network extension's view. *)
Definition get_net (os : Os) : NetState J (H := H) (T := T) :=
  {| machine := set_hw J (machine (net os)) (Hardware.ports J (sys os));
     NetSetup.cpu := Hardware.cpu J (sys os);
     INT_DEVICES := map (attach_card (packet_queues os)) <$> INT_DEVICES (net os);
     int_locked := int_locked (net os); DEVICE_QUEUES := DEVICE_QUEUES (net os);
     NetSetup.HANDLE_QUEUE := NetSetup.HANDLE_QUEUE (net os); IPS := IPS (net os); eois := eois (net os) |}.

Definition put_net (n : NetState J (H := H) (T := T)) (os : Os) : Os :=
  {| sys := set_ports J (hw J (machine n)) (set_cpu J (NetSetup.cpu n) (sys os)); net := n;
     packet_queues := foldl store_card (packet_queues os) (default [] (INT_DEVICES n)); world := world os;
     next_queue := next_queue os; subscriber := subscriber os; inbox_cell := inbox_cell os; log_cell := log_cell os;
     mac_cells := mac_cells os; timer := timer os; console := console os |}.

(** The world of the handler: what it asks for starts empty. *)
Definition get_world (os : Os) : World Q :=
  {| cells := cells Q (world os); next_cell := next_cell Q (world os); mac_queues := mac_queues Q (world os);
     udp_queues := udp_queues Q (world os); ips := IPS (net os); trace := [] |}.

Definition with_ips (n : NetState J (H := H) (T := T)) (i : option IpMap) : NetState J (H := H) (T := T) :=
  {| machine := machine n; NetSetup.cpu := NetSetup.cpu n; INT_DEVICES := INT_DEVICES n; int_locked := int_locked n;
     DEVICE_QUEUES := DEVICE_QUEUES n; NetSetup.HANDLE_QUEUE := NetSetup.HANDLE_QUEUE n; IPS := i; eois := eois n |}.

Definition with_inbox (n : NetState J (H := H) (T := T)) (q : J HandlerMessage) : NetState J (H := H) (T := T) :=
  {| machine := set_handler_queue J (machine n) q; NetSetup.cpu := NetSetup.cpu n; INT_DEVICES := INT_DEVICES n;
     int_locked := int_locked n; DEVICE_QUEUES := DEVICE_QUEUES n;
     NetSetup.HANDLE_QUEUE := NetSetup.HANDLE_QUEUE n; IPS := IPS n; eois := eois n |}.

Definition put_world (w : World Q) (os : Os) : Os :=
  {| sys := sys os; net := with_ips (net os) (ips Q w); packet_queues := packet_queues os; world := w;
     next_queue := next_queue os; subscriber := subscriber os; inbox_cell := inbox_cell os; log_cell := log_cell os;
     mac_cells := mac_cells os; timer := timer os; console := console os |}.

Definition put_inbox (q : J HandlerMessage) (os : Os) : Os :=
  {| sys := sys os; net := with_inbox (net os) q; packet_queues := packet_queues os; world := world os;
     next_queue := next_queue os; subscriber := subscriber os; inbox_cell := inbox_cell os; log_cell := log_cell os;
     mac_cells := mac_cells os; timer := timer os; console := console os |}.

(** The view of the networking API. *)
Definition get_api (os : Os) : Net Q J :=
  {| NetApi.world := get_world os;
     NetApi.HANDLE_QUEUE := if NetSetup.HANDLE_QUEUE (net os) then Some (inbox os) else None;
     NetApi.next_queue := next_queue os |}.

Definition put_api (n : Net Q J) (os : Os) : Os :=
  let os := put_world (NetApi.world Q J n) os in
  let os := match NetApi.HANDLE_QUEUE Q J n with Some q => put_inbox q os | None => os end in
  {| sys := sys os; net := net os; packet_queues := packet_queues os; world := world os;
     next_queue := NetApi.next_queue Q J n; subscriber := subscriber os; inbox_cell := inbox_cell os;
     log_cell := log_cell os; mac_cells := mac_cells os; timer := timer os; console := console os |}.

(** The devices of the handler with their ends of the packet queues. *)
Definition attach_device (qs : gmap Z (J Ethernet.Packet)) (d : NetworkDevice J) : NetworkDevice J :=
  with_queue d {| sender_queue := default (sender_queue (packet_queue d)) (qs !! id d);
                  notify := notify (packet_queue d) |}.

Definition store_device (qs : gmap Z (J Ethernet.Packet)) (d : NetworkDevice J) : gmap Z (J Ethernet.Packet) :=
  <[id d := sender_queue (packet_queue d)]> qs.

Definition store_devices (ds : list (NetworkDevice J)) (os : Os) : Os :=
  {| sys := sys os; net := net os; packet_queues := foldl store_device (packet_queues os) ds; world := world os;
     next_queue := next_queue os; subscriber := subscriber os; inbox_cell := inbox_cell os; log_cell := log_cell os;
     mac_cells := mac_cells os; timer := timer os; console := console os |}.

(** ** Futures *)

(** The span of an instrumented task: made at its first poll, [None] when
    nobody listens. *)
Inductive SpanState :=
  | Unmade
  | Made (span : option Z).

Inductive NetworkTask :=
  | NtStart (ds : list (NetworkDevice J))
  | NtLoop (h : Handler J).

Inductive Fut :=
  | FLogger (g : Logger)
  | FMissing
  | FNetwork (span : SpanState) (t : NetworkTask)
  | FPing (span : SpanState) (t : PingTask (Y := Y))
  | FFinished.

Abbreviation K := (M (State J Fut Os)).

Definition when (b : bool) (k : K unit) : K unit := if b then k else mret tt.

(** ** Waking *)

(** [wake] of a waker: its task's id is queued. *)
Definition wake_task (w : Z) : K unit :=
  r ← enqueue_id J w;
  lift (unwrap_result r).

Definition wake_cell (get : Os → C) (put : C → Os → Os) : K unit :=
  c ← gets (λ s : State J Fut Os, get (env s));
  _ ← on_env J (modify (put (wc_take c)));
  match wc_parked c with
  | Some w => wake_task w
  | None => mret tt
  end.

Definition wake_inbox : K unit := wake_cell inbox_cell set_inbox_cell.
Definition wake_logger : K unit := wake_cell log_cell set_log_cell.

(** The receiver of a result queue is woken when there is an answer or the
    sender is gone. *)
Definition answered (os : Os) (q : Z) : bool :=
  match mac_queues Q (world os) !! q with
  | Some s => bool_decide (q_items s ≠ []) || q_is_closed s
  | None => false
  end.

Fixpoint wake_receivers (l : list (Z * C)) : K unit :=
  match l with
  | [] => mret tt
  | (q, c) :: l =>
      ready ← gets (λ s : State J Fut Os, answered (env s) q);
      _ ← when ready
            (_ ← on_env J (modify (λ os, set_mac_cells (<[q := wc_take c]> (mac_cells os)) os));
             match wc_parked c with Some w => wake_task w | None => mret tt end);
      wake_receivers l
  end.

(** ** Tracing *)

(** A call of the subscriber, if there is one: each sends one message. *)
Definition on_subscriber {A} (k : M (SerialSubscriber (Q := J)) A) : K (option A) :=
  sub ← gets (λ s : State J Fut Os, subscriber (env s));
  match sub with
  | None => mret None
  | Some sub =>
      r ← lift (k sub);
      _ ← on_env J (modify (set_subscriber (Some r.1)));
      _ ← wake_logger;
      mret (Some r.2)
  end.

Definition trace_event (l : LogLevel) (content : string) : K unit :=
  sub ← gets (λ s : State J Fut Os, subscriber (env s));
  match sub with
  | None => mret tt
  | Some sub =>
      if enabled sub l then _ ← on_subscriber (event content l); mret tt else mret tt
  end.

(** A span is made if its level is enabled. *)
Definition make_span (l : LogLevel) (name : string) : K (option Z) :=
  sub ← gets (λ s : State J Fut Os, subscriber (env s));
  match sub with
  | None => mret None
  | Some sub => if enabled sub l then on_subscriber (new_span name) else mret None
  end.

Definition in_span {A} (span : option Z) (k : K A) : K A :=
  match span with
  | None => k
  | Some i =>
      _ ← on_subscriber (enter i);
      a ← k;
      _ ← on_subscriber (exit i);
      mret a
  end.

(** [#[tracing::instrument]]: the span is made once and entered at every poll. *)
Definition instrumented {A} (name : string) (st : SpanState) (k : K A) : K (SpanState * A) :=
  span ← match st with
         | Unmade => make_span Logging.Info name
         | Made span => mret span
         end;
  a ← in_span span k;
  mret (Made span, a).

(** ** What a component asked for *)

(** The notification closure of a device's queue. *)
Definition notify_device (n : Z) : M Os unit := fun os =>
  match list_find (λ x, card_id J (nic_card x) = n) (default [] (INT_DEVICES (net os))) with
  | None => Done (os, tt)
  | Some (_, x) => zoom (λ os, Hardware.ports J (sys os)) (λ h os, set_sys (set_ports J h (sys os)) os)
                     (notify_card (com J (nic_card x))) os
  end.

Definition act (e : Handler.Event) : K unit :=
  match e with
  | Notified n => on_env J (notify_device n)
  | Woken w => wake_task w
  | Println p => on_env J (modify (println [FromHandler p]))
  | ReceivedArp ip => trace_event Debug ("Received ARP for " +:+ debug_bytes ip)
  end.

Fixpoint act_all (l : list Handler.Event) : K unit :=
  match l with
  | [] => mret tt
  | e :: l => _ ← act e; act_all l
  end.

(** Do what the handler or the API asked for in the world. *)
Definition settle : K unit :=
  events ← gets (λ s : State J Fut Os, trace Q (world (env s)));
  _ ← on_env J (modify (λ os, put_world (get_world os) os));
  _ ← act_all events;
  cells ← gets (λ s : State J Fut Os, map_to_list (mac_cells (env s)));
  wake_receivers cells.

(** ** The logger *)

(** [logger]: the messages in its queue, until it is empty. *)
Fixpoint poll_logger (n : nat) (g : Logger) (w : Z) : K Logger :=
  match n with
  | O => fun _ => OutOfFuel
  | S n =>
      sub ← gets (λ s : State J Fut Os, subscriber (env s));
      match sub with
      | None => fun _ => Panicked Undefined
      | Some sub =>
          let '(q, r) := q_try_dequeue (writer sub) in
          let sub := {| writer := q; id_counter := id_counter sub; level := level sub |} in
          _ ← on_env J (modify (set_subscriber (Some sub)));
          match r with
          | Ok entry => poll_logger n (log_entry entry g) w
          | Err Empty =>
              _ ← on_env J (modify (λ os, set_log_cell (wc_park (log_cell os) w) os));
              mret g
          | Err Closed => poll_logger n g w
          end
      end
  end.

(** ** The network handler *)

(** A computation of the handler on its devices and the world. *)
Definition on_handler (k : Handler J → M (World Q) (Handler J)) (h : Handler J) : K (Handler J) :=
  qs ← gets (λ s : State J Fut Os, packet_queues (env s));
  let h := {| Handler.devices := map (attach_device qs) (Handler.devices h); bindings := bindings h |} in
  h ← on_env J (zoom get_world put_world (k h));
  _ ← on_env J (modify (store_devices (Handler.devices h)));
  _ ← settle;
  mret h.

(** The [tracing] calls at the start of a turn. *)
Definition trace_message (m : HandlerMessage) : K unit :=
  match m with
  | Handler.Packet _ => trace_event Debug "Raw-Packet"
  | Handler.Action (SendArpRequest _ _) =>
      _ ← trace_event Debug "Action Message";
      trace_event Debug "Sending ARP"
  | Handler.Action (PingRequest _ _ _ _) =>
      _ ← trace_event Debug "Action Message";
      trace_event Logging.Info "Send Ping"
  end.

(** The loop of [network_handler] until its queue is empty or gone; whether the
    task has returned. *)
Fixpoint network_loop (n : nat) (h : Handler J) (w : Z) : K (Handler J * bool) :=
  match n with
  | O => fun _ => OutOfFuel
  | S n =>
      q ← gets (λ s : State J Fut Os, inbox (env s));
      let '(q, r) := q_try_dequeue q in
      _ ← on_env J (modify (put_inbox q));
      match r with
      | Ok m =>
          _ ← trace_message m;
          h ← on_handler (handle_message Q m) h;
          network_loop n h w
      | Err Empty =>
          _ ← on_env J (modify (λ os, set_inbox_cell (wc_park (inbox_cell os) w) os));
          mret (h, false)
      | Err Closed =>
          _ ← trace_event Error "Getting Packet Closed";
          mret (h, true)
      end
  end.

Definition poll_network (t : NetworkTask) (w : Z) : K (NetworkTask * bool) :=
  h ← match t with
      | NtStart ds =>
          h ← on_handler (λ h, init_handler Q (Handler.devices h)) {| Handler.devices := ds; bindings := no_bindings |};
          _ ← trace_event Logging.Info "After Init";
          mret h
      | NtLoop h => mret h
      end;
  q ← gets (λ s : State J Fut Os, inbox (env s));
  r ← network_loop (S (length (q_items q))) h w;
  mret (NtLoop r.1, r.2).

(** ** The ping task *)

Definition trace_info (i : Info) : K unit :=
  match i with
  | TargetMac mac => trace_event Logging.Info ("Target-Mac " +:+ debug_bytes mac)
  | ReceivedPing => trace_event Logging.Info "Received Ping"
  end.

Fixpoint trace_infos (l : list Info) : K unit :=
  match l with
  | [] => mret tt
  | i :: l => _ ← trace_info i; trace_infos l
  end.

(** A message to the handler wakes it; an address that is waited for parks the
    task at its queue. *)
Definition poll_ping_task (t : PingTask) (w : Z) : K PingTask :=
  before ← gets (λ s : State J Fut Os, length (q_items (inbox (env s))));
  r ← on_env J (zoom (λ os, {| PingTask.net := get_api os; infos := [] |}) (λ s, put_api (PingTask.net Q J s))
        (t ← PingTask.poll Q J new_mac_queue t w; infos ← gets (infos Q J); mret (t, infos)));
  after ← gets (λ s : State J Fut Os, length (q_items (inbox (env s))));
  _ ← when (bool_decide (before < after)%nat) wake_inbox;
  _ ← settle;
  _ ← trace_infos r.2;
  _ ← match r.1 with
      | PtMac _ (GmWaiting q) =>
          on_env J (modify (λ os, set_mac_cells (<[q := wc_park (default wc_new (mac_cells os !! q)) w]> (mac_cells os)) os))
      | _ => mret tt
      end;
  mret r.1.

(** ** The futures of the kernel's tasks *)

Definition poll_fut (f : Fut) (waker : Z) : K (Fut * bool) :=
  w ← ptr_ref J waker;
  match f with
  | FLogger g =>
      n ← gets (λ s : State J Fut Os, match subscriber (env s) with Some sub => length (q_items (writer sub)) | None => O end);
      g' ← poll_logger (S n) g w;
      _ ← on_env J (modify (println (map Text (drop (length (printed g)) (printed g')))));
      mret (FLogger g', false)
  | FMissing =>
      _ ← on_env J (modify (println [Text "Missing Memory mapping offset"]));
      mret (FFinished, true)
  | FNetwork span t =>
      r ← instrumented "network_handler" span (poll_network t w);
      let '(span, (t, ready)) := r : SpanState * (NetworkTask * bool) in
      mret (if ready then FFinished else FNetwork span t, ready)
  | FPing span t =>
      r ← instrumented "ping" span (poll_ping_task t w);
      mret (FPing r.1 r.2, false)
  | FFinished => fun _ => Panicked Explicit
  end.

(** ** Extensions *)

(** [LogExtension::setup] *)
Definition log_setup (l : LogLevel) : M Os Fut := fun os =>
  match subscriber os with
  | Some _ => Panicked UnwrapFailed
  | None => Done (set_subscriber (Some (serial (jiffy SubscriberMessage) l)) os, FLogger logger_new)
  end.

(** [NetworkExtension::setup] *)
Definition network_setup (hardware : Hardware J) : M Os Fut :=
  _ ← modify (println [Text "Setting up Networking Extension"]);
  ds ← zoom get_net put_net
         (NetSetup.setup J translate_addr jiffy fuel network_interrupt_fn (memory_offset J hardware));
  mret match ds with
       | None => FMissing
       | Some ds => FNetwork Unmade (NtStart ds)
       end.

(** ** [kernel_main] *)

(** The empty UDP packet [kernel_main] sends on the devices of the hardware. *)
Definition empty_udp (mac : list Z) : outcome (result Ethernet.Packet unit) :=
  Udp.finish (set_destination_port (set_source_port 68) 67)
    (set_destination
       (set_source (set_protocol (set_ttl (set_identification (set_dscp 0) 0x2345) 20) Ipv4.Udp) [0; 0; 0; 0] mac)
       [255; 255; 255; 255] [0xff; 0xff; 0xff; 0xff; 0xff; 0xff])
    no_payload 0.

Definition send_empty_udp (d : NetworkDevice J) : M Os (NetworkDevice J) :=
  _ ← modify (println [DeviceIp (ip (metadata d))]);
  r ← lift (empty_udp (mac (metadata d)));
  packet ← lift (unwrap_result r);
  _ ← notify_device (notify (packet_queue d));
  mret (with_queue d (sender_enqueue (packet_queue d) packet)).

(** The line printed for a table of the ACPI root. *)
Definition entry_line (e : AcipEntry) : Line :=
  match e with
  | Apic _ => Text " -> Apic Entry"
  | FADT _ => Text " -> FADT Entry"
  | HighPrecisionEventTimer _ _ => Text " -> High Precision Event Timer Entry"
  | WindowsACPIEmulatedDevices _ _ => Text " -> Windows ACPI Emulated Devices Entry"
  | UnknownEntry header _ => UnknownTable (signature header)
  end.

(** The loop over the ACPI tables: each is loaded and printed before the next
    is looked at. *)
Fixpoint print_entries (n : nat) (mapper : OffsetMapper) (it : RSDTIter (Mp := OffsetMapper)) : M Os unit :=
  match n with
  | O => fun _ => OutOfFuel
  | S n =>
      r ← lift (entries_next mem mapper it);
      match r.2 with
      | None => mret tt
      | Some entry => _ ← modify (println [entry_line entry]); print_entries n mapper r.1
      end
  end.

(** [if let Some(iter) = kernel.hardware().get_rsdt_entries()] *)
Definition print_tables (hardware : Hardware J) : M Os unit :=
  match rsdt J hardware with
  | None => mret tt
  | Some (t, mapper) => print_entries fuel mapper (rsdt_iter t)
  end.

(** [Hardware::init], what it prints on the console. *)
Definition init_hardware (boot_info : BootInfo) : M Os (Hardware J) :=
  before ← gets (λ os : Os, boot_lines J (sys os));
  hardware ← zoom sys set_sys (Hardware.init J mem boot_info);
  after ← gets (λ os : Os, boot_lines J (sys os));
  _ ← modify (println (map FromHardware (drop (length before) after)));
  mret hardware.

(** [kernel_main] up to [kernel.run()]: the kernel it runs. *)
Definition kernel_main (boot_info : BootInfo) (os : Os) : outcome (State J Fut Os) :=
  '(os, hardware) ← init_hardware boot_info os;
  '(s, _) ← (_ ← add_extension J (log_setup Debug);
             _ ← add_extension J (network_setup hardware);
             _ ← on_env J (print_tables hardware);
             _ ← on_env J (with_networking_device J send_empty_udp hardware);
             add_task J (FPing Unmade (PtStart [192; 168; 178; 20])))
    (Kernel.setup J os (jiffy (Task Fut)) (jiffy Z));
  Done s.

(** ** The network interrupt *)

Definition notify_end_of_interrupt (id : Z) : K unit := on_env J (zoom net set_net (end_of_interrupt J id)).

(** What [interrupt::handle_interrupt] reports. *)
Definition trace_irq (n : NetState J (H := H) (T := T)) : K unit :=
  if NetSetup.HANDLE_QUEUE n then when (int_locked n) (trace_event Error "Could not get lock for Devices")
  else trace_event Error "PacketQueue not initialized".

(** [interrupt::handle_interrupt]; the handler is woken when packets were
    received. *)
Definition irq_dispatch : K unit :=
  n ← gets (λ s : State J Fut Os, net (env s));
  _ ← trace_irq n;
  before ← gets (λ s : State J Fut Os, length (q_items (inbox (env s))));
  _ ← on_env J (zoom get_net put_net (dispatch J translate_addr));
  after ← gets (λ s : State J Fut Os, length (q_items (inbox (env s))));
  when (bool_decide (before < after)%nat) wake_inbox.

(** [network_interrupt], with its span *)
Definition network_irq : K unit :=
  span ← make_span Error "Networking-Interrupt";
  _ ← in_span span irq_dispatch;
  notify_end_of_interrupt (PIC_1_OFFSET + 0xb).

(** ** The other hardware interrupts *)

Fixpoint wake_all (l : list Z) : K unit :=
  match l with
  | [] => mret tt
  | w :: l => _ ← wake_task w; wake_all l
  end.

(** [timer_interrupt_handler] *)
Definition timer_irq : K unit :=
  tm ← gets (λ s : State J Fut Os, timer (env s));
  let '(tm, due) := timer_update tm in
  _ ← on_env J (modify (set_timer tm));
  _ ← wake_all due;
  notify_end_of_interrupt (as_u8 Timer).

(** [keyboard_interrupt_handler]: the key is decoded and not used. *)
Definition keyboard_irq : K (bool * option Z) :=
  raw ← on_env J (zoom (λ os, Hardware.ports J (sys os)) (λ h os, set_sys (set_ports J h (sys os)) os) (inport 0x60));
  let scancode := cast 8 raw in
  _ ← notify_end_of_interrupt (as_u8 Keyboard);
  mret (key_down scancode, key scancode).

(** [InterruptDoneGuard]: dropping it reports the end of the interrupt. *)
Record InterruptDoneGuard := { guard_id : Z }.

Definition guard_new (id : Z) : InterruptDoneGuard := {| guard_id := id |}.

Definition guard_drop (g : InterruptDoneGuard) : K unit := notify_end_of_interrupt (guard_id g).

(** ** Exceptions *)

(** [hlt_loop] never returns, however long it is watched. *)
Fixpoint hlt_loop (n : nat) : K unit :=
  match n with
  | O => fun _ => OutOfFuel
  | S n => hlt_loop n
  end.

Definition breakpoint_handler : K unit := on_env J (modify (println [Text "EXCEPTION: BREAKPOINT"])).

Definition double_fault_handler : K unit := fun _ => Panicked Explicit.

Definition page_fault_handler (n : nat) (cr2 error_code : Z) : K unit :=
  _ ← on_env J (modify (println [Text "EXCEPTION: PAGE FAULT"; AccessedAddress cr2; ErrorCode error_code]));
  hlt_loop n.

Definition general_protection_handler (error_code : Z) : K unit :=
  let '(external, tbl, index) := gp_fields error_code in
  _ ← on_env J (modify (println [RawCode error_code; Selector external tbl index]));
  lift (Panicked Explicit).

End os.

Arguments Os Q J H T P C Tm : clear implicits.
Arguments NetworkTask J : clear implicits.
Arguments Fut J Y : clear implicits.
