(* ===== verification/OsSpec.v ===== *)
(** * What the operating system guarantees

    The system of [Os] from power-on: [kernel_main] starts the three tasks; a
    poll of the network task is the network handler's loop over the messages
    that were queued; and whatever order rounds of the kernel, interrupts and
    the cards take, no message is ever left behind by a sleeping kernel. *)

From stdpp Require Import base tactics list gmap strings numbers relations.
From Stdlib Require Import ZArith Lia.
From S2P Require Import Prelude Queue Buffer Ethernet Ipv4 Udp Device Handler HandlerSpec Pci E1000 Kernel KernelSpec Rng Memory Video Acpi Gdt Interrupts Logging NetApi PingTask NetSetup Hardware Os.

Local Open Scope Z_scope.

(** ** Queues with a waiting receiver *)

Lemma enqueue_inv {Q : Type → Type} `{QueueLaws Q} {A} (q q' : Q A) a :
  q_try_enqueue q a = (q', Ok tt) →
  q_items q' = q_items q ++ [a] ∧ q_is_closed q = false ∧ q_is_closed q' = false.
Proof.
  intros Hr. destruct (q_is_closed q) eqn:Hc; [| destruct (q_has_room q) eqn:Hroom].
  - rewrite (enqueue_err _ q a) in Hr by (by left). done.
  - destruct (enqueue_ok _ q a Hc Hroom) as (_ & Hi & Ho). rewrite Hr in Hi, Ho. done.
  - rewrite (enqueue_err _ q a) in Hr by (by right). done.
Qed.

Section waits.
Context {Q : Type → Type} `{QueueLaws Q} {C : Type} `{WakerCellLaws C} {A : Type}.

(** The receiver [id] of an open queue is parked at it only while it is empty;
    otherwise it is about to run. *)
Definition waits (id : Z) (q : Q A) (c : C) (run : list Z) : Prop :=
  q_is_closed q = false
  ∧ match wc_parked c with Some w => w = id ∧ q_items q = [] | None => id ∈ run end.

Lemma waits_run id q c run run' : waits id q c run → (id ∈ run → id ∈ run') → waits id q c run'.
Proof. intros [Ho Hw] Hr. split; [done |]. destruct (wc_parked c); auto. Qed.

(** The queue has grown and the receiver is woken. *)
Lemma waits_woken id q q' c run :
  waits id q c run → q_is_closed q' = false →
  waits id q' (wc_take c) (run ++ match wc_parked c with Some w => [w] | None => [] end).
Proof.
  intros [_ Hw] Ho. split; [done |]. rewrite wc_take_spec. apply elem_of_app.
  destruct (wc_parked c) as [w |]; [| by left]. destruct Hw as [-> _]. right. by apply list_elem_of_singleton.
Qed.

(** The receiver has found the queue empty. *)
Lemma waits_parked id q c run : q_is_closed q = false → q_items q = [] → waits id q (wc_park c id) run.
Proof. intros Ho Hi. split; [done |]. by rewrite wc_park_spec. Qed.

End waits.

Section spec.
Context {Q J : Type → Type} {H T P C Tm Y : Type}.
Context `{QueueOps Q} `{QueueLaws J} `{!UnboundedQueue J} `{PortOps H} `{Mmio H} `{Idt T} `{PageTable P} `{WakerCellLaws C} `{TimerOps Tm} {B : Build}.
Context `{Yield Y (Net Q J)}.

Abbreviation St := (State J (Fut J Y) (Os Q J H T P C Tm)).

Implicit Types (s : St) (os : Os Q J H T P C Tm).

(** ** No message is left behind *)

(** The logger is task 0, the network handler task 1. *)
Definition log_ok s : Prop :=
  match subscriber (env s) with
  | Some sub => waits 0 (writer sub) (log_cell (env s)) (q_items (run_queue s))
  | None => False
  end.

Definition net_ok s : Prop :=
  NetSetup.HANDLE_QUEUE (net (env s)) = true
  ∧ waits 1 (Os.inbox (env s)) (inbox_cell (env s)) (q_items (run_queue s)).

(** What every part of the system respects: log messages get to the logger,
    ids are queued behind those that are, the tasks stay. *)
Record orderly s s' : Prop := {
  od_log : log_ok s → log_ok s';
  od_handle : NetSetup.HANDLE_QUEUE (net (env s')) = NetSetup.HANDLE_QUEUE (net (env s));
  od_run : ∃ ids, q_items (run_queue s') = q_items (run_queue s) ++ ids;
  od_tasks : tasks s' = tasks s;
  od_add : task_add_queue s' = task_add_queue s }.

(** Tracing, waking and notifying leave the inbox alone. *)
Record calm s s' : Prop := {
  cm_orderly : orderly s s';
  cm_inbox : Os.inbox (env s') = Os.inbox (env s);
  cm_cell : inbox_cell (env s') = inbox_cell (env s) }.

#[export] Instance orderly_preorder : PreOrder orderly.
Proof.
  split.
  - intros s. split; try done. exists []. by rewrite app_nil_r.
  - intros s1 s2 s3 [L1 N1 [r1 R1] T1 A1] [L2 N2 [r2 R2] T2 A2].
    split; try congruence; auto. exists (r1 ++ r2). by rewrite R2, R1, app_assoc.
Qed.

#[export] Instance calm_preorder : PreOrder calm.
Proof. split; [by intros s; split |]. intros s1 s2 s3 [O1 ? ?] [O2 ? ?]. split; [by rewrite O1 | congruence..]. Qed.

Lemma calm_net s s' : calm s s' → net_ok s → net_ok s'.
Proof.
  intros [[_ Hh [ids Hr] _ _] Hi Hc] [Hn Hw]. split; [by rewrite Hh |]. rewrite Hi, Hc.
  eapply waits_run; [exact Hw |]. rewrite Hr. set_solver.
Qed.

(** Log messages may be behind when the queue of ids grows. *)
Lemma log_run s s' :
  log_ok s → subscriber (env s') = subscriber (env s) → log_cell (env s') = log_cell (env s) →
  (∃ ids, q_items (run_queue s') = q_items (run_queue s) ++ ids) → log_ok s'.
Proof.
  unfold log_ok. intros Hl Hs Hc [ids Hr]. rewrite Hs, Hc, Hr. destruct (subscriber (env s)); [| done].
  eapply waits_run; [exact Hl |]. set_solver.
Qed.

(** A change of what is not a queue, nor a cell of one. *)
Lemma calm_env (f : Os Q J H T P C Tm → Os Q J H T P C Tm) :
  (∀ os, subscriber (f os) = subscriber os ∧ log_cell (f os) = log_cell os ∧ Os.inbox (f os) = Os.inbox os
    ∧ inbox_cell (f os) = inbox_cell os ∧ NetSetup.HANDLE_QUEUE (net (f os)) = NetSetup.HANDLE_QUEUE (net os)) →
  stays calm (on_env J (modify f) : M St unit).
Proof.
  intros Hf s s' a [= <- _]. destruct (Hf (env s)) as (Hs & Hl & Hi & Hc & Hh).
  assert (∃ ids, q_items (run_queue s) = q_items (run_queue s) ++ ids) as Hr by (exists []; by rewrite app_nil_r).
  split; [split |..]; try done. intros Hlog. by eapply log_run.
Qed.

Lemma wake_task_inv w s s' a :
  wake_task w s = Done (s', a) →
  ∃ q, s' = set_run_queue J s q ∧ q_items q = q_items (run_queue s) ++ [w].
Proof.
  unfold wake_task. intros (s1 & r & He & [Hu ->]%lift_done)%M_bind_done. unfold enqueue_id in He.
  destruct (q_try_enqueue (run_queue s) w) as [q r'] eqn:E. simplify_eq.
  destruct r as [[] |]; [| done]. apply enqueue_inv in E as (Hi & _). by exists q.
Qed.

Lemma calm_wake w : stays calm (wake_task w : M St unit).
Proof.
  intros s s' a (q & -> & Hq)%wake_task_inv.
  assert (∃ ids, q_items (run_queue (set_run_queue J s q)) = q_items (run_queue s) ++ ids) as Hr by (by exists [w]).
  split; [split |..]; try done. intros Hl. by eapply log_run.
Qed.

(** Taking the waker out of a cell. *)
Lemma wake_cell_inv (get : Os Q J H T P C Tm → C) put s s' a :
  wake_cell get put s = Done (s', a) →
  ∃ q, s' = set_run_queue J (set_env J s (put (wc_take (get (env s))) (env s))) q
    ∧ q_items q = q_items (run_queue s) ++ match wc_parked (get (env s)) with Some w => [w] | None => [] end.
Proof.
  unfold wake_cell. intros Hr. rewrite !(M_bind_run _ _ _ _ _ eq_refl) in Hr.
  destruct (wc_parked (get (env s))) as [w |].
  - apply wake_task_inv in Hr as (q & -> & Hq). by exists q.
  - injection Hr as <- _. exists (run_queue s). split; [done |]. by rewrite app_nil_r.
Qed.

(** The calls of the subscriber keep its queue open. *)
Definition sends (sub sub' : SerialSubscriber (Q := J)) : Prop :=
  q_is_closed (writer sub) = false → q_is_closed (writer sub') = false.

#[local] Instance sends_preorder : PreOrder sends.
Proof. unfold sends. split; [intros ? ?; done | intros ? ? ? ? ? ?; auto]. Qed.

Lemma sends_send m : stays sends (send m).
Proof.
  intros sub sub' a Hr Ho. unfold send in Hr. destruct (q_try_enqueue (writer sub) m) as [q [[] |]] eqn:E; simplify_eq.
  cbn. by apply enqueue_inv in E as (_ & _ & ?).
Qed.

Lemma sends_new_span name : stays sends (new_span name).
Proof.
  unfold new_span. apply stays_bind; [typeclasses eauto | intros ? ? ? [= <- _] Ho; exact Ho |]. intros.
  apply stays_bind; [typeclasses eauto | apply stays_lift; typeclasses eauto |]. intros.
  apply stays_bind; [typeclasses eauto | apply sends_send |]. intros. apply stays_mret; typeclasses eauto.
Qed.

Lemma calm_on_subscriber {A} (k : M (SerialSubscriber (Q := J)) A) :
  stays sends k → stays calm (on_subscriber k : M St (option A)).
Proof.
  intros Hk s s' a. unfold on_subscriber. rewrite (M_bind_run _ _ _ _ _ eq_refl).
  destruct (subscriber (env s)) as [sub |] eqn:Es; [| by intros [= <- _]].
  intros (s1 & [sub' b] & [Hl ->]%lift_done & Hr)%M_bind_done. rewrite (M_bind_run _ _ _ _ _ eq_refl) in Hr.
  apply M_bind_done in Hr as (s2 & [] & (q & -> & Hq)%wake_cell_inv & [= <- _]). cbn in Hq. split; [split |..]; try done.
  - unfold log_ok. rewrite Es. cbn. intros Hw. rewrite Hq. eapply waits_woken; [exact Hw |].
    eapply Hk; [exact Hl | apply Hw].
  - cbn. eauto.
Qed.

Hint Resolve calm_wake calm_on_subscriber sends_send sends_new_span : stays.

Lemma calm_trace_event l content : stays calm (trace_event l content : M St unit).
Proof. unfold trace_event, event. stays. Qed.

Lemma calm_make_span l name : stays calm (make_span l name : M St (option Z)).
Proof. unfold make_span. stays. Qed.

Lemma calm_in_span {A} span (k : M St A) : stays calm k → stays calm (in_span span k).
Proof. intros Hk. unfold in_span, enter, exit. stays. Qed.

Lemma calm_notify n : stays calm (on_env J (notify_device n) : M St unit).
Proof.
  intros s s' a Hr. unfold on_env, zoom, notify_device in Hr. destruct (list_find _ _) as [[i x] |].
  - unfold zoom in Hr. destruct (notify_card _ _) as [[h []] | |]; simplify_eq. split; [split |..]; try done.
    exists []. by rewrite app_nil_r.
  - simplify_eq. by destruct s.
Qed.

Lemma calm_println ls : stays calm (on_env J (modify (println ls)) : M St unit).
Proof. by apply calm_env. Qed.

Hint Resolve calm_trace_event calm_make_span calm_in_span calm_notify calm_println : stays.

Lemma calm_act e : stays calm (act e : M St unit).
Proof. destruct e; cbn [act]; stays. Qed.

Lemma calm_act_all l : stays calm (act_all l : M St unit).
Proof. induction l as [| e l IH]; cbn [act_all]; [stays |]. apply stays_bind; [typeclasses eauto | apply calm_act | done]. Qed.

Lemma calm_receivers l : stays calm (wake_receivers l : M St unit).
Proof.
  induction l as [| [q c] l IH]; cbn [wake_receivers]; [stays |]. apply stays_bind; [typeclasses eauto | stays |].
  intros ready. apply stays_bind; [typeclasses eauto | | done]. destruct ready; [| stays]. cbn [when].
  apply stays_bind; [typeclasses eauto | by apply calm_env |]. stays.
Qed.

Lemma calm_settle : stays calm (settle : M St unit).
Proof.
  unfold settle. apply stays_bind; [typeclasses eauto | stays |]. intros events.
  apply stays_bind; [typeclasses eauto | by apply calm_env |]. intros _.
  apply stays_bind; [typeclasses eauto | apply calm_act_all |]. intros _.
  apply stays_bind; [typeclasses eauto | stays |]. intros. apply calm_receivers.
Qed.

Lemma calm_on_handler k h : stays calm (on_handler k h : M St (Handler J)).
Proof.
  unfold on_handler. apply stays_bind; [typeclasses eauto | stays |]. intros qs. cbn zeta.
  apply stays_bind; [typeclasses eauto | |].
  { intros s s' a Hr. unfold on_env, zoom in Hr. destruct (k _ _) as [[w h'] | |]; simplify_eq.
    by apply (calm_env (put_world w) ltac:(done) s _ tt). }
  intros h'. apply stays_bind; [typeclasses eauto | by apply calm_env |]. intros _.
  apply stays_bind; [typeclasses eauto | apply calm_settle | stays].
Qed.

Lemma calm_trace_message m : stays calm (trace_message m : M St unit).
Proof. unfold trace_message. stays. Qed.

Lemma calm_orderly {A} (k : M St A) : stays calm k → stays orderly k.
Proof. apply stays_impl. intros s s'. apply cm_orderly. Qed.

(** Changing the inbox, or its cell, is orderly. *)
Lemma orderly_env (f : Os Q J H T P C Tm → Os Q J H T P C Tm) :
  (∀ os, subscriber (f os) = subscriber os ∧ log_cell (f os) = log_cell os
    ∧ NetSetup.HANDLE_QUEUE (net (f os)) = NetSetup.HANDLE_QUEUE (net os)) →
  ∀ s, orderly s (set_env J s (f (env s))).
Proof.
  intros Hf s. destruct (Hf (env s)) as (Hs & Hl & Hh).
  assert (∃ ids, q_items (run_queue s) = q_items (run_queue s) ++ ids) as Hr by (exists []; by rewrite app_nil_r).
  split; try done. intros Hlog. by eapply log_run.
Qed.

(** The network task handles what there is, finds its queue empty and parks. *)
Definition parked (w : Z) s : Prop :=
  q_is_closed (Os.inbox (env s)) = false ∧ q_items (Os.inbox (env s)) = [] ∧ wc_parked (inbox_cell (env s)) = Some w.

Lemma network_loop_inv n h w s s' h' b :
  network_loop n h w s = Done (s', (h', b)) → q_is_closed (Os.inbox (env s)) = false →
  b = false ∧ parked w s' ∧ orderly s s'.
Proof.
  revert h s. induction n as [| n IH]; intros h s; cbn [network_loop]; [done |].
  rewrite (M_bind_run _ _ _ _ _ eq_refl). intros Hr Ho.
  destruct (q_try_dequeue (Os.inbox (env s))) as [q r] eqn:Eq. rewrite (M_bind_run _ _ _ _ _ eq_refl) in Hr.
  pose proof (orderly_env (put_inbox q) ltac:(done) s) as O1. set (s1 := set_env J s _) in *.
  destruct (q_items (Os.inbox (env s))) as [| m ms] eqn:Ei.
  - rewrite (dequeue_none _ _ Ei), Ho in Eq. simplify_eq. rewrite (M_bind_run _ _ _ _ _ eq_refl) in Hr.
    injection Hr as <- <- <-. split; [done |]. split.
    + split_and!; [exact Ho | exact Ei |]. cbn. by rewrite wc_park_spec.
    + etrans; [exact O1 |]. by apply (orderly_env (λ os, set_inbox_cell (wc_park (inbox_cell os) w) os) ltac:(done) s1).
  - destruct (dequeue_some _ _ _ _ Ei) as (Hr2 & Hi2 & Hc2). rewrite Eq in Hr2, Hc2. cbn in Hr2, Hc2. simplify_eq.
    apply M_bind_done in Hr as (s2 & [] & Ht & Hr). apply calm_trace_message in Ht as [O2 I2 _].
    apply M_bind_done in Hr as (s3 & h1 & Hh & Hr). apply calm_on_handler in Hh as [O3 I3 _].
    destruct (IH h1 s3 Hr) as (-> & Hp & O4); [rewrite I3, I2; cbn; congruence |].
    split; [done |]. split; [done |]. etrans; [exact O1 |]. etrans; [exact O2 |]. by etrans.
Qed.

Lemma poll_network_inv t w s s' t' b :
  poll_network t w s = Done (s', (t', b)) → q_is_closed (Os.inbox (env s)) = false →
  b = false ∧ parked w s' ∧ orderly s s'.
Proof.
  unfold poll_network. intros (s1 & h & Hh & Hr)%M_bind_done Ho.
  assert (calm s s1) as [O1 I1 _].
  { destruct t; [| by injection Hh as <- _]. apply M_bind_done in Hh as (s2 & h1 & Hh1 & Hh).
    apply M_bind_done in Hh as (s3 & [] & Hh3 & [= <- _]). etrans; [by eapply calm_on_handler | by eapply calm_trace_event]. }
  rewrite (M_bind_run _ _ _ _ _ eq_refl) in Hr. apply M_bind_done in Hr as (s2 & [h2 b2] & Hl & [= <- _ <-]).
  apply network_loop_inv in Hl as (-> & Hp & O2); [| by rewrite I1]. split; [done |]. split; [done |]. by etrans.
Qed.

(** A computation in a span: it is entered before and left after. *)
Lemma in_span_inv {A} span (k : M St A) s s' a :
  in_span span k s = Done (s', a) → ∃ s1 s2, calm s s1 ∧ k s1 = Done (s2, a) ∧ calm s2 s'.
Proof.
  unfold in_span. destruct span as [i |]; [| intros Hk; by exists s, s'].
  intros (s1 & ? & He & Hr)%M_bind_done. apply M_bind_done in Hr as (s2 & b & Hk & Hr).
  apply M_bind_done in Hr as (s4 & ? & Hx & [= <- <-]). exists s1, s2.
  apply calm_on_subscriber in He, Hx; try apply sends_send. done.
Qed.

Lemma instrumented_inv {A} name st (k : M St A) s s' st' a :
  instrumented name st k s = Done (s', (st', a)) →
  ∃ s1 s2, calm s s1 ∧ k s1 = Done (s2, a) ∧ calm s2 s'.
Proof.
  unfold instrumented. intros (s0 & span & Hs & Hr)%M_bind_done.
  assert (calm s s0) as C0 by (destruct st; [by eapply calm_make_span | by injection Hs as <- _]).
  apply M_bind_done in Hr as (s3 & a' & Hi & [= <- _ <-]). apply in_span_inv in Hi as (s1 & s2 & C1 & Hk & C2).
  exists s1, s2. split; [by etrans | done].
Qed.

(** A parked network task is waiting. *)
Lemma parked_net s s' : parked 1 s → NetSetup.HANDLE_QUEUE (net (env s)) = true → calm s s' → net_ok s'.
Proof.
  intros (Ho & Hi & Hp) Hh Hc. eapply calm_net; [exact Hc |]. split; [done |]. split; [done |]. by rewrite Hp.
Qed.

Context (new_mac_queue : Q (list Z)).

Abbreviation poll := (poll_fut (Q := Q) (J := J) (H := H) (T := T) (P := P) (C := C) (Tm := Tm) (Y := Y) new_mac_queue).

Lemma poll_network_task span t s s' r waker :
  wakers s !! waker = Some 1 → q_is_closed (Os.inbox (env s)) = false →
  NetSetup.HANDLE_QUEUE (net (env s)) = true →
  poll (FNetwork span t) waker s = Done (s', r) →
  (∃ span' t', r.1 = FNetwork span' t') ∧ net_ok s' ∧ orderly s s' ∧ q_items (Os.inbox (env s')) = [].
Proof.
  intros Hw Ho Hh. unfold poll_fut. rewrite (M_bind_run _ _ s s 1) by (unfold ptr_ref; by rewrite Hw).
  intros (s1 & [span' [t' ready]] & Hi & Hr)%M_bind_done.
  apply instrumented_inv in Hi as (s2 & s3 & C1 & Hp & C2).
  apply poll_network_inv in Hp as (-> & Hp & O2); [| by rewrite (cm_inbox _ _ C1)]. injection Hr as <- <-.
  assert (orderly s s3) as O3 by (etrans; [apply C1 | exact O2]). split; [by eexists _, _ |]. split.
  - eapply parked_net; [exact Hp | | exact C2]. by rewrite (od_handle _ _ O3).
  - split; [etrans; [exact O3 | apply C2] |]. rewrite (cm_inbox _ _ C2). apply Hp.
Qed.

(** The logger reads what there is, finds its queue empty and parks. *)
Lemma poll_logger_inv n g s s' g' :
  poll_logger n g 0 s = Done (s', g') →
  (∃ sub, subscriber (env s) = Some sub ∧ q_is_closed (writer sub) = false) →
  log_ok s' ∧ Os.inbox (env s') = Os.inbox (env s) ∧ inbox_cell (env s') = inbox_cell (env s)
  ∧ net (env s') = net (env s) ∧ run_queue s' = run_queue s ∧ tasks s' = tasks s ∧ task_add_queue s' = task_add_queue s.
Proof.
  revert g s. induction n as [| n IH]; intros g s; cbn [poll_logger]; [done |].
  rewrite (M_bind_run _ _ _ _ _ eq_refl). intros Hr (sub & Hs & Ho). rewrite Hs in Hr.
  destruct (q_try_dequeue (writer sub)) as [q r] eqn:Eq. rewrite (M_bind_run _ _ _ _ _ eq_refl) in Hr.
  destruct (q_items (writer sub)) as [| m ms] eqn:Ei.
  - rewrite (dequeue_none _ _ Ei), Ho in Eq. simplify_eq. rewrite (M_bind_run _ _ _ _ _ eq_refl) in Hr.
    injection Hr as <- _. split_and!; try done. by apply waits_parked.
  - destruct (dequeue_some _ _ _ _ Ei) as (Hr2 & _ & Hc2). rewrite Eq in Hr2, Hc2. cbn in Hr2, Hc2. simplify_eq.
    apply IH in Hr; [done |]. eexists. split; [done |]. cbn. congruence.
Qed.

(** ** The ping task *)

(** A queue messages were added to. *)
Definition extended {A} (q q' : J A) : Prop :=
  (∃ l, q_items q' = q_items q ++ l) ∧ q_is_closed q' = q_is_closed q.

Definition api_grows (n n' : Net Q J) : Prop :=
  match NetApi.HANDLE_QUEUE Q J n, NetApi.HANDLE_QUEUE Q J n' with
  | Some q, Some q' => extended q q'
  | None, None => True
  | _, _ => False
  end.

Lemma extended_refl {A} (q : J A) : extended q q.
Proof. split; [| done]. exists []. by rewrite app_nil_r. Qed.

Lemma extended_trans {A} (q1 q2 q3 : J A) : extended q1 q2 → extended q2 q3 → extended q1 q3.
Proof.
  intros [[l1 E1] C1] [[l2 E2] C2]. split; [| congruence]. exists (l1 ++ l2). by rewrite E2, E1, app_assoc.
Qed.

Lemma extended_enqueue {A} (q : J A) a : extended q (q_try_enqueue q a).1.
Proof.
  destruct (q_is_closed q) eqn:Hc.
  - rewrite (enqueue_err _ q a) by (by left). apply extended_refl.
  - destruct (enqueue_open q a Hc) as [Hi Ho]. split; [by exists [a] | by rewrite Ho, Hc].
Qed.

#[local] Instance api_grows_preorder : PreOrder api_grows.
Proof.
  unfold api_grows. split.
  - intros n. case_match; [apply extended_refl | done].
  - intros n1 n2 n3. repeat case_match; try done. apply extended_trans.
Qed.

(** A change of the world only. *)
Lemma api_same n n' : NetApi.HANDLE_QUEUE Q J n' = NetApi.HANDLE_QUEUE Q J n → api_grows n n'.
Proof. intros E. unfold api_grows. rewrite E. case_match; [apply extended_refl | done]. Qed.

Lemma api_send m : stays api_grows (send_message Q J m).
Proof.
  intros n n' r. unfold send_message, api_grows. destruct (NetApi.HANDLE_QUEUE Q J n) as [q |] eqn:E; [| done].
  pose proof (extended_enqueue q m) as Hq. destruct (q_try_enqueue q m) as [q' r']. by intros [= <- _].
Qed.

Lemma api_drop q : stays api_grows (drop_receiver Q J q).
Proof. apply stays_modify. intros n. by apply api_same. Qed.

Lemma api_recv q : stays api_grows (poll_recv Q J q).
Proof.
  intros n n' r. unfold poll_recv. repeat case_match; try done.
  - intros (n1 & [] & Hd%api_drop & [= <- _])%M_bind_done. done.
  - intros [= <- _]. by apply api_same.
  - intros (n1 & [] & Hd%api_drop & [= <- _])%M_bind_done. done.
Qed.

Lemma api_get_mac g : stays api_grows (poll_get_mac Q J new_mac_queue g).
Proof.
  destruct g; cbn [poll_get_mac]; [| apply api_recv | done].
  apply stays_bind; [typeclasses eauto | |].
  { intros n n' r. destruct (NetApi.HANDLE_QUEUE Q J n); [| done]. by intros [= <- _]. }
  intros _. apply stays_bind; [typeclasses eauto | intros n n' r [= <- _]; by apply api_same |].
  intros q. apply stays_bind; [typeclasses eauto | apply api_send |]. intros r. case_match; [apply api_recv |].
  apply stays_bind; [typeclasses eauto | apply api_drop | stays].
Qed.

Lemma api_raw_ping ip mac : stays api_grows (raw_ping Q J ip mac).
Proof. intros n n' r [= <- _]. by apply api_same. Qed.

Lemma api_poll_ping f w : stays api_grows (poll_ping Q J f w).
Proof.
  intros n n' r. unfold poll_ping. case_match; [by intros [= <- _] |]. case_match; [by intros [= <- _] |].
  case_match; [| done]. apply (stays_bind api_grows); [apply stays_lift; typeclasses eauto |]. intros.
  apply stays_bind; [typeclasses eauto | apply stays_lift; typeclasses eauto |]. intros.
  apply stays_bind; [typeclasses eauto | apply api_send | stays].
Qed.

(** [yield_now] sends no messages. *)
Context (Hyield : ∀ (y : Y) w, stays api_grows (poll_yield y w)).

Definition task_grows (s s' : TaskState Q J) : Prop := api_grows (PingTask.net Q J s) (PingTask.net Q J s').

#[local] Instance task_grows_preorder : PreOrder task_grows.
Proof. unfold task_grows. split; [intros s; reflexivity |]. intros s1 s2 s3 ? ?. by etrans. Qed.

Lemma task_on_net {A} (k : M (Net Q J) A) : stays api_grows k → stays task_grows (on_net Q J k).
Proof. intros Hk s s' a. unfold on_net. intros Hr. repeat case_match; simplify_eq. by eapply Hk. Qed.

Lemma task_info i : stays task_grows (info Q J i).
Proof. apply stays_modify. intros s. unfold task_grows. reflexivity. Qed.

Hint Resolve api_get_mac api_raw_ping api_poll_ping Hyield task_on_net task_info : stays.

Lemma task_poll fuel t w : stays task_grows (poll_task Q J new_mac_queue fuel t w).
Proof. revert t. induction fuel as [| fuel IH]; intros t; cbn [poll_task]; [stays |]. destruct t; stays. Qed.

(** The inbox was changed by adding to it, and the handler is woken when
    something was added. *)
Lemma grown_net s s' (f : Os Q J H T P C Tm → Os Q J H T P C Tm) u :
  net_ok s → extended (Os.inbox (env s)) (Os.inbox (f (env s))) →
  NetSetup.HANDLE_QUEUE (net (f (env s))) = NetSetup.HANDLE_QUEUE (net (env s)) →
  inbox_cell (f (env s)) = inbox_cell (env s) → subscriber (f (env s)) = subscriber (env s) →
  log_cell (f (env s)) = log_cell (env s) →
  when (bool_decide (length (q_items (Os.inbox (env s))) < length (q_items (Os.inbox (f (env s)))))%nat) wake_inbox
    (set_env J s (f (env s))) = Done (s', u) →
  net_ok s' ∧ orderly s s'.
Proof.
  intros [Hh [Ho Hw]] [[l Hl] Hc] Ehd Ec Es El Hr. set (s1 := set_env J s (f (env s))) in *.
  assert (∃ ids, q_items (run_queue s) = q_items (run_queue s) ++ ids) as Hids by (exists []; by rewrite app_nil_r).
  assert (orderly s s1) as O1 by (split; try done; intros Hlog; by eapply log_run).
  case_bool_decide as Hlt; cbn [when] in Hr.
  - apply wake_cell_inv in Hr as (q & -> & Hq). split.
    + split; [cbn; by rewrite Ehd |]. cbn. rewrite Hq. cbn. rewrite Ec. eapply waits_woken; [by split |]. exact (eq_trans Hc Ho).
    + etrans; [exact O1 |]. assert (∃ ids, q_items q = q_items (run_queue s1) ++ ids) as Hrun by by eexists.
      split; try done. intros Hlog. by eapply log_run.
  - injection Hr as <- _. split; [| exact O1]. split; [cbn; by rewrite Ehd |]. cbn.
    assert (l = []) as ->. { destruct l; [done |]. rewrite Hl, length_app in Hlt. simpl in Hlt. lia. }
    rewrite app_nil_r in Hl. split; [by rewrite Hc |]. rewrite Ec. destruct (wc_parked _); [| done]. by rewrite Hl.
Qed.

Lemma calm_trace_infos l : stays calm (trace_infos l : M St unit).
Proof.
  induction l as [| i l IH]; cbn [trace_infos]; [stays |].
  apply stays_bind; [typeclasses eauto | destruct i; apply calm_trace_event | intros _; apply IH].
Qed.

Lemma put_api_spec n q os :
  NetApi.HANDLE_QUEUE Q J n = Some q →
  Os.inbox (put_api n os) = q ∧ NetSetup.HANDLE_QUEUE (net (put_api n os)) = NetSetup.HANDLE_QUEUE (net os)
  ∧ inbox_cell (put_api n os) = inbox_cell os ∧ subscriber (put_api n os) = subscriber os
  ∧ log_cell (put_api n os) = log_cell os.
Proof. intros E. unfold put_api. by rewrite E. Qed.

Lemma poll_ping_inv t w s s' t' :
  net_ok s → poll_ping_task new_mac_queue t w s = Done (s', t') → net_ok s' ∧ orderly s s'.
Proof.
  intros Hn. unfold poll_ping_task. rewrite (M_bind_run _ _ _ _ _ eq_refl).
  intros (s1 & r & Hz & Hr)%M_bind_done. rewrite (M_bind_run _ _ _ _ _ eq_refl) in Hr.
  unfold on_env, zoom in Hz. destruct (_ ≫= _) as [[ts r1] | |] eqn:Ek; simplify_eq.
  apply M_bind_done in Ek as (ts1 & t1 & Ht%task_poll & Ek).
  assert (PingTask.net Q J ts = PingTask.net Q J ts1) as Ets by (rewrite (M_bind_run _ _ _ _ _ eq_refl) in Ek; by injection Ek as <- _).
  unfold task_grows, api_grows in Ht. cbn [PingTask.net get_api NetApi.HANDLE_QUEUE] in Ht. rewrite (proj1 Hn), <- Ets in Ht.
  destruct (NetApi.HANDLE_QUEUE Q J (PingTask.net Q J ts)) as [q |] eqn:Eq; [| done].
  apply M_bind_done in Hr as (s2 & [] & Hw & Hr).
  destruct (put_api_spec (PingTask.net Q J ts) q (env s) Eq) as (E1 & E2 & E3 & E4 & E5).
  destruct (grown_net s s2 (put_api (PingTask.net Q J ts)) () Hn) as [Hn2 O2]; try done; [by rewrite E1 |].
  assert (stays calm (_ ← settle; _ ← trace_infos r.2;
    _ ← match r.1 with
        | PtMac _ (GmWaiting q) =>
            on_env J (modify (λ os, set_mac_cells (<[q := wc_park (default wc_new (mac_cells os !! q)) w]> (mac_cells os)) os))
        | _ => mret tt
        end;
    mret r.1 : M St _)) as Hc.
  { apply stays_bind; [typeclasses eauto | apply calm_settle |]. intros _.
    apply stays_bind; [typeclasses eauto | | intros _; apply stays_bind; [typeclasses eauto | | stays]].
    - apply calm_trace_infos.
    - repeat case_match; try stays. by apply calm_env. }
  apply Hc in Hr. split; [by eapply calm_net |]. etrans; [exact O2 | apply Hr].
Qed.

(** ** The network interrupt *)

Definition machine_grows (m m' : Machine J (H := H)) : Prop := extended (handler_queue J m) (handler_queue J m').

#[local] Instance machine_grows_preorder : PreOrder machine_grows.
Proof. split; [intros m; apply extended_refl | intros m1 m2 m3; apply extended_trans]. Qed.

Lemma machine_on_hw {A} (k : M H A) : stays machine_grows (on_hw J k).
Proof. intros m m' a. unfold on_hw. intros Hr. repeat case_match; simplify_eq. apply extended_refl. Qed.

Lemma machine_rx f : stays machine_grows (modify (λ m, set_rx_ring J m (f m))).
Proof. apply stays_modify. intros m. apply extended_refl. Qed.

Lemma machine_tx f : stays machine_grows (modify (λ m, set_tx_ring J m (f m))).
Proof. apply stays_modify. intros m. apply extended_refl. Qed.

Lemma machine_into_raw b : stays machine_grows (into_raw J b).
Proof. intros m m' a [= <- _]. apply extended_refl. Qed.

Lemma machine_from_raw p n : stays machine_grows (from_raw J p n).
Proof. intros m m' a. unfold from_raw. intros Hr. repeat case_match; simplify_eq. apply extended_refl. Qed.

Lemma machine_from_raw_parts p n : stays machine_grows (from_raw_parts J p n).
Proof. intros m m' a. unfold from_raw_parts. intros Hr. repeat case_match; simplify_eq. apply extended_refl. Qed.

Lemma machine_enqueue msg : stays machine_grows (handler_enqueue J msg).
Proof. apply stays_modify. intros m. apply extended_enqueue. Qed.

Hint Resolve machine_on_hw machine_rx machine_tx machine_into_raw machine_from_raw machine_from_raw_parts machine_enqueue : stays.

Context (translate_addr : Z → option Z).

Lemma machine_enqueue_packet c p n : stays machine_grows (enqueue_packet J translate_addr c p n).
Proof. unfold enqueue_packet. stays. Qed.

Hint Resolve machine_enqueue_packet : stays.

Lemma machine_transmit n c : stays machine_grows (transmit_loop J translate_addr n c).
Proof. revert c. induction n as [| n IH]; intros c; cbn [transmit_loop]; stays. Qed.

Lemma machine_reclaim n i hd c : stays machine_grows (reclaim_loop J n i hd c).
Proof. revert i c. induction n as [| n IH]; intros i c; cbn [reclaim_loop]; stays. Qed.

Lemma machine_receive n c : stays machine_grows (receive_loop J n c).
Proof. revert c. induction n as [| n IH]; intros c; cbn [receive_loop]; stays. Qed.

Hint Resolve machine_transmit machine_reclaim machine_receive : stays.

Lemma machine_interrupt c : stays machine_grows (E1000.handle_interrupt J translate_addr c).
Proof. unfold E1000.handle_interrupt, get_interrupt_cause. stays. Qed.

Lemma machine_run_nic n : stays machine_grows (run_nic J translate_addr n).
Proof.
  intros m m' n'. unfold run_nic. case_match; [| intros [= <- _]; apply extended_refl]. intros Hr.
  repeat case_match; simplify_eq. change (machine_grows (view n m) m'). by eapply machine_interrupt.
Qed.

(** An interrupt adds to the handler's queue and changes no other static. *)
Definition irq_grows (n n' : NetState J (H := H) (T := T)) : Prop :=
  machine_grows (machine n) (machine n') ∧ NetSetup.HANDLE_QUEUE n' = NetSetup.HANDLE_QUEUE n.

Lemma dispatch_grows : stays irq_grows (dispatch J translate_addr).
Proof.
  intros n n' []. unfold dispatch. case_match eqn:Eh; [| intros [= <-]; split; [apply extended_refl | done]].
  case_match; [| done]. case_match; [intros [= <-]; split; [apply extended_refl | done] |].
  destruct (for_mut _ _ _) as [[m l'] | |] eqn:Ef; [| done | done]. intros [= <-]. split; [| done].
  by eapply (stays_for_mut machine_grows); [apply machine_run_nic | exact Ef].
Qed.

Lemma calm_trace_irq n : stays calm (trace_irq n : M St unit).
Proof. unfold trace_irq, when. stays. Qed.

Lemma irq_dispatch_inv s s' u : net_ok s → irq_dispatch translate_addr s = Done (s', u) → net_ok s' ∧ orderly s s'.
Proof.
  intros Hn. unfold irq_dispatch. rewrite (M_bind_run _ _ _ _ _ eq_refl). intros (s1 & [] & Ht & Hr)%M_bind_done.
  apply calm_trace_irq in Ht as C1.
  pose proof (calm_net _ _ C1 Hn) as Hn1. rewrite (M_bind_run _ _ _ _ _ eq_refl) in Hr.
  apply M_bind_done in Hr as (s2 & [] & Hz & Hr). rewrite (M_bind_run _ _ _ _ _ eq_refl) in Hr.
  unfold on_env, zoom in Hz. destruct (dispatch J translate_addr _) as [[n []] | |] eqn:Ed; simplify_eq.
  apply dispatch_grows in Ed as [Eg Eh].
  destruct (grown_net s1 s' (put_net n) u Hn1) as [Hn' O']; try done. split; [done |]. etrans; [apply C1 | exact O'].
Qed.

Lemma calm_eoi id : stays calm (notify_end_of_interrupt id : M St unit).
Proof.
  intros s s' u [= <- _]. by apply (calm_env (λ os, set_net
    (match end_of_interrupt J id (net os) with Done (n, _) => n | _ => net os end) os) ltac:(done) s _ ()).
Qed.

Lemma calm_wake_all l : stays calm (wake_all l : M St unit).
Proof. induction l as [| w l IH]; cbn [wake_all]; [stays |]. apply stays_bind; [typeclasses eauto | apply calm_wake | done]. Qed.

Lemma calm_timer : stays calm (timer_irq : M St unit).
Proof.
  unfold timer_irq. apply stays_bind; [typeclasses eauto | stays |]. intros tm. destruct (timer_update tm) as [tm' due].
  apply stays_bind; [typeclasses eauto | by apply calm_env |]. intros _.
  apply stays_bind; [typeclasses eauto | apply calm_wake_all |]. intros _. apply calm_eoi.
Qed.

Lemma calm_keyboard : stays calm (keyboard_irq : M St _).
Proof.
  unfold keyboard_irq. apply stays_bind; [typeclasses eauto | |].
  - intros s s' a Hr. unfold on_env, zoom in Hr. destruct (inport _ _) as [[h v] | |]; simplify_eq.
    by apply (calm_env (λ os, set_sys (set_ports J h (sys os)) os) ltac:(done) s _ ()).
  - intros raw. apply stays_bind; [typeclasses eauto | apply calm_eoi | stays].
Qed.

Lemma network_irq_inv s s' u : net_ok s → network_irq translate_addr s = Done (s', u) → net_ok s' ∧ orderly s s'.
Proof.
  intros Hn. unfold network_irq. intros (s1 & span & Hs & Hr)%M_bind_done.
  apply calm_make_span in Hs as C1. apply M_bind_done in Hr as (s4 & [] & Hi & Hr).
  apply in_span_inv in Hi as (s2 & s3 & C2 & Hd & C3).
  apply irq_dispatch_inv in Hd as [Hn3 O3]; [| by eapply calm_net, calm_net].
  apply (calm_net _ _ C3) in Hn3 as Hn4. apply calm_eoi in Hr as C5. split; [by eapply calm_net |].
  etrans; [apply C1 |]. etrans; [apply C2 |]. etrans; [exact O3 |]. etrans; [apply C3 | apply C5].
Qed.

(** ** The whole system *)

(** The three tasks, wherever they are in the course of their work. *)
Definition tasks_ok (l : list (Task (Fut J Y))) : Prop :=
  ∃ g span t span' t',
    l = [{| task_id := 0; future := FLogger g |}; {| task_id := 1; future := FNetwork span t |};
         {| task_id := 2; future := FPing span' t' |}].

Record os_inv s : Prop := {
  sv_log : log_ok s;
  sv_net : net_ok s;
  sv_tasks : tasks_ok (tasks s ++ q_items (task_add_queue s)) }.

Lemma log_ok_ext s s' :
  env s' = env s → (0 ∈ q_items (run_queue s) → 0 ∈ q_items (run_queue s')) → log_ok s → log_ok s'.
Proof. unfold log_ok. intros -> Hr. case_match; [| done]. intros Hw. by eapply waits_run. Qed.

Lemma net_ok_ext s s' :
  env s' = env s → (1 ∈ q_items (run_queue s) → 1 ∈ q_items (run_queue s')) → net_ok s → net_ok s'.
Proof. unfold net_ok. intros -> Hr [Hh Hw]. split; [done |]. by eapply waits_run. Qed.

Lemma orderly_log s s' : orderly s s' → log_ok s → log_ok s'.
Proof. apply od_log. Qed.

Lemma poll_logger_task g s s' r waker :
  wakers s !! waker = Some 0 → (∃ sub, subscriber (env s) = Some sub ∧ q_is_closed (writer sub) = false) →
  net_ok s → poll (FLogger g) waker s = Done (s', r) →
  (∃ g', r.1 = FLogger g') ∧ log_ok s' ∧ net_ok s' ∧ tasks s' = tasks s ∧ task_add_queue s' = task_add_queue s
  ∧ run_queue s' = run_queue s.
Proof.
  intros Hw Hsub Hn. unfold poll_fut. rewrite (M_bind_run _ _ s s 0) by (unfold ptr_ref; by rewrite Hw).
  rewrite (M_bind_run _ _ _ _ _ eq_refl). intros (s1 & g' & Hp & Hr)%M_bind_done.
  rewrite (M_bind_run _ _ _ _ _ eq_refl) in Hr. injection Hr as <- <-.
  apply poll_logger_inv in Hp as (Hl & Hi & Hc & Hne & Hrun & Ht & Ha); [| done].
  split_and!; try done; [by eexists |]. destruct Hn as [Hh Hwt]. split; [cbn; by rewrite Hne |].
  change (waits 1 (Os.inbox (env s1)) (inbox_cell (env s1)) (q_items (run_queue s1))). by rewrite Hi, Hc, Hrun.
Qed.

Lemma poll_ping_fut span t s s' r waker :
  net_ok s → poll (FPing span t) waker s = Done (s', r) →
  (∃ span' t', r.1 = FPing span' t') ∧ net_ok s' ∧ orderly s s'.
Proof.
  intros Hn. unfold poll_fut. intros (s0 & w & Hp & Hr)%M_bind_done.
  assert (s0 = s) as -> by (unfold ptr_ref in Hp; case_match; by simplify_eq).
  apply M_bind_done in Hr as (s1 & [span' t'] & Hi & [= <- <-]).
  apply instrumented_inv in Hi as (s2 & s3 & C1 & Hk & C2).
  apply poll_ping_inv in Hk as [Hn3 O3]; [| by eapply calm_net]. split; [by eexists _, _ |].
  split; [by eapply calm_net |]. etrans; [apply C1 |]. etrans; [exact O3 | apply C2].
Qed.

Lemma task_run_inv t s s' r :
  task_run J poll t s = Done (s', r) →
  ∃ s1 f ready ws n,
    poll (future t) (next_waker s) (set_wakers J s (<[next_waker s := task_id t]> (wakers s)) (next_waker s + 1))
      = Done (s1, (f, ready))
    ∧ r = ({| task_id := task_id t; future := f |}, ready) ∧ s' = set_wakers J s1 ws n.
Proof.
  unfold task_run. rewrite (M_bind_run _ _ _ _ _ eq_refl). intros (s1 & [f ready] & Hp & Hr)%M_bind_done.
  apply M_bind_done in Hr as (s2 & [] & Hd & [= <- <-]). unfold waker_drop in Hd.
  apply M_bind_done in Hd as (s3 & id & Hq & [= <-]). unfold ptr_ref in Hq. case_match; simplify_eq.
  by eexists _, _, _, _, _.
Qed.

(** A poll of a task: the log and the inbox are in order afterwards if only
    the polled task's own queue may have been behind. *)
Lemma poll_task_inv (l : list (Task (Fut J Y))) i t s s' r :
  tasks_ok l → l !! i = Some t → tasks s = l → q_items (task_add_queue s) = [] →
  (∃ sub, subscriber (env s) = Some sub ∧ q_is_closed (writer sub) = false) →
  NetSetup.HANDLE_QUEUE (net (env s)) = true → q_is_closed (Os.inbox (env s)) = false →
  (task_id t ≠ 0 → log_ok s) → (task_id t ≠ 1 → net_ok s) →
  task_run J poll t s = Done (s', r) →
  os_inv (set_tasks J s' (<[i := r.1]> (tasks s')))
  ∧ (∃ ids, q_items (run_queue s') = q_items (run_queue s) ++ ids)
  ∧ (task_id t = 1 → q_items (Os.inbox (env s')) = []).
Proof.
  intros (g & span & nt & span' & pt & ->) Hi Ht Ha Hsub Hh Ho Hl Hn Hr.
  apply task_run_inv in Hr as (s1 & f & ready & ws & n & Hp & -> & ->). cbn [fst].
  set (s0 := set_wakers J s _ _) in *.
  assert (wakers s0 !! next_waker s = Some (task_id t)) as Hw by apply lookup_insert_eq.
  assert (task_id t ≠ 0 → log_ok s0) as Hl0 by (intros; eapply log_ok_ext; [.. | by apply Hl]; done).
  assert (task_id t ≠ 1 → net_ok s0) as Hn0 by (intros; eapply net_ok_ext; [.. | by apply Hn]; done).
  assert (log_ok s1 ∧ net_ok s1 ∧ tasks s1 = tasks s ∧ q_items (task_add_queue s1) = []
    ∧ tasks_ok (<[i := {| task_id := task_id t; future := f |}]> (tasks s))
    ∧ (∃ ids, q_items (run_queue s1) = q_items (run_queue s) ++ ids)
    ∧ (task_id t = 1 → q_items (Os.inbox (env s1)) = [])) as (Hl1 & Hn1 & Ht1 & Ha1 & Hok & Hids & Hdone).
  { rewrite Ht. destruct i as [| [| [| i]]]; cbn in Hi; simplify_eq; cbn [task_id future] in *.
    - apply poll_logger_task in Hp as ((g' & Hg) & Hl1 & Hn1 & Ht1 & Ha1 & Hq1); try done; [| by apply Hn0].
      cbn in Hg. subst f. rewrite Ht1, Ha1, Hq1. split_and!; try done; [by eexists _, _, _, _, _ |].
      exists []. by rewrite app_nil_r.
    - apply poll_network_task in Hp as ((sp & t' & Hf) & Hn1 & O1 & He); try done. cbn in Hf. subst f.
      split_and!; [by eapply orderly_log; [| apply Hl0] | done | by rewrite (od_tasks _ _ O1) | by rewrite (od_add _ _ O1) | | apply O1 | done].
      by eexists _, _, _, _, _.
    - apply poll_ping_fut in Hp as ((sp & t' & Hf) & Hn1 & O1); [| by apply Hn0]. cbn in Hf. subst f.
      split_and!; [by eapply orderly_log; [| apply Hl0] | done | by rewrite (od_tasks _ _ O1) | by rewrite (od_add _ _ O1) | | apply O1 | done].
      by eexists _, _, _, _, _. }
  split; [| done]. split.
  - by eapply (log_ok_ext s1).
  - by eapply (net_ok_ext s1).
  - cbn. by rewrite Ha1, app_nil_r, Ht1.
Qed.

(** An id leaves the run queue: only its own task may be behind. *)
Lemma dequeued_ok s q id rest :
  os_inv s → q_items (run_queue s) = id :: rest → q_items q = rest →
  (id ≠ 0 → log_ok (set_run_queue J s q)) ∧ (id ≠ 1 → net_ok (set_run_queue J s q)).
Proof.
  intros [Hl Hn _] Hq Hi. split; intros Hne.
  - apply (log_ok_ext s); [done | | exact Hl]. cbn. rewrite Hq, Hi. set_solver.
  - apply (net_ok_ext s); [done | | exact Hn]. cbn. rewrite Hq, Hi. set_solver.
Qed.

Lemma tasks_ok_ids l id :
  tasks_ok l → list_find (λ t, task_id t = id) l = None → id ≠ 0 ∧ id ≠ 1.
Proof.
  intros (g & span & nt & span' & pt & ->) [H0' [H1' _]%Forall_cons_1]%list_find_None%Forall_cons_1.
  cbn in *. split; congruence.
Qed.

(** A round serves the first of the queued tasks and keeps the order of the
    others; the network task leaves its inbox empty. *)
Definition serves s s' : Prop :=
  match q_items (run_queue s) with
  | [] => q_items (run_queue s') = []
  | id :: rest =>
      (∃ ids, q_items (run_queue s') = rest ++ ids) ∧ (id = 1 → q_items (Os.inbox (env s')) = [])
  end.

Lemma run_round_os s s' r : os_inv s → run_round J poll s = Done (s', r) → os_inv s' ∧ serves s s'.
Proof.
  intros Hs. unfold run_round, serves. destruct (q_items (run_queue s)) as [| id rest] eqn:Eq.
  { rewrite (dequeue_none _ _ Eq). destruct Hs as [Hl Hn Ht]. by case_match; intros [= <- _]. }
  destruct (dequeue_some _ _ _ _ Eq) as (Hr & Hi & _). destruct (q_try_dequeue (run_queue s)) as [q r'].
  cbn in Hr, Hi. subst r'. destruct (dequeued_ok s q id rest Hs Eq Hi) as [Hl1 Hn1]. destruct Hs as [Hl Hn Ht].
  set (s1 := set_run_queue J s q) in *.
  destruct (drain_run (S (length (q_items (task_add_queue s)))) s1 ltac:(cbn; lia)) as (qa & Hd & Hqa & _).
  rewrite (M_bind_run _ _ _ _ _ Hd), (M_bind_run _ _ _ _ _ eq_refl). set (s2 := set_tasks J _ _) in *.
  assert (id ≠ 0 → log_ok s2) as Hl2 by (intros; by apply (log_ok_ext s1); auto).
  assert (id ≠ 1 → net_ok s2) as Hn2 by (intros; by apply (net_ok_ext s1); auto).
  destruct (list_find (λ t, task_id t = id) (tasks s2)) as [[i t] |] eqn:Ef.
  - apply list_find_Some in Ef as (Hti & <- & _). intros (s3 & r3 & Hrun & Hr)%M_bind_done.
    rewrite (M_bind_run _ _ _ _ _ eq_refl) in Hr. injection Hr as <- _.
    destruct (poll_task_inv (tasks s2) i t s2 s3 r3) as (Hv & Hids & He); try done.
    + unfold log_ok in Hl. destruct (subscriber (env s)) as [sub |] eqn:Es; [| done]. exists sub. split; [exact Es | apply Hl].
    + apply Hn.
    + apply Hn.
    + split; [exact Hv |]. split; [| exact He]. cbn in Hids. by rewrite Hi in Hids.
  - intros [= <- _]. destruct (tasks_ok_ids (tasks s2) id Ht Ef) as [H0' H1'].
    split; [split; [by apply Hl2 | by apply Hn2 |]; cbn; by rewrite Hqa, app_nil_r |].
    split; [| done]. exists []. rewrite app_nil_r. exact Hi.
Qed.

(** What can happen: a round of the kernel's loop, a hardware interrupt, or
    anything the cards do to their registers and to memory. *)
Inductive os_step : St → St → Prop :=
  | os_round s s' r : run_round J poll s = Done (s', r) → os_step s s'
  | os_irq s s' u : network_irq translate_addr s = Done (s', u) → os_step s s'
  | os_timer s s' u : timer_irq s = Done (s', u) → os_step s s'
  | os_keyboard s s' r : keyboard_irq s = Done (s', r) → os_step s s'
  | os_cards s os' :
      Os.inbox os' = Os.inbox (env s) → inbox_cell os' = inbox_cell (env s) →
      NetSetup.HANDLE_QUEUE (net os') = NetSetup.HANDLE_QUEUE (net (env s)) →
      subscriber os' = subscriber (env s) → log_cell os' = log_cell (env s) →
      os_step s (set_env J s os').

Lemma calm_inv s s' : calm s s' → os_inv s → os_inv s'.
Proof.
  intros C' [Hl Hn Ht]. pose proof (cm_orderly _ _ C') as O'.
  split; [by eapply orderly_log | by eapply calm_net |]. by rewrite (od_tasks _ _ O'), (od_add _ _ O').
Qed.

Lemma os_step_inv s s' : os_step s s' → os_inv s → os_inv s'.
Proof.
  intros [s0 s1 r Hr | s0 s1 u Hr | s0 s1 u Hr%calm_timer | s0 s1 r Hr%calm_keyboard | s0 os' Hi Hc Hh Hs Hl] Hv.
  - by eapply run_round_os in Hr as [? _].
  - destruct Hv as [Hlog Hn Ht]. apply network_irq_inv in Hr as [Hn' O']; [| done].
    split; [by eapply orderly_log | done |]. by rewrite (od_tasks _ _ O'), (od_add _ _ O').
  - by eapply calm_inv.
  - by eapply calm_inv.
  - destruct Hv as [Hlog [Hn Hw] Ht]. split; [| | done].
    + eapply log_run; [exact Hlog | done | done |]. exists []. by rewrite app_nil_r.
    + split; [cbn; congruence |]. cbn. by rewrite Hi, Hc.
Qed.

Lemma os_steps_inv s s' : rtc os_step s s' → os_inv s → os_inv s'.
Proof. induction 1; eauto using os_step_inv. Qed.

(** What is sent and not received yet will be: its receiver is about to run. *)
Lemma os_inv_pending s :
  os_inv s →
  (q_items (Os.inbox (env s)) ≠ [] → 1 ∈ q_items (run_queue s))
  ∧ (∃ sub, subscriber (env s) = Some sub ∧ (q_items (writer sub) ≠ [] → 0 ∈ q_items (run_queue s))).
Proof.
  intros [Hl [_ [_ Hn]] _]. unfold log_ok in Hl. destruct (subscriber (env s)) as [sub |]; [| done].
  destruct Hl as [_ Hl]. split; [| exists sub; split; [done |]]; intros Hne.
  - destruct (wc_parked (inbox_cell (env s))); [by destruct Hn | done].
  - destruct (wc_parked (log_cell (env s))); [by destruct Hl | done].
Qed.

(** When the run loop sleeps, both receivers are parked. *)
Lemma os_inv_asleep s :
  os_inv s → q_items (run_queue s) = [] → wc_parked (inbox_cell (env s)) = Some 1 ∧ wc_parked (log_cell (env s)) = Some 0.
Proof.
  intros [Hl [_ [_ Hn]] _] Hq. unfold log_ok in Hl. rewrite Hq in Hn.
  destruct (subscriber (env s)) as [sub |]; [| done]. destruct Hl as [_ Hl]. rewrite Hq in Hl.
  destruct (wc_parked (inbox_cell (env s))); [| by apply elem_of_nil in Hn].
  destruct (wc_parked (log_cell (env s))); [| by apply elem_of_nil in Hl]. by destruct Hn as [-> _], Hl as [-> _].
Qed.

Lemma rounds_steps n s s' rs : run_rounds J poll n s = Done (s', rs) → rtc os_step s s'.
Proof.
  revert s rs. induction n as [| n IH]; intros s rs; cbn [run_rounds]; [by intros [= <- _] |].
  intros (s1 & r & Hr & Hn)%M_bind_done. apply M_bind_done in Hn as (s2 & rs' & Hn & [= <- _]).
  eapply rtc_l; [by eapply os_round | by eapply IH].
Qed.

(** ** How long a message waits *)

(** Steps in any order with at least [n] rounds among them. *)
Inductive os_run : nat → St → St → Prop :=
  | or_refl s : os_run 0 s s
  | or_round n s s1 s' r : run_round J poll s = Done (s1, r) → os_run n s1 s' → os_run (S n) s s'
  | or_step n s s1 s' : os_step s s1 → os_run n s1 s' → os_run n s s'.

Lemma os_run_steps n s s' : os_run n s s' → rtc os_step s s'.
Proof. induction 1; [done | eapply rtc_l; [by eapply os_round | done] | by eapply rtc_l]. Qed.

Lemma rounds_run n s s' rs : run_rounds J poll n s = Done (s', rs) → os_run n s s'.
Proof.
  revert s rs. induction n as [| n IH]; intros s rs; cbn [run_rounds]; [intros [= <- _]; apply or_refl |].
  intros (s1 & r & Hr & Hn)%M_bind_done. apply M_bind_done in Hn as (s2 & rs' & Hn & [= <- _]).
  eapply or_round; [exact Hr | by eapply IH].
Qed.

(** A step serves the first task in the queue or adds to the queue. *)
Lemma os_step_serves s s' :
  os_step s s' → os_inv s → serves s s' ∨ ∃ ids, q_items (run_queue s') = q_items (run_queue s) ++ ids.
Proof.
  intros [s0 s1 r Hr | s0 s1 u Hr | s0 s1 u Hr%calm_timer | s0 s1 r Hr%calm_keyboard | s0 os' Hi Hc Hh Hs Hl] Hv.
  - left. by eapply run_round_os in Hr as [_ ?].
  - right. apply network_irq_inv in Hr as [_ O']; [apply O' | apply Hv].
  - right. apply Hr.
  - right. apply Hr.
  - right. exists []. by rewrite app_nil_r.
Qed.

(** With [k] tasks before the network task, its inbox is empty at some point
    of the next [k + 1] rounds. *)
Lemma inbox_served n s s' : os_run n s s' →
  ∀ pre post, os_inv s → q_items (run_queue s) = pre ++ 1 :: post → (length pre < n)%nat →
  ∃ s1, rtc os_step s s1 ∧ rtc os_step s1 s' ∧ q_items (Os.inbox (env s1)) = [].
Proof.
  assert (∀ s s1 s' pre post, os_step s s1 → rtc os_step s1 s' → q_items (run_queue s) = pre ++ 1 :: post →
    serves s s1 →
    (∀ pre' post', q_items (run_queue s1) = pre' ++ 1 :: post' → (length pre' < length pre)%nat →
       ∃ s2, rtc os_step s1 s2 ∧ rtc os_step s2 s' ∧ q_items (Os.inbox (env s2)) = []) →
    ∃ s2, rtc os_step s s2 ∧ rtc os_step s2 s' ∧ q_items (Os.inbox (env s2)) = []) as Hnext.
  { intros s0 s1 s2 pre post Hst Hrest Hq Hs IH. unfold serves in Hs. rewrite Hq in Hs.
    destruct pre as [| x pre]; cbn in Hs; destruct Hs as [[ids Hids] He].
    - exists s1. split; [by apply rtc_once |]. split; [done | by apply He].
    - destruct (IH pre (post ++ ids)) as (s3 & H1' & H2' & H3'); [by rewrite Hids, <- app_assoc | cbn; lia |].
      exists s3. split; [by eapply rtc_l | done]. }
  induction 1 as [s | n s s1 s' r Hr Hrun IH | n s s1 s' Hst Hrun IH]; intros pre post Hv Hq Hlen; [lia | |].
  - destruct (run_round_os s s1 r Hv Hr) as [Hv1 Hs].
    eapply (Hnext s s1 s' pre post); [by eapply os_round | by eapply os_run_steps | done | done |].
    intros pre' post' Hq' Hl'. apply (IH pre' post'); [done | done | lia].
  - pose proof (os_step_inv s s1 Hst Hv) as Hv1. destruct (os_step_serves s s1 Hst Hv) as [Hs | [ids Hids]].
    + eapply (Hnext s s1 s' pre post); [done | by eapply os_run_steps | done | done |].
      intros pre' post' Hq' Hl'. apply (IH pre' post'); [done | done | lia].
    + destruct (IH pre (post ++ ids)) as (s2 & H1' & H2' & H3'); [done | by rewrite Hids, Hq, <- app_assoc | done |].
      exists s2. split; [by eapply rtc_l | done].
Qed.

End spec.
