(* ===== verification/OsNetwork.v ===== *)
(** * The network task refines the network handler

    [Handler] gives the loop of [network_handler] over a list of messages; in
    [Os] the task is polled, takes its messages from a shared queue, and has
    its tracing, notifications and wake-ups carried out.  A poll does what the
    loop does. *)

From stdpp Require Import base tactics list gmap strings numbers relations.
From Stdlib Require Import ZArith Lia.
From S2P Require Import Prelude Queue Buffer Ethernet Device Handler HandlerSpec HandlerTrace Pci E1000 E1000Rx E1000Tx E1000Init Kernel KernelSpec Rng Memory Video Acpi Gdt Interrupts Logging NetApi PingTask NetSetup Hardware Os OsSpec.

Local Open Scope Z_scope.

Section network.
Context {Q J : Type → Type} {H T P C Tm Y : Type}.
Context `{QueueOps Q} `{QueueLaws J} `{!UnboundedQueue J} `{Mmio H} `{WakerCellLaws C} `{TimerOps Tm} {B : Build}.

Abbreviation St := (State J (Fut J Y) (Os Q J H T P C Tm)).

Implicit Types (s : St) (os : Os Q J H T P C Tm).

(** ** Carrying out what was asked *)

(** The system can be asked: its queues are open, its cards have registers. *)
Record ready s : Prop := {
  rd_run : q_is_closed (run_queue s) = false;
  rd_log : ∃ sub, subscriber (env s) = Some sub ∧ q_is_closed (writer sub) = false;
  rd_cards : Forall (λ n, com_ok (com J (nic_card n))) (default [] (INT_DEVICES (net (env s)))) }.

(** Nothing the handler sees has changed. *)
Record quiet s s' : Prop := {
  qu_ready : ready s → ready s';
  qu_world : get_world (env s') = get_world (env s);
  qu_queues : packet_queues (env s') = packet_queues (env s);
  qu_inbox : Os.inbox (env s') = Os.inbox (env s);
  qu_cell : inbox_cell (env s') = inbox_cell (env s) }.

#[export] Instance quiet_preorder : PreOrder quiet.
Proof. split; [by intros s; split |]. intros s1 s2 s3 [] []. split; [auto | congruence..]. Qed.

(** A computation that returns in a ready system, and is not noticed. *)
Definition runs {A} (k : M St A) : Prop := ∀ s, ready s → ∃ s' a, k s = Done (s', a) ∧ quiet s s'.

Lemma runs_bind {A D} (k : M St A) (f : A → M St D) : runs k → (∀ a, runs (f a)) → runs (x ← k; f x).
Proof.
  intros Hk Hf s Hs. destruct (Hk s Hs) as (s1 & a & H1' & Q1). destruct (Hf a s1 (qu_ready _ _ Q1 Hs)) as (s2 & d & H2' & Q2).
  exists s2, d. rewrite (M_bind_run _ _ _ _ _ H1'). split; [done | by etrans].
Qed.

Lemma runs_mret {A} (a : A) : runs (mret a).
Proof. intros s _. by exists s, a. Qed.

Lemma runs_gets {A} (f : St → A) : runs (gets f).
Proof. intros s _. by exists s, (f s). Qed.

(** A change the handler does not see. *)
Lemma runs_env (f : Os Q J H T P C Tm → Os Q J H T P C Tm) :
  (∀ os, subscriber (f os) = subscriber os ∧ INT_DEVICES (net (f os)) = INT_DEVICES (net os)
    ∧ get_world (f os) = get_world os ∧ packet_queues (f os) = packet_queues os ∧ Os.inbox (f os) = Os.inbox os
    ∧ inbox_cell (f os) = inbox_cell os) →
  runs (on_env J (modify f) : M St unit).
Proof.
  intros Hf s Hs. eexists _, tt. split; [reflexivity |]. destruct (Hf (env s)) as (E1 & E2 & E3 & E4 & E5 & E6).
  split; try done. intros [Hr Hl Hc]. by split; cbn; rewrite ?E1, ?E2.
Qed.

Lemma runs_wake w : runs (wake_task w : M St unit).
Proof.
  intros s [Hr Hl Hc]. unfold wake_task. destruct (enqueue_ok _ (run_queue s) w Hr (always_room _ _)) as (He & _ & Ho).
  erewrite M_bind_run; last (unfold enqueue_id; by rewrite (surjective_pairing (q_try_enqueue (run_queue s) w))).
  rewrite He. eexists _, tt. split; [reflexivity |]. split; try done.
Qed.

Hint Resolve runs_mret runs_gets runs_wake : runs.
Ltac runs := repeat (intros; first [ solve [eauto 3 with runs] | case_match | apply runs_bind ]).

Lemma runs_wake_logger : runs (wake_logger : M St unit).
Proof.
  unfold wake_logger, wake_cell. apply runs_bind; [auto with runs |]. intros c.
  apply runs_bind; [by apply runs_env |]. runs.
Qed.

(** A call of the subscriber that returns and keeps its queue open. *)
Definition answers {A} (k : M (SerialSubscriber (Q := J)) A) : Prop := ∀ sub,
  q_is_closed (writer sub) = false → ∃ sub' a, k sub = Done (sub', a) ∧ q_is_closed (writer sub') = false.

Lemma answers_send m : answers (send m).
Proof. intros sub Ho. destruct (send_run sub m Ho) as (s' & Hr & _ & Ho' & _). by exists s', tt. Qed.

Lemma subscriber_run {A} (k : M (SerialSubscriber (Q := J)) A) s sub sub' a :
  ready s → subscriber (env s) = Some sub → k sub = Done (sub', a) → q_is_closed (writer sub') = false →
  ∃ s', on_subscriber k s = Done (s', Some a) ∧ quiet s s'.
Proof.
  intros Hs Es Hr Ho'. unfold on_subscriber. rewrite (M_bind_run _ _ _ _ _ eq_refl), Es.
  rewrite (M_bind_lift _ (sub', a) _ _ Hr), (M_bind_run _ _ _ _ _ eq_refl). cbn [fst snd].
  set (s1 := set_env J s _). assert (quiet s s1) as Q1.
  { split; try done. intros [Hrun _ Hc]. split; try done. by eexists. }
  destruct (runs_wake_logger s1 (qu_ready _ _ Q1 Hs)) as (s2 & [] & Hw & Q2).
  exists s2. rewrite (M_bind_run _ _ _ _ _ Hw). split; [done |]. by etrans.
Qed.

Lemma runs_subscriber {A} (k : M (SerialSubscriber (Q := J)) A) : answers k → runs (on_subscriber k : M St (option A)).
Proof.
  intros Hk s Hs. pose proof Hs as [_ (sub & Es & Ho) _]. destruct (Hk sub Ho) as (sub' & a & Hr & Ho').
  destruct (subscriber_run k s sub sub' a Hs Es Hr Ho') as (s' & Hs' & Q'). by exists s', (Some a).
Qed.

Hint Resolve runs_subscriber answers_send : runs.

Lemma runs_trace_event l content : runs (trace_event l content : M St unit).
Proof. unfold trace_event, event. runs. Qed.

Hint Resolve runs_trace_event : runs.

Lemma runs_notify n : runs (on_env J (notify_device n) : M St unit).
Proof.
  intros s Hs. unfold on_env, zoom, notify_device. destruct (list_find _ _) as [[i x] |] eqn:Ef.
  - apply list_find_Some in Ef as (Hi & _ & _). pose proof (Forall_lookup_1 _ _ _ _ (rd_cards _ Hs) Hi) as Hc.
    unfold zoom, notify_card. rewrite write_command_run by (exact Hc || reg_bound). eexists _, tt.
    split; [reflexivity |]. split; try done. by intros [].
  - exists s, tt. split; [by destruct s | done].
Qed.

Lemma runs_println ls : runs (on_env J (modify (println ls)) : M St unit).
Proof. by apply runs_env. Qed.

Hint Resolve runs_notify runs_println : runs.

Lemma runs_act e : runs (act e : M St unit).
Proof. destruct e; cbn [act]; runs. Qed.

Lemma runs_act_all l : runs (act_all l : M St unit).
Proof. induction l as [| e l IH]; cbn [act_all]; [runs |]. apply runs_bind; [apply runs_act | done]. Qed.

Lemma runs_receivers l : runs (wake_receivers l : M St unit).
Proof.
  induction l as [| [q c] l IH]; cbn [wake_receivers]; [runs |]. apply runs_bind; [runs |]. intros b.
  apply runs_bind; [| done]. destruct b; cbn [when]; [| runs]. apply runs_bind; [by apply runs_env |]. runs.
Qed.

Lemma runs_settle : runs (settle : M St unit).
Proof.
  unfold settle. apply runs_bind; [runs |]. intros events. apply runs_bind; [by apply runs_env |]. intros _.
  apply runs_bind; [apply runs_act_all |]. intros _. apply runs_bind; [runs |]. intros. apply runs_receivers.
Qed.

Lemma runs_message m : runs (trace_message m : M St unit).
Proof. unfold trace_message. runs. Qed.

(** ** One message *)

(** The handler with its ends of the packet queues, as the system holds them. *)
Definition handler_view (qs : gmap Z (J Ethernet.Packet)) (h : Handler J) : Handler J :=
  {| Handler.devices := map (attach_device qs) (Handler.devices h); bindings := bindings h |}.

Lemma attach_ids qs (ds : list (NetworkDevice J)) : map id (map (attach_device qs) ds) = map id ds.
Proof. rewrite map_map. by apply map_ext. Qed.

Lemma store_devices_lookup (ds : list (NetworkDevice J)) qs (d : NetworkDevice J) :
  NoDup (map id ds) → d ∈ ds → foldl store_device qs ds !! id d = Some (sender_queue (packet_queue d)).
Proof.
  revert qs. induction ds as [| x ds IH]; intros qs Hn Hd; [by apply elem_of_nil in Hd |]. cbn [foldl].
  cbn [map] in Hn. apply NoDup_cons in Hn as [Hx Hn]. apply elem_of_cons in Hd as [-> | Hd]; [| by apply IH].
  assert (store_device qs x !! id x = Some (sender_queue (packet_queue x))) as Hq by apply lookup_insert_eq.
  revert Hq. generalize (store_device qs x). clear IH Hn. induction ds as [| y ds IH]; intros q Hq; [done |].
  cbn [foldl map] in *. apply not_elem_of_cons in Hx as [Hne Hx]. apply IH; [done |].
  unfold store_device. by rewrite lookup_insert_ne.
Qed.

(** What a device stored is what it is attached to. *)
Lemma attach_stored qs (ds : list (NetworkDevice J)) :
  NoDup (map id ds) → map (attach_device (foldl store_device qs ds)) ds = ds.
Proof.
  intros Hn. rewrite <- (map_id ds) at 3. apply map_ext_in. intros d Hd%list_elem_of_In. unfold attach_device.
  rewrite (store_devices_lookup ds qs d Hn Hd). by destruct d as [? ? [] ? ?].
Qed.

Lemma on_handler_run (k : Handler J → M (World Q) (Handler J)) h s w h' :
  ready s → k (handler_view (packet_queues (env s)) h) (get_world (env s)) = Done (w, h') → NoDup (map id (Handler.devices h')) →
  ∃ s', on_handler k h s = Done (s', h') ∧ ready s' ∧ get_world (env s') = erase w
    ∧ handler_view (packet_queues (env s')) h' = h' ∧ Os.inbox (env s') = Os.inbox (env s).
Proof.
  intros Hs Hk Hn. unfold on_handler. rewrite (M_bind_run _ _ _ _ _ eq_refl). cbv zeta.
  rewrite (M_bind_run _ _ s (set_env J s (put_world w (env s))) h').
  2: { apply (zoom_run env (λ e s, set_env J s e)). by apply zoom_run. }
  rewrite (M_bind_run _ _ _ _ _ eq_refl). set (s2 := set_env J _ _).
  assert (ready s2) as Hs2 by (by destruct Hs).
  destruct (runs_settle s2 Hs2) as (s3 & [] & Hr & Q3). rewrite (M_bind_run _ _ _ _ _ Hr).
  exists s3. split; [done |]. split; [by apply (qu_ready _ _ Q3) |]. split; [by rewrite (qu_world _ _ Q3) |].
  split; [| by rewrite (qu_inbox _ _ Q3)]. unfold handler_view. rewrite (qu_queues _ _ Q3). cbn.
  rewrite attach_stored by done. by destruct h'.
Qed.

Lemma message_ids m h w w' h' :
  NoDup (map id (Handler.devices h)) → handle_message Q m h w = Done (w', h') →
  NoDup (map id (Handler.devices h')).
Proof.
  intros Hn Hr. pose proof (handle_message_devices m h w w' h' Hn Hr) as HF.
  eapply Forall2_same_distinct; [| exact HF | exact Hn]. by intros d d' [].
Qed.

(** ** The loop *)

Lemma network_loop_run ms n h w s wd h' :
  (length ms < n)%nat → ready s → q_items (Os.inbox (env s)) = ms → q_is_closed (Os.inbox (env s)) = false →
  NoDup (map id (Handler.devices h)) →
  handle_messages Q ms (handler_view (packet_queues (env s)) h) (get_world (env s)) = Done (wd, h') →
  ∃ s' h'', network_loop n h w s = Done (s', (h'', false)) ∧ ready s' ∧ parked w s'
    ∧ handler_view (packet_queues (env s')) h'' = h' ∧ get_world (env s') ≡ wd.
Proof.
  revert n h s wd. induction ms as [| m ms IH]; intros [| n] h s wd Hlt Hs Hi Ho Hn Hm; simpl in Hlt; try lia;
    cbn [network_loop]; rewrite (M_bind_run _ _ _ _ _ eq_refl).
  - rewrite (dequeue_none _ _ Hi), Ho. rewrite !(M_bind_run _ _ _ _ _ eq_refl). injection Hm as <- <-.
    eexists _, h. split; [reflexivity |]. split; [by destruct Hs |]. split; [| done].
    split_and!; [exact Ho | exact Hi |]. cbn. by rewrite wc_park_spec.
  - destruct (dequeue_some _ _ _ _ Hi) as (Hr & Hi' & Hc). destruct (q_try_dequeue (Os.inbox (env s))) as [q r].
    cbn in Hr, Hi', Hc. subst r. rewrite (M_bind_run _ _ _ _ _ eq_refl). set (s1 := set_env J s _).
    assert (ready s1) as Hs1 by (by destruct Hs).
    cbn [handle_messages] in Hm. apply M_bind_done in Hm as (w1 & h1 & H1' & Hm).
    destruct (runs_message m s1 Hs1) as (s2 & [] & Ht & Q2). rewrite (M_bind_run _ _ _ _ _ Ht).
    assert (NoDup (map id (Handler.devices h1))) as Hn1 by (eapply message_ids; [| exact H1']; cbn; by rewrite attach_ids).
    destruct (on_handler_run (handle_message Q m) h s2 w1 h1) as (s3 & Hr3 & Hs3 & Hw3 & Hv3 & Hi3); try done.
    { by apply (qu_ready _ _ Q2). } { by rewrite (qu_queues _ _ Q2), (qu_world _ _ Q2). }
    rewrite (M_bind_run _ _ _ _ _ Hr3).
    destruct (blind_messages ms h1 w1 (erase w1) wd h' (symmetry (erase_equiv w1)) Hm) as (wd2 & Hm2 & Hwd).
    destruct (IH n h1 s3 wd2) as (s' & h'' & Hl & Hs' & Hp & Hv & Hw'); try done.
    + lia.
    + rewrite Hi3, (qu_inbox _ _ Q2). exact Hi'.
    + rewrite Hi3, (qu_inbox _ _ Q2). cbn. by rewrite Hc.
    + by rewrite Hv3, Hw3.
    + exists s', h''. split_and!; try done. by rewrite Hw', Hwd.
Qed.

(** ** The task *)

Definition task_devices (t : NetworkTask J) : list (NetworkDevice J) :=
  match t with NtStart ds => ds | NtLoop h => Handler.devices h end.

(** What the task has left to do, given the messages that have arrived. *)
Definition task_handler (t : NetworkTask J) (qs : gmap Z (J Ethernet.Packet)) (ms : list HandlerMessage) :
    M (World Q) (Handler J) :=
  match t with
  | NtStart ds => network_handler Q (map (attach_device qs) ds) ms
  | NtLoop h => handle_messages Q ms (handler_view qs h)
  end.

Lemma poll_network_run t w s ms wd h' :
  ready s → q_items (Os.inbox (env s)) = ms → q_is_closed (Os.inbox (env s)) = false → NoDup (map id (task_devices t)) →
  task_handler t (packet_queues (env s)) ms (get_world (env s)) = Done (wd, h') →
  ∃ s' h'', poll_network t w s = Done (s', (NtLoop h'', false)) ∧ ready s' ∧ parked w s'
    ∧ handler_view (packet_queues (env s')) h'' = h' ∧ get_world (env s') ≡ wd.
Proof.
  intros Hs Hi Ho Hn Hr. unfold poll_network. destruct t as [ds | h]; cbn [task_handler task_devices] in *.
  - unfold network_handler in Hr. apply M_bind_done in Hr as (w1 & h1 & H1' & Hr).
    set (h0 := {| Handler.devices := ds; bindings := no_bindings |}).
    assert (NoDup (map id (Handler.devices h1))) as Hn1.
    { unfold init_handler in H1'. apply M_bind_done in H1' as (w2 & ds' & Hd & [= <- <-]). cbn.
      pose proof (init_devices_inv _ _ _ _ Hd) as HF. eapply Forall2_same_distinct; [| exact HF |]; [by intros d d' [] |].
      unfold distinct. by rewrite attach_ids. }
    destruct (on_handler_run (λ h, init_handler Q (Handler.devices h)) h0 s w1 h1 Hs H1' Hn1)
      as (s1 & Hr1 & Hs1 & Hw1 & Hv1 & Hi1).
    destruct (runs_trace_event Logging.Info "After Init" s1 Hs1) as (s2 & [] & Ht & Q2).
    erewrite M_bind_run; last (rewrite (M_bind_run _ _ _ _ _ Hr1), (M_bind_run _ _ _ _ _ Ht); reflexivity).
    rewrite (M_bind_run _ _ _ _ _ eq_refl).
    destruct (blind_messages ms h1 w1 (erase w1) wd h' (symmetry (erase_equiv w1)) Hr) as (wd2 & Hm2 & Hwd).
    assert (Os.inbox (env s2) = Os.inbox (env s)) as Ei by (by rewrite (qu_inbox _ _ Q2)).
    destruct (network_loop_run ms (S (length (q_items (Os.inbox (env s2))))) h1 w s2 wd2 h')
      as (s' & h'' & Hl & Hs' & Hp & Hv & Hw').
    + rewrite Ei, Hi. lia.
    + by apply (qu_ready _ _ Q2).
    + by rewrite Ei.
    + by rewrite Ei.
    + done.
    + by rewrite (qu_queues _ _ Q2), Hv1, (qu_world _ _ Q2), Hw1.
    + exists s', h''. rewrite (M_bind_run _ _ _ _ _ Hl). split_and!; try done. by rewrite Hw', Hwd.
  - rewrite !(M_bind_run _ _ _ _ _ eq_refl).
    destruct (network_loop_run ms (S (length (q_items (Os.inbox (env s))))) h w s wd h')
      as (s' & h'' & Hl & Hs' & Hp & Hv & Hw'); try done; [rewrite Hi; lia |].
    exists s', h''. by rewrite (M_bind_run _ _ _ _ _ Hl).
Qed.

Context `{Yield Y (Net Q J)} (new_mac_queue : Q (list Z)).

(** Its span exists or can be made. *)
Definition span_ready (st : SpanState) s : Prop :=
  match st with Made _ => True | Unmade => ∃ sub, subscriber (env s) = Some sub ∧ id_counter sub ≠ 0 end.

Lemma runs_span st s name :
  ready s → span_ready st s →
  ∃ s' span, match st with Unmade => make_span Logging.Info name | Made span => mret span end s = Done (s', span)
    ∧ quiet s s'.
Proof.
  intros Hs Hst. destruct st as [| span]; [| by exists s, span]. destruct Hst as (sub & Es & Hid).
  unfold make_span. rewrite (M_bind_run _ _ _ _ _ eq_refl), Es. destruct (enabled sub Logging.Info); [| by exists s, None].
  assert (∃ sub' a, new_span name sub = Done (sub', a) ∧ q_is_closed (writer sub') = false) as (sub' & a & Hr & Ho').
  { destruct (rd_log _ Hs) as (sub0 & Es' & Ho). rewrite Es in Es'. injection Es' as <-.
    unfold new_span. rewrite (M_bind_run _ _ _ _ _ eq_refl).
    rewrite (M_bind_lift _ (id_counter sub)) by (unfold id_from_u64; by rewrite (proj2 (Z.eqb_neq _ _) Hid)).
    set (s1 := {| writer := writer sub |}). destruct (answers_send (NewSpan (id_counter sub) name) s1 Ho) as (s2 & [] & Hr & Ho2).
    rewrite (M_bind_run _ _ _ _ _ Hr). by eexists _, _. }
  destruct (subscriber_run (new_span name) s sub sub' a Hs Es Hr Ho') as (s' & Hs' & Q'). by exists s', (Some a).
Qed.

Lemma in_span_run {A} span (k : M St A) (post : A → St → Prop) s :
  ready s → (∀ s0, quiet s s0 → ∃ s1 a, k s0 = Done (s1, a) ∧ ready s1 ∧ post a s1) →
  ∃ s1 s2 a, in_span span k s = Done (s2, a) ∧ ready s1 ∧ post a s1 ∧ quiet s1 s2.
Proof.
  intros Hs Hk. unfold in_span. destruct span as [i |].
  - destruct (runs_subscriber (enter i) (answers_send _) s Hs) as (s0 & ? & He & Q0).
    destruct (Hk s0 Q0) as (s1 & a & Hr & Hs1 & Hp).
    destruct (runs_subscriber (exit i) (answers_send _) s1 Hs1) as (s2 & ? & Hx & Q2).
    exists s1, s2, a. by rewrite (M_bind_run _ _ _ _ _ He), (M_bind_run _ _ _ _ _ Hr), (M_bind_run _ _ _ _ _ Hx).
  - destruct (Hk s) as (s1 & a & Hr & Hs1 & Hp); [done |]. by exists s1, s1, a.
Qed.

(** A poll that ended as it should. *)
Definition polled (w : Z) (wd : World Q) (h' : Handler J) (r : NetworkTask J * bool) s : Prop :=
  ∃ h'', r = (NtLoop h'', false) ∧ parked w s ∧ handler_view (packet_queues (env s)) h'' = h' ∧ get_world (env s) ≡ wd.

Lemma polled_quiet w wd h' r s s' : quiet s s' → polled w wd h' r s → polled w wd h' r s'.
Proof.
  intros Q' (h'' & Hr & (Ho & Hi & Hp) & Hv & Hw). exists h''. split; [done |].
  rewrite (qu_queues _ _ Q'), (qu_world _ _ Q'). split; [| done]. unfold parked.
  by rewrite (qu_inbox _ _ Q'), (qu_cell _ _ Q').
Qed.

(** C4: the network task refines the network handler.  When the task is polled, the
    messages in its queue are handled, in their order and exactly as the loop
    of [network_handler] handles them (from the start of DHCP if it is the
    first poll): if that loop returns, so does the poll, with the same
    devices, bindings, packet queues, results and ARP table; the task then
    waits, parked at its empty queue. *)
Theorem network_task_refines_handler span t waker id s ms wd h' :
  ready s → span_ready span s → wakers s !! waker = Some id →
  q_items (Os.inbox (env s)) = ms → q_is_closed (Os.inbox (env s)) = false → NoDup (map Device.id (task_devices t)) →
  task_handler t (packet_queues (env s)) ms (get_world (env s)) = Done (wd, h') →
  ∃ s' span' h'', poll_fut new_mac_queue (FNetwork span t) waker s
      = Done (s', (FNetwork (Made span') (NtLoop h''), false))
    ∧ ready s' ∧ parked id s' ∧ handler_view (packet_queues (env s')) h'' = h' ∧ get_world (env s') ≡ wd.
Proof.
  intros Hs Hst Hw Hi Ho Hn Hr. unfold poll_fut. rewrite (M_bind_run _ _ s s id) by (unfold ptr_ref; by rewrite Hw).
  destruct (runs_span span s "network_handler" Hs Hst) as (s0 & sp & Hsp & Q0).
  destruct (in_span_run sp (poll_network t id) (polled id wd h') s0 (qu_ready _ _ Q0 Hs))
    as (s1 & s2 & r & Hr2 & Hs1 & Hp & Q2).
  { intros s1 Q1. assert (quiet s s1) as Qs by (by etrans).
    destruct (poll_network_run t id s1 ms wd h') as (s2 & h'' & Hr2 & Hs2 & Hp & Hv & Hwd); try done.
    - by apply (qu_ready _ _ Qs).
    - by rewrite (qu_inbox _ _ Qs).
    - by rewrite (qu_inbox _ _ Qs).
    - by rewrite (qu_queues _ _ Qs), (qu_world _ _ Qs).
    - eexists s2, _. split; [exact Hr2 |]. split; [done |]. by exists h''. }
  destruct (polled_quiet _ _ _ _ _ _ Q2 Hp) as (h'' & -> & Hpk & Hv & Hwd).
  exists s2, sp, h''. split; [| split_and!; try done; by apply (qu_ready _ _ Q2)].
  rewrite (M_bind_run _ _ s s2 (Made sp, (NtLoop h'', false))); [reflexivity |]. unfold instrumented.
  by rewrite (M_bind_run _ _ _ _ _ Hsp), (M_bind_run _ _ _ _ _ Hr2).
Qed.

End network.

(** ** A poll *)

Module TaskRun.

Import SampleRuns.

(** The network task before its first poll, with an offer and an
    acknowledgement of a lease in its queue. *)
Definition os : Os list_queue jiffy_queue unit map_idt unit (option Z) sleepers :=
  {| sys := {| Hardware.cpu := booted_cpu; segments := {| Gdt.gdt_loaded := false; cs := 0; tr := 0 |}; interrupts_enabled := true; pics_initialized := true;
               video := {| INFO := None; BUFFER := None |}; active_table := tt; heap_region := None; ports := tt;
               MEMORY_MAPPING := true; KERNEL_INSTANCE := None; boot_lines := [] |};
     net := {| machine := {| hw := tt; rx_ring := []; tx_ring := []; rx_memory := ∅; E1000.boxes := ∅;
                             E1000.next_box := 1; handler_queue := mk_jiffy messages false |};
               NetSetup.cpu := booted_cpu; INT_DEVICES := Some []; int_locked := false; DEVICE_QUEUES := Some ∅;
               NetSetup.HANDLE_QUEUE := true; IPS := ips list_queue Sample.world; eois := [] |};
     packet_queues := ∅; world := Sample.world; next_queue := 0;
     subscriber := Some (serial (mk_jiffy [] false) Debug); inbox_cell := None; log_cell := Some 0; mac_cells := ∅; timer := []; console := [] |}.

Definition polling : State jiffy_queue (Fut jiffy_queue bool) (Os list_queue jiffy_queue unit map_idt unit (option Z) sleepers) :=
  {| id_count := 2; task_add_queue := mk_jiffy [] false; run_queue := mk_jiffy [] false; tasks := [];
     wakers := {[5 := 1]}; next_waker := 6; env := os |}.

#[global] Instance no_registers : Mmio unit := {| mmio_write _ _ _ := tt; mmio_read _ _ := (tt, 0) |}.

Lemma network_task_refines_handler_witness :
  ∃ s' span' h'', poll_fut (B := debug_build) ApiSample.new_queue
      (FNetwork Unmade (NtStart [Sample.device None Device.Initial])) 5 polling
      = Done (s', (FNetwork (Made span') (NtLoop h''), false))
    ∧ parked 1 s'
    ∧ map (λ d, ip (metadata d)) (Handler.devices (handler_view (packet_queues (env s')) h'')) = [Some Sample.own_addr].
Proof.
  destruct (network_task_refines_handler (B := debug_build) ApiSample.new_queue Unmade
    (NtStart [Sample.device None Device.Initial]) 5 1 polling messages dhcp_run.1 dhcp_run.2)
    as (s' & span' & h'' & Hr & _ & Hp & Hv & _).
  - split; [done | by eexists | by apply Forall_nil_2].
  - by eexists.
  - by vm_compute.
  - reflexivity.
  - reflexivity.
  - by apply NoDup_singleton.
  - vm_compute. reflexivity.
  - exists s', span', h''. split; [exact Hr |]. split; [exact Hp |]. rewrite Hv. vm_compute. reflexivity.
Defined.

End TaskRun.
