(* ===== verification/OsBoot.v ===== *)
(** * From power-on

    [kernel_main] on a machine as the bootloader leaves it: the state in which
    the kernel starts to run, and what holds of every state it can get to. *)

From stdpp Require Import base tactics list gmap strings numbers relations.
From Stdlib Require Import ZArith Lia.
From S2P Require Import Prelude Queue Buffer Ethernet Device Handler HandlerSpec HandlerTrace Pci E1000 E1000Rx Board Kernel KernelSpec Rng Memory Video Acpi Gdt Interrupts Logging NetApi PingTask NetSetup NetCards NetSetupSpec Hardware Os OsSpec OsNetwork.

Local Open Scope Z_scope.

(** ** Power-on *)

Section boot.
Context {Q J : Type → Type} {H T P C Tm Y : Type}.
Context `{QueueOps Q} `{QueueLaws J} `{!UnboundedQueue J} `{Board H} `{IdtLaws T} `{PageTableLaws P} `{WakerCellLaws C} `{TimerOps Tm} `{SegmentLaws} {B : Build}.
Context (mem : Z → Z) (translate : Z → option Z) (Hmapped : ∀ p, is_Some (translate p)).
Context (jiffy : ∀ A, J A) (fuel : nat) (fn : Z).
(** A new queue is empty and open; EEPROM reads end in time. *)
Context (Hjiffy : ∀ A, q_items (jiffy A) = [] ∧ q_is_closed (jiffy A) = false).
Context (Hdelay : (eeprom_delay < 1000)%nat) (Hfuel : (eeprom_delay < fuel)%nat).

Implicit Types (os : Os Q J H T P C Tm).

(** The state the bootloader leaves. *)
Record powered_on os : Prop := {
  po_sys : fresh J (sys os);
  po_cpu : cpu_inv (Hardware.cpu J (sys os));
  po_machine : sane (machine (net os));
  po_devices : INT_DEVICES (net os) = None;
  po_queues : DEVICE_QUEUES (net os) = None;
  po_handle : NetSetup.HANDLE_QUEUE (net os) = false;
  po_ips : IPS (net os) = None;
  po_subscriber : subscriber os = None;
  po_cells : wc_parked (inbox_cell os) = None ∧ wc_parked (log_cell os) = None }.

(** What the bootloader and the firmware give: the memory mapping, usable
    memory, readable ACPI tables and cards that work. *)
Record bootable (boot_info : BootInfo) os (offset : Z) (r : option (RSDT (Mp := OffsetMapper) * OffsetMapper)) : Prop := {
  bo_offset : physical_memory_offset boot_info = Some offset;
  bo_canonical : canonical offset;
  bo_memory : enough_memory (memory_regions boot_info);
  bo_acpi : rsdp_acip_setup mem (rsdp_addr boot_info) (Some offset) = Done r;
  bo_tables : ∃ es, get_rsdt_entries J mem (instance_of J boot_info r) fuel = Done es;
  bo_cards : all_work offset (Q := J) [] (expected (config (Hardware.ports J (sys os))) 0 slots) }.

Lemma network_devices_same offset (h h' : H) :
  config h' = config h → ports_only h h' → network_devices jiffy offset h' = network_devices jiffy offset h.
Proof.
  intros Hc [_ Hw]. unfold network_devices. rewrite Hc. apply map_ext. intros x. f_equal. by apply mac_words.
Qed.

Lemma cpu_inv_init (c : Cpu (T := T)) : cpu_inv c → cpu_inv (send_pit (with_loaded c (storage c)) configure_pit).
Proof. intros [Hl Ht Hb Hf Hm]. by split. Qed.

(** The network extension's set-up on the machine once it is up. *)
Lemma network_setup_run os offset (i : Hardware J) :
  memory_offset J i = Some offset → cpu_inv (Hardware.cpu J (sys os)) → sane (machine (net os)) →
  INT_DEVICES (net os) = None → DEVICE_QUEUES (net os) = None → NetSetup.HANDLE_QUEUE (net os) = false →
  IPS (net os) = None → all_work offset (Q := J) [] (expected (config (Hardware.ports J (sys os))) 0 slots) →
  ∃ n nics, network_setup translate jiffy fuel fn i os
      = Done (put_net n (println [Text "Setting up Networking Extension"] os), FNetwork (Y := Y) Unmade (NtStart (network_devices jiffy offset (Hardware.ports J (sys os)))))
    ∧ set_up jiffy fn offset (get_net os) n nics ∧ nics_inv nics (machine n).
Proof.
  intros Ho Hc Hm Hd Hq Hh Hi Hall. unfold network_setup. rewrite Ho.
  destruct (setup_run translate Hmapped jiffy fuel Hjiffy Hdelay Hfuel fn (get_net os) offset) as (n & nics & Hr & Hs & Hns).
  { split; cbn; try done; [| by rewrite Hd]. by destruct Hm. }
  { exact Hall. }
  exists n, nics. split; [| done]. rewrite (M_bind_run _ _ _ _ _ eq_refl).
  by rewrite (M_bind_run _ _ _ _ _ (zoom_run get_net put_net _ (println _ os) n _ Hr)).
Qed.

(** The kernel [kernel_main] runs. *)
Record booted_up (boot_info : BootInfo) os offset r (s : State J (Fut J Y) (Os Q J H T P C Tm)) (nics : list (Nic J)) : Prop := {
  bu_run : q_items (run_queue s) = [0; 1; 2] ∧ q_is_closed (run_queue s) = false;
  bu_add : q_items (task_add_queue s)
    = [{| task_id := 0; future := FLogger logger_new |};
       {| task_id := 1; future := FNetwork Unmade (NtStart (network_devices jiffy offset (Hardware.ports J (sys os)))) |};
       {| task_id := 2; future := FPing Unmade (PtStart [192; 168; 178; 20]) |}];
  bu_tasks : tasks s = [];
  bu_instance : Hardware.try_get J (sys (env s)) = Some (instance_of J boot_info r);
  bu_enabled : interrupts_enabled J (sys (env s)) = true;
  bu_segments : flat_segments (segments J (sys (env s)));
  bu_heap : heap_region J (sys (env s)) = Some (HEAP_START, HEAP_SIZE);
  bu_line : active (Hardware.cpu J (sys (env s))) 0x2b = Some fn;
  bu_subscriber : subscriber (env s) = Some (serial (jiffy SubscriberMessage) Debug);
  bu_inbox : NetSetup.HANDLE_QUEUE (net (env s)) = true ∧ Os.inbox (env s) = jiffy HandlerMessage;
  bu_ips : IPS (net (env s)) = Some ipmap_new;
  bu_cards : INT_DEVICES (net (env s)) = Some nics ∧ nics_inv nics (machine (net (env s)));
  bu_cells : wc_parked (inbox_cell (env s)) = None ∧ wc_parked (log_cell (env s)) = None;
  bu_console : ∃ h ds es, bruteforce (Hardware.ports J (sys os)) = Done (h, ds)
    ∧ get_rsdt_entries J mem (instance_of J boot_info r) fuel = Done es
    ∧ console (env s) = console os ++ map FromHardware (init_lines boot_info ds)
        ++ [Text "Setting up Networking Extension"] ++ map entry_line (default [] es) }.

(** The tables are printed as they are collected. *)
Lemma print_entries_run n mapper it l (os : Os Q J H T P C Tm) :
  collect (entries_next mem mapper) n it = Done l →
  print_entries mem n mapper it os = Done (println (map entry_line l) os, tt).
Proof.
  revert it l os. induction n as [| n IH]; intros it l os Hl; cbn [collect print_entries] in *; [done |].
  apply bind_done in Hl as ([it' o] & Hn & Hl). rewrite (M_bind_lift _ _ _ _ Hn). cbn [fst snd] in *.
  destruct o as [e |].
  - apply bind_done in Hl as (rest & Hr & [= <-]). rewrite (M_bind_run _ _ _ _ _ eq_refl), (IH _ _ _ Hr).
    unfold println. cbn. by rewrite <- app_assoc.
  - injection Hl as <-. unfold println. cbn. rewrite app_nil_r. by destruct os.
Qed.

Lemma print_tables_run hw es (os : Os Q J H T P C Tm) :
  get_rsdt_entries J mem hw fuel = Done es →
  print_tables mem fuel hw os = Done (println (map entry_line (default [] es)) os, tt).
Proof.
  unfold get_rsdt_entries, print_tables. destruct (rsdt J hw) as [[t mapper] |].
  - intros (l & Hl & [= <-])%bind_done. by apply print_entries_run.
  - intros [= <-]. unfold println. cbn. rewrite app_nil_r. by destruct os.
Qed.

Lemma add_extension_run (k : M (Os Q J H T P C Tm) (Fut J Y)) s os' f :
  k (env s) = Done (os', f) → q_is_closed (run_queue s) = false → q_is_closed (task_add_queue s) = false →
  ∃ qa qr, add_extension J k s
      = Done (set_run_queue J (set_add_queue J (set_id_count J (set_env J s os') ((id_count s + 1) mod 2 ^ 64)) qa) qr, tt)
    ∧ q_items qa = q_items (task_add_queue s) ++ [{| task_id := id_count s; future := f |}] ∧ q_is_closed qa = false
    ∧ q_items qr = q_items (run_queue s) ++ [id_count s] ∧ q_is_closed qr = false.
Proof.
  intros Hk Hr Ha. unfold add_extension. rewrite (M_bind_run _ _ s (set_env J s os') f).
  - by apply (add_task_run f (set_env J s os')).
  - exact (zoom_run env (λ e s, set_env J s e) k s os' f Hk).
Qed.

Lemma kernel_main_run boot_info os offset r :
  powered_on os → bootable boot_info os offset r →
  ∃ s nics, kernel_main mem translate jiffy fuel fn boot_info os = Done s ∧ booted_up boot_info os offset r s nics.
Proof.
  intros [Hsys Hcpu Hm Hd Hq Hh Hi Hsub Hcells] [Ho Hc Hmem Hr [es Hes] Hall].
  destruct (hardware_init_run J mem boot_info (sys os) offset r Hsys Ho Hc Hmem Hr) 
    as (g & v & t & h & ds & Hinit & _ & Hbf & Hcfg & Hseg).
  set (i := instance_of J boot_info r) in *. set (up := brought_up J g v t h i (init_lines boot_info ds) (sys os)) in *.
  assert (ports_only (Hardware.ports J (sys os)) h) as Hpo by (by eapply keeps_regs_bruteforce).
  set (os1 := println (map FromHardware (init_lines boot_info ds)) (set_sys up os)).
  assert (init_hardware mem boot_info os = Done (os1, i)) as Hih.
  { unfold init_hardware. rewrite (M_bind_run _ _ _ _ _ eq_refl).
    rewrite (M_bind_run _ _ _ _ _ (zoom_run sys set_sys _ os up i Hinit)), !(M_bind_run _ _ _ _ _ eq_refl).
    change (boot_lines J (sys (set_sys up os))) with (boot_lines J (sys os) ++ init_lines boot_info ds).
    by rewrite drop_app_length. }
  unfold kernel_main. rewrite Hih, bind_Done_l.
  set (s0 := Kernel.setup _ _ _ _).
  destruct (add_extension_run (log_setup jiffy Debug) s0 (set_subscriber (Some (serial (jiffy SubscriberMessage) Debug)) os1)
    (FLogger logger_new)) as (qa1 & qr1 & Hr1 & Ha1 & Ca1 & Hi1 & Ci1).
  { unfold log_setup. cbn. by rewrite Hsub. } { apply Hjiffy. } { apply Hjiffy. }
  set (s1 := set_run_queue J _ qr1) in *.
  assert (all_work offset (Q := J) [] (expected (config (Hardware.ports J (sys (env s1)))) 0 slots)) as Hall1.
  { change (Hardware.ports J (sys (env s1))) with h. rewrite Hcfg. exact Hall. }
  destruct (network_setup_run (env s1) offset i Ho (cpu_inv_init _ Hcpu) Hm Hd Hq Hh Hi Hall1) as (n & nics & Hns & Hset & Hinv).
  destruct (add_extension_run (network_setup translate jiffy fuel fn i) s1 _ _ Hns Ci1 Ca1) as (qa2 & qr2 & Hr2 & Ha2 & Ca2 & Hi2 & Ci2).
  set (s2a := set_run_queue J _ qr2) in *.
  set (s2 := set_env J s2a (println (map entry_line (default [] es)) (env s2a))).
  destruct (add_task_run (FPing Unmade (PtStart [192; 168; 178; 20])) s2 Ci2 Ca2) as (qa3 & qr3 & Hr3 & Ha3 & Ca3 & Hi3 & Ci3).
  eexists _, nics. split.
  { rewrite (M_bind_run _ _ _ _ _ Hr1), (M_bind_run _ _ _ _ _ Hr2).
    rewrite (M_bind_run _ _ s2a s2 tt) by (exact (zoom_run env (λ e s, set_env J s e) _ s2a _ tt (print_tables_run i es _ Hes))). rewrite (M_bind_run _ _ s2 s2 i) by reflexivity. by rewrite Hr3. }
  assert (network_devices jiffy offset (Hardware.ports J (sys (env s1)))
    = network_devices jiffy offset (Hardware.ports J (sys os))) as Edevs by (by apply network_devices_same).
  destruct (Hjiffy (Task (Fut J Y))) as [Ea _], (Hjiffy Z) as [Er _].
  split; try done.
  - split; [| exact Ci3]. cbn. rewrite Hi3. cbn. rewrite Hi2. cbn. rewrite Hi1. cbn. by rewrite Er.
  - cbn. rewrite Ha3. cbn. rewrite Ha2. cbn. rewrite Ha1. cbn. rewrite Ea. cbn. cbn in Edevs. by rewrite Edevs.
  - cbn. rewrite (su_active _ _ _ _ _ _ Hset). by rewrite decide_True.
  - cbn. apply (su_handle _ _ _ _ _ _ Hset).
  - cbn. apply (su_ips _ _ _ _ _ _ Hset).
  - split; [apply (su_devices _ _ _ _ _ _ Hset) | exact Hinv].
  - exists h, ds, es. split_and!; [done | done |]. cbn. by rewrite <- !app_assoc.
Qed.

Lemma booted_up_inv boot_info os offset r s nics : booted_up boot_info os offset r s nics → os_inv s.
Proof.
  intros [[Hr _] Ha Ht _ _ _ _ _ Hs [Hh Hi] _ _ [Hc1 Hc2] _]. split.
  - unfold log_ok. rewrite Hs, Hr. split; [apply Hjiffy |]. rewrite Hc2. set_solver.
  - split; [done |]. rewrite Hi, Hr. split; [apply Hjiffy |]. rewrite Hc1. set_solver.
  - rewrite Ht, Ha. by eexists _, _, _, _, _.
Qed.


Context `{Yield Y (Net Q J)} (new_mac_queue : Q (list Z)).
(** [yield_now] sends no messages. *)
Context (Hyield : ∀ (y : Y) w, stays (@api_grows Q J _) (poll_yield y w)).

(** C2: no wake-up is lost.  From power-on, whatever order rounds of the kernel,
    network interrupts and the cards' work come in: if the network handler has
    messages it is about to run, if the logger has messages it is about to
    run; so when the kernel sleeps, every message has been handled, every log
    line printed, and both tasks are waiting at their queues; and the three
    tasks are never lost. *)
Theorem no_wakeup_lost boot_info os offset r s0 s :
  powered_on os → bootable boot_info os offset r →
  kernel_main mem translate jiffy fuel fn boot_info os = Done s0 → rtc (os_step new_mac_queue translate) s0 s →
  (q_items (Os.inbox (env s)) ≠ [] → 1 ∈ q_items (run_queue s))
  ∧ (∃ sub, subscriber (env s) = Some sub ∧ (q_items (writer sub) ≠ [] → 0 ∈ q_items (run_queue s)))
  ∧ (q_items (run_queue s) = [] →
       wc_parked (inbox_cell (env s)) = Some 1 ∧ wc_parked (log_cell (env s)) = Some 0)
  ∧ tasks_ok (tasks s ++ q_items (task_add_queue s)).
Proof.
  intros Hp Hb Hr Hs. destruct (kernel_main_run boot_info os offset r Hp Hb) as (s1 & nics & Hr' & Hup).
  rewrite Hr in Hr'. injection Hr' as <-.
  pose proof (os_steps_inv new_mac_queue Hyield translate s0 s Hs (booted_up_inv _ _ _ _ _ _ Hup)) as Hv.
  destruct (os_inv_pending s Hv) as [H1' H2']. split_and!; [done | done | by apply os_inv_asleep | apply Hv].
Qed.

(** C3: no message waits for ever.  From power-on, at any time: within as many
    rounds of the kernel as tasks are queued to run at that time, and whatever
    interrupts come in between, there is a point at which the network
    handler's queue is empty, so every message that was waiting has been taken
    from it. *)
Theorem messages_served boot_info os offset r s0 s s' :
  powered_on os → bootable boot_info os offset r →
  kernel_main mem translate jiffy fuel fn boot_info os = Done s0 → rtc (os_step new_mac_queue translate) s0 s →
  os_run new_mac_queue translate (length (q_items (run_queue s))) s s' →
  ∃ s1, rtc (os_step new_mac_queue translate) s s1 ∧ rtc (os_step new_mac_queue translate) s1 s'
    ∧ q_items (Os.inbox (env s1)) = [].
Proof.
  intros Hp Hb Hr Hs Hrun. destruct (kernel_main_run boot_info os offset r Hp Hb) as (s2 & nics & Hr' & Hup).
  rewrite Hr in Hr'. injection Hr' as <-.
  pose proof (os_steps_inv new_mac_queue Hyield translate s0 s Hs (booted_up_inv _ _ _ _ _ _ Hup)) as Hv.
  destruct (decide (q_items (Os.inbox (env s)) = [])) as [He | Hne].
  { exists s. split; [done |]. split; [by eapply os_run_steps | done]. }
  apply (os_inv_pending s Hv), list_elem_of_split in Hne as (pre & post & Hq).
  eapply (inbox_served new_mac_queue Hyield translate _ s s' Hrun pre post Hv Hq). rewrite Hq, length_app. cbn. lia.
Qed.

End boot.

(** ** A machine with one card *)

Module BootSample.

Import Gdt.ListTable.

Definition mem (a : Z) : Z := default 0 (SampleMachine.table_bytes !! Z.to_nat (a - 0x100 - BoardSample.offset)).

Definition boot_info : BootInfo :=
  {| rsdp_addr := Some 0x100; physical_memory_offset := Some BoardSample.offset; framebuffer := None;
     memory_regions := SampleMap.sample_map |}.

Definition off : Os list_queue jiffy_queue BoardSample.sim map_idt flat_table (option Z) sleepers :=
  {| sys := {| Hardware.cpu := booted_cpu; segments := {| Gdt.gdt_loaded := false; cs := 0; tr := 0 |}; interrupts_enabled := true; pics_initialized := false;
               video := {| INFO := None; BUFFER := None |}; active_table := ∅; heap_region := None;
               ports := BoardSample.board; MEMORY_MAPPING := false; KERNEL_INSTANCE := None; boot_lines := [] |};
     net := BoardSample.state; packet_queues := ∅;
     world := {| cells := ∅; next_cell := 0; mac_queues := ∅; udp_queues := ∅; ips := None; trace := [] |};
     next_queue := 0; subscriber := None; inbox_cell := None; log_cell := None; mac_cells := ∅; timer := []; console := [] |}.

Definition root : option (RSDT (Mp := OffsetMapper) * OffsetMapper) :=
  match rsdp_acip_setup (B := debug_build) mem (Some 0x100) (Some BoardSample.offset) with Done r => r | _ => None end.

Lemma off_powered : powered_on off.
Proof.
  split; [split; [done | by eexists | done] | apply booted_cpu_inv | apply BoardSample.state_booted | done..].
Qed.

Lemma off_bootable : bootable (B := debug_build) mem 10 boot_info off BoardSample.offset root.
Proof.
  split.
  - reflexivity.
  - by left.
  - apply SampleMachine.sample_memory.
  - vm_compute. reflexivity.
  - vm_compute. by eexists.
  - exact BoardSample.cards_work.
Qed.

Abbreviation boot :=
  (kernel_main (Y := bool) (B := debug_build) mem BoardSample.identity_map BoardSample.new_jiffy 10 0x3000 boot_info off).


Lemma yield_sends_nothing (y : bool) w :
  stays (@api_grows list_queue jiffy_queue _) (poll_yield (Y := bool) y w).
Proof. intros n n' r Hr. destruct y; injection Hr as <- _; by apply api_same. Qed.

Abbreviation poll := (poll_fut (Y := bool) (B := debug_build) ApiSample.new_queue).

Abbreviation St :=
  (State jiffy_queue (Fut jiffy_queue bool) (Os list_queue jiffy_queue BoardSample.sim map_idt flat_table (option Z) sleepers)).

(** The first rounds: every task runs, the handler starts DHCP, [ping] asks for
    an address and the handler sends the question; then the kernel sleeps. *)
Definition first_rounds (o : outcome St) : Prop :=
  match o with
  | Done s0 =>
      match run_rounds jiffy_queue poll 3 s0 with
      | Done (s1, rs1) =>
          rs1 = [Polled 0 false; Polled 1 false; Polled 2 false]
          ∧ length (q_items (Os.inbox (env s1))) = 1%nat ∧ q_items (run_queue s1) = [0; 1]
          ∧ match run_rounds jiffy_queue poll 2 s1 with
            | Done (s2, rs2) =>
                rs2 = [Polled 0 false; Polled 1 false]
                ∧ match run_rounds jiffy_queue poll 2 s2 with
                  | Done (s, rs) =>
                      rs = [Polled 0 false; Waiting] ∧ q_items (run_queue s) = []
                      ∧ ∃ card, vendor_id (generic card) = 0x8086 ∧ console (env s)
                        = map FromHardware [Said "Initializing Kernel..."; Said "Initialize Memory and Allocator...";
                             Said "Initialized Memory and Allocator"; UnknownPciDevice card; Said "Initialized Kernel"]
                          ++ [Text "Setting up Networking Extension"; UnknownTable [0; 0; 0; 0];
                           Text "[I][network_handler] After Init"; Text "[D][network_handler] Action Message";
                           Text "[D][network_handler] Sending ARP"]
                  | _ => False
                  end
            | _ => False
            end
      | _ => False
      end
  | _ => False
  end.

Lemma boot_rounds : first_rounds boot.
Proof. vm_compute. do 6 (split; [reflexivity |]). eexists. split; [| reflexivity]. reflexivity. Qed.

Lemma first_rounds_inv o :
  first_rounds o →
  ∃ s0 s1 s2 s rs1 rs2 rs, o = Done s0 ∧ run_rounds jiffy_queue poll 3 s0 = Done (s1, rs1)
    ∧ run_rounds jiffy_queue poll 2 s1 = Done (s2, rs2) ∧ run_rounds jiffy_queue poll 2 s2 = Done (s, rs)
    ∧ length (q_items (Os.inbox (env s1))) = 1%nat ∧ q_items (run_queue s1) = [0; 1] ∧ q_items (run_queue s) = [].
Proof.
  intros Ho. destruct o as [s0 | |]; [| done..]. unfold first_rounds in Ho.
  destruct (run_rounds jiffy_queue poll 3 s0) as [[s1 rs1] | |] eqn:E1; [| done..]. destruct Ho as (_ & Hi & Hq1 & Ho).
  destruct (run_rounds jiffy_queue poll 2 s1) as [[s2 rs2] | |] eqn:E2; [| done..]. destruct Ho as (_ & Ho).
  destruct (run_rounds jiffy_queue poll 2 s2) as [[s rs] | |] eqn:E3; [| done..]. destruct Ho as (_ & Hq & _).
  exists s0, s1, s2, s, rs1, rs2, rs. done.
Qed.

Abbreviation step := (os_step (B := debug_build) ApiSample.new_queue BoardSample.identity_map).

Lemma rounds_rtc n (s s' : St) rs : run_rounds jiffy_queue poll n s = Done (s', rs) → rtc step s s'.
Proof. apply rounds_steps. Qed.

Lemma no_wakeup_lost_witness :
  ∃ s0 s, boot = Done s0 ∧ rtc step s0 s
    ∧ q_items (run_queue s) = [] ∧ q_items (Os.inbox (env s)) = []
    ∧ inbox_cell (env s) = Some 1 ∧ log_cell (env s) = Some 0.
Proof.
  destruct (first_rounds_inv _ boot_rounds) as (s0 & s1 & s2 & s & rs1 & rs2 & rs & E0 & E1 & E2 & E3 & _ & _ & Hq).
  assert (rtc step s0 s) as Hs.
  { etrans; [exact (rounds_rtc 3 s0 s1 rs1 E1) |]. etrans; [exact (rounds_rtc 2 s1 s2 rs2 E2) | exact (rounds_rtc 2 s2 s rs E3)]. }
  destruct (no_wakeup_lost (B := debug_build) mem BoardSample.identity_map (λ p, ex_intro _ p eq_refl)
    BoardSample.new_jiffy 10 0x3000 BoardSample.new_jiffy_open BoardSample.sim_delay_probe BoardSample.sim_delay_fuel
    ApiSample.new_queue yield_sends_nothing boot_info off BoardSample.offset root s0 s off_powered off_bootable E0 Hs)
    as (Hi & _ & Hp & _).
  exists s0, s. split; [exact E0 |]. split; [exact Hs |]. split; [exact Hq |]. split; [| exact (Hp Hq)].
  destruct (q_items (Os.inbox (env s))); [reflexivity |]. rewrite Hq in Hi. exfalso.
  by apply (not_elem_of_nil 1), Hi.
Defined.

(** After three rounds the question of [ping] is in the handler's inbox, and
    two tasks are queued. *)
Lemma messages_served_witness :
  ∃ s0 s s', boot = Done s0 ∧ rtc step s0 s ∧ rtc step s s' ∧ length (q_items (Os.inbox (env s))) = 1%nat
    ∧ ∃ s1, rtc step s s1 ∧ rtc step s1 s' ∧ q_items (Os.inbox (env s1)) = [].
Proof.
  destruct (first_rounds_inv _ boot_rounds) as (s0 & s & s' & _ & rs1 & rs2 & _ & E0 & E1 & E2 & _ & Hi & Hq & _).
  pose proof (rounds_run (B := debug_build) ApiSample.new_queue BoardSample.identity_map 2 s s' rs2 E2) as Hrun.
  change 2%nat with (length [0; 1]) in Hrun. rewrite <- Hq in Hrun.
  exists s0, s, s'. split; [exact E0 |]. split; [exact (rounds_rtc 3 s0 s rs1 E1) |].
  split; [exact (rounds_rtc 2 s s' rs2 E2) |]. split; [exact Hi |].
  exact (messages_served (B := debug_build) mem BoardSample.identity_map (λ p, ex_intro _ p eq_refl)
    BoardSample.new_jiffy 10 0x3000 BoardSample.new_jiffy_open BoardSample.sim_delay_probe BoardSample.sim_delay_fuel
    ApiSample.new_queue yield_sends_nothing boot_info off BoardSample.offset root s0 s s' off_powered off_bootable E0
    (rounds_rtc 3 s0 s rs1 E1) Hrun).
Defined.

End BootSample.
