(* ===== verification/Boot.v ===== *)
(** * The boot image runner

    [src/boot/src/main.rs]: the program on the host that wraps the kernel
    binary in a disk image and starts it in the emulator.

    A command is a value until it is run.  Running it, the file system and the
    two locator crates are the host's ([HostOps]); the state records the
    commands that were run and what was printed.  A path is the list of the
    components of an absolute path, all of them text. *)

From stdpp Require Import base tactics list strings numbers.
From Stdlib Require Import ZArith Lia.
From S2P Require Import Prelude Queue.

Local Open Scope Z_scope.

(** ** Paths and commands *)

Abbreviation path := (list string) (only parsing).

Definition display (p : path) : string := foldl (λ acc c, acc +:+ "/" +:+ c) "" p.
Definition parent (p : path) : option path := match p with [] => None | _ => Some (removelast p) end.
Definition file_name (p : path) : option string := list.last p.
Definition join (p : path) (c : string) : path := p ++ [c].

Record Command := {
  program : string;
  current_dir : option path;
  arguments : list string }.

Definition command_new (program : string) : Command := {| program := program; current_dir := None; arguments := [] |}.
Definition set_current_dir (c : Command) (d : path) : Command :=
  {| program := program c; current_dir := Some d; arguments := arguments c |}.
Definition args (c : Command) (l : list string) : Command :=
  {| program := program c; current_dir := current_dir c; arguments := arguments c ++ l |}.
Definition arg (c : Command) (a : string) : Command := args c [a].

(** [ExitStatus]: the code, if the process was not killed. *)
Definition success (code : option Z) : bool := bool_decide (code = Some 0).

Class HostOps (W : Type) := {
  canonicalize : string → W → option path;
  path_exists : path → W → bool;
  locate_bootloader : string → W → option path;
  locate_manifest : W → option path;
  CARGO : string;
  (** the exit status, unless the program cannot be started *)
  execute : Command → W → W * option (option Z) }.

Definition RUN_ARGS : list string := ["--no-reboot"; "-s"].

Section boot.
Context {W : Type} `{HostOps W}.

Record Host := { world : W; ran : list Command; printed : list string }.

(** [Command::status] *)
Definition status (c : Command) : M Host (option (option Z)) := fun h =>
  let '(w, r) := execute c (world h) in
  Done ({| world := w; ran := ran h ++ [c]; printed := printed h |}, r).

Definition println (line : string) : M Host unit :=
  modify (λ h, {| world := world h; ran := ran h; printed := printed h ++ [line] |}).

(** ** The image *)

Definition build_cmd (bootloader_manifest kernel_manifest kernel_binary : path) : outcome Command :=
  dir ← unwrap (parent bootloader_manifest);
  let c := set_current_dir (command_new CARGO) dir in
  let c := arg c "builder" in
  let c := arg (arg c "--kernel-manifest") (display kernel_manifest) in
  let c := arg (arg c "--kernel-binary") (display kernel_binary) in
  kernel_dir ← unwrap (parent kernel_manifest);
  let c := arg (arg c "--target-dir") (display (join kernel_dir "target")) in
  out_dir ← unwrap (parent kernel_binary);
  Done (arg (arg c "--out-dir") (display out_dir)).

Definition create_disk_images (kernel_binary_path : path) : M Host path :=
  manifest ← gets (λ h : Host, locate_bootloader "bootloader" (world h));
  bootloader_manifest_path ← lift (unwrap manifest);
  manifest ← gets (λ h : Host, locate_manifest (world h));
  kernel_manifest_path ← lift (unwrap manifest);
  c ← lift (build_cmd bootloader_manifest_path kernel_manifest_path kernel_binary_path);
  r ← status c;
  r ← lift (unwrap r);
  if negb (success r) then lift (Panicked Explicit) else
  kernel_binary_name ← lift (unwrap (file_name kernel_binary_path));
  dir ← lift (unwrap (parent kernel_binary_path));
  let disk_image := join dir ("boot-bios-" +:+ kernel_binary_name +:+ ".img") in
  there ← gets (λ h : Host, path_exists disk_image (world h));
  if negb there then lift (Panicked Explicit) else
  mret disk_image.

(** ** Starting it *)

Definition run_cmd (bios : path) : Command :=
  let c := command_new "qemu-system-x86_64" in
  let c := arg (arg c "-drive") ("format=raw,file=" +:+ display bios) in
  let c := arg (arg c "-device") "VGA" in
  let c := arg (arg c "-device") "isa-debug-exit,iobase=0xf4,iosize=0x04" in
  let c := arg (arg c "-netdev") "user,id=network0" in
  let c := arg (arg c "-device") "e1000,netdev=network0" in
  let c := arg (arg c "-object") "filter-dump,id=f1,netdev=network0,file=dump.dat" in
  let c := arg (arg c "-serial") "stdio" in
  args c RUN_ARGS.

(** The code the process ends with; [None] when [main] returns. *)
Definition main (argv : list string) : M Host (option Z) :=
  path ← lift (unwrap (head argv));
  resolved ← gets (λ h : Host, canonicalize path (world h));
  kernel_binary_path ← lift (unwrap resolved);
  no_boot ← lift (match tail argv with
                  | [] => Done false
                  | a :: _ => if bool_decide (a = "--no-run") then Done true else Panicked Explicit
                  end);
  bios ← create_disk_images kernel_binary_path;
  if (no_boot : bool) then
    _ ← println ("Created disk image at `" +:+ display bios +:+ "`");
    mret None
  else
    exit_status ← status (run_cmd bios);
    exit_status ← lift (unwrap exit_status);
    mret (if success exit_status then None else Some (default 1 exit_status)).

(** ** What is run *)

Lemma create_disk_images_inv kernel h h' bios :
  create_disk_images kernel h = Done (h', bios) →
  ∃ c, ran h' = ran h ++ [c] ∧ printed h' = printed h ∧ (execute c (world h)).2 = Some (Some 0)
    ∧ path_exists bios (world h') = true
    ∧ ∃ dir name, parent kernel = Some dir ∧ file_name kernel = Some name ∧ bios = dir ++ ["boot-bios-" +:+ name +:+ ".img"].
Proof.
  unfold create_disk_images, status. intros Hr. m_inv.
  match goal with Hs : (let '(_, _) := execute ?c _ in _) = _ |- _ =>
    exists c; destruct (execute c _) as [w r] eqn:Ex; injection Hs as <- <- end.
  destruct r as [r |]; [| done].
  match goal with Hu : unwrap (Some _) = _ |- _ => injection Hu as <- end.
  destruct (success r) eqn:Es; cbn [negb] in Hr; [| by m_inv].
  apply bool_decide_eq_true in Es as ->. m_inv.
  destruct (file_name kernel) as [name |]; [| done]. destruct (parent kernel) as [dir |]; [| done].
  repeat match goal with Hu : unwrap (Some _) = _ |- _ => injection Hu as <- end. cbn [world] in *.
  destruct (path_exists _ w) eqn:Ep; cbn [negb] in Hr; m_inv. cbn [ran printed world]. eauto 10.
Qed.

(** The runner builds an image next to the binary, once and before anything
    else, and then either says where it is or runs it in the emulator and
    passes its exit code on. *)
Theorem boot_runner_spec (argv : list string) (h h' : Host) (code : option Z) :
  main argv h = Done (h', code) →
  ∃ binary kernel dir name c,
    head argv = Some binary ∧ canonicalize binary (world h) = Some kernel
    ∧ parent kernel = Some dir ∧ file_name kernel = Some name
    ∧ (execute c (world h)).2 = Some (Some 0)
    ∧ let bios := dir ++ ["boot-bios-" +:+ name +:+ ".img"] in
      match tail argv with
      | [] => ran h' = ran h ++ [c; run_cmd bios] ∧ printed h' = printed h
              ∧ ∃ w r, (execute (run_cmd bios) w).2 = Some r
                  ∧ code = (if success r then None else Some (default 1 r))
      | a :: _ => a = "--no-run" ∧ ran h' = ran h ++ [c] ∧ code = None
                  ∧ printed h' = printed h ++ ["Created disk image at `" +:+ display bios +:+ "`"]
      end.
Proof.
  unfold main. intros (h1 & binary & [Hb ->]%lift_done & Hr)%M_bind_done.
  apply M_bind_done in Hr as (h2 & resolved & [= <- <-] & Hr).
  apply M_bind_done in Hr as (h3 & kernel & [Hk ->]%lift_done & Hr).
  apply M_bind_done in Hr as (h4 & no_boot & [Hn ->]%lift_done & Hr).
  apply M_bind_done in Hr as (h5 & bios & Hc & Hr).
  apply create_disk_images_inv in Hc as (c & Hran & Hpr & Hx & _ & dir & name & Hp & Hf & Hbios).
  destruct (head argv) as [binary' |] eqn:Eh; [injection Hb as -> | done].
  destruct (canonicalize binary (world h)) as [kernel' |] eqn:Ek; [injection Hk as -> | done].
  exists binary, kernel, dir, name, c. rewrite <- Hbios. do 5 (split; [done |]). cbn zeta.
  destruct (tail argv) as [| a rest].
  - injection Hn as <-. apply M_bind_done in Hr as (h6 & r & Hs & Hr).
    apply M_bind_done in Hr as (h7 & r' & [Hu ->]%lift_done & [= <- <-]). unfold status in Hs.
    destruct (execute (run_cmd bios) (world h5)) as [w r0] eqn:Ex. injection Hs as <- <-.
    destruct r0 as [r0 |]; [injection Hu as -> | done]. cbn. rewrite Hran, <- app_assoc. do 2 (split; [done |]).
    exists (world h5), r'. by rewrite Ex.
  - case_bool_decide; [| done]. injection Hn as <-. apply M_bind_done in Hr as (h6 & ? & [= <-] & [= <- <-]).
    cbn. by rewrite Hran, Hpr.
Qed.

End boot.

(** ** A host *)

Module SampleHost.

(** A host on which the builder works and the emulator ends with code 33, as
    the device for leaving it reports [Success]. *)
#[export] Instance Sample_host : HostOps nat := {
  canonicalize a _ := Some ["src"; "target"; a];
  path_exists _ _ := true;
  locate_bootloader _ _ := Some ["cargo"; "bootloader"; "Cargo.toml"];
  locate_manifest _ := Some ["src"; "Cargo.toml"];
  CARGO := "cargo";
  execute c n := (S n, Some (Some (if bool_decide (program c = "cargo") then 0 else 33))) }.

Definition host : Host := {| world := 0%nat; ran := []; printed := [] |}.

Example runs_emulator :
  (λ r, (r.2, length (ran r.1))) <$> (match main ["rucoonos"] host with Done r => Some r | _ => None end) = Some (Some 33, 2%nat).
Proof. reflexivity. Qed.

Example refuses_option : main ["rucoonos"; "--run"] host = Panicked Explicit.
Proof. reflexivity. Qed.

Lemma boot_runner_spec_witness :
  ∃ h' bios, main ["rucoonos"; "--no-run"] host = Done (h', None) ∧ length (ran h') = 1%nat
    ∧ printed h' = ["Created disk image at `" +:+ display bios +:+ "`"].
Proof.
  destruct (main ["rucoonos"; "--no-run"] host) as [[h' code] | |] eqn:E; [| vm_compute in E; discriminate E..].
  destruct (boot_runner_spec _ _ _ _ E) as (_ & _ & dir & name & c & _ & _ & _ & _ & _ & _ & Hran & -> & Hp).
  exists h', (dir ++ ["boot-bios-" +:+ name +:+ ".img"]). split; [reflexivity |]. split; [by rewrite Hran | exact Hp].
Defined.

End SampleHost.
